(** * Costco spending insights: the receipt pipeline

    A shallow embedding of the data pipeline of [src/js/init.js]:
    the normalizer ([normalizeItem], [normalizeReceipt]), the validator
    ([validateItem], [validateReceipt], [validateJSONStructure]), the
    deduplicator ([mergeReceipts]), the filter engine ([applyFilters]) and
    the aggregator ([calculateTotals], [calculateExecutiveRewards]); and
    of what surrounds it: the event bus, the setters and presets of the
    filter manager, the data store and its indexes, the file selection
    check and the processing run that takes the files read to the store.

    JavaScript numbers are IEEE 754 binary64 values and are modelled by
    Rocq's primitive floats, so every sum, product and comparison below
    rounds exactly as the program does.  Strings are sequences of 8-bit
    code units (exact for Latin-1 text).  Parsed JSON payloads are values
    of [JSValue].  The parts of the JavaScript host that the program calls
    but does not define (number/string conversions, the date parser, the
    base64 encoder, the local time zone offset) are the fields of [Host];
    the wall clock read by [new Date()] is an explicit argument.  A thrown
    [TypeError] is the result [None]. *)

From Stdlib Require Import ZArith List String Ascii Bool Lia Floats Uint63.
From Stdlib Require Import DecimalString.
Import ListNotations.
Set Warnings "-inexact-float,-register-all".

Local Open Scope string_scope.

(** A thrown exception is the result [None]; computations that may
    throw are sequenced by [bind]. *)
Definition bind {A B : Type} (x : option A) (f : A -> option B) : option B :=
  match x with
  | Some a => f a
  | None => None
  end.

Notation "'do' x <- e ;; k" := (bind e (fun x => k))
  (at level 10, x name, e at level 100, k at level 200).

(** ** The JavaScript runtime *)
Module JS.

(** *** Numbers *)

Definition number := float.

(** The integer [n] as a number; exact for [|n| < 2^53]. *)
Definition ofZ (n : Z) : number :=
  let a := PrimFloat.of_uint63 (Uint63.of_Z (Z.abs n)) in
  if (n <? 0)%Z then PrimFloat.opp a else a.

(** Truncation of a finite number towards zero ([ToIntegerOrInfinity]);
    [None] when the number is NaN or infinite. *)
Definition toInteger (x : number) : option Z :=
  match Prim2SF x with
  | S754_zero _ => Some 0%Z
  | S754_finite s m e =>
      let a := if (0 <=? e)%Z then (Z.pos m * 2 ^ e)%Z
               else (Z.pos m / 2 ^ (- e))%Z in
      Some (if s then (- a)%Z else a)
  | _ => None
  end.

Definition isNaN (x : number) : bool := PrimFloat.is_nan x.

(** [ToBoolean] on numbers: [0], [-0] and [NaN] are falsy. *)
Definition truthyNum (x : number) : bool :=
  negb (isNaN x || PrimFloat.eqb x 0%float).

(** [x || d] on numbers. *)
Definition numOr (x d : number) : number := if truthyNum x then x else d.

Definition Math_abs (x : number) : number := PrimFloat.abs x.

(** [Math.round]: the nearest integer, ties towards [+Infinity]; the sign
    of a zero result is the sign of the argument. *)
Definition Math_round (x : number) : number :=
  match Prim2SF x with
  | S754_finite s m e =>
      if (0 <=? e)%Z then x
      else
        let den := (2 ^ (- e))%Z in
        let num := if s then Z.neg m else Z.pos m in
        let n := ((2 * num + den) / (2 * den))%Z in
        if (n =? 0)%Z then (if s then PrimFloat.neg_zero else PrimFloat.zero)
        else ofZ n
  | _ => x
  end.

(** [Math.min] of two numbers: NaN is contagious and [-0 < +0]. *)
Definition Math_min (a b : number) : number :=
  if isNaN a || isNaN b then PrimFloat.nan
  else if PrimFloat.ltb a b then a
  else if PrimFloat.ltb b a then b
  else if PrimFloat.get_sign a then a else b.

(** The idiom [Math.round(x * 100) / 100]. *)
Definition round2 (x : number) : number :=
  PrimFloat.div (Math_round (PrimFloat.mul x 100%float)) 100%float.

(** *** Strings *)

Definition isWhiteSpace (c : ascii) : bool :=
  let n := nat_of_ascii c in
  ((9 <=? n) && (n <=? 13) || (n =? 32) || (n =? 160))%nat.

Definition isDigit (c : ascii) : bool :=
  let n := nat_of_ascii c in ((48 <=? n) && (n <=? 57))%nat.

Fixpoint dropWhile (p : ascii -> bool) (s : string) : string :=
  match s with
  | String c s' => if p c then dropWhile p s' else s
  | EmptyString => EmptyString
  end.

Fixpoint takeWhile (p : ascii -> bool) (s : string) : string :=
  match s with
  | String c s' => if p c then String c (takeWhile p s') else EmptyString
  | EmptyString => EmptyString
  end.

Fixpoint allb (p : ascii -> bool) (s : string) : bool :=
  match s with
  | String c s' => p c && allb p s'
  | EmptyString => true
  end.

(** Removes the characters of [p] at the end of the string. *)
Fixpoint dropEndWhile (p : ascii -> bool) (s : string) : string :=
  match s with
  | String c s' => if allb p s then EmptyString else String c (dropEndWhile p s')
  | EmptyString => EmptyString
  end.

(** [s.trim()] *)
Definition trim (s : string) : string :=
  dropEndWhile isWhiteSpace (dropWhile isWhiteSpace s).

(** [s.replace(/c+/g, ' ')] for a character class [p]: every maximal run
    of characters of [p] becomes one space.  [inRun] tells whether the
    previous character already belonged to the current run. *)
Fixpoint replaceRuns (p : ascii -> bool) (inRun : bool) (s : string) : string :=
  match s with
  | String c s' =>
      if p c then
        if inRun then replaceRuns p true s'
        else String " "%char (replaceRuns p true s')
      else String c (replaceRuns p false s')
  | EmptyString => EmptyString
  end.

Definition isNewline (c : ascii) : bool := (nat_of_ascii c =? 10)%nat.

(** [s.substring(0, n)] *)
Definition substring0 (n : nat) (s : string) : string := String.substring 0 n s.

(** [s.startsWith('/')] *)
Definition startsWithSlash (s : string) : bool :=
  match s with
  | String c _ => (nat_of_ascii c =? 47)%nat
  | EmptyString => false
  end.

(** [s.match(/\/(\d+)/)]: the first capture group of the leftmost match,
    or [None] when the pattern does not occur. *)
Fixpoint matchSlashDigits (s : string) : option string :=
  match s with
  | String c s' =>
      if (nat_of_ascii c =? 47)%nat then
        match takeWhile isDigit s' with
        | EmptyString => matchSlashDigits s'
        | ds => Some ds
        end
      else matchSlashDigits s'
  | EmptyString => None
  end.

(** [s.toLowerCase()] on Latin-1 code units. *)
Definition lowerChar (c : ascii) : ascii :=
  let n := nat_of_ascii c in
  if ((65 <=? n) && (n <=? 90)
      || (192 <=? n) && (n <=? 222) && negb (n =? 215))%nat
  then ascii_of_nat (n + 32) else c.

Fixpoint toLowerCase (s : string) : string :=
  match s with
  | String c s' => String (lowerChar c) (toLowerCase s')
  | EmptyString => EmptyString
  end.

Fixpoint isPrefix (p s : string) : bool :=
  match p, s with
  | EmptyString, _ => true
  | String a p', String b s' => Ascii.eqb a b && isPrefix p' s'
  | String _ _, EmptyString => false
  end.

(** [s.includes(t)] *)
Fixpoint includes (s t : string) : bool :=
  isPrefix t s ||
  match s with
  | String _ s' => includes s' t
  | EmptyString => false
  end.

(** *** Values *)

(** A value produced by [JSON.parse], or [undefined]. *)
Inductive JSValue : Type :=
| JUndefined
| JNull
| JBool (b : bool)
| JNum (x : number)
| JStr (s : string)
| JArr (elems : list JSValue)
| JObj (props : list (string * JSValue)).

Fixpoint lookupProp (k : string) (props : list (string * JSValue)) : JSValue :=
  match props with
  | [] => JUndefined
  | (k', v) :: rest => if String.eqb k k' then v else lookupProp k rest
  end.

(** [k in v] for an object or array [v] and a data-field name [k]. *)
Definition hasProp (k : string) (v : JSValue) : bool :=
  match v with
  | JObj props => existsb (fun kv => String.eqb k (fst kv)) props
  | _ => false
  end.

(** [v.k] for a data-field name [k] of a value [v] that is neither
    [undefined] nor [null] (reading a property of those throws, which the
    callers below check first). *)
Definition field (v : JSValue) (k : string) : JSValue :=
  match v with
  | JObj props => lookupProp k props
  | _ => JUndefined
  end.

Definition truthy (v : JSValue) : bool :=
  match v with
  | JUndefined | JNull => false
  | JBool b => b
  | JNum x => truthyNum x
  | JStr s => negb (String.eqb s "")
  | JArr _ | JObj _ => true
  end.

(** [a || b] *)
Definition or (a b : JSValue) : JSValue := if truthy a then a else b.

(** [!v] *)
Definition not (v : JSValue) : bool := negb (truthy v).

Inductive JSType := TUndefined | TObject | TBoolean | TNumber | TString.

Definition typeof (v : JSValue) : JSType :=
  match v with
  | JUndefined => TUndefined
  | JNull | JArr _ | JObj _ => TObject
  | JBool _ => TBoolean
  | JNum _ => TNumber
  | JStr _ => TString
  end.

Definition isTypeNumber (v : JSValue) : bool :=
  match v with JNum _ => true | _ => false end.

Definition isTypeString (v : JSValue) : bool :=
  match v with JStr _ => true | _ => false end.

Definition isTypeObject (v : JSValue) : bool :=
  match v with JNull | JArr _ | JObj _ => true | _ => false end.

Definition isNull (v : JSValue) : bool :=
  match v with JNull => true | _ => false end.

Definition isUndefined (v : JSValue) : bool :=
  match v with JUndefined => true | _ => false end.

(** [Array.isArray(v)] *)
Definition isArray (v : JSValue) : bool :=
  match v with JArr _ => true | _ => false end.

(** [v === s] for a string literal [s]. *)
Definition strictEqStr (v : JSValue) (s : string) : bool :=
  match v with JStr t => String.eqb t s | _ => false end.

(** [SameValueZero], the key equality of [Map] and [Set], on two values
    that are not one and the same array or object.  Two numbers are the
    same when both are NaN or when they compare equal.  Arrays and
    objects are compared by identity: two of them are the same key only
    when they are one object, which these values do not tell, and here
    they count as two objects, as the payloads of two parsed receipts
    are.  What is stated below about the output of a merge as a whole is
    stated for receipts whose keys are primitive values. *)
Definition sameValueZero (a b : JSValue) : bool :=
  match a, b with
  | JUndefined, JUndefined => true
  | JNull, JNull => true
  | JBool x, JBool y => Bool.eqb x y
  | JNum x, JNum y => (isNaN x && isNaN y) || PrimFloat.eqb x y
  | JStr s, JStr t => String.eqb s t
  | _, _ => false
  end.

(** [a === b] on primitives. *)
Definition strictEq (a b : JSValue) : bool :=
  match a, b with
  | JUndefined, JUndefined => true
  | JNull, JNull => true
  | JBool x, JBool y => Bool.eqb x y
  | JNum x, JNum y => PrimFloat.eqb x y
  | JStr s, JStr t => String.eqb s t
  | _, _ => false
  end.

(** *** The host *)

(** Time values are milliseconds since the epoch, as integers. *)
Inductive Date : Type :=
| InvalidDate
| DateAt (t : Z).

Record Host : Type := {
  (** [Number(s)] on a string *)
  stringToNumber : string -> number;
  (** [String(x)] on a number *)
  numberToString : number -> string;
  (** the global [parseFloat] on a string *)
  parseFloat : string -> number;
  (** [new Date(s)] on a string *)
  dateParse : string -> Date;
  (** the global [btoa] *)
  btoa : string -> string;
  (** the offset of local time from UTC, in milliseconds *)
  localTZA : Z
}.

(** [undefined] and [null] have no properties: reading one throws. *)
Definition isNullish (v : JSValue) : bool :=
  match v with JUndefined | JNull => true | _ => false end.

(** *** Coercions *)

(** Whether the object has a property of its own with this name. *)
Definition hasOwn (k : string) (props : list (string * JSValue)) : bool :=
  existsb (fun kv => String.eqb k (fst kv)) props.

(** [String(v)], also the conversion inside a template literal; [None]
    is a thrown [TypeError].  A parsed object has no callable property of
    its own, and the [valueOf] it inherits returns the object itself, so
    its conversion to a primitive rests on the inherited [toString], which
    answers [[object Object]]; an own property named [toString] hides that
    method, and the conversion then throws, whatever the hint.  An array
    is joined, which converts every element that is neither [null] nor
    [undefined]. *)
Fixpoint toString (h : Host) (v : JSValue) : option string :=
  match v with
  | JUndefined => Some "undefined"
  | JNull => Some "null"
  | JBool true => Some "true"
  | JBool false => Some "false"
  | JNum x => Some (numberToString h x)
  | JStr s => Some s
  | JArr l =>
      (fix join (l : list JSValue) : option string :=
         match l with
         | [] => Some ""
         | x :: rest =>
             match (match x with
                    | JUndefined | JNull => Some ""
                    | _ => toString h x
                    end) with
             | None => None
             | Some sx =>
                 match rest with
                 | [] => Some sx
                 | _ => match join rest with
                        | None => None
                        | Some sr => Some (sx ++ "," ++ sr)
                        end
                 end
             end
         end) l
  | JObj props =>
      if hasOwn "toString" props then None else Some "[object Object]"
  end.

(** [Number(v)]; an array or object is converted to a primitive first,
    which throws where [toString] does. *)
Definition toNumber (h : Host) (v : JSValue) : option number :=
  match v with
  | JUndefined => Some PrimFloat.nan
  | JNull => Some 0%float
  | JBool true => Some 1%float
  | JBool false => Some 0%float
  | JNum x => Some x
  | JStr s => Some (stringToNumber h s)
  | JArr _ => do s <- toString h v ;; Some (stringToNumber h s)
  | JObj _ => do s <- toString h v ;; Some PrimFloat.nan
  end.

(** *** Dates *)

Definition msPerDay : Z := 86400000.
Definition maxTime : Z := 8640000000000000.

(** [TimeClip] on an integral time value. *)
Definition timeClipZ (t : Z) : Date :=
  if (Z.abs t <=? maxTime)%Z then DateAt t else InvalidDate.

Definition timeClip (x : number) : Date :=
  match toInteger x with
  | Some t => timeClipZ t
  | None => InvalidDate
  end.

(** [new Date(v)] with one argument; an array or object is converted to
    a primitive, which is then a string. *)
Definition newDate (h : Host) (v : JSValue) : option Date :=
  match v with
  | JStr s => Some (dateParse h s)
  | JArr _ | JObj _ => do s <- toString h v ;; Some (dateParse h s)
  | _ => do x <- toNumber h v ;; Some (timeClip x)
  end.

Definition Day (t : Z) : Z := (t / msPerDay)%Z.

Definition DayFromYear (y : Z) : Z :=
  (365 * (y - 1970) + (y - 1969) / 4 - (y - 1901) / 100 + (y - 1601) / 400)%Z.

Definition InLeapYear (y : Z) : bool :=
  ((y mod 4 =? 0) && (negb (y mod 100 =? 0) || (y mod 400 =? 0)))%Z.

(** The year [y] with [DayFromYear y <= d < DayFromYear (y + 1)]. *)
Definition YearFromDay (d : Z) : Z :=
  let y0 := (1970 + (d * 400) / 146097)%Z in
  if (d <? DayFromYear y0)%Z then (y0 - 1)%Z
  else if (DayFromYear (y0 + 1) <=? d)%Z then (y0 + 1)%Z
  else y0.

Definition YearFromTime (t : Z) : Z := YearFromDay (Day t).

(** The day within the year on which month [mn] (0 to 11) starts; month
    12 stands for the start of the next year. *)
Definition monthStart (leap : bool) (mn : Z) : Z :=
  let l := if leap then 1%Z else 0%Z in
  match mn with
  | 0 => 0
  | 1 => 31
  | 2 => 59 + l
  | 3 => 90 + l
  | 4 => 120 + l
  | 5 => 151 + l
  | 6 => 181 + l
  | 7 => 212 + l
  | 8 => 243 + l
  | 9 => 273 + l
  | 10 => 304 + l
  | 11 => 334 + l
  | _ => 365 + l
  end%Z.

Definition DayWithinYear (t : Z) : Z := (Day t - DayFromYear (YearFromTime t))%Z.

Definition MonthFromTime (t : Z) : Z :=
  let leap := InLeapYear (YearFromTime t) in
  let d := DayWithinYear t in
  if (d <? monthStart leap 1)%Z then 0
  else if (d <? monthStart leap 2)%Z then 1
  else if (d <? monthStart leap 3)%Z then 2
  else if (d <? monthStart leap 4)%Z then 3
  else if (d <? monthStart leap 5)%Z then 4
  else if (d <? monthStart leap 6)%Z then 5
  else if (d <? monthStart leap 7)%Z then 6
  else if (d <? monthStart leap 8)%Z then 7
  else if (d <? monthStart leap 9)%Z then 8
  else if (d <? monthStart leap 10)%Z then 9
  else if (d <? monthStart leap 11)%Z then 10
  else 11.

Definition DateFromTime (t : Z) : Z :=
  (DayWithinYear t - monthStart (InLeapYear (YearFromTime t)) (MonthFromTime t) + 1)%Z.

(** [MakeDay] on integral arguments. *)
Definition MakeDay (year month date : Z) : Z :=
  let ym := (year + month / 12)%Z in
  let mn := (month mod 12)%Z in
  (DayFromYear ym + monthStart (InLeapYear ym) mn + date - 1)%Z.

(** [new Date(year, monthIndex, day)]: local midnight of that day.  The
    year is the integer returned by [getFullYear]; a year from 0 to 99
    stands for a year of the twentieth century. *)
Definition newDateYMD (h : Host) (year : Z) (month day : number) : Date :=
  match toInteger month, toInteger day with
  | Some m, Some d =>
      let yr := if ((0 <=? year) && (year <=? 99))%Z then (1900 + year)%Z else year in
      timeClipZ (MakeDay yr m d * msPerDay - localTZA h)
  | _, _ => InvalidDate
  end.

Definition LocalTime (h : Host) (t : Z) : Z := (t + localTZA h)%Z.

(** [date.getFullYear()], [date.getMonth()] and [date.getDate()] of a
    valid date. *)
Definition getFullYear (h : Host) (t : Z) : Z := YearFromTime (LocalTime h t).
Definition getMonth (h : Host) (t : Z) : Z := MonthFromTime (LocalTime h t).
Definition getDate (h : Host) (t : Z) : Z := DateFromTime (LocalTime h t).

(** [a < b], [a > b] and [a >= b] on dates compare the time values; a
    comparison with an invalid date is false. *)
Definition dateLt (a b : Date) : bool :=
  match a, b with
  | DateAt x, DateAt y => (x <? y)%Z
  | _, _ => false
  end.

Definition dateGe (a b : Date) : bool :=
  match a, b with
  | DateAt x, DateAt y => (y <=? x)%Z
  | _, _ => false
  end.

(** *** Further library functions *)

(** [Math.max] of two numbers: NaN is contagious and [+0 > -0]. *)
Definition Math_max (a b : number) : number :=
  if isNaN a || isNaN b then PrimFloat.nan
  else if PrimFloat.ltb a b then b
  else if PrimFloat.ltb b a then a
  else if PrimFloat.get_sign a then b else a.

(** [Math.min(...xs)] and [Math.max(...xs)]: the running extremum starts
    at [+Infinity], respectively [-Infinity]. *)
Definition Math_minAll (xs : list number) : number :=
  fold_left Math_min xs PrimFloat.infinity.

Definition Math_maxAll (xs : list number) : number :=
  fold_left Math_max xs PrimFloat.neg_infinity.

(** [Math.floor] *)
Definition Math_floor (x : number) : number :=
  match Prim2SF x with
  | S754_finite s m e =>
      if (0 <=? e)%Z then x
      else
        let n := ((if s then Z.neg m else Z.pos m) / 2 ^ (- e))%Z in
        if (n =? 0)%Z then PrimFloat.zero else ofZ n
  | _ => x
  end.

(** The functions of [Math] whose results are approximations chosen by
    the implementation. *)
Record MathHost : Type := {
  Math_log : number -> number;
  Math_pow : number -> number -> number
}.

(** [s.endsWith(t)] *)
Fixpoint endsWith (s t : string) : bool :=
  String.eqb s t ||
  match s with
  | String _ s' => endsWith s' t
  | EmptyString => false
  end.

(** The number of elements of an array, as a number. *)
Definition lengthOf {A : Type} (l : list A) : number :=
  ofZ (Z.of_nat (List.length l)).

Definition TimeWithinDay (t : Z) : Z := (t mod msPerDay)%Z.

(** [date.setMonth(month)] on a valid date with time value [t] and an
    integral [month]: the day of the month and the time within the day
    are kept, in local time. *)
Definition setMonth (h : Host) (t : Z) (month : Z) : Date :=
  let lt := LocalTime h t in
  timeClipZ (MakeDay (YearFromTime lt) month (DateFromTime lt) * msPerDay
             + TimeWithinDay lt - localTZA h).

End JS.

Import JS.


(** [xs.map(f)] where [f] may throw: the first exception aborts the map. *)
Fixpoint mapM {A B : Type} (f : A -> option B) (xs : list A) : option (list B) :=
  match xs with
  | [] => Some []
  | x :: rest =>
      do y <- f x ;;
      do ys <- mapM f rest ;;
      Some (y :: ys)
  end.

(** ** The canonical data model *)

(** The object built by [normalizeItem].  It has no [quantity] property. *)
Record Item : Type := {
  itemNumber : string;
  amount : number;
  unit : number;
  itemDescription01 : string;
  itemDescription02 : string;
  itemActualName : string;
  normalizedName : string;
  unitPrice : number;
  isDiscount : bool;
  taxFlag : JSValue;
  itemDepartmentNumber : JSValue;
  itemUnitPriceAmount : JSValue;
  fuelUnitQuantity : JSValue;
  fuelGradeCode : JSValue;
  fuelGradeDescription : JSValue;
  fuelUomCode : JSValue;
  fullItemImage : JSValue;
  catEntryId : JSValue;
  (** [undefined] unless the item is a discount with an item reference *)
  discountAppliesTo : JSValue
}.

(** The object built by [normalizeReceipt]. *)
Record Receipt : Type := {
  id : string;
  processedAt : Date;
  sourceFile : string;
  transactionDate : JSValue;
  (** [null] is [None] *)
  transactionDateTime : option Date;
  transactionType : JSValue;
  warehouseNumber : number;
  warehouseName : string;
  warehouseCity : string;
  warehouseState : JSValue;
  warehouseCountry : JSValue;
  warehouseFullAddress : string;
  total : number;
  subTotal : number;
  taxes : number;
  instantSavings : number;
  itemArray : list Item;
  tenderArray : JSValue;
  couponArray : JSValue;
  (** [null] is [None] *)
  membershipNumber : option string;
  receiptType : JSValue;
  documentType : JSValue;
  channel : JSValue;
  transactionNumber : JSValue;
  totalItemCount : JSValue;
  subTaxes : JSValue;
  _original : JSValue
}.

Definition setProcessedAt (d : Date) (r : Receipt) : Receipt :=
  {| id := id r; processedAt := d; sourceFile := sourceFile r;
     transactionDate := transactionDate r;
     transactionDateTime := transactionDateTime r;
     transactionType := transactionType r;
     warehouseNumber := warehouseNumber r; warehouseName := warehouseName r;
     warehouseCity := warehouseCity r; warehouseState := warehouseState r;
     warehouseCountry := warehouseCountry r;
     warehouseFullAddress := warehouseFullAddress r;
     total := total r; subTotal := subTotal r; taxes := taxes r;
     instantSavings := instantSavings r; itemArray := itemArray r;
     tenderArray := tenderArray r; couponArray := couponArray r;
     membershipNumber := membershipNumber r; receiptType := receiptType r;
     documentType := documentType r; channel := channel r;
     transactionNumber := transactionNumber r;
     totalItemCount := totalItemCount r; subTaxes := subTaxes r;
     _original := _original r |}.

(** ** DataProcessor: normalization, validation and merge *)
Module DataProcessor.

Definition RECEIPT_SCHEMA_required : list string :=
  ["transactionType"; "total"; "itemArray"; "warehouseNumber"].

Definition ITEM_SCHEMA_required : list string :=
  ["itemNumber"; "amount"; "unit"].

(** [parseDate]: [null] for a falsy argument or an unparsable date.  An
    exception of [new Date] is caught, but the handler builds its log
    message from the same value with a template literal, which throws
    again. *)
Definition parseDate (h : Host) (dateStr : JSValue) : option (option Date) :=
  if JS.not dateStr then Some None
  else match newDate h dateStr with
       | Some InvalidDate => Some None
       | Some (DateAt t) => Some (Some (DateAt t))
       | None => do message <- toString h dateStr ;; Some None
       end.

Definition cleanText (text : JSValue) : string :=
  match text with
  | JStr s =>
      if String.eqb s "" then ""
      else substring0 500
             (replaceRuns isNewline false
                (replaceRuns isWhiteSpace false (trim s)))
  | _ => ""
  end.

Definition generateReceiptId (h : Host) (receipt : JSValue) (index : nat)
    : option string :=
  let date := JS.or (field receipt "transactionDate") (JStr "") in
  let warehouse := JS.or (field receipt "warehouseNumber") (JStr "") in
  let transNum := JS.or (field receipt "transactionNumber") (JStr "") in
  let total := JS.or (field receipt "total") (JStr "") in
  if truthy transNum && truthy warehouse && truthy date then
    do w <- toString h warehouse ;;
    do d <- toString h date ;;
    do n <- toString h transNum ;;
    Some (w ++ "-" ++ d ++ "-" ++ n)
  else
    do d <- toString h date ;;
    do w <- toString h warehouse ;;
    do t <- toString h total ;;
    let hashInput :=
      d ++ "-" ++ w ++ "-" ++ t ++ "-" ++ numberToString h (ofZ (Z.of_nat index)) in
    Some ("receipt-" ++ substring0 16 (btoa h hashInput)).

(** The [hasItemReference] expression of [normalizeItem], as a truth
    value.  [frenchItemDescription1] is only reached when neither cleaned
    name starts with a slash; calling [startsWith] on a truthy value that
    is not a string throws. *)
Definition hasItemReference (actualName description01 : string)
    (french : JSValue) : option bool :=
  if startsWithSlash actualName || startsWithSlash description01 then Some true
  else match french with
       | JStr s => Some (startsWithSlash s)
       | _ => if truthy french then None else Some false
       end.

(** The [isReturn] constant of [normalizeItem]. *)
Definition isReturn (amount unit : number) (hasRef : bool) : bool :=
  PrimFloat.ltb amount 0%float && PrimFloat.ltb unit 0%float && negb hasRef.

(** The value assigned to [normalized.isDiscount]. *)
Definition classifyDiscount (amount unit : number) (hasRef : bool) : bool :=
  PrimFloat.ltb amount 0%float &&
  (hasRef || (negb (isReturn amount unit hasRef) && PrimFloat.leb 0%float unit)).

(** [normalizeItem]; it throws on an item that is [null] or [undefined],
    in the conversions [String(item.itemNumber || '')], [Number(item.amount)]
    and [Number(normalized.itemUnitPriceAmount)], and in
    [hasItemReference]. *)
Definition normalizeItem (h : Host) (item : JSValue) : option Item :=
  if isNullish item then None else
  let unit :=
    match field item "unit" with
    | JNum u => u
    | JStr s => let parsed := parseFloat h s in
                if isNaN parsed then 1%float else parsed
    | _ => 0%float
    end in
  do itemNumber <- toString h (JS.or (field item "itemNumber") (JStr "")) ;;
  do amount <- toNumber h (field item "amount") ;;
  let amount := numOr amount 0%float in
  let itemDescription01 := cleanText (JS.or (field item "itemDescription01") (JStr "")) in
  let itemDescription02 := cleanText (JS.or (field item "itemDescription02") (JStr "")) in
  let itemActualName := cleanText (JS.or (field item "itemActualName") (JStr "")) in
  let itemUnitPriceAmount := JS.or (field item "itemUnitPriceAmount") JNull in
  do unitPrice <-
    (if negb (PrimFloat.eqb unit 0%float) then Some (PrimFloat.div amount unit)
     else if truthy itemUnitPriceAmount then toNumber h itemUnitPriceAmount
     else Some amount) ;;
  let unitPrice := round2 unitPrice in
  let french := field item "frenchItemDescription1" in
  do hasRef <- hasItemReference itemActualName itemDescription01 french ;;
  let isDiscount := classifyDiscount amount unit hasRef in
  let discountAppliesTo :=
    if isDiscount && hasRef then
      let source :=
        if negb (String.eqb itemActualName "") then itemActualName
        else if negb (String.eqb itemDescription01 "") then itemDescription01
        else match french with JStr s => s | _ => "" end in
      match matchSlashDigits source with
      | Some ref => JStr ref
      | None => JNull
      end
    else JUndefined in
  do normalizedName <-
    (if negb (String.eqb itemActualName "") && negb (startsWithSlash itemActualName)
     then Some itemActualName
     else if negb (String.eqb itemDescription01 "")
             && negb (startsWithSlash itemDescription01)
     then Some (itemDescription01 ++
                (if negb (String.eqb itemDescription02 "")
                 then " " ++ itemDescription02 else ""))
     else if isDiscount && truthy discountAppliesTo
     then do ref <- toString h discountAppliesTo ;; Some ("Discount on Item " ++ ref)
     else Some ("Item " ++ itemNumber)) ;;
  Some {|
    itemNumber := itemNumber;
    amount := amount;
    unit := unit;
    itemDescription01 := itemDescription01;
    itemDescription02 := itemDescription02;
    itemActualName := itemActualName;
    normalizedName := normalizedName;
    unitPrice := unitPrice;
    isDiscount := isDiscount;
    taxFlag := JS.or (field item "taxFlag") JNull;
    itemDepartmentNumber := JS.or (field item "itemDepartmentNumber") JNull;
    itemUnitPriceAmount := itemUnitPriceAmount;
    fuelUnitQuantity :=
      (if isUndefined (field item "fuelUnitQuantity") then JNull
       else field item "fuelUnitQuantity");
    fuelGradeCode := JS.or (field item "fuelGradeCode") JNull;
    fuelGradeDescription := JS.or (field item "fuelGradeDescription") JNull;
    fuelUomCode := JS.or (field item "fuelUomCode") JNull;
    fullItemImage := JS.or (field item "fullItemImage") JNull;
    catEntryId := JS.or (field item "catEntryId") JNull;
    discountAppliesTo := discountAppliesTo
  |}.

(** The [isOnlineOrder] test of [normalizeReceipt]. *)
Definition isOnlineOrder (receipt : JSValue) : bool :=
  strictEqStr (field receipt "channel") "online"
  || strictEqStr (field receipt "documentType") "ONLINE"
  || strictEqStr (field receipt "documentType") "OnlineReceipts".

(** The sum of the absolute amounts of the discount items, in array order. *)
Definition sumDiscounts (items : list Item) : number :=
  fold_left
    (fun totalDiscounts item =>
       if isDiscount item && PrimFloat.ltb (amount item) 0%float
       then PrimFloat.add totalDiscounts (Math_abs (amount item))
       else totalDiscounts)
    items 0%float.

(** [normalizeReceipt(receipt, index, sourceFile)]; [now] is the clock
    reading taken by [new Date()].  The object literal converts
    [receipt.instantSavings] too, although the value is replaced later. *)
Definition normalizeReceipt (h : Host) (now : Z) (receipt : JSValue)
    (index : nat) (sourceFile : string) : option Receipt :=
  if isNullish receipt then None else
  do transactionDate <-
    parseDate h
      (JS.or (JS.or (field receipt "transactionDateISO")
                    (field receipt "transactionDateTime"))
             (field receipt "transactionDate")) ;;
  let transactionType := JS.or (field receipt "transactionType") (JStr "Sales") in
  let transactionType :=
    if strictEqStr transactionType "Delivered" then JStr "Sales"
    else transactionType in
  do id <- generateReceiptId h receipt index ;;
  do warehouseNumber <- toNumber h (field receipt "warehouseNumber") ;;
  do total <- toNumber h (field receipt "total") ;;
  do subTotal <- toNumber h (field receipt "subTotal") ;;
  do taxes <- toNumber h (field receipt "taxes") ;;
  do literalSavings <- toNumber h (field receipt "instantSavings") ;;
  do membershipNumber <-
    (if truthy (field receipt "membershipNumber")
     then do m <- toString h (field receipt "membershipNumber") ;; Some (Some m)
     else Some None) ;;
  do items <-
    match field receipt "itemArray" with
    | JArr raw => mapM (normalizeItem h) raw
    | _ => Some []
    end ;;
  let totalItemCount := JS.or (field receipt "totalItemCount") (JNum 0%float) in
  let totalItemCount :=
    if JS.not totalItemCount then JNum (ofZ (Z.of_nat (List.length items)))
    else totalItemCount in
  do instantSavings <-
    (if isOnlineOrder receipt && truthy (field receipt "orderDiscountAmount")
     then do discount <- toNumber h (field receipt "orderDiscountAmount") ;;
          Some (numOr discount 0%float)
     else Some (sumDiscounts items)) ;;
  Some {|
    id := id;
    processedAt := DateAt now;
    sourceFile := sourceFile;
    transactionDate := JS.or (field receipt "transactionDate") JNull;
    transactionDateTime := transactionDate;
    transactionType := transactionType;
    warehouseNumber := numOr warehouseNumber 0%float;
    warehouseName :=
      (if isOnlineOrder receipt then "Online"
       else cleanText (JS.or (field receipt "warehouseName") (JStr "")));
    warehouseCity := cleanText (JS.or (field receipt "warehouseCity") (JStr ""));
    warehouseState :=
      JS.or (JS.or (field receipt "warehouseState")
                   (field receipt "warehouseProvince")) JNull;
    warehouseCountry := JS.or (field receipt "warehouseCountry") JNull;
    warehouseFullAddress :=
      cleanText (JS.or (field receipt "warehouseFullAddress") (JStr ""));
    total := numOr total 0%float;
    subTotal := numOr subTotal 0%float;
    taxes := numOr taxes 0%float;
    instantSavings := instantSavings;
    itemArray := items;
    tenderArray := JS.or (field receipt "tenderArray") (JArr []);
    couponArray := JS.or (field receipt "couponArray") (JArr []);
    membershipNumber := membershipNumber;
    receiptType := JS.or (field receipt "receiptType") JNull;
    documentType := JS.or (field receipt "documentType") JNull;
    channel := JS.or (field receipt "channel") JNull;
    transactionNumber := JS.or (field receipt "transactionNumber") JNull;
    totalItemCount := totalItemCount;
    subTaxes := JS.or (field receipt "subTaxes") JNull;
    _original := receipt
  |}.

(** *** Validation *)

(** [xs.push(x)] and [xs.push(...ys)] *)
Definition push {A : Type} (xs : list A) (x : A) : list A := (xs ++ [x])%list.
Definition pushAll {A : Type} (xs ys : list A) : list A := (xs ++ ys)%list.

(** The decimal digits of an array index. *)
Definition showIndex (n : nat) : string := NilZero.string_of_uint (Nat.to_uint n).

(** The double quote character, as a string. *)
Definition dquote : string := String (ascii_of_nat 34) EmptyString.

(** [ToPrimitive(v)]: an array or object becomes a string. *)
Definition toPrimitive (h : Host) (v : JSValue) : option JSValue :=
  match v with
  | JArr _ | JObj _ => do s <- toString h v ;; Some (JStr s)
  | _ => Some v
  end.

(** [a + b]: both operands are converted to primitives; concatenation
    when either is then a string, addition otherwise. *)
Definition jsAdd (h : Host) (a b : JSValue) : option JSValue :=
  do pa <- toPrimitive h a ;;
  do pb <- toPrimitive h b ;;
  match pa, pb with
  | JStr s, _ => do t <- toString h pb ;; Some (JStr (s ++ t))
  | _, JStr t => do s <- toString h pa ;; Some (JStr (s ++ t))
  | _, _ =>
      do x <- toNumber h pa ;;
      do y <- toNumber h pb ;;
      Some (JNum (PrimFloat.add x y))
  end.

(** [a - b] *)
Definition jsSub (h : Host) (a b : JSValue) : option number :=
  do x <- toNumber h a ;;
  do y <- toNumber h b ;;
  Some (PrimFloat.sub x y).

(** The result of [validateItem]. *)
Record ItemValidation : Type := {
  itemErrors : list string;
  itemWarnings : list string
}.

Definition validateItem (item : JSValue) (receiptIndex itemIndex : nat)
    : ItemValidation :=
  let pre := "Receipt " ++ showIndex receiptIndex ++ ", Item "
             ++ showIndex itemIndex ++ ": " in
  if JS.not item || negb (isTypeObject item) then
    {| itemErrors := [pre ++ "Not a valid object"]; itemWarnings := [] |}
  else
    let errors :=
      flat_map
        (fun f => if negb (hasProp f item)
                  then [pre ++ "Missing required field " ++ dquote ++ f ++ dquote]
                  else [])
        ITEM_SCHEMA_required in
    let errors :=
      if negb (isNull (field item "amount")) && negb (isTypeNumber (field item "amount"))
      then push errors (pre ++ "amount must be a number") else errors in
    let errors :=
      if negb (isNull (field item "unit")) && negb (isTypeNumber (field item "unit"))
         && negb (isTypeString (field item "unit"))
      then push errors (pre ++ "unit must be a number or string") else errors in
    let errors :=
      if truthy (field item "itemNumber") && negb (isTypeString (field item "itemNumber"))
      then push errors (pre ++ "itemNumber must be a string") else errors in
    let warnings :=
      if JS.not (field item "itemDescription01") && JS.not (field item "itemActualName")
      then [pre ++ "No item description available"] else [] in
    {| itemErrors := errors; itemWarnings := warnings |}.

(** The result of [validateReceipt]. *)
Record ReceiptValidation : Type := {
  valid : bool;
  errors : list string;
  warnings : list string
}.

Definition validTypes : list string :=
  ["Sales"; "Refund"; "Return"; "Delivered"; "Shipped"; "Cancelled"; "Returned"].

(** The [forEach] over a non-empty [itemArray]: the errors and warnings
    of every item, in order, starting at item index [i]. *)
Fixpoint validateItems (items : list JSValue) (index i : nat)
    : list string * list string :=
  match items with
  | [] => ([], [])
  | item :: rest =>
      let v := validateItem item index i in
      let '(es, ws) := validateItems rest index (S i) in
      (pushAll (itemErrors v) es, pushAll (itemWarnings v) ws)
  end.

(** [validateReceipt]; it throws where the text of a warning is built
    from a value that cannot be converted: the [transactionType] of the
    warning about an unexpected type, and the operands of the consistency
    check. *)
Definition validateReceipt (h : Host) (receipt : JSValue) (index : nat)
    : option ReceiptValidation :=
  let pre := "Receipt " ++ showIndex index ++ ": " in
  if JS.not receipt || negb (isTypeObject receipt) then
    Some {| valid := false; errors := [pre ++ "Not a valid object"]; warnings := [] |}
  else
    let errors :=
      flat_map
        (fun f => if negb (hasProp f receipt) || isNull (field receipt f)
                     || isUndefined (field receipt f)
                  then [pre ++ "Missing required field " ++ dquote ++ f ++ dquote]
                  else [])
        RECEIPT_SCHEMA_required in
    let errors :=
      if JS.not (field receipt "transactionDate")
         && JS.not (field receipt "transactionDateISO")
         && JS.not (field receipt "transactionDateTime")
      then push errors (pre ++ "Missing required date field (need transactionDate, transactionDateISO, or transactionDateTime)")
      else errors in
    let errors :=
      if truthy (field receipt "transactionDate")
         && negb (isTypeString (field receipt "transactionDate"))
      then push errors (pre ++ "transactionDate must be a string") else errors in
    let errors :=
      if negb (isNull (field receipt "total"))
         && negb (strictEqStr (field receipt "total") "")
         && negb (isTypeNumber (field receipt "total"))
      then push errors (pre ++ "total must be a number or empty string") else errors in
    let errors :=
      if negb (isNull (field receipt "warehouseNumber"))
         && negb (isTypeNumber (field receipt "warehouseNumber"))
      then push errors (pre ++ "warehouseNumber must be a number") else errors in
    let '(errors, warnings) :=
      match field receipt "itemArray" with
      | JArr [] => (errors, [pre ++ "itemArray is empty"])
      | JArr items =>
          let '(es, ws) := validateItems items index 0 in
          (pushAll errors es, ws)
      | _ => (push errors (pre ++ "itemArray must be an array"), [])
      end in
    let errors :=
      if truthy (field receipt "tenderArray") && negb (isArray (field receipt "tenderArray"))
      then push errors (pre ++ "tenderArray must be an array") else errors in
    let errors :=
      if truthy (field receipt "couponArray") && negb (isArray (field receipt "couponArray"))
      then push errors (pre ++ "couponArray must be an array") else errors in
    do warnings <-
      (if truthy (field receipt "transactionType")
          && negb (existsb (strictEqStr (field receipt "transactionType")) validTypes)
       then
         do shown <- toString h (field receipt "transactionType") ;;
         Some (push warnings (pre ++ "Unexpected transactionType " ++ dquote
                              ++ shown ++ dquote))
       else Some warnings) ;;
    do warnings <-
      (if truthy (field receipt "subTotal") && truthy (field receipt "taxes")
          && truthy (field receipt "total")
       then
         let discount := JS.or (field receipt "orderDiscountAmount") (JNum 0%float) in
         do sum <- jsAdd h (field receipt "subTotal") (field receipt "taxes") ;;
         do calculatedTotal <- jsSub h sum discount ;;
         do difference <- jsSub h (JNum calculatedTotal) (field receipt "total") ;;
         let difference := Math_abs difference in
         if PrimFloat.ltb 0.02%float difference
         then
           do shown <- toString h (field receipt "total") ;;
           Some (push warnings (pre ++ "Total (" ++ shown
                                ++ ") doesn't match subTotal + taxes - discount ("
                                ++ numberToString h calculatedTotal ++ ")"))
         else Some warnings
       else Some warnings) ;;
    Some {| valid := match errors with [] => true | _ => false end;
            errors := errors; warnings := warnings |}.

(** The result of [validateJSONStructure]; the three counts and the file
    name are absent from the object returned for a rejected root. *)
Record FileValidation : Type := {
  fileValid : bool;
  fileErrors : list string;
  fileWarnings : list string;
  receipts : list JSValue;
  totalCount : option nat;
  validCount : option nat;
  invalidCount : option nat;
  filename : option string
}.

(** The [forEach] of [validateJSONStructure] from index [i] on: the valid
    receipts, the errors of the invalid ones and all warnings.  An
    exception of [validateReceipt] ends the loop. *)
Fixpoint validateAll (h : Host) (data : list JSValue) (i : nat)
    : option (list JSValue * list string * list string) :=
  match data with
  | [] => Some ([], [], [])
  | receipt :: rest =>
      do validation <- validateReceipt h receipt i ;;
      do later <- validateAll h rest (S i) ;;
      let '(vs, es, ws) := later in
      if valid validation
      then Some (receipt :: vs, es, pushAll (warnings validation) ws)
      else Some (vs, pushAll (errors validation) es, pushAll (warnings validation) ws)
  end.

(** [validateJSONStructure]; an exception of [validateReceipt] is not
    caught here. *)
Definition validateJSONStructure (h : Host) (data : JSValue) (filename : string)
    : option FileValidation :=
  match data with
  | JArr [] =>
      Some {| fileValid := false;
              fileErrors := [filename ++ ": Receipt array is empty"];
              fileWarnings := []; receipts := [];
              totalCount := None; validCount := None; invalidCount := None;
              filename := None |}
  | JArr receipts =>
      do checked <- validateAll h receipts 0 ;;
      let '(validReceipts, errors, warnings) := checked in
      Some {| fileValid := (0 <? List.length validReceipts)%nat;
              fileErrors := errors;
              fileWarnings := warnings;
              receipts := validReceipts;
              totalCount := Some (List.length receipts);
              validCount := Some (List.length validReceipts);
              invalidCount :=
                Some (List.length receipts - List.length validReceipts)%nat;
              filename := Some filename |}
  | _ =>
      Some {| fileValid := false;
              fileErrors := [filename ++ ": Root element must be an array of receipts"];
              fileWarnings := []; receipts := [];
              totalCount := None; validCount := None; invalidCount := None;
              filename := None |}
  end.

(** *** Merge *)

(** A [Map] in insertion order; keys are compared by [sameValueZero]. *)
Definition ReceiptMap := list (JSValue * Receipt).

Fixpoint mapGet (k : JSValue) (m : ReceiptMap) : option Receipt :=
  match m with
  | [] => None
  | (k', r) :: rest => if sameValueZero k' k then Some r else mapGet k rest
  end.

(** [m.set(k, r)]: an existing key keeps its place, a new key goes last. *)
Fixpoint mapSet (k : JSValue) (r : Receipt) (m : ReceiptMap) : ReceiptMap :=
  match m with
  | [] => [(k, r)]
  | (k', r') :: rest =>
      if sameValueZero k' k then (k', r) :: rest else (k', r') :: mapSet k r rest
  end.

(** The key of a receipt: the vendor barcode when it is truthy, else the
    derived [id]. *)
Definition dedupKey (receipt : Receipt) : JSValue :=
  JS.or (field (_original receipt) "transactionBarcode") (JStr (id receipt)).

(** The body of the inner [forEach] of [mergeReceipts]. *)
Definition mergeStep (receiptMap : ReceiptMap) (receipt : Receipt) : ReceiptMap :=
  let key := dedupKey receipt in
  match mapGet key receiptMap with
  | Some existing =>
      if (List.length (itemArray existing) <? List.length (itemArray receipt))%nat
      then mapSet key receipt receiptMap
      else receiptMap
  | None => mapSet key receipt receiptMap
  end.

Definition mergeReceipts (receiptsArray : list (list Receipt)) : list Receipt :=
  map snd
    (fold_left (fun receiptMap receipts => fold_left mergeStep receipts receiptMap)
       receiptsArray []).

(** *** File selection *)

(** The [name] and [size] of a selected file. *)
Record FileInfo : Type := {
  file_name : string;
  file_size : number
}.

Definition sizes : list string := ["Bytes"; "KB"; "MB"; "GB"].

(** [sizes[i]] for a number [i] that is integral, infinite or NaN, in a
    template position: a missing element prints as [undefined]. *)
Definition sizeName (i : number) : string :=
  match toInteger i with
  | Some n => if (0 <=? n)%Z then nth (Z.to_nat n) sizes "undefined" else "undefined"
  | None => "undefined"
  end.

Definition formatFileSize (h : Host) (mh : MathHost) (bytes : number) : string :=
  if PrimFloat.eqb bytes 0%float then "0 Bytes"
  else
    let k := 1024%float in
    let i := Math_floor (PrimFloat.div (Math_log mh bytes) (Math_log mh k)) in
    numberToString h (round2 (PrimFloat.div bytes (Math_pow mh k i)))
    ++ " " ++ sizeName i.

Definition MAX_FILE_SIZE : number := 52428800%float.
Definition MAX_TOTAL_SIZE : number := 104857600%float.

(** The errors pushed for the file at position [index]. *)
Definition checkFile (index : nat) (file : FileInfo) : list string :=
  let pre := "File " ++ showIndex (S index) ++ " (" ++ file_name file ++ "): " in
  let errors :=
    if negb (endsWith (file_name file) ".json")
    then [pre ++ "Must be a JSON file"] else [] in
  let errors :=
    if PrimFloat.ltb MAX_FILE_SIZE (file_size file)
    then push errors (pre ++ "File size exceeds 50MB limit") else errors in
  let errors :=
    if PrimFloat.eqb (file_size file) 0%float
    then push errors (pre ++ "File is empty") else errors in
  errors.

(** The [forEach] of [validateFiles] from position [index] on. *)
Fixpoint checkFiles (files : list FileInfo) (index : nat) (errors : list string)
    (totalSize : number) : list string * number :=
  match files with
  | [] => (errors, totalSize)
  | file :: rest =>
      checkFiles rest (S index) (pushAll errors (checkFile index file))
        (PrimFloat.add totalSize (file_size file))
  end.

(** The object returned by [validateFiles]; the object returned for an
    empty selection has no [totalSize].  When a total is returned it is
    also stored in [state.totalSize]. *)
Record FilesValidation : Type := {
  files_valid : bool;
  files_errors : list string;
  files_totalSize : option number
}.

Definition validateFiles (h : Host) (mh : MathHost) (files : list FileInfo)
    : FilesValidation :=
  match files with
  | [] => {| files_valid := false; files_errors := ["No files selected"];
             files_totalSize := None |}
  | _ =>
      let '(errors, totalSize) := checkFiles files 0 [] 0%float in
      let errors :=
        if PrimFloat.ltb MAX_TOTAL_SIZE totalSize
        then push errors ("Total file size (" ++ formatFileSize h mh totalSize
                          ++ ") exceeds 100MB limit")
        else errors in
      {| files_valid := match errors with [] => true | _ => false end;
         files_errors := errors;
         files_totalSize := Some totalSize |}
  end.

(** *** Parsing *)

(** The result of [parseJSON]. *)
Inductive ParseResult : Type :=
| ParseOk (data : JSValue) (filename : string)
| ParseFailed (error : string) (filename : string).

(** [parseJSON]; [JSON_parse] is the host's [JSON.parse], which returns
    the parsed value or throws an error with a message. *)
Definition parseJSON (JSON_parse : string -> JSValue + string)
    (content filename : string) : ParseResult :=
  match JSON_parse content with
  | inl data => ParseOk data filename
  | inr message => ParseFailed ("Invalid JSON format: " ++ message) filename
  end.

End DataProcessor.

(** ** FilterManager: the filter engine *)
Module FilterManager.

(** The module-level [state] object.  [null] is [None] or [JNull]. *)
Record FilterState : Type := {
  dateRange_start : option Date;
  dateRange_end : option Date;
  state_warehouse : JSValue;
  state_channel : JSValue;
  state_membershipNumber : option string;
  state_searchTerm : option string;
  state_transactionType : JSValue;
  currentPreset : string
}.

(** A date object is truthy, whether valid or not. *)
Definition isSet {A : Type} (x : option A) : bool :=
  match x with Some _ => true | None => false end.

(** [bound && date < bound] *)
Definition beforeBound (date : Date) (bound : option Date) : bool :=
  match bound with
  | Some b => dateLt date b
  | None => false
  end.

(** [bound && date > bound] *)
Definition afterBound (date : Date) (bound : option Date) : bool :=
  match bound with
  | Some b => dateLt b date
  | None => false
  end.

Definition dateRangePredicate (state : FilterState) (receipt : Receipt) : bool :=
  match transactionDateTime receipt with
  | None => false
  | Some date =>
      if beforeBound date (dateRange_start state) then false
      else if afterBound date (dateRange_end state) then false
      else true
  end.

(** [receipt.channel || receipt.receiptType || 'warehouse'] *)
Definition receiptChannel (receipt : Receipt) : JSValue :=
  JS.or (JS.or (channel receipt) (receiptType receipt)) (JStr "warehouse").

Definition channelPredicate (state : FilterState) (receipt : Receipt) : bool :=
  let channel := receiptChannel receipt in
  if strictEqStr (state_channel state) "warehouse" then
    strictEqStr channel "warehouse" || strictEqStr channel "In-Warehouse"
    || strictEqStr channel "Gas Station"
  else if strictEqStr (state_channel state) "online" then
    strictEqStr channel "online"
  else true.

Definition onlinePredicate (r : Receipt) : bool :=
  strictEqStr (channel r) "online"
  || strictEqStr (documentType r) "ONLINE"
  || strictEqStr (documentType r) "OnlineReceipts"
  || String.eqb (warehouseName r) "Online".

(** [s ? s : null] on a string or [null]. *)
Definition truthyStr (s : option string) : option string :=
  match s with
  | Some t => if String.eqb t "" then None else Some t
  | None => None
  end.

Definition membershipPredicate (state : FilterState) (receipt : Receipt) : bool :=
  match truthyStr (membershipNumber receipt), state_membershipNumber state with
  | Some a, Some b => String.eqb a b
  | None, None => true
  | _, _ => false
  end.

Definition searchPredicate (term : string) (receipt : Receipt) : bool :=
  existsb
    (fun item =>
       includes (toLowerCase (normalizedName item)) term
       || includes (itemNumber item) term)
    (itemArray receipt).

(** [applyFilters]; [Number(state.warehouse)] throws on a warehouse
    filter that cannot be converted. *)
Definition applyFilters (h : Host) (state : FilterState) (receipts : list Receipt)
    : option (list Receipt) :=
  let filtered := receipts in
  let filtered :=
    if isSet (dateRange_start state) || isSet (dateRange_end state)
    then filter (dateRangePredicate state) filtered else filtered in
  let filtered :=
    if truthy (state_channel state)
    then filter (channelPredicate state) filtered else filtered in
  do filtered <-
    (if negb (isNull (state_warehouse state))
        && negb (strictEqStr (state_warehouse state) "all")
     then
       if strictEqStr (state_warehouse state) "ONLINE"
       then Some (filter onlinePredicate filtered)
       else
         do whNum <- toNumber h (state_warehouse state) ;;
         Some (filter (fun r => PrimFloat.eqb (warehouseNumber r) whNum) filtered)
     else Some filtered) ;;
  let filtered :=
    if isSet (truthyStr (state_membershipNumber state))
    then filter (membershipPredicate state) filtered else filtered in
  let filtered :=
    if truthy (state_transactionType state)
       && negb (strictEqStr (state_transactionType state) "all")
    then filter (fun r => strictEq (transactionType r) (state_transactionType state))
           filtered
    else filtered in
  let filtered :=
    match truthyStr (state_searchTerm state) with
    | Some searchTerm => filter (searchPredicate (toLowerCase searchTerm)) filtered
    | None => filtered
    end in
  Some filtered.

(** *** The state and its setters

    Every setter returns the new state and the events it emits on the
    event bus, in order.  The entries written to the debug log are left
    out, but not the conversion of a setter's argument by the template
    literal of its log message: where that conversion can throw, the
    setter returns the state it has written and [None] in place of the
    events.  [getActiveFilters] returns a snapshot of the state. *)

Definition initialState : FilterState :=
  {| dateRange_start := None; dateRange_end := None;
     state_warehouse := JNull; state_channel := JNull;
     state_membershipNumber := None; state_searchTerm := None;
     state_transactionType := JNull; currentPreset := "all" |}.

Definition getActiveFilters (state : FilterState) : FilterState := state.

Inductive FilterEvent : Type :=
| FilterChanged (filters : FilterState)
| FilterPresetChanged (preset : JSValue) (filters : FilterState)
| FilterCleared.

Definition setDateRange (state : FilterState) (start end_ : option Date)
    : FilterState * list FilterEvent :=
  let state :=
    {| dateRange_start := start; dateRange_end := end_;
       state_warehouse := state_warehouse state;
       state_channel := state_channel state;
       state_membershipNumber := state_membershipNumber state;
       state_searchTerm := state_searchTerm state;
       state_transactionType := state_transactionType state;
       currentPreset := "custom" |} in
  (state, [FilterChanged (getActiveFilters state)]).

Definition setWarehouse (h : Host) (state : FilterState) (warehouseNumber : JSValue)
    : FilterState * option (list FilterEvent) :=
  let state :=
    {| dateRange_start := dateRange_start state;
       dateRange_end := dateRange_end state;
       state_warehouse := warehouseNumber;
       state_channel := state_channel state;
       state_membershipNumber := state_membershipNumber state;
       state_searchTerm := state_searchTerm state;
       state_transactionType := state_transactionType state;
       currentPreset := currentPreset state |} in
  (state,
   do message <- toString h warehouseNumber ;;
   Some [FilterChanged (getActiveFilters state)]).

Definition setChannel (h : Host) (state : FilterState) (channel : JSValue)
    : FilterState * option (list FilterEvent) :=
  let state :=
    {| dateRange_start := dateRange_start state;
       dateRange_end := dateRange_end state;
       state_warehouse := state_warehouse state;
       state_channel := (if strictEqStr channel "all" then JNull else channel);
       state_membershipNumber := state_membershipNumber state;
       state_searchTerm := state_searchTerm state;
       state_transactionType := state_transactionType state;
       currentPreset := currentPreset state |} in
  (state,
   do message <- toString h channel ;;
   Some [FilterChanged (getActiveFilters state)]).

(** [setMembershipNumber]: [String(membershipNumber)] is evaluated before
    the state is written. *)
Definition setMembershipNumber (h : Host) (state : FilterState)
    (membershipNumber : JSValue) : FilterState * option (list FilterEvent) :=
  match (if truthy membershipNumber && negb (strictEqStr membershipNumber "all")
         then do m <- toString h membershipNumber ;; Some (Some m)
         else Some None) with
  | None => (state, None)
  | Some normalizedNumber =>
      let state :=
        {| dateRange_start := dateRange_start state;
           dateRange_end := dateRange_end state;
           state_warehouse := state_warehouse state;
           state_channel := state_channel state;
           state_membershipNumber := normalizedNumber;
           state_searchTerm := state_searchTerm state;
           state_transactionType := state_transactionType state;
           currentPreset := currentPreset state |} in
      (state,
       do message <- toString h membershipNumber ;;
       Some [FilterChanged (getActiveFilters state)])
  end.

(** [setSearchTerm]: calling [trim] on a truthy value that is not a string
    throws, before the state is touched. *)
Definition setSearchTerm (state : FilterState) (term : JSValue)
    : option (FilterState * list FilterEvent) :=
  do searchTerm <-
    (if truthy term then
       match term with
       | JStr s => Some (if (0 <? String.length (trim s))%nat
                         then Some (trim s) else None)
       | _ => None
       end
     else Some None) ;;
  let state :=
    {| dateRange_start := dateRange_start state;
       dateRange_end := dateRange_end state;
       state_warehouse := state_warehouse state;
       state_channel := state_channel state;
       state_membershipNumber := state_membershipNumber state;
       state_searchTerm := searchTerm;
       state_transactionType := state_transactionType state;
       currentPreset := currentPreset state |} in
  Some (state, [FilterChanged (getActiveFilters state)]).

Definition setTransactionType (h : Host) (state : FilterState) (type : JSValue)
    : FilterState * option (list FilterEvent) :=
  let state :=
    {| dateRange_start := dateRange_start state;
       dateRange_end := dateRange_end state;
       state_warehouse := state_warehouse state;
       state_channel := state_channel state;
       state_membershipNumber := state_membershipNumber state;
       state_searchTerm := state_searchTerm state;
       state_transactionType := type;
       currentPreset := currentPreset state |} in
  (state,
   do message <- toString h type ;;
   Some [FilterChanged (getActiveFilters state)]).

(** The state with another date range and preset. *)
Definition withDateRange (state : FilterState) (start end_ : option Date)
    (preset : string) : FilterState :=
  {| dateRange_start := start; dateRange_end := end_;
     state_warehouse := state_warehouse state;
     state_channel := state_channel state;
     state_membershipNumber := state_membershipNumber state;
     state_searchTerm := state_searchTerm state;
     state_transactionType := state_transactionType state;
     currentPreset := preset |}.

(** [setPreset]; [now] is the clock reading taken on entry and [now'] the
    reading taken by the second [new Date()] of the [last12] case.  An
    unknown preset is only named in a warning, whose text is built from
    it. *)
Definition setPreset (h : Host) (now now' : Z) (state : FilterState)
    (preset : JSValue) : FilterState * option (list FilterEvent) :=
  let changed state :=
    (state, Some [FilterPresetChanged preset (getActiveFilters state);
                  FilterChanged (getActiveFilters state)]) in
  if strictEqStr preset "ytd" then
    let yearStart := newDateYMD h (getFullYear h now) 0%float 1%float in
    changed (withDateRange state (Some yearStart) (Some (DateAt now)) "ytd")
  else if strictEqStr preset "last12" then
    let last12 := setMonth h now' (getMonth h now' - 12) in
    changed (withDateRange state (Some last12) (Some (DateAt now)) "last12")
  else if strictEqStr preset "all" then
    changed (withDateRange state None None "all")
  else if strictEqStr preset "custom" then
    changed (withDateRange state (dateRange_start state) (dateRange_end state) "custom")
  else (state, do message <- toString h preset ;; Some []).

Definition clearFilters (state : FilterState) : FilterState * list FilterEvent :=
  let state := initialState in
  (state, [FilterCleared; FilterChanged (getActiveFilters state)]).

(** [init], which selects the preset [all]. *)
Definition init (h : Host) (now : Z) (state : FilterState)
    : FilterState * option (list FilterEvent) :=
  setPreset h now now state (JStr "all").

End FilterManager.

(** ** StatsCalculator: the aggregator *)
Module StatsCalculator.

(** The refund test shared by the aggregation functions. *)
Definition isRefund (receipt : Receipt) : bool :=
  strictEqStr (transactionType receipt) "Refund"
  || strictEqStr (transactionType receipt) "Return"
  || strictEqStr (transactionType receipt) "Returned"
  || PrimFloat.ltb (numOr (total receipt) 0%float) 0%float.

(** [Number(item.quantity) || 1]: a normalized item has no [quantity]
    property, and [Number(undefined)] is NaN. *)
Definition quantity (item : Item) : number := numOr PrimFloat.nan 1%float.

(** [set.add(x)] on a set of strings kept in insertion order. *)
Definition setAdd (x : string) (s : list string) : list string :=
  if existsb (String.eqb x) s then s else (s ++ [x])%list.

(** [map.get(k) || 0] and [map.set(k, v)] on a map from strings to numbers. *)
Fixpoint qtyGet (k : string) (m : list (string * number)) : number :=
  match m with
  | [] => 0%float
  | (k', v) :: rest => if String.eqb k' k then numOr v 0%float else qtyGet k rest
  end.

Fixpoint qtySet (k : string) (v : number) (m : list (string * number))
    : list (string * number) :=
  match m with
  | [] => [(k, v)]
  | (k', v') :: rest =>
      if String.eqb k' k then (k', v) :: rest else (k', v') :: qtySet k v rest
  end.

(** The accumulators of [calculateTotals] while the receipts are visited. *)
Record Acc : Type := {
  acc_warehouseVisits : nat;
  acc_onlineOrders : nat;
  acc_totalTaxes : number;
  acc_totalSavings : number;
  acc_salesReceipts : nat;
  acc_refundReceipts : nat;
  acc_refundAmount : number;
  acc_refundItemCount : number;
  acc_grossSpent : number;
  acc_refundSpent : number;
  acc_totalPurchaseCount : number;
  uniqueItemsSet : list string;
  uniqueReturnedItemsSet : list string;
  itemNetQuantities : list (string * number)
}.

Definition initialAcc : Acc :=
  {| acc_warehouseVisits := 0; acc_onlineOrders := 0;
     acc_totalTaxes := 0%float; acc_totalSavings := 0%float;
     acc_salesReceipts := 0; acc_refundReceipts := 0;
     acc_refundAmount := 0%float; acc_refundItemCount := 0%float;
     acc_grossSpent := 0%float; acc_refundSpent := 0%float;
     acc_totalPurchaseCount := 0%float;
     uniqueItemsSet := []; uniqueReturnedItemsSet := [];
     itemNetQuantities := [] |}.

(** The body of the inner [forEach] over the items of one receipt. *)
Definition visitItem (refund : bool) (a : Acc) (item : Item) : Acc :=
  let qty := quantity item in
  let itemNum := itemNumber item in
  let hasNum := negb (String.eqb itemNum "") in
  let currentQty := qtyGet itemNum (itemNetQuantities a) in
  {| acc_warehouseVisits := acc_warehouseVisits a;
     acc_onlineOrders := acc_onlineOrders a;
     acc_totalTaxes := acc_totalTaxes a;
     acc_totalSavings := acc_totalSavings a;
     acc_salesReceipts := acc_salesReceipts a;
     acc_refundReceipts := acc_refundReceipts a;
     acc_refundAmount := acc_refundAmount a;
     acc_refundItemCount :=
       (if refund then PrimFloat.add (acc_refundItemCount a) (Math_abs qty)
        else acc_refundItemCount a);
     acc_grossSpent := acc_grossSpent a;
     acc_refundSpent := acc_refundSpent a;
     acc_totalPurchaseCount :=
       (if refund then acc_totalPurchaseCount a
        else PrimFloat.add (acc_totalPurchaseCount a) qty);
     uniqueItemsSet :=
       (if hasNum then setAdd itemNum (uniqueItemsSet a) else uniqueItemsSet a);
     uniqueReturnedItemsSet :=
       (if refund && hasNum then setAdd itemNum (uniqueReturnedItemsSet a)
        else uniqueReturnedItemsSet a);
     itemNetQuantities :=
       (if hasNum then
          qtySet itemNum
            (if refund then PrimFloat.sub currentQty (Math_abs qty)
             else PrimFloat.add currentQty qty)
            (itemNetQuantities a)
        else itemNetQuantities a) |}.

(** The body of the outer [forEach] up to the item loop. *)
Definition visitReceiptHeader (a : Acc) (receipt : Receipt) : Acc :=
  let refund := isRefund receipt in
  let receiptTotal := numOr (total receipt) 0%float in
  let channel := FilterManager.receiptChannel receipt in
  let online := strictEqStr channel "online"
                || strictEqStr (documentType receipt) "OnlineReceipts" in
  let receiptTax := numOr (taxes receipt) 0%float in
  let receiptSavings := numOr (instantSavings receipt) 0%float in
  {| acc_warehouseVisits :=
       (if online then acc_warehouseVisits a
        else if negb (strictEqStr channel "gas_station")
        then S (acc_warehouseVisits a) else acc_warehouseVisits a);
     acc_onlineOrders :=
       (if online then S (acc_onlineOrders a) else acc_onlineOrders a);
     acc_totalTaxes :=
       (if refund then PrimFloat.sub (acc_totalTaxes a) (Math_abs receiptTax)
        else PrimFloat.add (acc_totalTaxes a) receiptTax);
     acc_totalSavings :=
       (if refund then PrimFloat.sub (acc_totalSavings a) (Math_abs receiptSavings)
        else PrimFloat.add (acc_totalSavings a) receiptSavings);
     acc_salesReceipts :=
       (if refund then acc_salesReceipts a else S (acc_salesReceipts a));
     acc_refundReceipts :=
       (if refund then S (acc_refundReceipts a) else acc_refundReceipts a);
     acc_refundAmount :=
       (if refund then PrimFloat.add (acc_refundAmount a) (Math_abs receiptTotal)
        else acc_refundAmount a);
     acc_refundItemCount := acc_refundItemCount a;
     acc_grossSpent :=
       (if refund then acc_grossSpent a
        else PrimFloat.add (acc_grossSpent a) receiptTotal);
     acc_refundSpent :=
       (if refund then PrimFloat.sub (acc_refundSpent a) (Math_abs receiptTotal)
        else acc_refundSpent a);
     acc_totalPurchaseCount := acc_totalPurchaseCount a;
     uniqueItemsSet := uniqueItemsSet a;
     uniqueReturnedItemsSet := uniqueReturnedItemsSet a;
     itemNetQuantities := itemNetQuantities a |}.

(** The body of the outer [forEach]. *)
Definition visitReceipt (a : Acc) (receipt : Receipt) : Acc :=
  fold_left (visitItem (isRefund receipt)) (itemArray receipt)
    (visitReceiptHeader a receipt).

(** The accumulators after the last receipt. *)
Definition accumulate (receipts : list Receipt) : Acc :=
  fold_left visitReceipt receipts initialAcc.

(** The object returned by [calculateTotals].  The object returned for an
    empty receipt set has a [totalItems] property and has neither
    [refundSpent] nor [uniqueReturnedItems]; the object returned otherwise
    has no [totalItems] property.  An absent property is [None]. *)
Record Totals : Type := {
  totalSpent : number;
  netSpent : number;
  grossSpent : number;
  totalItems : option number;
  totalReceipts : nat;
  warehouseVisits : nat;
  onlineOrders : nat;
  totalTaxes : number;
  totalSavings : number;
  salesReceipts : nat;
  refundReceipts : nat;
  refundAmount : number;
  refundItemCount : number;
  uniqueReturnedItems : option nat;
  refundSpent : option number;
  totalPurchaseCount : number;
  uniqueItems : nat;
  netUniqueItems : nat;
  avgPricePerItem : number
}.

Definition calculateTotals (receipts : list Receipt) : Totals :=
  match receipts with
  | [] =>
      {| totalSpent := 0%float; netSpent := 0%float; grossSpent := 0%float;
         totalItems := Some 0%float; totalReceipts := 0;
         warehouseVisits := 0; onlineOrders := 0;
         totalTaxes := 0%float; totalSavings := 0%float;
         salesReceipts := 0; refundReceipts := 0;
         refundAmount := 0%float; refundItemCount := 0%float;
         uniqueReturnedItems := None; refundSpent := None;
         totalPurchaseCount := 0%float; uniqueItems := 0;
         netUniqueItems := 0; avgPricePerItem := 0%float |}
  | _ =>
      let a := accumulate receipts in
      let netSpent := PrimFloat.add (acc_grossSpent a) (acc_refundSpent a) in
      let avgPricePerItem :=
        if PrimFloat.ltb 0%float (acc_totalPurchaseCount a)
        then PrimFloat.div (acc_grossSpent a) (acc_totalPurchaseCount a)
        else 0%float in
      {| totalSpent := round2 netSpent;
         netSpent := round2 netSpent;
         grossSpent := round2 (acc_grossSpent a);
         totalItems := None;
         totalReceipts := List.length receipts;
         warehouseVisits := acc_warehouseVisits a;
         onlineOrders := acc_onlineOrders a;
         totalTaxes := round2 (acc_totalTaxes a);
         totalSavings := round2 (acc_totalSavings a);
         salesReceipts := acc_salesReceipts a;
         refundReceipts := acc_refundReceipts a;
         refundAmount := round2 (acc_refundAmount a);
         refundItemCount := acc_refundItemCount a;
         uniqueReturnedItems := Some (List.length (uniqueReturnedItemsSet a));
         refundSpent := Some (acc_refundSpent a);
         totalPurchaseCount := acc_totalPurchaseCount a;
         uniqueItems := List.length (uniqueItemsSet a);
         netUniqueItems :=
           List.length
             (filter (fun qty => PrimFloat.ltb 0%float qty)
                (map snd (itemNetQuantities a)));
         avgPricePerItem := round2 avgPricePerItem |}
  end.

(** *** Executive rewards *)

(** The [options] argument of [calculateExecutiveRewards]. *)
Record RewardOptions : Type := {
  cycleStartMonth : JSValue;
  cycleStartDay : JSValue;
  additionalExcludedDepartments : JSValue
}.

(** One value of the [byYear] object. *)
Record YearEntry : Type := {
  subtotal : number;
  reward : number
}.

(** The [byYear] object: its properties in creation order.  The key of a
    property is the decimal string of the cycle year, which is kept here
    as the integer itself. *)
Definition ByYear := list (Z * YearEntry).

Fixpoint byYearGet (year : Z) (m : ByYear) : option YearEntry :=
  match m with
  | [] => None
  | (y, e) :: rest => if (y =? year)%Z then Some e else byYearGet year rest
  end.

(** [byYear[year].subtotal += q], after the property was created with a
    zero subtotal when it was missing. *)
Fixpoint addSubtotal (year : Z) (q : number) (m : ByYear) : ByYear :=
  match m with
  | [] => [(year, {| subtotal := PrimFloat.add 0%float q; reward := 0%float |})]
  | (y, e) :: rest =>
      if (y =? year)%Z
      then (y, {| subtotal := PrimFloat.add (subtotal e) q; reward := reward e |}) :: rest
      else (y, e) :: addSubtotal year q rest
  end.

Fixpoint insertSorted (y : Z) (l : list Z) : list Z :=
  match l with
  | [] => [y]
  | x :: rest => if (y <=? x)%Z then y :: l else x :: insertSorted y rest
  end.

(** [Object.keys(byYear)]: the keys that are array indices in ascending
    order, then the other keys (negative years) in creation order. *)
Definition objectKeys (m : ByYear) : list Z :=
  let keys := map fst m in
  let isIndex y := ((0 <=? y) && (y <? 4294967295))%Z in
  (fold_right insertSorted [] (filter isIndex keys)
   ++ filter (fun y => negb (isIndex y)) keys)%list.

(** The reward of a cycle year whose qualifying subtotal is [s]:
    [Math.min(s * 0.02, 1250)]. *)
Definition cycleReward (s : number) : number :=
  Math_min (PrimFloat.mul s 0.02%float) 1250%float.

(** The object returned by [calculateExecutiveRewards]. *)
Record Rewards : Type := {
  byYear : ByYear;
  totalReward : number;
  cycleStart_month : number;
  cycleStart_day : number
}.

(** The nested helper [getCycleYear]; [null] is [None]. *)
Definition getCycleYear (h : Host) (cycleStartMonth cycleStartDay : number)
    (date : option Date) : option Z :=
  match date with
  | Some (DateAt t) =>
      let startThisYear :=
        newDateYMD h (getFullYear h t)
          (PrimFloat.sub cycleStartMonth 1%float) cycleStartDay in
      if dateGe (DateAt t) startThisYear then Some (getFullYear h t)
      else Some (getFullYear h t - 1)%Z
  | _ => None
  end.

(** [s.toLowerCase().includes('travel')] on a value; calling
    [toLowerCase] on a value that is not a string throws. *)
Definition mentionsTravel (v : JSValue) : option bool :=
  match v with
  | JStr s => Some (includes (toLowerCase s) "travel")
  | _ => None
  end.

(** The [isGas || isTravel] test on one receipt. *)
Definition isGasOrTravel (receipt : Receipt) : option bool :=
  let channel := FilterManager.receiptChannel receipt in
  let docType := JS.or (documentType receipt) (JStr "") in
  let isGas := strictEqStr channel "gas_station"
               || strictEqStr channel "Gas Station"
               || strictEqStr docType "FuelReceipts"
               || strictEqStr (receiptType receipt) "Gas Station" in
  do t1 <- mentionsTravel docType ;;
  do isTravel <-
    (if t1 then Some true
     else
       do t2 <- (if truthy (receiptType receipt)
                 then mentionsTravel (receiptType receipt) else Some false) ;;
       if t2 then Some true else mentionsTravel channel) ;;
  Some (isGas || isTravel).

(** The departments that do not qualify: 75, 93 and the additional ones. *)
Definition excludedDepartments (options : RewardOptions) : list JSValue :=
  (([JNum 75%float; JNum 93%float] : list JSValue) ++
   match additionalExcludedDepartments options with
   | JArr depts => depts
   | _ => []
   end)%list.

(** The qualifying subtotal of the items of one receipt. *)
Definition qualifyingSubtotal (excluded : list JSValue) (items : list Item) : number :=
  fold_left
    (fun q item =>
       if isDiscount item then q
       else
         let dept := JS.or (itemDepartmentNumber item) (JNum 0%float) in
         let amount := numOr (amount item) 0%float in
         if existsb (sameValueZero dept) excluded || PrimFloat.ltb amount 0%float
         then q
         else PrimFloat.add q amount)
    items 0%float.

(** The body of the [forEach] over the receipts. *)
Definition visitForRewards (h : Host) (month day : number) (excluded : list JSValue)
    (m : ByYear) (receipt : Receipt) : option ByYear :=
  do skip <- isGasOrTravel receipt ;;
  if skip then Some m
  else if PrimFloat.ltb (numOr (total receipt) 0%float) 0%float then Some m
  else
    match getCycleYear h month day (transactionDateTime receipt) with
    | None => Some m
    | Some cycleYear =>
        Some (addSubtotal cycleYear
                (qualifyingSubtotal excluded (itemArray receipt)) m)
    end.

Fixpoint visitAllForRewards (h : Host) (month day : number) (excluded : list JSValue)
    (m : ByYear) (receipts : list Receipt) : option ByYear :=
  match receipts with
  | [] => Some m
  | receipt :: rest =>
      do m' <- visitForRewards h month day excluded m receipt ;;
      visitAllForRewards h month day excluded m' rest
  end.

Definition calculateExecutiveRewards (h : Host) (receipts : list Receipt)
    (options : RewardOptions) : option Rewards :=
  do month <- toNumber h (cycleStartMonth options) ;;
  let month := numOr month 1%float in
  do day <- toNumber h (cycleStartDay options) ;;
  let day := numOr day 1%float in
  do m <- visitAllForRewards h month day (excludedDepartments options) [] receipts ;;
  let rewarded :=
    map (fun ye => (fst ye, {| subtotal := subtotal (snd ye);
                               reward := cycleReward (subtotal (snd ye)) |})) m in
  let totalReward :=
    fold_left
      (fun total year =>
         match byYearGet year rewarded with
         | Some e => PrimFloat.add total (reward e)
         | None => total
         end)
      (objectKeys rewarded) 0%float in
  Some {| byYear := rewarded; totalReward := totalReward;
          cycleStart_month := month; cycleStart_day := day |}.

(** *** Averages and savings *)

(** The object returned by [calculateAverages]. *)
Record Averages : Type := {
  avgPerReceipt : number;
  avgItemsPerReceipt : number;
  avgSavingsPerReceipt : number;
  minOrder : number;
  maxOrder : number
}.

(** [receipts.map(r => r.total || 0)] *)
Definition receiptTotals (receipts : list Receipt) : list number :=
  map (fun r => numOr (total r) 0%float) receipts.

Definition calculateAverages (receipts : list Receipt) : Averages :=
  match receipts with
  | [] =>
      {| avgPerReceipt := 0%float; avgItemsPerReceipt := 0%float;
         avgSavingsPerReceipt := 0%float; minOrder := 0%float;
         maxOrder := 0%float |}
  | _ =>
      let totals := calculateTotals receipts in
      let n := lengthOf receipts in
      {| avgPerReceipt := round2 (PrimFloat.div (netSpent totals) n);
         avgItemsPerReceipt := round2 (PrimFloat.div (totalPurchaseCount totals) n);
         avgSavingsPerReceipt := round2 (PrimFloat.div (totalSavings totals) n);
         minOrder := round2 (Math_minAll (receiptTotals receipts));
         maxOrder := round2 (Math_maxAll (receiptTotals receipts)) |}
  end.

(** The object returned by [getSavingsAnalysis]. *)
Record SavingsAnalysis : Type := {
  savings_totalSavings : number;
  savings_totalSpent : number;
  savingsRate : number;
  avgSavingsPerTrip : number;
  tripsWithSavings : nat
}.

(** The three running values of [getSavingsAnalysis] after one more
    receipt. *)
Definition visitForSavings (acc : number * number * nat) (receipt : Receipt)
    : number * number * nat :=
  let '(totalSavings, totalSpent, tripsWithSavings) := acc in
  let savings := numOr (instantSavings receipt) 0%float in
  (PrimFloat.add totalSavings savings,
   PrimFloat.add totalSpent (numOr (total receipt) 0%float),
   if PrimFloat.ltb 0%float savings then S tripsWithSavings else tripsWithSavings).

Definition getSavingsAnalysis (receipts : list Receipt) : SavingsAnalysis :=
  match receipts with
  | [] =>
      {| savings_totalSavings := 0%float; savings_totalSpent := 0%float;
         savingsRate := 0%float; avgSavingsPerTrip := 0%float;
         tripsWithSavings := 0 |}
  | _ =>
      let '(totalSavings, totalSpent, tripsWithSavings) :=
        fold_left visitForSavings receipts (0%float, 0%float, 0%nat) in
      {| savings_totalSavings := round2 totalSavings;
         savings_totalSpent := round2 totalSpent;
         savingsRate :=
           (if PrimFloat.ltb 0%float totalSpent
            then PrimFloat.div
                   (Math_round (PrimFloat.mul (PrimFloat.div totalSavings totalSpent)
                                  10000%float))
                   100%float
            else 0%float);
         avgSavingsPerTrip := round2 (PrimFloat.div totalSavings (lengthOf receipts));
         tripsWithSavings := tripsWithSavings |}
  end.

End StatsCalculator.

Import DataProcessor FilterManager StatsCalculator.


(** ** EventBus: the subscription registry *)
Module EventBus.

(** A callback is a function, which the registry only compares by
    identity; it is represented by an identifier. *)
Definition Callback := nat.

(** An array of subscribers: [ref] tells one array object from another,
    [callbacks] is its content. *)
Record Subscribers : Type := {
  ref : nat;
  callbacks : list Callback
}.

(** The registry: the [events] map, in insertion order; the arrays that
    [off] has taken out of the map, each with the name it had, which only
    an [emit] in progress still holds on to; and the number of arrays
    created so far. *)
Record Bus : Type := {
  events : list (string * Subscribers);
  removed : list (string * Subscribers);
  created : nat
}.

Definition empty : Bus := {| events := []; removed := []; created := 0 |}.

Fixpoint get (eventName : string) (events : list (string * Subscribers))
    : option Subscribers :=
  match events with
  | [] => None
  | (e, subscribers) :: rest =>
      if String.eqb e eventName then Some subscribers else get eventName rest
  end.

(** [events.set(eventName, subscribers)], also the map after a change of
    the array that is stored under [eventName]. *)
Fixpoint set (eventName : string) (subscribers : Subscribers)
    (events : list (string * Subscribers)) : list (string * Subscribers) :=
  match events with
  | [] => [(eventName, subscribers)]
  | (e, old) :: rest =>
      if String.eqb e eventName then (e, subscribers) :: rest
      else (e, old) :: set eventName subscribers rest
  end.

(** [callbacks.splice(callbacks.indexOf(callback), 1)] when the callback
    occurs: its first occurrence is removed. *)
Fixpoint removeFirst (callback : Callback) (callbacks : list Callback) : list Callback :=
  match callbacks with
  | [] => []
  | c :: rest => if Nat.eqb c callback then rest else c :: removeFirst callback rest
  end.

(** [on]: the registry after the subscription. *)
Definition on (eventName : string) (callback : Callback) (bus : Bus) : Bus :=
  match get eventName (events bus) with
  | Some subscribers =>
      {| events :=
           set eventName
             {| ref := ref subscribers;
                callbacks := (callbacks subscribers ++ [callback])%list |}
             (events bus);
         removed := removed bus;
         created := created bus |}
  | None =>
      {| events :=
           set eventName {| ref := created bus; callbacks := [callback] |} (events bus);
         removed := removed bus;
         created := S (created bus) |}
  end.

(** The function returned by [on eventName callback], run on a later
    registry: it looks the array up by name.  It throws when the event
    has been deleted meanwhile. *)
Definition unsubscribe (eventName : string) (callback : Callback) (bus : Bus)
    : option Bus :=
  match get eventName (events bus) with
  | Some subscribers =>
      Some {| events :=
                set eventName
                  {| ref := ref subscribers;
                     callbacks := removeFirst callback (callbacks subscribers) |}
                  (events bus);
              removed := removed bus;
              created := created bus |}
  | None => None
  end.

Definition off (eventName : string) (bus : Bus) : Bus :=
  {| events := filter (fun es => negb (String.eqb (fst es) eventName)) (events bus);
     removed :=
       match get eventName (events bus) with
       | Some subscribers => (eventName, subscribers) :: removed bus
       | None => removed bus
       end;
     created := created bus |}.

Definition getEvents (bus : Bus) : list string := map fst (events bus).

(** The content, in the registry [bus], of the array object [r] that was
    stored under [eventName]: the array is still in the map, or [off] has
    taken it out. *)
Definition contentOf (eventName : string) (r : nat) (bus : Bus) : list Callback :=
  let stored :=
    match get eventName (events bus) with
    | Some subscribers => if Nat.eqb (ref subscribers) r then Some subscribers else None
    | None => None
    end in
  match stored with
  | Some subscribers => callbacks subscribers
  | None =>
      match find (fun es => String.eqb (fst es) eventName && Nat.eqb (ref (snd es)) r)
              (removed bus) with
      | Some es => callbacks (snd es)
      | None => []
      end
  end.

Section Delivery.

(** Whatever a subscriber can change besides the registry. *)
Variable World : Type.

(** What a call of a subscriber does: [call callback data state] is the
    state when [callback(data)] has returned or thrown; [emit] catches and
    logs the exception. *)
Variable call : Callback -> JSValue -> World * Bus -> World * Bus.

(** [callbacks.forEach] on the array object [r], from index [k] on, with
    [count] indices left of the length that the array had when the loop
    began; [called] lists the callbacks called so far.  The array is read
    again at every index, and an index that it no longer has is skipped. *)
Fixpoint forEach (eventName : string) (r : nat) (data : JSValue) (k count : nat)
    (state : World * Bus) (called : list Callback)
    : list Callback * (World * Bus) :=
  match count with
  | O => (called, state)
  | S count =>
      match nth_error (contentOf eventName r (snd state)) k with
      | Some callback =>
          forEach eventName r data (S k) count (call callback data state)
            (called ++ [callback])%list
      | None => forEach eventName r data (S k) count state called
      end
  end.

(** [emit]: the callbacks that are called, in order, and the state after
    the last call. *)
Definition emit (eventName : string) (data : JSValue) (state : World * Bus)
    : list Callback * (World * Bus) :=
  match get eventName (events (snd state)) with
  | None => ([], state)
  | Some subscribers =>
      forEach eventName (ref subscribers) data 0 (List.length (callbacks subscribers))
        state []
  end.

End Delivery.

End EventBus.

(** ** DataStore: the in-memory store *)
Module DataStore.

(** An entry of the item index: the item with the identifier, date and
    warehouse of its receipt. *)
Record IndexedItem : Type := {
  indexed : Item;
  receiptId : string;
  receiptDate : option Date;
  indexed_warehouseNumber : number
}.

(** The module-level [state]; its [statsCache] is only ever [null]. *)
Record State : Type := {
  store_receipts : list Receipt;
  (** a map from item numbers to entries, in insertion order *)
  itemIndex : list (string * list IndexedItem);
  (** a set of numbers, in insertion order *)
  warehouseSet : list number;
  dateRange_min : option Date;
  dateRange_max : option Date
}.

Definition emptyState : State :=
  {| store_receipts := []; itemIndex := []; warehouseSet := [];
     dateRange_min := None; dateRange_max := None |}.

Inductive StoreEvent : Type :=
| ReceiptsAdded (count total : nat)
| Cleared.

(** [itemIndex.get(k).push(x)], after [k] was given an empty array when
    it was missing. *)
Fixpoint indexPush (k : string) (x : IndexedItem)
    (m : list (string * list IndexedItem)) : list (string * list IndexedItem) :=
  match m with
  | [] => [(k, [x])]
  | (k', xs) :: rest =>
      if String.eqb k' k then (k', xs ++ [x])%list :: rest
      else (k', xs) :: indexPush k x rest
  end.

(** [SameValueZero] on numbers. *)
Definition sameNumber (a b : number) : bool :=
  (isNaN a && isNaN b) || PrimFloat.eqb a b.

(** [warehouseSet.add(x)] *)
Definition warehouseAdd (x : number) (s : list number) : list number :=
  if existsb (sameNumber x) s then s else (s ++ [x])%list.

(** The body of the [forEach] of [rebuildIndexes]. *)
Definition indexReceipt (s : State) (receipt : Receipt) : State :=
  {| store_receipts := store_receipts s;
     itemIndex :=
       fold_left
         (fun m item =>
            indexPush (itemNumber item)
              {| indexed := item; receiptId := id receipt;
                 receiptDate := transactionDateTime receipt;
                 indexed_warehouseNumber := warehouseNumber receipt |} m)
         (itemArray receipt) (itemIndex s);
     warehouseSet :=
       (if truthyNum (warehouseNumber receipt)
        then warehouseAdd (warehouseNumber receipt) (warehouseSet s)
        else warehouseSet s);
     dateRange_min :=
       match transactionDateTime receipt with
       | Some date =>
           match dateRange_min s with
           | None => Some date
           | Some m => if dateLt date m then Some date else Some m
           end
       | None => dateRange_min s
       end;
     dateRange_max :=
       match transactionDateTime receipt with
       | Some date =>
           match dateRange_max s with
           | None => Some date
           | Some m => if dateLt m date then Some date else Some m
           end
       | None => dateRange_max s
       end |}.

Definition rebuildIndexes (s : State) : State :=
  fold_left indexReceipt (store_receipts s)
    {| store_receipts := store_receipts s; itemIndex := []; warehouseSet := [];
       dateRange_min := None; dateRange_max := None |}.

Definition addReceipts (receipts : list Receipt) (s : State)
    : State * list StoreEvent :=
  let s :=
    rebuildIndexes
      {| store_receipts := (store_receipts s ++ receipts)%list;
         itemIndex := itemIndex s; warehouseSet := warehouseSet s;
         dateRange_min := dateRange_min s; dateRange_max := dateRange_max s |} in
  (s, [ReceiptsAdded (List.length receipts) (List.length (store_receipts s))]).

(** The [filter] argument of [getReceipts], when it is an object. *)
Record StoreFilter : Type := {
  startDate : option Date;
  endDate : option Date;
  filter_warehouseNumber : JSValue;
  filter_transactionType : JSValue;
  filter_searchTerm : JSValue
}.

(** [getReceipts]; calling [toLowerCase] on a truthy search term that is
    not a string throws. *)
Definition getReceipts (filter : option StoreFilter) (s : State)
    : option (list Receipt) :=
  match filter with
  | None => Some (store_receipts s)
  | Some f =>
      let filtered := store_receipts s in
      let filtered :=
        if isSet (startDate f) || isSet (endDate f)
        then List.filter
               (fun receipt =>
                  match transactionDateTime receipt with
                  | None => false
                  | Some date =>
                      if beforeBound date (startDate f) then false
                      else if afterBound date (endDate f) then false
                      else true
                  end) filtered
        else filtered in
      let filtered :=
        if truthy (filter_warehouseNumber f)
        then List.filter
               (fun r => strictEq (JNum (warehouseNumber r)) (filter_warehouseNumber f))
               filtered
        else filtered in
      let filtered :=
        if truthy (filter_transactionType f)
        then List.filter
               (fun r => strictEq (transactionType r) (filter_transactionType f))
               filtered
        else filtered in
      if truthy (filter_searchTerm f) then
        match filter_searchTerm f with
        | JStr term => Some (List.filter (searchPredicate (toLowerCase term)) filtered)
        | _ => None
        end
      else Some filtered
  end.

(** [getItemsByNumber]: a key that is not a string is in no entry. *)
Definition getItemsByNumber (itemNumber : JSValue) (s : State) : list IndexedItem :=
  match itemNumber with
  | JStr k =>
      match find (fun kv => String.eqb (fst kv) k) (itemIndex s) with
      | Some kv => snd kv
      | None => []
      end
  | _ => []
  end.

Definition getItems (s : State) : list (string * list IndexedItem) := itemIndex s.

Definition getWarehouses (s : State) : list number := warehouseSet s.

Definition getDateRange (s : State) : option Date * option Date :=
  (dateRange_min s, dateRange_max s).

Definition getReceiptCount (s : State) : nat := List.length (store_receipts s).

Definition getTotalSpent (s : State) : number :=
  fold_left (fun sum r => PrimFloat.add sum (total r)) (store_receipts s) 0%float.

(** [getReceiptById]; [null] is [None]. *)
Definition getReceiptById (id_ : JSValue) (s : State) : option Receipt :=
  find (fun r => strictEq (JStr (id r)) id_) (store_receipts s).

Definition clear (s : State) : State * list StoreEvent :=
  (emptyState, [Cleared]).

(** The object returned by [getStats]. *)
Record Stats : Type := {
  receiptCount : nat;
  stats_uniqueItems : nat;
  warehouseCount : nat;
  stats_dateRange : option Date * option Date;
  stats_totalSpent : number
}.

Definition getStats (s : State) : Stats :=
  {| receiptCount := List.length (store_receipts s);
     stats_uniqueItems := List.length (itemIndex s);
     warehouseCount := List.length (warehouseSet s);
     stats_dateRange := (dateRange_min s, dateRange_max s);
     stats_totalSpent := getTotalSpent s |}.

End DataStore.

(** [FilterManager.getFilteredReceipts]; the store is [None] when no
    store module is registered. *)
Definition getFilteredReceipts (h : Host) (state : FilterState)
    (dataStore : option DataStore.State) : option (list Receipt) :=
  match dataStore with
  | None => Some []
  | Some s => applyFilters h state (DataStore.store_receipts s)
  end.

(** ** The processing of the selected files

    [DataProcessor.handleFileProcessing] from the results of the read
    step on: parsing, validation, normalization, merge, the removal of
    cancelled transactions and the hand-over to the store.  The progress
    messages and the log are left out. *)

Module FileProcessing.

(** The result of reading one file: its name and, when the read
    succeeded, its content. *)
Record ReadResult : Type := {
  read_filename : string;
  read_content : option string
}.

(** What a successful run leaves behind. *)
Record Processed : Type := {
  validFiles : list FileValidation;
  totalReceipts : nat;
  validReceipts : nat;
  invalidReceipts : nat;
  mergedReceipts : list Receipt;
  (** [state.parsedReceipts], the receipts handed to the store *)
  parsedReceipts : list Receipt;
  dataStore : DataStore.State
}.

(** A run ends with an [Error] raised by the function itself, with a
    [TypeError] raised inside the validator or the normalizer, or
    normally; either error is caught and reported by the same handler,
    and the store is then left as it was. *)
Inductive Outcome : Type :=
| Failure (message : string)
| TypeErrorCaught
| Success (p : Processed).

(** A count of a file result; only the result of a rejected root, which
    is not a valid file, lacks the counts. *)
Definition countOf (n : option nat) : nat :=
  match n with Some k => k | None => 0 end.

(** The inner [forEach] of the normalization step: the receipts of one
    valid file, from position [index] on.  [clock] gives the reading of
    every [new Date()] in turn, [tick] counts the readings taken. *)
Fixpoint normalizeEach (h : Host) (clock : nat -> Z) (tick : nat) (file : string)
    (raws : list JSValue) (index : nat) : option (list Receipt) :=
  match raws with
  | [] => Some []
  | raw :: rest =>
      do r <- normalizeReceipt h (clock tick) raw index file ;;
      do rs <- normalizeEach h clock (S tick) file rest (S index) ;;
      Some (r :: rs)
  end.

(** The outer [forEach] of the normalization step. *)
Fixpoint normalizeFiles (h : Host) (clock : nat -> Z) (tick : nat)
    (files : list FileValidation) : option (list Receipt) :=
  match files with
  | [] => Some []
  | fileResult :: rest =>
      do rs <- normalizeEach h clock tick
                 (match filename fileResult with Some n => n | None => "undefined" end)
                 (receipts fileResult) 0 ;;
      do rest' <- normalizeFiles h clock (tick + List.length (receipts fileResult)) rest ;;
      Some (rs ++ rest')%list
  end.

(** [receipt.transactionType !== 'Cancelled' && receipt.transactionType !== 'Canceled'] *)
Definition notCancelled (receipt : Receipt) : bool :=
  negb (strictEqStr (transactionType receipt) "Cancelled")
  && negb (strictEqStr (transactionType receipt) "Canceled").

Definition isParseOk (r : ParseResult) : bool :=
  match r with ParseOk _ _ => true | ParseFailed _ _ => false end.

Definition handleFileProcessing (h : Host) (JSON_parse : string -> JSValue + string)
    (clock : nat -> Z) (store : DataStore.State) (readResults : list ReadResult)
    : Outcome :=
  let successfulReads := filter (fun r => isSet (read_content r)) readResults in
  match successfulReads with
  | [] => Failure "No files were successfully read"
  | _ =>
  let parseResults :=
    map (fun fileResult =>
           parseJSON JSON_parse
             (match read_content fileResult with Some c => c | None => "" end)
             (read_filename fileResult))
        successfulReads in
  let successfulParses := filter isParseOk parseResults in
  match successfulParses with
  | [] => Failure "No files were successfully parsed"
  | _ =>
  let validationResults :=
    flat_map (fun parseResult =>
                match parseResult with
                | ParseOk data filename => [validateJSONStructure h data filename]
                | ParseFailed _ _ => []
                end)
             successfulParses in
  match mapM (fun result => result) validationResults with
  | None => TypeErrorCaught
  | Some validationResults =>
  let validFiles := filter fileValid validationResults in
  match validFiles with
  | [] => Failure "No files passed validation. Please check file format."
  | _ =>
  match normalizeFiles h clock 0 validFiles with
  | None => TypeErrorCaught
  | Some normalizedReceipts =>
      let mergedReceipts := mergeReceipts [normalizedReceipts] in
      let validTransactions := filter notCancelled mergedReceipts in
      Success
        {| validFiles := validFiles;
           totalReceipts :=
             fold_left (fun sum r => sum + countOf (totalCount r))%nat validFiles 0%nat;
           validReceipts :=
             fold_left (fun sum r => sum + countOf (validCount r))%nat validFiles 0%nat;
           invalidReceipts :=
             fold_left (fun sum r => sum + countOf (invalidCount r))%nat validFiles 0%nat;
           mergedReceipts := mergedReceipts;
           parsedReceipts := validTransactions;
           dataStore := fst (DataStore.addReceipts validTransactions store) |}
  end end end end end.

End FileProcessing.

(** ** Auxiliary definitions

    The definitions below serve the statements and proofs that follow:
    a closed form of binary64 rounding, the inputs of the worked examples
    and the invariants of the merge. *)

Section FloatModel.
Local Open Scope Z_scope.

(** Round to nearest, ties to even, of [M / 2^n]. *)
Definition rne (M n : Z) : Z :=
  let m := M / 2 ^ n in
  let t := M mod 2 ^ n in
  if 2 ^ n <? 2 * t then m + 1
  else if 2 ^ n =? 2 * t then (if Z.even m then m else m + 1)
  else m.

(** [n] right shifts of the exact mantissa [M]. *)
Definition shifted (M : Z) (n : nat) : shr_record :=
  Nat.iter n shr_1 {| shr_m := M; shr_r := false; shr_s := false |}.

(** The exponent of the binary64 format for a number of magnitude [2^e]. *)
Definition fexp64 (e : Z) : Z := Z.max (e - 53) (-1074).

(** The rank, among the non-negative binary64 numbers, of the rounding of
    [M * 2^E]. *)
Definition rank64 (M E : Z) : Z :=
  let e1 := fexp64 (Zdigits2 M + E) in
  (e1 + 1074) * 2 ^ 52 + rne M (e1 - E).

(** The binary64 number of a given rank. *)
Definition ofRank (sx : bool) (K : Z) : spec_float :=
  if K <=? 0 then S754_zero sx
  else if K <? 2 ^ 53 then S754_finite sx (Z.to_pos K) (-1074)
  else
    let e := K / 2 ^ 52 - 1 in
    if e - 1074 <=? 971 then S754_finite sx (Z.to_pos (K - e * 2 ^ 52)) (e - 1074)
    else S754_infinity sx.

End FloatModel.

(** A computation that returned went through each of its steps. *)
Ltac unbind :=
  repeat match goal with
  | |- bind ?e _ = Some _ -> _ =>
      let E := fresh "E" in destruct e eqn:E; cbn [bind]; [|discriminate]
  end.

Ltac sf_cases :=
  repeat match goal with
  | x : spec_float |- _ => destruct x as [[|]|[|]| |[|] ? ?]
  end.

Ltac cmp_props :=
  repeat match goal with
  | H : context [Z.compare ?a ?b] |- _ => destruct (Z.compare_spec a b); simpl in H
  | |- context [Z.compare ?a ?b] => destruct (Z.compare_spec a b); simpl
  | H : context [Pos.compare_cont Eq ?a ?b] |- _ =>
      change (Pos.compare_cont Eq a b) with (Pos.compare a b) in H;
      destruct (Pos.compare_spec a b); simpl in H
  | |- context [Pos.compare_cont Eq ?a ?b] =>
      change (Pos.compare_cont Eq a b) with (Pos.compare a b);
      destruct (Pos.compare_spec a b); simpl
  end.

(** The decimal value of a string of digits. *)
Fixpoint digitsValue (s : string) (acc : Z) : option Z :=
  match s with
  | EmptyString => Some acc
  | String c s' =>
      if isDigit c
      then digitsValue s' (acc * 10 + (Z.of_nat (nat_of_ascii c) - 48))%Z
      else None
  end.

(** [new Date(s)] on the date-only ISO form [YYYY-MM-DD], which denotes
    midnight UTC; every other string is taken as unparsable. *)
Definition parseIsoDate (s : string) : Date :=
  match digitsValue (String.substring 0 4 s) 0,
        digitsValue (String.substring 5 2 s) 0,
        digitsValue (String.substring 8 2 s) 0 with
  | Some y, Some m, Some d =>
      if (String.length s =? 10)%nat
         && String.eqb (String.substring 4 1 s) "-"
         && String.eqb (String.substring 7 1 s) "-"
         && (1 <=? m)%Z && (m <=? 12)%Z && (1 <=? d)%Z && (d <=? 31)%Z
      then timeClipZ (MakeDay y (m - 1) d * msPerDay)
      else InvalidDate
  | _, _, _ => InvalidDate
  end.

(** A host for the worked examples: the time zone is UTC, integers print
    in decimal, only date-only ISO strings parse as dates, and the base64
    encoder is left as the identity.  The examples carry every number as a
    JSON number and print integers only, so the other conversions are
    never reached. *)
Definition exampleHost : Host :=
  {| stringToNumber := fun _ => PrimFloat.nan;
     numberToString := fun x =>
       match toInteger x with
       | Some n => if PrimFloat.eqb (ofZ n) x
                   then NilZero.string_of_int (Z.to_int n) else "NaN"
       | None => "NaN"
       end;
     parseFloat := fun _ => PrimFloat.nan;
     dateParse := parseIsoDate;
     btoa := fun s => s;
     localTZA := 0 |}.



Definition returnLine : JSValue :=
  JObj [("itemNumber", JStr "222"); ("amount", JNum (-50)%float);
        ("unit", JNum (-1)%float); ("itemDescription01", JStr "KS TOWEL")].

Definition returnItem : Item :=
  {| itemNumber := "222"; amount := (-50)%float; unit := (-1)%float;
     itemDescription01 := "KS TOWEL"; itemDescription02 := "";
     itemActualName := ""; normalizedName := "KS TOWEL";
     unitPrice := 50%float; isDiscount := false;
     taxFlag := JNull; itemDepartmentNumber := JNull;
     itemUnitPriceAmount := JNull; fuelUnitQuantity := JNull;
     fuelGradeCode := JNull; fuelGradeDescription := JNull;
     fuelUomCode := JNull; fullItemImage := JNull; catEntryId := JNull;
     discountAppliesTo := JUndefined |}.

(** The value cannot be converted to a primitive: it is an object with
    a property [toString] of its own, or an array that holds such a value
    at any depth. *)
Fixpoint unprintable (v : JSValue) : bool :=
  match v with
  | JObj props => hasOwn "toString" props
  | JArr elems =>
      (fix any (l : list JSValue) : bool :=
         match l with
         | [] => false
         | x :: rest => unprintable x || any rest
         end) elems
  | _ => false
  end.



(** The raw receipt of the end-to-end scenario; [n] is the item number
    carried by the discount line. *)
Definition scenarioReceipt (n : string) : JSValue :=
  JObj [("transactionType", JStr "Sales");
        ("transactionDate", JStr "2024-03-15");
        ("warehouseNumber", JNum 123%float);
        ("transactionNumber", JNum 7%float);
        ("total", JNum 21.37%float);
        ("subTotal", JNum 19.99%float);
        ("taxes", JNum 1.38%float);
        ("itemArray",
         JArr [JObj [("itemNumber", JStr "111"); ("amount", JNum 19.99%float);
                     ("unit", JNum 1%float);
                     ("itemDescription01", JStr "KS WATER")];
               JObj [("itemNumber", JStr n); ("amount", JNum (-2)%float);
                     ("unit", JNum 0%float);
                     ("itemDescription01", JStr "/111")]])].

(** The receipt passes [validateReceipt] at this index: the call returns
    a result whose [valid] is set. *)
Definition passes (h : Host) (receipt : JSValue) (index : nat) : bool :=
  match validateReceipt h receipt index with
  | Some validation => valid validation
  | None => false
  end.

(** The receipts of [data] that pass [validateReceipt] at their own index. *)
Definition validReceiptsOf (h : Host) (data : list JSValue) : list JSValue :=
  map snd
    (filter (fun ir => passes h (snd ir) (fst ir))
       (combine (seq 0 (List.length data)) data)).

(** No key of the map is the key [k]. *)
Definition freshKey (k : JSValue) (m : ReceiptMap) : Prop :=
  forall k' r, In (k', r) m -> sameValueZero k' k = false.

(** Every stored key is the key of the receipt stored with it, or is the
    same map key as that one. *)
Definition keyed (m : ReceiptMap) : Prop :=
  forall k y, In (k, y) m ->
    k = dedupKey y \/ sameValueZero k (dedupKey y) = true.

(** The receipts obtained by normalizing the raw receipts of one file, at
    clock reading [now]; a receipt on which the normalizer throws is left
    out. *)
Fixpoint normalizeFile (h : Host) (now : Z) (file : string) (raws : list JSValue)
    (index : nat) : list Receipt :=
  match raws with
  | [] => []
  | raw :: rest =>
      match normalizeReceipt h now raw index file with
      | Some r => r :: normalizeFile h now file rest (S index)
      | None => normalizeFile h now file rest (S index)
      end
  end.

(** A purchase of 21.37 followed by a refund of 1.38. *)
Definition saleAndRefund : list JSValue :=
  [scenarioReceipt "111";
   JObj [("transactionType", JStr "Refund");
         ("transactionDate", JStr "2024-03-20");
         ("warehouseNumber", JNum 123%float);
         ("transactionNumber", JNum 9%float);
         ("total", JNum (-1.38)%float);
         ("itemArray", JArr [])]].

(** A date range that starts at the epoch and has no end; every other
    filter is off. *)
Definition sinceEpoch : FilterState :=
  {| dateRange_start := Some (DateAt 0); dateRange_end := None;
     state_warehouse := JNull; state_channel := JNull;
     state_membershipNumber := None; state_searchTerm := None;
     state_transactionType := JNull; currentPreset := "custom" |}.

(** A receipt whose only date field does not parse. *)
Definition undatedReceipt : JSValue :=
  JObj [("transactionType", JStr "Sales");
        ("transactionDate", JStr "pending");
        ("warehouseNumber", JNum 123%float);
        ("transactionNumber", JNum 8%float);
        ("total", JNum 5%float);
        ("itemArray", JArr [])].

(** Two exports of the same transaction (same barcode): the first lists
    one item, the second lists two; and a third export that lists one
    other item. *)
Definition exportOf (items : list JSValue) : JSValue :=
  JObj [("transactionType", JStr "Sales");
        ("transactionDate", JStr "2024-03-15");
        ("transactionBarcode", JStr "21134300501862403151443");
        ("warehouseNumber", JNum 123%float);
        ("transactionNumber", JNum 7%float);
        ("total", JNum 25.98%float);
        ("itemArray", JArr items)].

Definition lineOf (n : string) (price : number) : JSValue :=
  JObj [("itemNumber", JStr n); ("amount", JNum price); ("unit", JNum 1%float);
        ("itemDescription01", JStr "KS ITEM")].

Definition shortExport : JSValue := exportOf [lineOf "111" 19.99%float].
Definition otherShortExport : JSValue := exportOf [lineOf "222" 5.99%float].
Definition fullExport : JSValue :=
  exportOf [lineOf "111" 19.99%float; lineOf "222" 5.99%float].

(** A fourth export of that transaction, which lists three items. *)
Definition longExport : JSValue :=
  exportOf [lineOf "111" 19.99%float; lineOf "222" 5.99%float;
            lineOf "333" 1.5%float].

(** A receipt whose [transactionType] is an object with a property
    [toString] of its own, as [JSON.parse] returns it for the text
    [{"toString": 0}]. *)
Definition unprintableType : JSValue :=
  JObj [("transactionType", JObj [("toString", JNum 0%float)]);
        ("transactionDate", JStr "2024-03-16");
        ("warehouseNumber", JNum 123%float);
        ("transactionNumber", JNum 12%float);
        ("total", JNum 5%float);
        ("itemArray", JArr [])].

(** The receipts that count towards the rewards: neither gas nor travel,
    and with a total that is not negative. *)
Definition countsForRewards (receipt : Receipt) : bool :=
  match isGasOrTravel receipt with
  | Some false => negb (PrimFloat.ltb (numOr (total receipt) 0%float) 0%float)
  | _ => false
  end.

(** The receipts assigned to the cycle year [year]: those that count and
    whose date [getCycleYear] maps to [year], in the order of the list. *)
Definition receiptsOfCycle (h : Host) (month day : number) (year : Z)
    (receipts : list Receipt) : list Receipt :=
  filter
    (fun r =>
       countsForRewards r
       && match getCycleYear h month day (transactionDateTime r) with
          | Some y => (y =? year)%Z
          | None => false
          end)
    receipts.

(** The qualifying subtotal of a cycle year: the qualifying subtotals of
    its receipts, added to zero in the order of the list. *)
Definition cycleSubtotal (h : Host) (month day : number) (excluded : list JSValue)
    (year : Z) (receipts : list Receipt) : number :=
  fold_left
    (fun s r => PrimFloat.add s (qualifyingSubtotal excluded (itemArray r)))
    (receiptsOfCycle h month day year receipts) 0%float.

(** The unrounded sum of the totals of the receipts that are not refunds,
    and the negated sum of the absolute totals of the refunds, both taken
    in the order of the list. *)
Definition grossSum (receipts : list Receipt) : number :=
  fold_left PrimFloat.add
    (map (fun r => numOr (total r) 0%float)
       (filter (fun r => negb (isRefund r)) receipts))
    0%float.

Definition refundSum (receipts : list Receipt) : number :=
  fold_left PrimFloat.sub
    (map (fun r => Math_abs (numOr (total r) 0%float)) (filter isRefund receipts))
    0%float.

(** A receipt of the day before the one of the scenario. *)
Definition dayBeforeReceipt : JSValue :=
  JObj [("transactionType", JStr "Sales");
        ("transactionDate", JStr "2024-03-14");
        ("warehouseNumber", JNum 123%float);
        ("transactionNumber", JNum 6%float);
        ("total", JNum 5.99%float);
        ("itemArray",
         JArr [JObj [("itemNumber", JStr "222"); ("amount", JNum 5.99%float);
                     ("unit", JNum 1%float);
                     ("itemDescription01", JStr "KS SOAP")]])].

(** A cycle that starts on the fifteenth of March. *)
Definition march15Cycle : RewardOptions :=
  {| cycleStartMonth := JNum 3%float; cycleStartDay := JNum 15%float;
     additionalExcludedDepartments := JUndefined |}.

(** The receipts of the fifteenth and of the fourteenth of March 2024,
    normalized on the host of the examples. *)
Definition marchReceipts : list Receipt :=
  normalizeFile exampleHost 0 "receipts.json"
    [scenarioReceipt "111"; dayBeforeReceipt] 0.

(** ** Facts about binary64 arithmetic *)

(** A text in which every white space character is a space that follows
    a character which is not white space; [afterSpace] tells whether the
    text follows a space (or starts the whole text). *)
Fixpoint singleSpaced (afterSpace : bool) (s : string) : bool :=
  match s with
  | EmptyString => true
  | String c s' =>
      if isWhiteSpace c
      then Ascii.eqb c " " && negb afterSpace && singleSpaced true s'
      else singleSpaced false s'
  end.

(** A discount line that refers to item 111. *)
Definition discountLine : JSValue :=
  JObj [("itemNumber", JStr "345"); ("amount", JNum (-2)%float);
        ("unit", JNum 0%float); ("itemDescription01", JStr "/111")].

(** The merge key of the receipt is a primitive value: [undefined],
    [null], a boolean, a number or a string.  A [Map] compares such keys
    by value; an array or object key is found again only as the same
    object, which a value of [JSValue] does not tell. *)
Definition primitiveKey (receipt : Receipt) : bool :=
  match dedupKey receipt with
  | JArr _ | JObj _ => false
  | _ => true
  end.

(** No receipt of the list has the same merge key as a later one. *)
Fixpoint distinctKeys (l : list Receipt) : bool :=
  match l with
  | [] => true
  | a :: rest =>
      negb (existsb (fun b => sameValueZero (dedupKey a) (dedupKey b)) rest)
      && distinctKeys rest
  end.

(** No key of the map is the same map key as a later one. *)
Fixpoint uniqueKeys (m : ReceiptMap) : Prop :=
  match m with
  | [] => True
  | (k, _) :: rest =>
      (forall k' r', In (k', r') rest -> sameValueZero k k' = false)
      /\ uniqueKeys rest
  end.

(** The map holds, for the receipt [a], an entry under the key of [a]
    whose receipt lists at least as many items. *)
Definition covers (m : ReceiptMap) (a : Receipt) : Prop :=
  exists k b, In (k, b) m
    /\ ((k = dedupKey a /\ b = a) \/ sameValueZero k (dedupKey a) = true)
    /\ (List.length (itemArray a) <= List.length (itemArray b))%nat.

(** The receipts that [applyFilters] keeps when it returns: the
    conjunction of the predicates of the filters that are switched on;
    [whNum] is the number that the warehouse filter was converted to. *)
Definition matchesFilters (whNum : number) (state : FilterState) (r : Receipt) : bool :=
  (if isSet (dateRange_start state) || isSet (dateRange_end state)
   then dateRangePredicate state r else true)
  && (if truthy (state_channel state) then channelPredicate state r else true)
  && (if negb (isNull (state_warehouse state))
         && negb (strictEqStr (state_warehouse state) "all")
      then if strictEqStr (state_warehouse state) "ONLINE" then onlinePredicate r
           else PrimFloat.eqb (warehouseNumber r) whNum
      else true)
  && (if isSet (truthyStr (state_membershipNumber state))
      then membershipPredicate state r else true)
  && (if truthy (state_transactionType state)
         && negb (strictEqStr (state_transactionType state) "all")
      then strictEq (transactionType r) (state_transactionType state) else true)
  && match truthyStr (state_searchTerm state) with
     | Some searchTerm => searchPredicate (toLowerCase searchTerm) r
     | None => true
     end.

(** The number that [applyFilters] compares the warehouse numbers with,
    where the warehouse filter asks for a number; [None] when the
    conversion throws. *)
Definition filterNumber (h : Host) (state : FilterState) : option number :=
  if negb (isNull (state_warehouse state))
     && negb (strictEqStr (state_warehouse state) "all")
     && negb (strictEqStr (state_warehouse state) "ONLINE")
  then toNumber h (state_warehouse state)
  else Some 0%float.

(** The three collections after one more item: the quantity map has the
    unique items as its keys, and the returned items are among them. *)
Definition setsAgree (a : Acc) : Prop :=
  map fst (itemNetQuantities a) = uniqueItemsSet a
  /\ NoDup (uniqueReturnedItemsSet a)
  /\ incl (uniqueReturnedItemsSet a) (uniqueItemsSet a).

(** The item lines of a list of receipts, in order, each with the
    identifier, date and warehouse of its receipt. *)
Definition indexedLines (receipts : list Receipt) : list DataStore.IndexedItem :=
  flat_map
    (fun r =>
       map (fun item =>
              {| DataStore.indexed := item; DataStore.receiptId := id r;
                 DataStore.receiptDate := transactionDateTime r;
                 DataStore.indexed_warehouseNumber := warehouseNumber r |})
           (itemArray r))
    receipts.

(** The filter state that asks what a store filter asks. *)
Definition stateOfStoreFilter (f : DataStore.StoreFilter) : FilterState :=
  {| dateRange_start := DataStore.startDate f;
     dateRange_end := DataStore.endDate f;
     state_warehouse :=
       (if truthy (DataStore.filter_warehouseNumber f)
        then DataStore.filter_warehouseNumber f else JNull);
     state_channel := JNull;
     state_membershipNumber := None;
     state_searchTerm :=
       match DataStore.filter_searchTerm f with
       | JStr term => Some term
       | _ => None
       end;
     state_transactionType := DataStore.filter_transactionType f;
     currentPreset := "custom" |}.

(** The date range of the store state [st] spans the dates of the
    receipts [seen]: every valid date lies within it, and its ends are
    dates of receipts. *)
Definition rangeInv (st : DataStore.State) (seen : list Receipt) : Prop :=
  (forall r t, In r seen -> transactionDateTime r = Some (DateAt t) ->
     exists lo hi,
       DataStore.dateRange_min st = Some (DateAt lo)
       /\ DataStore.dateRange_max st = Some (DateAt hi)
       /\ (lo <= t <= hi)%Z)
  /\ (forall d, DataStore.dateRange_min st = Some d ->
        exists r, In r seen /\ transactionDateTime r = Some d)
  /\ (forall d, DataStore.dateRange_max st = Some d ->
        exists r, In r seen /\ transactionDateTime r = Some d).

(** The store that holds the purchase and the refund of [saleAndRefund]. *)
Definition exampleStore : DataStore.State :=
  fst (DataStore.addReceipts
         (normalizeFile exampleHost 0 "receipts.json" saleAndRefund 0)
         DataStore.emptyState).

(** A store filter for the purchases at warehouse 123 since the epoch
    that mention water. *)
Definition exampleStoreFilter : DataStore.StoreFilter :=
  {| DataStore.startDate := Some (DateAt 0); DataStore.endDate := None;
     DataStore.filter_warehouseNumber := JNum 123%float;
     DataStore.filter_transactionType := JStr "Sales";
     DataStore.filter_searchTerm := JStr "water" |}.

(** No number of the list is the same set element as a later one. *)
Fixpoint distinctNumbers (l : list number) : bool :=
  match l with
  | [] => true
  | x :: rest => negb (existsb (DataStore.sameNumber x) rest) && distinctNumbers rest
  end.

(** The warehouse set of the store state [st] holds the numbers of the
    receipts [seen] that are neither zero nor NaN, each once. *)
Definition warehousesInv (st : DataStore.State) (seen : list Receipt) : Prop :=
  distinctNumbers (DataStore.warehouseSet st) = true
  /\ (forall w, In w (DataStore.warehouseSet st) ->
        truthyNum w = true /\ exists r, In r seen /\ warehouseNumber r = w)
  /\ (forall r, In r seen -> truthyNum (warehouseNumber r) = true ->
        existsb (DataStore.sameNumber (warehouseNumber r)) (DataStore.warehouseSet st) = true)
  /\ (List.length (DataStore.warehouseSet st) <= List.length seen)%nat.

(** The subscribers of an event: the content of the array stored under
    its name, none when the map has no such key. *)
Definition subscribersOf (eventName : string) (bus : EventBus.Bus)
    : list EventBus.Callback :=
  match EventBus.get eventName (EventBus.events bus) with
  | Some subscribers => EventBus.callbacks subscribers
  | None => []
  end.

(** A subscriber that only unsubscribes itself from the event. *)
Definition unsubscribesItself {World : Type} (eventName : string)
    (callback : EventBus.Callback)
    (call : EventBus.Callback -> JSValue -> World * EventBus.Bus -> World * EventBus.Bus)
    : Prop :=
  forall data state,
    call callback data state
    = (fst state,
       match EventBus.unsubscribe eventName callback (snd state) with
       | Some bus => bus
       | None => snd state
       end).

(** The validation step of a run of [handleFileProcessing]: the results
    of [validateJSONStructure] on the files that were read and parsed, in
    order, each [None] when the validator throws on that file. *)
Definition validationsOf (h : Host) (JSON_parse : string -> JSValue + string)
    (readResults : list FileProcessing.ReadResult) : list (option FileValidation) :=
  flat_map (fun parseResult =>
              match parseResult with
              | ParseOk data filename => [validateJSONStructure h data filename]
              | ParseFailed _ _ => []
              end)
    (filter FileProcessing.isParseOk
       (map (fun fileResult =>
               parseJSON JSON_parse
                 (match FileProcessing.read_content fileResult with
                  | Some c => c | None => "" end)
                 (FileProcessing.read_filename fileResult))
          (filter (fun r => isSet (FileProcessing.read_content r)) readResults))).

(** The valid files of the run: the accepted ones among the validation
    results, when the validator throws on no file. *)
Definition validFilesOf (h : Host) (JSON_parse : string -> JSValue + string)
    (readResults : list FileProcessing.ReadResult) : option (list FileValidation) :=
  do results <- mapM (fun result => result) (validationsOf h JSON_parse readResults) ;;
  Some (filter fileValid results).

(** A parser for the examples: an empty text is rejected, any other text
    stands for the purchase and the refund of [saleAndRefund]. *)
Definition exampleParse (content : string) : JSValue + string :=
  if String.eqb content "" then inr "Unexpected end of JSON input"
  else inl (JArr saleAndRefund).

(** A file that could not be read and one that was. *)
Definition exampleReads : list FileProcessing.ReadResult :=
  [{| FileProcessing.read_filename := "lost.json";
      FileProcessing.read_content := None |};
   {| FileProcessing.read_filename := "receipts.json";
      FileProcessing.read_content := Some "[...]" |}].

(** A receipt that passes validation although the French description of
    its item is a number. *)
Definition numberedDescription : JSValue :=
  JObj [("transactionType", JStr "Sales");
        ("transactionDate", JStr "2024-03-16");
        ("warehouseNumber", JNum 123%float);
        ("transactionNumber", JNum 11%float);
        ("total", JNum 5%float);
        ("itemArray",
         JArr [JObj [("itemNumber", JStr "333"); ("amount", JNum 5%float);
                     ("unit", JNum 1%float);
                     ("itemDescription01", JStr "KS SOAP");
                     ("frenchItemDescription1", JNum 1%float)]])].

Section FloatFacts.
Local Open Scope Z_scope.

(** Comparison facts on specification floats *)
Lemma cmp_cont_eq (m1 m2 : positive) : Pos.compare_cont Eq m1 m2 = Pos.compare m1 m2.
Proof. reflexivity. Qed.

Lemma SFleb_trans x y z : SFleb x y = true -> SFleb y z = true -> SFleb x z = true.
Proof.
  unfold SFleb, SFcompare; sf_cases; simpl; intros H1 H2;
    try discriminate; try reflexivity; cmp_props; try discriminate; try reflexivity; try lia.
Qed.

Lemma SFeqb_sym x y : SFeqb x y = SFeqb y x.
Proof.
  unfold SFeqb, SFcompare; sf_cases; simpl; try reflexivity; cmp_props; try reflexivity; try lia.
Qed.

Lemma SFeqb_trans x y z : SFeqb x y = true -> SFeqb y z = true -> SFeqb x z = true.
Proof.
  unfold SFeqb, SFcompare; sf_cases; simpl; intros H1 H2;
    try discriminate; try reflexivity; cmp_props; try discriminate; try reflexivity; try lia.
Qed.

Lemma SFltb_false_total x y :
  x <> S754_nan -> y <> S754_nan -> SFltb x y = false -> SFleb y x = true.
Proof.
  unfold SFltb, SFleb, SFcompare; sf_cases; simpl; intros H1 H2 H3;
    try congruence; try reflexivity; cmp_props; try discriminate; try reflexivity; try lia.
Qed.

Lemma iter_pos_nat {A} (f : A -> A) p x : iter_pos f p x = Nat.iter (Pos.to_nat p) f x.
Proof.
  revert x; induction p as [p IH|p IH|]; intros x.
  - change (iter_pos f p~1 x) with (iter_pos f p (iter_pos f p (f x))).
    rewrite !IH, Pos2Nat.inj_xI.
    replace (S (2 * Pos.to_nat p)) with (Pos.to_nat p + (Pos.to_nat p + 1))%nat by lia.
    rewrite !Nat.iter_add. reflexivity.
  - change (iter_pos f p~0 x) with (iter_pos f p (iter_pos f p x)).
    rewrite !IH, Pos2Nat.inj_xO.
    replace (2 * Pos.to_nat p)%nat with (Pos.to_nat p + Pos.to_nat p)%nat by lia.
    rewrite Nat.iter_add. reflexivity.
  - reflexivity.
Qed.

Lemma shr_1_nonneg m r s : 0 <= m ->
  shr_1 {| shr_m := m; shr_r := r; shr_s := s |}
  = {| shr_m := m / 2; shr_r := Z.odd m; shr_s := r || s |}.
Proof.
  intros Hm. destruct m as [|p|p]; try lia.
  - reflexivity.
  - destruct p as [p|p|]; unfold shr_1.
    + f_equal. rewrite Pos2Z.inj_xI. apply Z.div_unique with 1; lia.
    + f_equal. rewrite Pos2Z.inj_xO. apply Z.div_unique with 0; lia.
    + reflexivity.
Qed.

Lemma shifted_spec M n : 0 <= M ->
  shr_m (shifted M n) = M / 2 ^ Z.of_nat n /\
  (match n with
   | O => shr_r (shifted M n) = false /\ shr_s (shifted M n) = false
   | S k => shr_r (shifted M n) = Z.odd (M / 2 ^ Z.of_nat k) /\
            shr_s (shifted M n) = negb (M mod 2 ^ Z.of_nat k =? 0)
   end).
Proof.
  intros HM. induction n as [|n IH].
  - simpl. rewrite Z.div_1_r. auto.
  - destruct IH as [Hm Hrs].
    unfold shifted in *. rewrite Nat.iter_succ.
    destruct (Nat.iter n shr_1 _) as [m r s] eqn:E. cbn [shr_m shr_r shr_s] in Hm, Hrs.
    assert (0 <= m) by (subst m; apply Z.div_pos; [lia | apply Z.pow_pos_nonneg; lia]).
    rewrite shr_1_nonneg by assumption. cbn [shr_m shr_r shr_s]. split.
    + subst m. rewrite Nat2Z.inj_succ, Z.pow_succ_r by lia.
      rewrite Z.div_div by (try apply Z.pow_pos_nonneg; lia). f_equal. lia.
    + split; [congruence|].
      destruct n as [|k].
      * destruct Hrs as [-> ->]. change (Z.of_nat 0) with 0. rewrite Z.pow_0_r, Z.mod_1_r. reflexivity.
      * destruct Hrs as [-> ->].
        rewrite (Nat2Z.inj_succ k), Z.pow_succ_r by lia.
        set (P := 2 ^ Z.of_nat k) in *.
        assert (0 < P) by (apply Z.pow_pos_nonneg; lia).
        pose proof (Z.div_mod M P ltac:(lia)).
        pose proof (Z.mod_pos_bound M P ltac:(lia)).
        pose proof (Z.div_mod M (2 * P) ltac:(lia)).
        pose proof (Z.mod_pos_bound M (2 * P) ltac:(lia)).
        pose proof (Z.div_mod (M / P) 2 ltac:(lia)).
        pose proof (Z.mod_pos_bound (M / P) 2 ltac:(lia)).
        rewrite <- (Z.negb_even (M / P)). rewrite Zeven_mod.
        assert (Hq : M / (2 * P) = M / P / 2).
        { rewrite Z.mul_comm. rewrite Z.div_div; lia. }
        destruct (Z.eqb_spec ((M / P) mod 2) 0), (Z.eqb_spec (M mod P) 0),
                 (Z.eqb_spec (M mod (2 * P)) 0); simpl; try reflexivity; nia.
Qed.

Lemma shifted_rne M n : 0 <= M ->
  round_nearest_even (shr_m (shifted M n)) (loc_of_shr_record (shifted M n))
  = rne M (Z.of_nat n).
Proof.
  intros HM. destruct (shifted_spec M n HM) as [Hm Hrs].
  destruct (shifted M n) as [m r s]. cbn [shr_m shr_r shr_s] in *. unfold rne.
  destruct n as [|k].
  - destruct Hrs as [-> ->]. change (Z.of_nat 0) with 0 in *.
    rewrite Z.pow_0_r, Z.mod_1_r, Z.div_1_r in *. simpl. lia.
  - destruct Hrs as [-> ->].
    rewrite (Nat2Z.inj_succ k), Z.pow_succ_r in * by lia.
    set (P := 2 ^ Z.of_nat k) in *.
    assert (0 < P) by (apply Z.pow_pos_nonneg; lia).
    pose proof (Z.div_mod M P ltac:(lia)).
    pose proof (Z.mod_pos_bound M P ltac:(lia)).
    pose proof (Z.div_mod M (2 * P) ltac:(lia)).
    pose proof (Z.mod_pos_bound M (2 * P) ltac:(lia)).
    pose proof (Z.div_mod (M / P) 2 ltac:(lia)).
    pose proof (Z.mod_pos_bound (M / P) 2 ltac:(lia)).
    assert (Hq : M / (2 * P) = M / P / 2).
    { rewrite Z.mul_comm. rewrite Z.div_div; lia. }
    rewrite <- Hm.
    pose proof (Z.div_mod m 2 ltac:(lia)).
    pose proof (Z.mod_pos_bound m 2 ltac:(lia)).
    unfold round_nearest_even, loc_of_shr_record.
    rewrite <- (Z.negb_even (M / P)). rewrite (Zeven_mod (M / P)), (Zeven_mod m).
    destruct (Z.eqb_spec ((M / P) mod 2) 0), (Z.eqb_spec (M mod P) 0),
             (Z.eqb_spec (m mod 2) 0),
             (Z.ltb_spec (2 * P) (2 * (M mod (2 * P)))),
             (Z.eqb_spec (2 * P) (2 * (M mod (2 * P)))); cbn [negb]; try reflexivity; try nia.
    all: idtac.
Qed.

(** Properties of [rne] *)
Lemma rne_bounds M n : 0 <= n -> M / 2 ^ n <= rne M n <= M / 2 ^ n + 1.
Proof.
  intros Hn. unfold rne.
  destruct (_ <? _); [lia|]. destruct (_ =? _); [|lia]. destruct (Z.even _); lia.
Qed.

Lemma rne_mono M1 M2 n : 0 <= n -> M1 <= M2 -> rne M1 n <= rne M2 n.
Proof.
  intros Hn HM. unfold rne.
  set (P := 2 ^ n). assert (0 < P) by (apply Z.pow_pos_nonneg; lia).
  pose proof (Z.div_mod M1 P ltac:(lia)).
  pose proof (Z.mod_pos_bound M1 P ltac:(lia)).
  pose proof (Z.div_mod M2 P ltac:(lia)).
  pose proof (Z.mod_pos_bound M2 P ltac:(lia)).
  assert (M1 / P <= M2 / P) by (apply Z.div_le_mono; lia).
  destruct (Z.eq_dec (M1 / P) (M2 / P)) as [E|E].
  - rewrite E in *.
    destruct (Z.ltb_spec P (2 * (M1 mod P))), (Z.ltb_spec P (2 * (M2 mod P))),
             (Z.eqb_spec P (2 * (M1 mod P))), (Z.eqb_spec P (2 * (M2 mod P)));
      destruct (Z.even (M2 / P)); lia.
  - destruct (Z.ltb_spec P (2 * (M1 mod P))), (Z.ltb_spec P (2 * (M2 mod P))),
             (Z.eqb_spec P (2 * (M1 mod P))), (Z.eqb_spec P (2 * (M2 mod P)));
      destruct (Z.even (M2 / P)); destruct (Z.even (M1 / P)); lia.
Qed.

Lemma rne_scale M n j : 0 <= n -> 0 <= j -> rne (M * 2 ^ j) (n + j) = rne M n.
Proof.
  intros Hn Hj. unfold rne.
  rewrite Z.pow_add_r by lia.
  set (P := 2 ^ n). set (Q := 2 ^ j).
  assert (0 < P) by (apply Z.pow_pos_nonneg; lia).
  assert (0 < Q) by (apply Z.pow_pos_nonneg; lia).
  rewrite Z.div_mul_cancel_r by lia.
  rewrite Z.mul_mod_distr_r by lia.
  pose proof (Z.mod_pos_bound M P ltac:(lia)).
  destruct (Z.ltb_spec (P * Q) (2 * (M mod P * Q))), (Z.ltb_spec P (2 * (M mod P))),
           (Z.eqb_spec (P * Q) (2 * (M mod P * Q))), (Z.eqb_spec P (2 * (M mod P)));
    try reflexivity; nia.
Qed.

Lemma rne_0 M : rne M 0 = M.
Proof.
  unfold rne. rewrite Z.pow_0_r, Z.div_1_r, Z.mod_1_r. reflexivity.
Qed.

(** Number of binary digits *)
Lemma digits2_size p : digits2_pos p = Pos.size p.
Proof. induction p; simpl; congruence. Qed.

Lemma Zdigits2_bounds p :
  2 ^ (Zdigits2 (Z.pos p) - 1) <= Z.pos p < 2 ^ Zdigits2 (Z.pos p).
Proof.
  unfold Zdigits2. rewrite digits2_size.
  pose proof (Pos.size_gt p) as G. pose proof (Pos.size_le p) as L.
  apply Pos2Z.pos_lt_pos in G. apply Pos2Z.pos_le_pos in L.
  rewrite Pos2Z.inj_pow in *.
  split; [|exact G].
  replace (Z.pos (Pos.size p)) with (Z.succ (Z.pos (Pos.size p) - 1)) in L by lia.
  rewrite Z.pow_succ_r in L by lia. lia.
Qed.

Lemma Zdigits2_unique m d : 0 < d -> 2 ^ (d - 1) <= m < 2 ^ d -> Zdigits2 m = d.
Proof.
  intros Hd [L U].
  assert (0 < m) by (pose proof (Z.pow_pos_nonneg 2 (d - 1)); lia).
  destruct m as [|p|p]; try lia.
  pose proof (Zdigits2_bounds p) as [L' U'].
  set (d' := Zdigits2 (Z.pos p)) in *.
  assert (0 < d') by (subst d'; simpl; lia).
  destruct (Z.lt_trichotomy d d') as [C|[C|C]]; [|symmetry; assumption|].
  - assert (2 ^ d <= 2 ^ (d' - 1)) by (apply Z.pow_le_mono_r; lia). lia.
  - assert (2 ^ d' <= 2 ^ (d - 1)) by (apply Z.pow_le_mono_r; lia). lia.
Qed.

Lemma Zdigits2_mono m1 m2 : 0 < m1 <= m2 -> Zdigits2 m1 <= Zdigits2 m2.
Proof.
  intros [H1 H2]. destruct m1 as [|p1|p1]; try lia. destruct m2 as [|p2|p2]; try lia.
  pose proof (Zdigits2_bounds p1) as [L1 U1]. pose proof (Zdigits2_bounds p2) as [L2 U2].
  set (d1 := Zdigits2 (Z.pos p1)) in *. set (d2 := Zdigits2 (Z.pos p2)) in *.
  assert (0 < d1) by (subst d1; simpl; lia).
  destruct (Z.le_gt_cases d1 d2) as [C|C]; [assumption|].
  assert (2 ^ d2 <= 2 ^ (d1 - 1)) by (apply Z.pow_le_mono_r; lia). lia.
Qed.

Lemma Zdigits2_scale m j : 0 < m -> 0 <= j -> Zdigits2 (m * 2 ^ j) = Zdigits2 m + j.
Proof.
  intros Hm Hj. destruct m as [|p|p]; try lia.
  pose proof (Zdigits2_bounds p) as [L U].
  set (d := Zdigits2 (Z.pos p)) in *.
  assert (0 < d) by (subst d; simpl; lia).
  apply Zdigits2_unique; [lia|].
  replace (d + j - 1) with ((d - 1) + j) by lia.
  rewrite !Z.pow_add_r by lia.
  assert (0 < 2 ^ j) by (apply Z.pow_pos_nonneg; lia).
  split; [apply Z.mul_le_mono_nonneg_r; lia | apply Z.mul_lt_mono_pos_r; lia].
Qed.

Lemma fexp_fexp64 e : fexp prec emax e = fexp64 e.
Proof. reflexivity. Qed.

Lemma shr_exact M E n : 0 <= M -> 0 <= n ->
  round_nearest_even
    (shr_m (fst (shr {| shr_m := M; shr_r := false; shr_s := false |} E n)))
    (loc_of_shr_record (fst (shr {| shr_m := M; shr_r := false; shr_s := false |} E n)))
  = rne M n
  /\ snd (shr {| shr_m := M; shr_r := false; shr_s := false |} E n) = E + n
  /\ shr_m (fst (shr {| shr_m := M; shr_r := false; shr_s := false |} E n)) = M / 2 ^ n.
Proof.
  intros HM Hn. destruct n as [|q|q]; try lia.
  - cbn [shr fst snd shr_m loc_of_shr_record round_nearest_even].
    rewrite rne_0, Z.pow_0_r, Z.div_1_r. lia.
  - cbn [shr fst snd]. rewrite iter_pos_nat.
    change (Nat.iter (Pos.to_nat q) shr_1 {| shr_m := M; shr_r := false; shr_s := false |})
      with (shifted M (Pos.to_nat q)).
    rewrite shifted_rne by assumption.
    destruct (shifted_spec M (Pos.to_nat q) HM) as [-> _].
    rewrite positive_nat_Z. auto.
Qed.

Lemma pow52 : 2 ^ 52 = 4503599627370496. Proof. reflexivity. Qed.
Lemma pow53 : 2 ^ 53 = 9007199254740992. Proof. reflexivity. Qed.

Lemma Zdigits2_le_53 m : 0 < m < 2 ^ 53 -> 0 < Zdigits2 m <= 53.
Proof.
  intros [L U]. destruct m as [|p|p]; try lia.
  pose proof (Zdigits2_bounds p) as [L' U'].
  set (d := Zdigits2 (Z.pos p)) in *.
  assert (0 < d) by (subst d; simpl; lia). split; [assumption|].
  destruct (Z.le_gt_cases d 53) as [C|C]; [assumption|].
  assert (2 ^ 53 <= 2 ^ (d - 1)) by (apply Z.pow_le_mono_r; lia). lia.
Qed.

Lemma div_pow_bounds M a n :
  0 <= n -> 0 <= a -> 2 ^ (a + n) <= M < 2 ^ (a + 1 + n) ->
  2 ^ a <= M / 2 ^ n < 2 ^ (a + 1).
Proof.
  intros Hn Ha [L U]. rewrite !Z.pow_add_r in * by lia.
  assert (0 < 2 ^ n) by (apply Z.pow_pos_nonneg; lia).
  split.
  - apply Z.div_le_lower_bound; lia.
  - apply Z.div_lt_upper_bound; lia.
Qed.

Theorem binary_round_aux_ofRank sx p E :
  E <= fexp64 (Zdigits2 (Z.pos p) + E) ->
  binary_round_aux prec emax sx (Z.pos p) E loc_Exact = ofRank sx (rank64 (Z.pos p) E).
Proof.
  intros Hn.
  pose proof (Zdigits2_bounds p) as [DL DU].
  unfold binary_round_aux, shr_fexp. rewrite !fexp_fexp64.
  cbn [shr_record_of_loc].
  set (M := Z.pos p) in *. set (d := Zdigits2 M) in *.
  assert (Hd : 0 < d) by (subst d M; simpl; lia).
  set (e1 := fexp64 (d + E)) in *.
  destruct (shr_exact M E (e1 - E) ltac:(lia) ltac:(lia)) as (Hr & He & Hm).
  destruct (shr {| shr_m := M; shr_r := false; shr_s := false |} E (e1 - E))
    as [mrs e'] eqn:S1.
  cbn [fst snd] in Hr, He, Hm. rewrite Hr.
  replace e' with e1 by lia. rewrite ?fexp_fexp64.
  set (m1 := rne M (e1 - E)) in *.
  pose proof (rne_bounds M (e1 - E) ltac:(lia)) as [BL BU]. fold m1 in BL, BU.
  unfold rank64. fold d e1 m1.
  assert (He1 : e1 = d + E - 53 /\ -1074 <= d + E - 53 \/ e1 = -1074 /\ d + E - 53 < -1074)
    by (subst e1; unfold fexp64; lia).
  destruct He1 as [[He1 Hnorm]|[He1 Hsub]].
  - (* normal range *)
    assert (Hq : 2 ^ 52 <= M / 2 ^ (e1 - E) < 2 ^ (52 + 1)).
    { apply div_pow_bounds; try lia.
      replace (52 + (e1 - E)) with (d - 1) by lia.
      replace (52 + 1 + (e1 - E)) with d by lia. lia. }
    change (52 + 1) with 53 in Hq. rewrite pow52, pow53 in Hq.
    destruct (Z.eq_dec m1 9007199254740992) as [Htop|Htop].
    + (* the mantissa overflows to the next binade *)
      rewrite Htop.
      change (Zdigits2 9007199254740992) with 54.
      assert (F2 : fexp64 (54 + e1) - e1 = 1) by (unfold fexp64; lia).
      rewrite F2.
      cbn [shr iter_pos shr_1 fst snd shr_m].
      unfold ofRank. rewrite pow52, pow53.
      assert (Hk : ((e1 + 1074) * 4503599627370496 + 9007199254740992) / 4503599627370496
                   = e1 + 1074 + 2).
      { symmetry. apply Z.div_unique with 0; lia. }
      rewrite Hk.
      destruct (Z.leb_spec ((e1 + 1074) * 4503599627370496 + 9007199254740992) 0); [lia|].
      destruct (Z.ltb_spec ((e1 + 1074) * 4503599627370496 + 9007199254740992)
                  9007199254740992); [lia|].
      replace (e1 + 1074 + 2 - 1 - 1074) with (e1 + 1) by lia.
      change (emax - prec) with 971.
      destruct (Z.leb_spec (e1 + 1) 971); [|reflexivity].
      f_equal.
      replace ((e1 + 1074) * 4503599627370496 + 9007199254740992
               - (e1 + 1074 + 2 - 1) * 4503599627370496) with 4503599627370496 by lia.
      reflexivity.
    + assert (Hm1 : 4503599627370496 <= m1 < 9007199254740992) by lia.
      assert (Zdigits2 m1 = 53).
      { apply Zdigits2_unique; [lia|]. change (53 - 1) with 52.
        rewrite pow52, pow53. exact Hm1. }
      assert (F2 : fexp64 (Zdigits2 m1 + e1) - e1 = 0) by (unfold fexp64; lia).
      rewrite F2. cbn [shr fst snd shr_m].
      destruct m1 as [|q|q] eqn:Em1; try lia.
      change (emax - prec) with 971.
      unfold ofRank. rewrite pow52, pow53.
      destruct (Z.leb_spec ((e1 + 1074) * 4503599627370496 + Z.pos q) 0); [lia|].
      destruct (Z.ltb_spec ((e1 + 1074) * 4503599627370496 + Z.pos q) 9007199254740992).
      * assert (Ez : e1 = -1074) by lia. rewrite Ez.
        change (-1074 + 1074) with 0. rewrite Z.mul_0_l, Z.add_0_l. reflexivity.
      * assert (Hk : ((e1 + 1074) * 4503599627370496 + Z.pos q) / 4503599627370496
                     = e1 + 1074 + 1).
        { symmetry. apply Z.div_unique with (Z.pos q - 4503599627370496); lia. }
        rewrite Hk.
        replace (e1 + 1074 + 1 - 1 - 1074) with e1 by lia.
        destruct (Z.leb_spec e1 971); [|reflexivity].
        f_equal.
        replace ((e1 + 1074) * 4503599627370496 + Z.pos q
                 - (e1 + 1074 + 1 - 1) * 4503599627370496) with (Z.pos q) by lia.
        reflexivity.
  - (* subnormal range *)
    assert (Hq : M / 2 ^ (e1 - E) < 2 ^ 52).
    { apply Z.div_lt_upper_bound; [apply Z.pow_pos_nonneg; lia|].
      rewrite <- Z.pow_add_r by lia.
      apply Z.lt_le_trans with (2 ^ d); [lia|].
      apply Z.pow_le_mono_r; lia. }
    rewrite pow52 in Hq.
    assert (0 <= M / 2 ^ (e1 - E))
      by (apply Z.div_pos; [lia | apply Z.pow_pos_nonneg; lia]).
    replace (e1 + 1074) with 0 by lia. rewrite Z.mul_0_l, Z.add_0_l.
    destruct m1 as [|q|q] eqn:Em1; try lia.
    + cbn [Zdigits2]. assert (F2 : fexp64 (0 + e1) - e1 = 0) by (unfold fexp64; lia).
      rewrite F2. reflexivity.
    + assert (Hdq : 0 < Zdigits2 (Z.pos q) <= 53)
        by (apply Zdigits2_le_53; rewrite pow53; lia).
      assert (F2 : fexp64 (Zdigits2 (Z.pos q) + e1) - e1 = 0) by (unfold fexp64; lia).
      rewrite F2. cbn [shr fst snd shr_m].
      change (emax - prec) with 971.
      destruct (Z.leb_spec e1 971); [|lia].
      unfold ofRank. rewrite pow53.
      destruct (Z.leb_spec (Z.pos q) 0); [lia|].
      destruct (Z.ltb_spec (Z.pos q) 9007199254740992); [|lia].
      simpl. f_equal. lia.
Qed.

Lemma rank64_scale M E j :
  0 < M -> 0 <= j -> E <= fexp64 (Zdigits2 M + E) ->
  rank64 (M * 2 ^ j) (E - j) = rank64 M E.
Proof.
  intros HM Hj Hn. unfold rank64.
  rewrite Zdigits2_scale by lia.
  replace (Zdigits2 M + j + (E - j)) with (Zdigits2 M + E) by lia.
  set (e1 := fexp64 (Zdigits2 M + E)) in *.
  replace (e1 - (E - j)) with ((e1 - E) + j) by lia.
  rewrite rne_scale by lia. reflexivity.
Qed.

Lemma rne_upper M E :
  0 < M -> E <= fexp64 (Zdigits2 M + E) ->
  rne M (fexp64 (Zdigits2 M + E) - E) <= 2 ^ 53.
Proof.
  intros HM Hn. destruct M as [|p|p]; try lia.
  pose proof (Zdigits2_bounds p) as [DL DU].
  set (d := Zdigits2 (Z.pos p)) in *. set (e1 := fexp64 (d + E)) in *.
  pose proof (rne_bounds (Z.pos p) (e1 - E) ltac:(lia)) as [_ BU].
  assert (Z.pos p / 2 ^ (e1 - E) < 2 ^ 53); [|lia].
  apply Z.div_lt_upper_bound; [apply Z.pow_pos_nonneg; lia|].
  rewrite <- Z.pow_add_r by lia.
  apply Z.lt_le_trans with (2 ^ d); [lia|].
  apply Z.pow_le_mono_r; [lia|]. subst e1. unfold fexp64. lia.
Qed.

Lemma rne_lower M E :
  0 < M -> -1074 < fexp64 (Zdigits2 M + E) -> E <= fexp64 (Zdigits2 M + E) ->
  2 ^ 52 <= rne M (fexp64 (Zdigits2 M + E) - E).
Proof.
  intros HM Hnorm Hn. destruct M as [|p|p]; try lia.
  pose proof (Zdigits2_bounds p) as [DL DU].
  set (d := Zdigits2 (Z.pos p)) in *. set (e1 := fexp64 (d + E)) in *.
  pose proof (rne_bounds (Z.pos p) (e1 - E) ltac:(lia)) as [BL _].
  assert (He1 : e1 = d + E - 53) by (subst e1; unfold fexp64 in *; lia).
  assert (2 ^ 52 <= Z.pos p / 2 ^ (e1 - E)); [|lia].
  apply Z.div_le_lower_bound; [apply Z.pow_pos_nonneg; lia|].
  rewrite Z.mul_comm, <- Z.pow_add_r by lia.
  replace (52 + (e1 - E)) with (d - 1) by lia. exact DL.
Qed.

Lemma rank64_mono M1 M2 E :
  0 < M1 <= M2 -> E <= fexp64 (Zdigits2 M1 + E) -> rank64 M1 E <= rank64 M2 E.
Proof.
  intros [H1 H2] Hn.
  pose proof (Zdigits2_mono M1 M2 ltac:(lia)) as Hd.
  assert (Hn2 : E <= fexp64 (Zdigits2 M2 + E)) by (unfold fexp64 in *; lia).
  pose proof (rne_upper M1 E H1 Hn) as U1.
  unfold rank64.
  set (e1 := fexp64 (Zdigits2 M1 + E)) in *.
  set (e2 := fexp64 (Zdigits2 M2 + E)) in *.
  assert (He : e1 <= e2) by (subst e1 e2; unfold fexp64; lia).
  destruct (Z.eq_dec e1 e2) as [Eq|Ne].
  - rewrite <- Eq. pose proof (rne_mono M1 M2 (e1 - E) ltac:(lia) H2). lia.
  - assert (Hnorm : -1074 < e2) by (subst e1 e2; unfold fexp64 in *; lia).
    pose proof (rne_lower M2 E ltac:(lia) Hnorm Hn2) as L2. fold e2 in L2.
    rewrite pow52 in *. rewrite pow53 in *. nia.
Qed.

Lemma rank64_nonneg M E : 0 < M -> E <= fexp64 (Zdigits2 M + E) -> 0 <= rank64 M E.
Proof.
  intros HM Hn. unfold rank64.
  set (e1 := fexp64 (Zdigits2 M + E)) in *.
  pose proof (rne_bounds M (e1 - E) ltac:(lia)) as [BL _].
  assert (0 <= M / 2 ^ (e1 - E)) by (apply Z.div_pos; [lia | apply Z.pow_pos_nonneg; lia]).
  assert (-1074 <= e1) by (subst e1; unfold fexp64; lia).
  rewrite pow52. nia.
Qed.

(** [ofRank] is monotone in the rank. *)
Lemma ofRank_mono K1 K2 :
  K1 <= K2 ->
  SFleb (ofRank false K1) (ofRank false K2) = true
  /\ SFleb (ofRank true K2) (ofRank true K1) = true.
Proof.
  intros HK. unfold ofRank. rewrite pow52, pow53.
  destruct (Z.leb_spec K1 0), (Z.leb_spec K2 0); try lia.
  - split; reflexivity.
  - destruct (Z.ltb_spec K2 9007199254740992); [split; reflexivity|].
    destruct (_ <=? 971); split; reflexivity.
  - pose proof (Z.div_mod K1 4503599627370496 ltac:(lia)) as D1.
    pose proof (Z.mod_pos_bound K1 4503599627370496 ltac:(lia)) as B1.
    pose proof (Z.div_mod K2 4503599627370496 ltac:(lia)) as D2.
    pose proof (Z.mod_pos_bound K2 4503599627370496 ltac:(lia)) as B2.
    assert (Q : K1 / 4503599627370496 <= K2 / 4503599627370496)
      by (apply Z.div_le_mono; lia).
    set (q1 := K1 / 4503599627370496) in *. set (q2 := K2 / 4503599627370496) in *.
    destruct (Z.ltb_spec K1 9007199254740992), (Z.ltb_spec K2 9007199254740992); try lia.
    + unfold SFleb, SFcompare. rewrite Z.compare_refl.
      change (Pos.compare_cont Eq (Z.to_pos K1) (Z.to_pos K2))
        with (Pos.compare (Z.to_pos K1) (Z.to_pos K2)).
      change (Pos.compare_cont Eq (Z.to_pos K2) (Z.to_pos K1))
        with (Pos.compare (Z.to_pos K2) (Z.to_pos K1)).
      rewrite (Pos.compare_antisym (Z.to_pos K1) (Z.to_pos K2)).
      destruct (Pos.compare_spec (Z.to_pos K1) (Z.to_pos K2)); simpl; auto; lia.
    + destruct (Z.leb_spec (q2 - 1 - 1074) 971); [|split; reflexivity].
      unfold SFleb, SFcompare.
      destruct (Z.compare_spec (-1074) (q2 - 1 - 1074)); try lia.
      destruct (Z.compare_spec (q2 - 1 - 1074) (-1074)); try lia; auto.
    + destruct (Z.leb_spec (q1 - 1 - 1074) 971), (Z.leb_spec (q2 - 1 - 1074) 971);
        try lia; try (split; reflexivity).
      unfold SFleb, SFcompare.
      destruct (Z.compare_spec (q1 - 1 - 1074) (q2 - 1 - 1074)),
               (Z.compare_spec (q2 - 1 - 1074) (q1 - 1 - 1074)); try lia; auto.
      change (Pos.compare_cont Eq ?a ?b) with (Pos.compare a b).
      rewrite (Pos.compare_antisym (Z.to_pos (K1 - (q1 - 1) * 4503599627370496))).
      destruct (Pos.compare_spec (Z.to_pos (K1 - (q1 - 1) * 4503599627370496))
                  (Z.to_pos (K2 - (q2 - 1) * 4503599627370496))); simpl; auto; lia.
Qed.

(** Valid binary64 numbers *)
Lemma valid_finite s m e :
  valid_binary (S754_finite s m e) = true ->
  e = fexp64 (Zdigits2 (Z.pos m) + e) /\ e <= 971.
Proof.
  unfold SpecFloat.valid_binary, bounded, canonical_mantissa.
  rewrite andb_true_iff, Z.eqb_eq, Z.leb_le. rewrite fexp_fexp64.
  change (emax - prec) with 971. intros [H1 H2]. split; [symmetry; exact H1 | exact H2].
Qed.

Lemma Zdigits2_lower m k : 0 <= k -> 2 ^ k <= m -> k + 1 <= Zdigits2 m.
Proof.
  intros Hk H. assert (0 < m) by (pose proof (Z.pow_pos_nonneg 2 k); lia).
  destruct m as [|p|p]; try lia.
  pose proof (Zdigits2_bounds p) as [L U].
  set (d := Zdigits2 (Z.pos p)) in *.
  destruct (Z.le_gt_cases (k + 1) d) as [C|C]; [assumption|].
  assert (0 < d) by (subst d; simpl; lia).
  assert (2 ^ d <= 2 ^ k) by (apply Z.pow_le_mono_r; lia). lia.
Qed.

Lemma Zdigits2_pos p : 0 < Zdigits2 (Z.pos p).
Proof. simpl. lia. Qed.

Lemma Zdigits2_mul p q :
  Zdigits2 (Z.pos p) + Zdigits2 (Z.pos q) - 1 <= Zdigits2 (Z.pos (p * q)).
Proof.
  pose proof (Zdigits2_bounds p) as [Lp _]. pose proof (Zdigits2_bounds q) as [Lq _].
  pose proof (Zdigits2_pos p). pose proof (Zdigits2_pos q).
  set (dp := Zdigits2 (Z.pos p)) in *. set (dq := Zdigits2 (Z.pos q)) in *.
  replace (dp + dq - 1) with ((dp - 1) + (dq - 1) + 1) by lia.
  apply Zdigits2_lower; [lia|].
  rewrite Z.pow_add_r by lia. rewrite Pos2Z.inj_mul.
  apply Z.mul_le_mono_nonneg; try lia; apply Z.pow_nonneg; lia.
Qed.

(** The exact product of two valid numbers never needs a left shift. *)
Lemma mul_exponent_ok sx mx ex sy my ey :
  valid_binary (S754_finite sx mx ex) = true ->
  valid_binary (S754_finite sy my ey) = true ->
  ex + ey <= fexp64 (Zdigits2 (Z.pos (mx * my)) + (ex + ey)).
Proof.
  intros Vx Vy. apply valid_finite in Vx, Vy.
  destruct Vx as [Vx _], Vy as [Vy _].
  pose proof (Zdigits2_mul mx my). pose proof (Zdigits2_pos mx). pose proof (Zdigits2_pos my).
  unfold fexp64 in *. lia.
Qed.

Lemma SFmul_finite sx mx ex sy my ey :
  valid_binary (S754_finite sx mx ex) = true ->
  valid_binary (S754_finite sy my ey) = true ->
  SFmul prec emax (S754_finite sx mx ex) (S754_finite sy my ey)
  = ofRank (xorb sx sy) (rank64 (Z.pos (mx * my)) (ex + ey)).
Proof.
  intros Vx Vy. unfold SFmul.
  apply binary_round_aux_ofRank. eapply mul_exponent_ok; eassumption.
Qed.

(** The shape of a decoded number. *)
Lemma ofRank_shape s K :
  ofRank s K = S754_zero s \/ ofRank s K = S754_infinity s
  \/ exists m e, ofRank s K = S754_finite s m e.
Proof.
  unfold ofRank. destruct (_ <=? _); [auto|].
  destruct (_ <? _); [eauto|]. destruct (_ <=? _); eauto.
Qed.

(** Multiplication by a positive number preserves the order of the rank. *)
Lemma rank64_mul_mono mx ex my ey mc ec :
  valid_binary (S754_finite false mx ex) = true ->
  valid_binary (S754_finite false my ey) = true ->
  valid_binary (S754_finite false mc ec) = true ->
  SFleb (S754_finite false mx ex) (S754_finite false my ey) = true ->
  rank64 (Z.pos (mx * mc)) (ex + ec) <= rank64 (Z.pos (my * mc)) (ey + ec).
Proof.
  intros Vx Vy Vc Hle.
  pose proof (mul_exponent_ok _ _ _ _ _ _ Vx Vc) as Ox.
  pose proof (mul_exponent_ok _ _ _ _ _ _ Vy Vc) as Oy.
  apply valid_finite in Vx, Vy. destruct Vx as [Vx _], Vy as [Vy _].
  unfold SFleb, SFcompare in Hle.
  change (Pos.compare_cont Eq mx my) with (Pos.compare mx my) in Hle.
  destruct (Z.compare_spec ex ey) as [Ee|Elt|Egt]; try discriminate.
  - subst ey. apply rank64_mono; [|assumption].
    destruct (Pos.compare_spec mx my); try discriminate; rewrite !Pos2Z.inj_mul; nia.
  - rewrite <- (rank64_scale (Z.pos (my * mc)) (ey + ec) (ey - ex)) by (try lia; assumption).
    replace (ey + ec - (ey - ex)) with (ex + ec) by lia.
    apply rank64_mono; [|assumption].
    pose proof (Zdigits2_bounds mx) as [_ Ux]. pose proof (Zdigits2_bounds my) as [Ly _].
    assert (Zdigits2 (Z.pos my) = 53) by (unfold fexp64 in *; lia).
    assert (Zdigits2 (Z.pos mx) <= 53) by (unfold fexp64 in *; lia).
    assert (Z.pos mx < 2 ^ 53).
    { apply Z.lt_le_trans with (2 ^ Zdigits2 (Z.pos mx)); [lia|].
      apply Z.pow_le_mono_r; lia. }
    replace (Zdigits2 (Z.pos my) - 1) with 52 in Ly by lia.
    assert (2 ^ 1 <= 2 ^ (ey - ex)) by (apply Z.pow_le_mono_r; lia).
    rewrite pow52 in *. rewrite pow53 in *. change (2 ^ 1) with 2 in *.
    rewrite !Pos2Z.inj_mul. split; [lia|].
    assert (Z.pos mx <= Z.pos my * 2 ^ (ey - ex)) by nia.
    nia.
Qed.

Lemma SFleb_decode_cases s K :
  SFleb (S754_infinity true) (ofRank s K) = true
  /\ SFleb (ofRank s K) (S754_infinity false) = true
  /\ (forall z, SFleb (ofRank true K) (S754_zero z) = true)
  /\ (forall z, SFleb (S754_zero z) (ofRank false K) = true)
  /\ (forall K', SFleb (ofRank true K) (ofRank false K') = true).
Proof.
  repeat split; intros;
    destruct (ofRank_shape s K) as [E|[E|(m & e & E)]];
    destruct (ofRank_shape true K) as [E1|[E1|(m1 & e1 & E1)]];
    destruct (ofRank_shape false K) as [E2|[E2|(m2 & e2 & E2)]];
    try (destruct (ofRank_shape false K') as [E3|[E3|(m3 & e3 & E3)]]; rewrite E3);
    rewrite ?E, ?E1, ?E2; destruct s; reflexivity.
Qed.

(** Multiplication by a positive finite number is monotone. *)
Lemma SFmul_mono x y mc ec :
  valid_binary x = true -> valid_binary y = true ->
  valid_binary (S754_finite false mc ec) = true ->
  SFleb x y = true ->
  SFleb (SFmul prec emax x (S754_finite false mc ec))
        (SFmul prec emax y (S754_finite false mc ec)) = true.
Proof.
  intros Vx Vy Vc Hle.
  destruct x as [sx|sx| |sx mx ex], y as [sy|sy| |sy my ey];
    try (rewrite (SFmul_finite sx mx ex) by assumption);
    try (rewrite (SFmul_finite sy my ey) by assumption);
    try discriminate;
    try (destruct sx; try discriminate); try (destruct sy; try discriminate);
    cbn [SFmul xorb];
    try reflexivity;
    try apply (proj1 (SFleb_decode_cases _ _));
    try apply (proj1 (proj2 (SFleb_decode_cases _ _)));
    try apply (proj1 (proj2 (proj2 (SFleb_decode_cases true _))));
    try apply (proj1 (proj2 (proj2 (proj2 (SFleb_decode_cases true _)))));
    try apply (proj2 (proj2 (proj2 (proj2 (SFleb_decode_cases true _))))).
  - (* both negative: the order of the magnitudes is reversed *)
    apply ofRank_mono. apply rank64_mul_mono; try assumption.
    unfold SFleb, SFcompare in *.
    change (Pos.compare_cont Eq ?a ?b) with (Pos.compare a b) in *.
    rewrite (Z.compare_antisym ex ey), (Pos.compare_antisym mx my).
    destruct (ex ?= ey); simpl in *; try discriminate; try reflexivity.
    destruct (mx ?= my)%positive; simpl in *; try discriminate; reflexivity.
  - apply ofRank_mono. apply rank64_mul_mono; assumption.
Qed.

(** Left alignment and [binary_round] *)
Lemma iter_xO m d : Z.pos (Pos.iter xO m d) = Z.pos m * 2 ^ Z.pos d.
Proof.
  induction d as [|d IH] using Pos.peano_ind.
  - simpl. lia.
  - rewrite Pos.iter_succ, Pos2Z.inj_xO, IH, Pos2Z.inj_succ, Z.pow_succ_r by lia. lia.
Qed.

Lemma binary_round_shape sx m e :
  exists K, binary_round prec emax sx m e = ofRank sx K.
Proof.
  unfold binary_round, shl_align. rewrite fexp_fexp64.
  change (Z.pos (digits2_pos m)) with (Zdigits2 (Z.pos m)).
  set (e' := fexp64 (Zdigits2 (Z.pos m) + e)).
  destruct (e' - e) as [|d|d] eqn:Ed.
  - eexists. apply binary_round_aux_ofRank. fold e'. lia.
  - eexists. apply binary_round_aux_ofRank. fold e'. lia.
  - eexists. apply binary_round_aux_ofRank.
    rewrite iter_xO.
    rewrite Zdigits2_scale by lia.
    replace (Zdigits2 (Z.pos m) + Z.pos d + e') with (Zdigits2 (Z.pos m) + e) by lia.
    fold e'. lia.
Qed.

(** A difference of a non-positive and a non-negative number is
    non-positive. *)
Lemma SFsub_nonpos x y :
  SFleb x (S754_zero false) = true -> SFleb (S754_zero false) y = true ->
  SFleb (SFsub prec emax x y) (S754_zero false) = true.
Proof.
  intros Hx Hy.
  destruct x as [sx|[|]| |[|] mx ex]; try discriminate;
  destruct y as [sy|[|]| |[|] my ey]; try discriminate;
    try (destruct sx); try (destruct sy); try reflexivity.
  unfold SFsub, binary_normalize, cond_Zopp.
  set (a := Z.pos (fst (shl_align mx ex (Z.min ex ey)))).
  set (b := Z.pos (fst (shl_align my ey (Z.min ex ey)))).
  assert (Hneg : - a - b < 0) by (subst a b; lia).
  destruct (- a - b) as [|q|q]; try lia.
  destruct (binary_round_shape true q (Z.min ex ey)) as [K ->].
  apply SFleb_decode_cases. exact true.
Qed.

(** *** Primitive floats *)
Local Open Scope float_scope.

Lemma SFeqb_refl x : x <> S754_nan -> SFeqb x x = true.
Proof.
  intros H. destruct x as [s|s| |s m e]; try congruence; unfold SFeqb, SFcompare.
  - reflexivity.
  - destruct s; reflexivity.
  - rewrite Z.compare_refl.
    change (Pos.compare_cont Eq m m) with (Pos.compare m m). rewrite Pos.compare_refl.
    destruct s; reflexivity.
Qed.

Lemma float_is_nan_spec x : is_nan x = true <-> Prim2SF x = S754_nan.
Proof.
  unfold is_nan. rewrite FloatAxioms.eqb_spec. split.
  - intros H. destruct (Prim2SF x) eqn:E; try reflexivity;
      rewrite SFeqb_refl in H by congruence; discriminate.
  - intros ->. reflexivity.
Qed.

Lemma float_is_nan_false x : is_nan x = false <-> Prim2SF x <> S754_nan.
Proof.
  rewrite <- float_is_nan_spec. destruct (is_nan x); split; congruence.
Qed.

Lemma float_leb_not_nan x y : (x <=? y) = true -> is_nan x = false /\ is_nan y = false.
Proof.
  rewrite FloatAxioms.leb_spec, !float_is_nan_false. unfold SFleb, SFcompare.
  destruct (Prim2SF x), (Prim2SF y); split; congruence.
Qed.

Lemma float_leb_trans x y z : (x <=? y) = true -> (y <=? z) = true -> (x <=? z) = true.
Proof. rewrite !FloatAxioms.leb_spec. apply SFleb_trans. Qed.

Lemma float_leb_refl x : is_nan x = false -> (x <=? x) = true.
Proof.
  rewrite FloatAxioms.leb_spec, float_is_nan_false. intros H.
  pose proof (SFeqb_refl _ H) as E. unfold SFeqb, SFleb in *.
  destruct (SFcompare _ _) as [[| |]|]; congruence.
Qed.

Lemma float_ltb_leb x y : (x <? y) = true -> (x <=? y) = true.
Proof.
  rewrite FloatAxioms.ltb_spec, FloatAxioms.leb_spec. unfold SFltb, SFleb.
  destruct (SFcompare _ _) as [[| |]|]; congruence.
Qed.

Lemma float_ltb_false_leb x y :
  is_nan x = false -> is_nan y = false -> (x <? y) = false -> (y <=? x) = true.
Proof.
  rewrite FloatAxioms.ltb_spec, FloatAxioms.leb_spec, !float_is_nan_false. intros. apply SFltb_false_total; assumption.
Qed.

Lemma SFleb_SFltb_false x y : SFleb x y = true -> SFltb y x = false.
Proof.
  unfold SFltb, SFleb, SFcompare; sf_cases; simpl; intros H1;
    try discriminate; try reflexivity; cmp_props; try discriminate; try reflexivity; try lia.
Qed.

Lemma float_leb_ltb_false x y : (x <=? y) = true -> (y <? x) = false.
Proof. rewrite FloatAxioms.ltb_spec, FloatAxioms.leb_spec. apply SFleb_SFltb_false. Qed.

Lemma float_eqb_sym x y : (x =? y) = (y =? x).
Proof. rewrite !FloatAxioms.eqb_spec. apply SFeqb_sym. Qed.

Lemma float_eqb_trans x y z : (x =? y) = true -> (y =? z) = true -> (x =? z) = true.
Proof. rewrite !FloatAxioms.eqb_spec. apply SFeqb_trans. Qed.

Lemma float_eqb_not_nan x y : (x =? y) = true -> is_nan x = false /\ is_nan y = false.
Proof.
  rewrite FloatAxioms.eqb_spec, !float_is_nan_false. unfold SFeqb, SFcompare.
  destruct (Prim2SF x), (Prim2SF y); split; congruence.
Qed.

Lemma float_mul_comm x y : x * y = y * x.
Proof.
  apply Prim2SF_inj. rewrite !FloatAxioms.mul_spec. unfold SF64mul, SFmul.
  destruct (Prim2SF x) as [sx|sx| |sx mx ex], (Prim2SF y) as [sy|sy| |sy my ey];
    rewrite ?(xorb_comm sx sy); try reflexivity.
  rewrite (Pos.mul_comm mx my), (Z.add_comm ex ey). reflexivity.
Qed.

(** Multiplication by a positive finite constant is monotone. *)
Lemma float_mul_mono_r c x y mc ec :
  Prim2SF c = S754_finite false mc ec ->
  (x <=? y) = true -> (x * c <=? y * c) = true.
Proof.
  intros Hc. rewrite !FloatAxioms.leb_spec, !FloatAxioms.mul_spec, Hc. unfold SF64mul.
  apply SFmul_mono; try apply Prim2SF_valid.
  rewrite <- Hc. apply Prim2SF_valid.
Qed.

(** Subtracting a magnitude keeps a running total non-positive. *)
Lemma float_sub_abs_nonpos r t :
  (r <=? 0) = true -> is_nan t = false -> (r - abs t <=? 0) = true.
Proof.
  rewrite !FloatAxioms.leb_spec, FloatAxioms.sub_spec, FloatAxioms.abs_spec, float_is_nan_false.
  change (Prim2SF 0) with (S754_zero false).
  intros Hr Ht. apply SFsub_nonpos; [assumption|].
  destruct (Prim2SF t) as [s|s| |s m e]; try congruence; reflexivity.
Qed.

End FloatFacts.

(** ** Properties of the pipeline *)

(** *** Discount and return classification *)

Lemma isReturn_not_discount (amount unit : number) (hasRef : bool) :
  isReturn amount unit hasRef = true -> classifyDiscount amount unit hasRef = false.
Proof.
  intros H. unfold classifyDiscount. rewrite H.
  unfold isReturn in H. apply andb_true_iff in H. destruct H as [_ H].
  apply negb_true_iff in H. rewrite H.
  destruct (PrimFloat.ltb amount 0); reflexivity.
Qed.

Lemma normalizeItem_classification (h : Host) (item : JSValue) (n : Item) :
  normalizeItem h item = Some n ->
  exists hasRef,
    hasItemReference (itemActualName n) (itemDescription01 n)
      (field item "frenchItemDescription1") = Some hasRef
    /\ isDiscount n = classifyDiscount (amount n) (unit n) hasRef.
Proof.
  unfold normalizeItem. destruct (isNullish item); [discriminate|].
  cbv zeta. unbind.
  intros H. injection H as <-. cbn [itemActualName itemDescription01 isDiscount amount unit].
  eexists. split; [eassumption | reflexivity].
Qed.

(** C3: the classifications computed by [normalizeItem] are mutually
    exclusive.  Whenever a raw item normalizes, an item that satisfies the
    return condition (negative amount, negative unit and no item-reference
    prefix) is not a discount, so [isDiscount] and [isReturn] are never
    both true. *)
Theorem C3_discount_return_exclusive (h : Host) (item : JSValue) (n : Item) :
  normalizeItem h item = Some n ->
  exists hasRef,
    hasItemReference (itemActualName n) (itemDescription01 n)
      (field item "frenchItemDescription1") = Some hasRef
    /\ (PrimFloat.ltb (amount n) 0 = true -> PrimFloat.ltb (unit n) 0 = true ->
        hasRef = false -> isDiscount n = false)
    /\ isDiscount n && isReturn (amount n) (unit n) hasRef = false.
Proof.
  intros H. destruct (normalizeItem_classification h item n H) as (hasRef & E & D).
  exists hasRef. split; [exact E|]. split.
  - intros Ha Hu Hr. rewrite D. apply isReturn_not_discount.
    unfold isReturn. rewrite Ha, Hu, Hr. reflexivity.
  - destruct (isReturn (amount n) (unit n) hasRef) eqn:R.
    + rewrite D, (isReturn_not_discount _ _ _ R). reflexivity.
    + apply andb_false_r.
Qed.

Lemma C3_discount_return_exclusive_witness :
  normalizeItem exampleHost returnLine = Some returnItem
  /\ exists hasRef,
       hasItemReference (itemActualName returnItem) (itemDescription01 returnItem)
         (field returnLine "frenchItemDescription1") = Some hasRef
       /\ (PrimFloat.ltb (amount returnItem) 0 = true ->
           PrimFloat.ltb (unit returnItem) 0 = true ->
           hasRef = false -> isDiscount returnItem = false)
       /\ isDiscount returnItem && isReturn (amount returnItem) (unit returnItem) hasRef = false.
Proof.
  split; [vm_compute; reflexivity|].
  apply (C3_discount_return_exclusive exampleHost returnLine returnItem).
  vm_compute; reflexivity.
Defined.

(** *** Re-normalization *)

Lemma normalizeReceipt_original (h : Host) (now : Z) (raw : JSValue) (index : nat)
    (file : string) (r : Receipt) :
  normalizeReceipt h now raw index file = Some r -> _original r = raw.
Proof.
  unfold normalizeReceipt. destruct (isNullish raw); [discriminate|]. cbv zeta.
  unbind. intros H. injection H as <-. reflexivity.
Qed.

Lemma normalizeReceipt_clock (h : Host) (now now' : Z) (raw : JSValue) (index : nat)
    (file : string) :
  normalizeReceipt h now' raw index file
  = option_map (setProcessedAt (DateAt now')) (normalizeReceipt h now raw index file).
Proof.
  unfold normalizeReceipt. destruct (isNullish raw); [reflexivity|]. cbv zeta.
  repeat match goal with
  | |- bind ?e _ = option_map _ (bind ?e _) => destruct e; cbn [bind]; [|reflexivity]
  end.
  reflexivity.
Qed.

Lemma normalizeReceipt_processedAt (h : Host) (now : Z) (raw : JSValue) (index : nat)
    (file : string) (r : Receipt) :
  normalizeReceipt h now raw index file = Some r -> processedAt r = DateAt now.
Proof.
  unfold normalizeReceipt. destruct (isNullish raw); [discriminate|]. cbv zeta.
  unbind. intros H. injection H as <-. reflexivity.
Qed.

(** C7 (amended): re-normalizing the retained [_original] payload with
    the same index and source file yields the first canonical receipt in
    every field except [processedAt], which holds the clock reading of the
    second call; with the same clock reading the two receipts are
    identical. *)
Theorem C7_renormalize_original (h : Host) (now now' : Z) (raw : JSValue)
    (index : nat) (file : string) (r : Receipt) :
  normalizeReceipt h now raw index file = Some r ->
  _original r = raw
  /\ normalizeReceipt h now' (_original r) index file
     = Some (setProcessedAt (DateAt now') r)
  /\ normalizeReceipt h now (_original r) index file = Some r.
Proof.
  intros H. pose proof (normalizeReceipt_original _ _ _ _ _ _ H) as O.
  rewrite O. split; [reflexivity|]. split.
  - rewrite (normalizeReceipt_clock h now now'), H. reflexivity.
  - exact H.
Qed.

Lemma C7_renormalize_original_witness :
  exists r,
    normalizeReceipt exampleHost 1000 (scenarioReceipt "111") 0 "receipts.json" = Some r
    /\ _original r = scenarioReceipt "111"
    /\ normalizeReceipt exampleHost 2000 (_original r) 0 "receipts.json"
       = Some (setProcessedAt (DateAt 2000) r)
    /\ normalizeReceipt exampleHost 1000 (_original r) 0 "receipts.json" = Some r.
Proof.
  destruct (normalizeReceipt exampleHost 1000 (scenarioReceipt "111") 0 "receipts.json")
    as [r|] eqn:E; [|vm_compute in E; discriminate].
  exists r. split; [reflexivity|].
  apply (C7_renormalize_original exampleHost 1000 2000 (scenarioReceipt "111") 0
           "receipts.json" r E).
Defined.

(** C7 as stated fails: a second normalization at a later clock reading
    returns a receipt that differs from the first one. *)
Lemma C7_renormalize_not_identical :
  exists r,
    normalizeReceipt exampleHost 1000 (scenarioReceipt "111") 0 "receipts.json" = Some r
    /\ normalizeReceipt exampleHost 2000 (_original r) 0 "receipts.json" <> Some r.
Proof.
  destruct (normalizeReceipt exampleHost 1000 (scenarioReceipt "111") 0 "receipts.json")
    as [r|] eqn:E; [|vm_compute in E; discriminate].
  exists r. split; [reflexivity|].
  rewrite (normalizeReceipt_original _ _ _ _ _ _ E).
  rewrite (normalizeReceipt_clock exampleHost 1000 2000), E. cbn [option_map].
  pose proof (normalizeReceipt_processedAt _ _ _ _ _ _ E) as P.
  intros H. injection H as H. apply (f_equal processedAt) in H.
  rewrite P in H. cbn [setProcessedAt processedAt] in H. discriminate.
Qed.

(** *** Filters *)

Lemma In_condFilter {A : Type} (c : bool) (p : A -> bool) (l : list A) (x : A) :
  In x (if c then filter p l else l) -> In x l.
Proof. destruct c; [rewrite filter_In; tauto | tauto]. Qed.

Lemma applyFilters_incl (h : Host) (state : FilterState) (receipts kept : list Receipt)
    (r : Receipt) :
  applyFilters h state receipts = Some kept ->
  In r kept ->
  In r (if isSet (dateRange_start state) || isSet (dateRange_end state)
        then filter (dateRangePredicate state) receipts else receipts).
Proof.
  unfold applyFilters. cbv zeta.
  set (dated := if isSet (dateRange_start state) || isSet (dateRange_end state)
                then filter (dateRangePredicate state) receipts else receipts).
  intros E H.
  destruct (negb (isNull (state_warehouse state))
            && negb (strictEqStr (state_warehouse state) "all"));
    [destruct (strictEqStr (state_warehouse state) "ONLINE");
       [|destruct (toNumber h (state_warehouse state)); [|discriminate E]]|];
    cbn [bind] in E; injection E as E; rewrite <- E in H; clear E;
    repeat match type of H with
         | In _ dated => exact H
         | In _ (filter _ _) => apply filter_In in H; destruct H as [H _]
         | In _ (if ?c then _ else _) => destruct c
         | In _ (match ?c with Some _ => _ | None => _ end) => destruct c
         end.
Qed.

(** C9: whenever a date-range bound is set, [applyFilters] excludes every
    receipt whose [transactionDateTime] is [null] from the list it
    returns, whatever the other filters are.  (The call returns a list
    unless the warehouse filter is a value that cannot be converted to a
    number, on which it throws.) *)
Theorem C9_null_date_excluded (h : Host) (state : FilterState)
    (receipts : list Receipt) (r : Receipt) :
  isSet (dateRange_start state) || isSet (dateRange_end state) = true ->
  transactionDateTime r = None ->
  forall kept, applyFilters h state receipts = Some kept -> ~ In r kept.
Proof.
  intros Hset Hnull kept E Hin. apply (applyFilters_incl _ _ _ _ _ E) in Hin.
  rewrite Hset in Hin.
  apply filter_In in Hin. destruct Hin as [_ Hp].
  unfold dateRangePredicate in Hp. rewrite Hnull in Hp. discriminate.
Qed.

(** *** File validation *)

Lemma validateAll_valid (h : Host) (data : list JSValue) :
  forall i checked,
  validateAll h data i = Some checked ->
  fst (fst checked)
  = map snd
      (filter (fun ir => passes h (snd ir) (fst ir))
         (combine (seq i (List.length data)) data)).
Proof.
  induction data as [|receipt rest IH]; intros i checked.
  - intros H. injection H as <-. reflexivity.
  - cbn [validateAll List.length seq combine filter fst snd]. unfold passes at 1.
    destruct (validateReceipt h receipt i) as [validation|]; [|discriminate].
    cbn [bind]. specialize (IH (S i)).
    destruct (validateAll h rest (S i)) as [[[vs es] ws]|]; [|discriminate].
    cbn [bind]. specialize (IH _ eq_refl). cbn [fst] in IH.
    destruct (valid validation); intros H; injection H as <-;
      cbn [fst map snd]; congruence.
Qed.

Lemma validateAll_throws (h : Host) (data : list JSValue) :
  forall i,
  validateAll h data i = None
  <-> exists k receipt,
        nth_error data k = Some receipt
        /\ validateReceipt h receipt (i + k) = None.
Proof.
  induction data as [|receipt rest IH]; intros i.
  - split; [discriminate | intros ([|k] & x & H & _); discriminate H].
  - cbn [validateAll].
    destruct (validateReceipt h receipt i) as [validation|] eqn:V; cbn [bind].
    + specialize (IH (S i)).
      destruct (validateAll h rest (S i)) as [[[vs es] ws]|]; cbn [bind].
      * split; [destruct (valid validation); discriminate|].
        intros ([|k] & x & H & T); cbn [nth_error] in H.
        -- injection H as <-. rewrite Nat.add_0_r in T. congruence.
        -- assert (F : Some (vs, es, ws) = None); [|discriminate F].
           apply IH. exists k, x. split; [exact H|].
           rewrite Nat.add_succ_comm. exact T.
      * split; [intros _|reflexivity].
        destruct (proj1 IH eq_refl) as (k & x & H & T).
        exists (S k), x. split; [exact H|]. rewrite <- Nat.add_succ_comm. exact T.
    + split; [intros _|reflexivity].
      exists 0%nat, receipt. split; [reflexivity|]. rewrite Nat.add_0_r. exact V.
Qed.

Lemma validateJSONStructure_array (h : Host) (receipt : JSValue) (rest : list JSValue)
    (fname : string) (v : FileValidation) :
  validateJSONStructure h (JArr (receipt :: rest)) fname = Some v ->
  let vs := validReceiptsOf h (receipt :: rest) in
  receipts v = vs
  /\ fileValid v = (0 <? List.length vs)%nat
  /\ totalCount v = Some (List.length (receipt :: rest))
  /\ validCount v = Some (List.length vs)
  /\ invalidCount v = Some (List.length (receipt :: rest) - List.length vs)%nat.
Proof.
  cbv zeta. unfold validateJSONStructure, validReceiptsOf.
  destruct (validateAll h (receipt :: rest) 0) as [[[vs es] ws]|] eqn:A; [|discriminate].
  cbn [bind]. intros H. injection H as <-.
  rewrite <- (validateAll_valid h (receipt :: rest) 0 _ A).
  cbn [fst receipts fileValid totalCount validCount invalidCount]. auto.
Qed.

Lemma validateJSONStructure_throws (h : Host) (data : JSValue) (fname : string) :
  validateJSONStructure h data fname = None
  <-> exists l index receipt,
        data = JArr l /\ nth_error l index = Some receipt
        /\ validateReceipt h receipt index = None.
Proof.
  destruct data as [| | b | x | s | [|receipt rest] | props];
    try (split; [discriminate | intros (l & k & x' & E & _); discriminate E]).
  - split; [discriminate|]. intros (l & [|k] & x & E & N & _); injection E as <-; discriminate N.
  - unfold validateJSONStructure.
    destruct (validateAll h (receipt :: rest) 0) as [[[vs es] ws]|] eqn:A; cbn [bind].
    + split; [discriminate|]. intros (l & k & x & E & N & T). injection E as <-.
      assert (F : validateAll h (receipt :: rest) 0 = None)
        by (apply validateAll_throws; exists k, x; split; assumption).
      congruence.
    + split; [intros _|reflexivity].
      destruct (proj1 (validateAll_throws h (receipt :: rest) 0) A) as (k & x & N & T).
      exists (receipt :: rest), k, x. split; [reflexivity|]. split; assumption.
Qed.

(** A receipt whose [transactionType] is an object with a property
    [toString] of its own makes the validator throw. *)
Lemma validateReceipt_throws_on_type (h : Host) (props : list (string * JSValue))
    (inner : list (string * JSValue)) (index : nat) :
  lookupProp "transactionType" props = JObj inner ->
  hasOwn "toString" inner = true ->
  validateReceipt h (JObj props) index = None.
Proof.
  intros T O. unfold validateReceipt.
  cbn [JS.not truthy isTypeObject negb orb field]. cbv zeta. rewrite T.
  cbn [truthy strictEqStr existsb validTypes negb andb orb toString]. rewrite O.
  destruct (match lookupProp "itemArray" props with JArr [] => _ | JArr (_ :: _) => _ | _ => _ end)
    as [errors warnings]. reflexivity.
Qed.

(** C8, on the input on which the code fails the claim: the first receipt
    of the file passes the validation, the second one has a
    [transactionType] that cannot be converted to a string, and
    [validateJSONStructure] throws in place of accepting the file with
    the first receipt. *)
Theorem C8_validator_throws :
  passes exampleHost (scenarioReceipt "111") 0 = true
  /\ validateReceipt exampleHost unprintableType 1 = None
  /\ validateJSONStructure exampleHost
       (JArr [scenarioReceipt "111"; unprintableType]) "receipts.json" = None.
Proof.
  split; [vm_compute; reflexivity|].
  assert (T : validateReceipt exampleHost unprintableType 1 = None)
    by (apply (validateReceipt_throws_on_type exampleHost _ [("toString", JNum 0%float)]);
        reflexivity).
  split; [exact T|].
  apply validateJSONStructure_throws.
  exists [scenarioReceipt "111"; unprintableType], 1%nat, unprintableType.
  split; [reflexivity|]. split; [reflexivity | exact T].
Qed.

(** *** Merge *)

Lemma sameValueZero_sym (a b : JSValue) : sameValueZero a b = sameValueZero b a.
Proof.
  destruct a, b; try reflexivity; cbn [sameValueZero].
  - destruct b, b0; reflexivity.
  - rewrite (andb_comm (isNaN x)), float_eqb_sym. reflexivity.
  - apply String.eqb_sym.
Qed.

Lemma sameValueZero_trans (a b c : JSValue) :
  sameValueZero a b = true -> sameValueZero b c = true -> sameValueZero a c = true.
Proof.
  destruct a, b; try discriminate; destruct c; try discriminate; cbn [sameValueZero];
    try reflexivity.
  - destruct b, b0, b1; auto.
  - unfold isNaN. intros H1 H2.
    apply orb_true_iff in H1. apply orb_true_iff in H2. apply orb_true_iff.
    destruct H1 as [H1|H1], H2 as [H2|H2].
    + apply andb_true_iff in H1, H2. left. apply andb_true_iff. tauto.
    + apply andb_true_iff in H1. apply float_eqb_not_nan in H2.
      destruct H1 as [_ H1], H2 as [H2 _]. congruence.
    + apply andb_true_iff in H2. apply float_eqb_not_nan in H1.
      destruct H1 as [_ H1], H2 as [H2 _]. congruence.
    + right. eapply float_eqb_trans; eassumption.
  - rewrite !String.eqb_eq. congruence.
Qed.

Lemma sameValueZero_false_l (x a b : JSValue) :
  sameValueZero x a = false -> sameValueZero a b = true -> sameValueZero x b = false.
Proof.
  intros H1 H2. destruct (sameValueZero x b) eqn:E; [|reflexivity].
  rewrite (sameValueZero_sym a b) in H2.
  rewrite (sameValueZero_trans x b a E H2) in H1. discriminate.
Qed.

Lemma mapGet_fresh k m : freshKey k m -> mapGet k m = None.
Proof.
  induction m as [|[k' r] m IH]; intros F; [reflexivity|].
  cbn [mapGet]. rewrite (F k' r (or_introl eq_refl)).
  apply IH. intros k2 r2 Hin. apply (F k2 r2). right. exact Hin.
Qed.

Lemma mapSet_fresh k r m : freshKey k m -> mapSet k r m = (m ++ [(k, r)])%list.
Proof.
  induction m as [|[k' r'] m IH]; intros F; [reflexivity|].
  cbn [mapSet app]. rewrite (F k' r' (or_introl eq_refl)).
  rewrite IH; [reflexivity|]. intros k2 r2 Hin. apply (F k2 r2). right. exact Hin.
Qed.

Lemma mapGet_hit k k0 r m1 m2 :
  freshKey k m1 -> sameValueZero k0 k = true ->
  mapGet k (m1 ++ (k0, r) :: m2)%list = Some r.
Proof.
  induction m1 as [|[k' r'] m1 IH]; intros F Hk; cbn [mapGet app].
  - rewrite Hk. reflexivity.
  - rewrite (F k' r' (or_introl eq_refl)).
    apply IH; [|exact Hk]. intros k2 r2 Hin. apply (F k2 r2). right. exact Hin.
Qed.

Lemma mapSet_hit k k0 r r' m1 m2 :
  freshKey k m1 -> sameValueZero k0 k = true ->
  mapSet k r' (m1 ++ (k0, r) :: m2)%list = (m1 ++ (k0, r') :: m2)%list.
Proof.
  induction m1 as [|[k1 r1] m1 IH]; intros F Hk; cbn [mapSet app].
  - rewrite Hk. reflexivity.
  - rewrite (F k1 r1 (or_introl eq_refl)).
    rewrite IH; [reflexivity| |exact Hk]. intros k2 r2 Hin. apply (F k2 r2). right. exact Hin.
Qed.

(** Lookups and updates at a key other than the one stored at a position
    depend neither on the key nor on the receipt stored there. *)
Lemma mapGet_skip k k0 r m1 m2 :
  sameValueZero k0 k = false ->
  mapGet k (m1 ++ (k0, r) :: m2)%list = mapGet k (m1 ++ m2)%list.
Proof.
  intros Hk. induction m1 as [|[k1 r1] m1 IH]; cbn [mapGet app].
  - rewrite Hk. reflexivity.
  - rewrite IH. reflexivity.
Qed.

Lemma mapSet_fresh_pres k k2 x m :
  sameValueZero k k2 = false -> freshKey k2 m -> freshKey k2 (mapSet k x m).
Proof.
  intros Hk. induction m as [|[k1 r1] m IH]; intros F; cbn [mapSet].
  - intros k' r' [H|[]]. injection H as <- <-. exact Hk.
  - destruct (sameValueZero k1 k) eqn:E.
    + intros k' r' [H|H].
      * injection H as <- <-. apply (F k1 r1). left. reflexivity.
      * apply (F k' r'). right. exact H.
    + intros k' r' [H|H].
      * injection H as <- <-. apply (F k1 r1). left. reflexivity.
      * refine (IH _ k' r' H). intros k3 r3 H3. apply (F k3 r3). right. exact H3.
Qed.

Lemma freshKey_app k m1 m2 : freshKey k (m1 ++ m2)%list <-> freshKey k m1 /\ freshKey k m2.
Proof.
  unfold freshKey. split.
  - intros F. split; intros k' r H; apply (F k' r); apply in_or_app; auto.
  - intros [F1 F2] k' r H. apply in_app_or in H. destruct H; eauto.
Qed.

Lemma mapSet_other k x m1 m2 :
  exists m1' m2',
    (forall k0 r, sameValueZero k0 k = false ->
       mapSet k x (m1 ++ (k0, r) :: m2)%list = (m1' ++ (k0, r) :: m2')%list)
    /\ (forall k2, sameValueZero k k2 = false -> freshKey k2 m1 -> freshKey k2 m1')
    /\ (forall k2, sameValueZero k k2 = false -> freshKey k2 m2 -> freshKey k2 m2').
Proof.
  induction m1 as [|[k1 r1] m1 IH].
  - exists [], (mapSet k x m2). split; [|split].
    + intros k0 r Hk. cbn [app mapSet]. rewrite Hk. reflexivity.
    + intros; assumption.
    + intros k2 Hk2 F. apply mapSet_fresh_pres; assumption.
  - destruct (sameValueZero k1 k) eqn:E1.
    + exists ((k1, x) :: m1), m2. split; [|split].
      * intros k0 r Hk. cbn [app mapSet]. rewrite E1. reflexivity.
      * intros k2 Hk2 F k' r' [Hin|Hin].
        -- injection Hin as <- <-. apply (F k1 r1). left. reflexivity.
        -- apply (F k' r'). right. exact Hin.
      * intros; assumption.
    + destruct IH as (m1' & m2' & Heq & Hf1 & Hf2).
      exists ((k1, r1) :: m1'), m2'. split; [|split].
      * intros k0 r Hk. cbn [app mapSet]. rewrite E1, (Heq k0 r Hk). reflexivity.
      * intros k2 Hk2 F k' r' [Hi|Hi].
        -- injection Hi as <- <-. apply (F k1 r1). left. reflexivity.
        -- refine (Hf1 k2 Hk2 _ k' r' Hi).
           intros k3 r3 H3. apply (F k3 r3). right. exact H3.
      * exact Hf2.
Qed.

Lemma mergeStep_other x m1 m2 :
  exists m1' m2',
    (forall k0 r, sameValueZero k0 (dedupKey x) = false ->
       mergeStep (m1 ++ (k0, r) :: m2)%list x = (m1' ++ (k0, r) :: m2')%list)
    /\ (forall k2, sameValueZero (dedupKey x) k2 = false -> freshKey k2 m1 -> freshKey k2 m1')
    /\ (forall k2, sameValueZero (dedupKey x) k2 = false -> freshKey k2 m2 -> freshKey k2 m2').
Proof.
  destruct (mapSet_other (dedupKey x) x m1 m2) as (s1 & s2 & Hs & Hf1 & Hf2).
  assert (Hkeep : exists m1' m2',
             (forall k0 r, (m1 ++ (k0, r) :: m2)%list = (m1' ++ (k0, r) :: m2')%list)
             /\ (forall k2, sameValueZero (dedupKey x) k2 = false ->
                            freshKey k2 m1 -> freshKey k2 m1')
             /\ (forall k2, sameValueZero (dedupKey x) k2 = false ->
                            freshKey k2 m2 -> freshKey k2 m2'))
    by (exists m1, m2; auto).
  unfold mergeStep. cbv zeta.
  destruct (mapGet (dedupKey x) (m1 ++ m2)%list) as [existing|] eqn:G.
  - destruct (List.length (itemArray existing) <? List.length (itemArray x))%nat eqn:L.
    + exists s1, s2. split; [|split; assumption].
      intros k0 r Hk. rewrite (mapGet_skip _ _ _ _ _ Hk), G, L. apply Hs. exact Hk.
    + destruct Hkeep as (m1' & m2' & Hm & Hk1 & Hk2).
      exists m1', m2'. split; [|split; assumption].
      intros k0 r Hk. rewrite (mapGet_skip _ _ _ _ _ Hk), G, L. apply Hm.
  - exists s1, s2. split; [|split; assumption].
    intros k0 r Hk. rewrite (mapGet_skip _ _ _ _ _ Hk), G. apply Hs. exact Hk.
Qed.

Lemma mergeAll_others l : forall m1 m2,
  exists m1' m2',
    (forall k0 r, (forall x, In x l -> sameValueZero k0 (dedupKey x) = false) ->
       fold_left mergeStep l (m1 ++ (k0, r) :: m2)%list = (m1' ++ (k0, r) :: m2')%list)
    /\ (forall k2, (forall x, In x l -> sameValueZero (dedupKey x) k2 = false) ->
          freshKey k2 m1 -> freshKey k2 m1')
    /\ (forall k2, (forall x, In x l -> sameValueZero (dedupKey x) k2 = false) ->
          freshKey k2 m2 -> freshKey k2 m2').
Proof.
  induction l as [|x l IH]; intros m1 m2.
  - exists m1, m2. cbn [fold_left]. auto.
  - destruct (mergeStep_other x m1 m2) as (s1 & s2 & Hs & Hf1 & Hf2).
    destruct (IH s1 s2) as (t1 & t2 & Ht & Hg1 & Hg2).
    exists t1, t2. split; [|split].
    + intros k0 r Hall. cbn [fold_left].
      rewrite Hs by (apply Hall; left; reflexivity).
      apply Ht. intros y Hy. apply Hall. right. exact Hy.
    + intros k2 Hall F. apply Hg1; [intros y Hy; apply Hall; right; exact Hy|].
      apply Hf1; [apply Hall; left; reflexivity | exact F].
    + intros k2 Hall F. apply Hg2; [intros y Hy; apply Hall; right; exact Hy|].
      apply Hf2; [apply Hall; left; reflexivity | exact F].
Qed.

Lemma mapSet_keyed x m : keyed m -> keyed (mapSet (dedupKey x) x m).
Proof.
  induction m as [|[k1 r1] m IH]; intros K; cbn [mapSet].
  - intros k y [H|[]]. injection H as <- <-. left. reflexivity.
  - destruct (sameValueZero k1 (dedupKey x)) eqn:E.
    + intros k y [H|H].
      * injection H as <- <-. right. exact E.
      * apply K. right. exact H.
    + intros k y [H|H].
      * injection H as <- <-. apply K. left. reflexivity.
      * refine (IH _ k y H). intros k3 y3 H3. apply K. right. exact H3.
Qed.

Lemma mergeStep_keyed x m : keyed m -> keyed (mergeStep m x).
Proof.
  intros K. unfold mergeStep. cbv zeta.
  destruct (mapGet (dedupKey x) m) as [existing|].
  - destruct (_ <? _)%nat; [apply mapSet_keyed|]; exact K.
  - apply mapSet_keyed. exact K.
Qed.

Lemma mergeAll_keyed l : forall m, keyed m -> keyed (fold_left mergeStep l m).
Proof.
  induction l as [|x l IH]; intros m K; [exact K|].
  cbn [fold_left]. apply IH. apply mergeStep_keyed. exact K.
Qed.

Lemma mergeStep_fresh_pres x k2 m :
  sameValueZero (dedupKey x) k2 = false -> freshKey k2 m -> freshKey k2 (mergeStep m x).
Proof.
  intros Hk F. unfold mergeStep. cbv zeta.
  destruct (mapGet (dedupKey x) m) as [existing|].
  - destruct (_ <? _)%nat; [apply mapSet_fresh_pres|]; assumption.
  - apply mapSet_fresh_pres; assumption.
Qed.

Lemma mergeAll_fresh l k2 : forall m,
  (forall x, In x l -> sameValueZero (dedupKey x) k2 = false) ->
  freshKey k2 m -> freshKey k2 (fold_left mergeStep l m).
Proof.
  induction l as [|x l IH]; intros m Hall F; [exact F|].
  cbn [fold_left]. apply IH; [intros y Hy; apply Hall; right; exact Hy|].
  apply mergeStep_fresh_pres; [apply Hall; left; reflexivity | exact F].
Qed.

Lemma fold_left_concat {A B : Type} (f : A -> B -> A) (ls : list (list B)) (a : A) :
  fold_left (fun acc l => fold_left f l acc) ls a = fold_left f (List.concat ls) a.
Proof.
  revert a. induction ls as [|l ls IH]; intros a; [reflexivity|].
  cbn [fold_left List.concat]. rewrite fold_left_app. apply IH.
Qed.

Lemma mergeReceipts_concat (receiptsArray : list (list Receipt)) :
  mergeReceipts receiptsArray = map snd (fold_left mergeStep (List.concat receiptsArray) []).
Proof. unfold mergeReceipts. rewrite fold_left_concat. reflexivity. Qed.

Lemma sameValueZero_class (k kr kx : JSValue) :
  sameValueZero k kr = true -> sameValueZero kx k = false ->
  sameValueZero kx kr = false /\ sameValueZero kr kx = false.
Proof.
  intros H1 H2. assert (H3 : sameValueZero kx kr = false)
    by (eapply sameValueZero_false_l; eassumption).
  split; [exact H3 | rewrite sameValueZero_sym; exact H3].
Qed.

Lemma freshKey_class (k kr : JSValue) (m : ReceiptMap) :
  sameValueZero k kr = true -> freshKey k m -> freshKey kr m.
Proof.
  intros H F k' r Hin. eapply sameValueZero_false_l; [apply (F k' r Hin) | exact H].
Qed.

(** The map after a list in which exactly one receipt has a given key. *)
Lemma merge_single (l1 l2 : list Receipt) (k : JSValue) :
  (forall x, In x (l1 ++ l2)%list -> sameValueZero (dedupKey x) k = false) ->
  exists m1 m2,
    freshKey k m1 /\ freshKey k m2
    /\ forall r, sameValueZero k (dedupKey r) = true ->
         fold_left mergeStep (l1 ++ r :: l2)%list [] = (m1 ++ (dedupKey r, r) :: m2)%list.
Proof.
  intros Hall.
  assert (F1 : freshKey k (fold_left mergeStep l1 [])).
  { apply mergeAll_fresh; [|intros ? ? []].
    intros x Hx. apply Hall. apply in_or_app. left. exact Hx. }
  destruct (mergeAll_others l2 (fold_left mergeStep l1 []) []) as (m1 & m2 & Hm & Hf1 & Hf2).
  exists m1, m2. split; [|split].
  - apply Hf1; [|exact F1]. intros x Hx. apply Hall. apply in_or_app. right. exact Hx.
  - apply Hf2; [|intros ? ? []]. intros x Hx. apply Hall. apply in_or_app. right. exact Hx.
  - intros r Hr. rewrite fold_left_app. cbn [fold_left].
    assert (Fr : freshKey (dedupKey r) (fold_left mergeStep l1 []))
      by (eapply freshKey_class; eassumption).
    unfold mergeStep at 2. cbv zeta.
    rewrite (mapGet_fresh _ _ Fr), (mapSet_fresh _ _ _ Fr).
    apply Hm. intros x Hx.
    apply (sameValueZero_class k (dedupKey r) (dedupKey x) Hr).
    apply Hall. apply in_or_app. right. exact Hx.
Qed.

(** The map after a list in which exactly two receipts, [a] before [b],
    have a given key. *)
Lemma merge_pair (l1 l2 l3 : list Receipt) (a b : Receipt) :
  sameValueZero (dedupKey a) (dedupKey b) = true ->
  (forall x, In x (l1 ++ l2 ++ l3)%list ->
     sameValueZero (dedupKey x) (dedupKey a) = false) ->
  exists t1 t2,
    freshKey (dedupKey a) t1 /\ freshKey (dedupKey a) t2
    /\ fold_left mergeStep (l1 ++ a :: l2 ++ b :: l3)%list []
       = (t1 ++ (dedupKey a,
                 if (List.length (itemArray a) <? List.length (itemArray b))%nat
                 then b else a) :: t2)%list
    /\ fold_left mergeStep (l1 ++ a :: l2 ++ l3)%list []
       = (t1 ++ (dedupKey a, a) :: t2)%list
    /\ fold_left mergeStep (l1 ++ b :: l2 ++ l3)%list []
       = (t1 ++ (dedupKey b, b) :: t2)%list.
Proof.
  intros Hab Hall.
  assert (Haa : sameValueZero (dedupKey a) (dedupKey a) = true).
  { eapply sameValueZero_trans; [exact Hab|]. rewrite sameValueZero_sym. exact Hab. }
  destruct (merge_single l1 l2 (dedupKey a)) as (m1 & m2 & F1 & F2 & Hm).
  { intros x Hx. apply Hall. rewrite app_assoc. apply in_or_app. left. exact Hx. }
  destruct (mergeAll_others l3 m1 m2) as (t1 & t2 & Ht & Hf1 & Hf2).
  assert (H3 : forall x, In x l3 -> sameValueZero (dedupKey x) (dedupKey a) = false).
  { intros x Hx. apply Hall. apply in_or_app. right. apply in_or_app. right. exact Hx. }
  assert (H3a : forall x, In x l3 -> sameValueZero (dedupKey a) (dedupKey x) = false).
  { intros x Hx. apply (sameValueZero_class _ _ _ Haa). apply H3. exact Hx. }
  assert (H3b : forall x, In x l3 -> sameValueZero (dedupKey b) (dedupKey x) = false).
  { intros x Hx. apply (sameValueZero_class _ _ _ Hab). apply H3. exact Hx. }
  exists t1, t2. split; [apply Hf1; assumption|]. split; [apply Hf2; assumption|].
  split; [|split].
  - replace (l1 ++ a :: l2 ++ b :: l3)%list with ((l1 ++ a :: l2) ++ b :: l3)%list
      by (rewrite <- app_assoc; reflexivity).
    rewrite fold_left_app, (Hm a Haa). cbn [fold_left].
    unfold mergeStep at 2. cbv zeta.
    rewrite (mapGet_hit (dedupKey b) (dedupKey a) a m1 m2
               (freshKey_class _ _ _ Hab F1) Hab).
    destruct (List.length (itemArray a) <? List.length (itemArray b))%nat.
    + rewrite (mapSet_hit (dedupKey b) (dedupKey a) a b m1 m2
                 (freshKey_class _ _ _ Hab F1) Hab).
      apply Ht. exact H3a.
    + apply Ht. exact H3a.
  - replace (l1 ++ a :: l2 ++ l3)%list with ((l1 ++ a :: l2) ++ l3)%list
      by (rewrite <- app_assoc; reflexivity).
    rewrite fold_left_app, (Hm a Haa). apply Ht. exact H3a.
  - replace (l1 ++ b :: l2 ++ l3)%list with ((l1 ++ b :: l2) ++ l3)%list
      by (rewrite <- app_assoc; reflexivity).
    rewrite fold_left_app, (Hm b Hab). apply Ht. exact H3b.
Qed.

(** C10: when two receipts share the dedup key and their item arrays
    have equal length, the first-encountered receipt is kept and the later
    one is discarded: the output is the output of the input without the
    later receipt.  In general a receipt whose key is already in the map is
    dropped unless its item array is strictly longer than the stored one. *)
Theorem C10_equal_length_keeps_first (receiptsArray : list (list Receipt))
    (l1 l2 l3 : list Receipt) (a b : Receipt) :
  List.concat receiptsArray = (l1 ++ a :: l2 ++ b :: l3)%list ->
  sameValueZero (dedupKey a) (dedupKey b) = true ->
  List.length (itemArray a) = List.length (itemArray b) ->
  (forall x, In x (l1 ++ l2 ++ l3)%list ->
     sameValueZero (dedupKey x) (dedupKey a) = false) ->
  mergeReceipts receiptsArray = mergeReceipts [(l1 ++ a :: l2 ++ l3)%list]
  /\ In a (mergeReceipts receiptsArray)
  /\ (forall m r existing,
        mapGet (dedupKey r) m = Some existing ->
        (List.length (itemArray r) <= List.length (itemArray existing))%nat ->
        mergeStep m r = m).
Proof.
  intros Hc Hab Hlen Hall.
  destruct (merge_pair l1 l2 l3 a b Hab Hall) as (t1 & t2 & _ & _ & H1 & H2 & _).
  rewrite Hlen, Nat.ltb_irrefl in H1.
  rewrite !mergeReceipts_concat, Hc. cbn [List.concat]. rewrite app_nil_r, H1, H2.
  split; [reflexivity|]. split.
  - rewrite map_app. apply in_or_app. right. left. reflexivity.
  - intros m r existing Hg Hle. unfold mergeStep. cbv zeta. rewrite Hg.
    destruct (Nat.ltb_spec (List.length (itemArray existing)) (List.length (itemArray r)));
      [lia | reflexivity].
Qed.

Lemma mapSet_In_inv k x m k' r' :
  In (k', r') (mapSet k x m) ->
  (exists r0, In (k', r0) m) \/ (k' = k /\ r' = x /\ mapGet k m = None).
Proof.
  induction m as [|[k1 r1] m IH]; cbn [mapSet mapGet].
  - intros [H|[]]. injection H as <- <-. right. auto.
  - destruct (sameValueZero k1 k) eqn:E.
    + intros [H|H].
      * injection H as <- <-. left. exists r1. left. reflexivity.
      * left. exists r'. right. exact H.
    + intros [H|H].
      * injection H as <- <-. left. exists r1. left. reflexivity.
      * destruct (IH H) as [(r0 & H0)|H0]; [left; exists r0; right; exact H0 | right; exact H0].
Qed.

Lemma mapSet_receipts k x m k' r' :
  In (k', r') (mapSet k x m) -> In (k', r') m \/ r' = x.
Proof.
  induction m as [|[k1 r1] m IH]; cbn [mapSet].
  - intros [H|[]]. injection H as <- <-. right. reflexivity.
  - destruct (sameValueZero k1 k).
    + intros [H|H]; [injection H as <- <-; right; reflexivity | left; right; exact H].
    + intros [H|H]; [left; left; exact H|].
      destruct (IH H) as [H0|H0]; [left; right; exact H0 | right; exact H0].
Qed.

Lemma mapGet_None_fresh k m : mapGet k m = None -> freshKey k m.
Proof.
  induction m as [|[k1 r1] m IH]; cbn [mapGet]; intros H k' r' Hin; [destruct Hin|].
  destruct (sameValueZero k1 k) eqn:E; [discriminate|].
  destruct Hin as [Hin|Hin]; [injection Hin as <- <-; exact E | apply (IH H k' r' Hin)].
Qed.

Lemma mapSet_uniqueKeys k x m : uniqueKeys m -> uniqueKeys (mapSet k x m).
Proof.
  induction m as [|[k1 r1] m IH]; cbn [mapSet uniqueKeys].
  - intros _. split; [intros k' r' [] | exact I].
  - intros [U1 U2]. destruct (sameValueZero k1 k) eqn:E; cbn [uniqueKeys].
    + split; assumption.
    + split; [|apply IH; exact U2].
      intros k' r' Hin. destruct (mapSet_In_inv _ _ _ _ _ Hin) as [(r0 & H0)|(-> & _ & _)].
      * apply (U1 k' r0 H0).
      * exact E.
Qed.

Lemma mergeStep_uniqueKeys x m : uniqueKeys m -> uniqueKeys (mergeStep m x).
Proof.
  intros U. unfold mergeStep. cbv zeta.
  destruct (mapGet (dedupKey x) m) as [existing|].
  - destruct (_ <? _)%nat; [apply mapSet_uniqueKeys|]; exact U.
  - apply mapSet_uniqueKeys. exact U.
Qed.

Lemma mergeAll_uniqueKeys l : forall m, uniqueKeys m -> uniqueKeys (fold_left mergeStep l m).
Proof.
  induction l as [|x l IH]; intros m U; [exact U|].
  cbn [fold_left]. apply IH. apply mergeStep_uniqueKeys. exact U.
Qed.

Lemma mergeStep_receipts x m k r :
  In (k, r) (mergeStep m x) -> In (k, r) m \/ r = x.
Proof.
  unfold mergeStep. cbv zeta.
  destruct (mapGet (dedupKey x) m) as [existing|].
  - destruct (_ <? _)%nat; [apply mapSet_receipts | auto].
  - apply mapSet_receipts.
Qed.

Lemma mergeAll_receipts l : forall m k r,
  In (k, r) (fold_left mergeStep l m) -> In (k, r) m \/ In r l.
Proof.
  induction l as [|x l IH]; intros m k r H; [left; exact H|].
  cbn [fold_left] in H. destruct (IH _ _ _ H) as [H0|H0].
  - destruct (mergeStep_receipts _ _ _ _ H0) as [H1|H1]; [left; exact H1 | right; left; symmetry; exact H1].
  - right. right. exact H0.
Qed.

Lemma sameValueZero_refl_of (a b : JSValue) :
  sameValueZero a b = true -> sameValueZero a a = true.
Proof.
  intros H. apply (sameValueZero_trans a b a H). rewrite sameValueZero_sym. exact H.
Qed.

(** In a map with unique keys whose keys are the keys of its receipts,
    no receipt has the key of a later one. *)
Lemma keyed_unique_distinct (m : ReceiptMap) :
  keyed m -> uniqueKeys m -> distinctKeys (map snd m) = true.
Proof.
  induction m as [|[k1 y1] m IH]; intros K U; [reflexivity|].
  cbn [map snd distinctKeys]. destruct U as [U1 U2].
  assert (K' : keyed m) by (intros k y H; apply (K k y); right; exact H).
  rewrite (IH K' U2), andb_true_r. apply negb_true_iff.
  destruct (existsb _ _) eqn:E; [|reflexivity].
  apply existsb_exists in E. destruct E as (y2 & Hin & S).
  apply in_map_iff in Hin. destruct Hin as ([k2 y2'] & Heq & Hin). cbn [snd] in Heq. subst y2'.
  pose proof (U1 k2 y2 Hin) as F.
  assert (S1 : sameValueZero k1 (dedupKey y1) = true).
  { destruct (K k1 y1 (or_introl eq_refl)) as [->|H]; [|exact H].
    apply (sameValueZero_refl_of _ _ S). }
  assert (S2 : sameValueZero k2 (dedupKey y2) = true).
  { destruct (K k2 y2 (or_intror Hin)) as [->|H]; [|exact H].
    rewrite sameValueZero_sym in S. apply (sameValueZero_refl_of _ _ S). }
  rewrite sameValueZero_sym in S2.
  rewrite (sameValueZero_trans _ _ _ (sameValueZero_trans _ _ _ S1 S) S2) in F.
  discriminate.
Qed.

Lemma mergeReceipts_distinct (receiptsArray : list (list Receipt)) :
  distinctKeys (mergeReceipts receiptsArray) = true.
Proof.
  rewrite mergeReceipts_concat. apply keyed_unique_distinct.
  - apply mergeAll_keyed. intros k y [].
  - apply mergeAll_uniqueKeys. exact I.
Qed.

Lemma mergeReceipts_incl (receiptsArray : list (list Receipt)) (r : Receipt) :
  In r (mergeReceipts receiptsArray) -> In r (List.concat receiptsArray).
Proof.
  rewrite mergeReceipts_concat. intros H. apply in_map_iff in H.
  destruct H as ([k r'] & Heq & Hin). cbn [snd] in Heq. subst r'.
  destruct (mergeAll_receipts _ _ _ _ Hin) as [[]|H]. exact H.
Qed.

Lemma mapSet_In k0 x m k b :
  In (k, b) m ->
  In (k, b) (mapSet k0 x m)
  \/ (sameValueZero k k0 = true /\ mapGet k0 m = Some b /\ In (k, x) (mapSet k0 x m)).
Proof.
  induction m as [|[k1 r1] m IH]; [intros []|].
  cbn [mapSet mapGet]. intros [H|H].
  - injection H as -> ->. destruct (sameValueZero k k0) eqn:E.
    + right. split; [reflexivity|]. split; [reflexivity | left; reflexivity].
    + left. left. reflexivity.
  - destruct (sameValueZero k1 k0) eqn:E.
    + left. right. exact H.
    + destruct (IH H) as [H0|(H1 & H2 & H3)]; [left; right; exact H0|].
      right. split; [exact H1|]. split; [exact H2 | right; exact H3].
Qed.

Lemma mapGet_Some_In k0 m b :
  mapGet k0 m = Some b -> exists k, In (k, b) m /\ sameValueZero k k0 = true.
Proof.
  induction m as [|[k1 r1] m IH]; cbn [mapGet]; [discriminate|].
  destruct (sameValueZero k1 k0) eqn:E.
  - intros H. injection H as ->. exists k1. split; [left; reflexivity | exact E].
  - intros H. destruct (IH H) as (k & H1 & H2). exists k. split; [right; exact H1 | exact H2].
Qed.

Lemma mapSet_hit_In k0 x m b :
  mapGet k0 m = Some b -> exists k, In (k, x) (mapSet k0 x m) /\ sameValueZero k k0 = true.
Proof.
  induction m as [|[k1 r1] m IH]; cbn [mapGet mapSet]; [discriminate|].
  destruct (sameValueZero k1 k0) eqn:E.
  - intros _. exists k1. split; [left; reflexivity | exact E].
  - intros H. destruct (IH H) as (k & H1 & H2). exists k. split; [right; exact H1 | exact H2].
Qed.

Lemma mapSet_miss_In k0 x m : mapGet k0 m = None -> In (k0, x) (mapSet k0 x m).
Proof.
  induction m as [|[k1 r1] m IH]; cbn [mapGet mapSet]; [intros _; left; reflexivity|].
  destruct (sameValueZero k1 k0); [discriminate|]. intros H. right. apply IH. exact H.
Qed.

Lemma mergeStep_covers_old x m a : covers m a -> covers (mergeStep m x) a.
Proof.
  intros (k & b & Hin & Hk & Hlen). unfold mergeStep. cbv zeta.
  destruct (mapGet (dedupKey x) m) as [existing|] eqn:G.
  - destruct (_ <? _)%nat eqn:L; [|exists k, b; auto].
    apply Nat.ltb_lt in L.
    destruct (mapSet_In (dedupKey x) x m k b Hin) as [H|(H1 & H2 & H3)].
    + exists k, b. auto.
    + rewrite G in H2. injection H2 as ->.
      exists k, x. split; [exact H3|]. split; [|lia].
      right. destruct Hk as [[-> _]|Hk]; [|exact Hk].
      apply (sameValueZero_refl_of _ _ H1).
  - destruct (mapSet_In (dedupKey x) x m k b Hin) as [H|(_ & H2 & _)]; [|congruence].
    exists k, b. auto.
Qed.

Lemma mergeStep_covers_new x m : covers (mergeStep m x) x.
Proof.
  unfold mergeStep. cbv zeta.
  destruct (mapGet (dedupKey x) m) as [existing|] eqn:G.
  - destruct (_ <? _)%nat eqn:L.
    + destruct (mapSet_hit_In _ x _ _ G) as (k & H1 & H2).
      exists k, x. split; [exact H1|]. split; [right; exact H2 | lia].
    + apply Nat.ltb_ge in L. destruct (mapGet_Some_In _ _ _ G) as (k & H1 & H2).
      exists k, existing. split; [exact H1|]. split; [right; exact H2 | exact L].
  - exists (dedupKey x), x. split; [apply mapSet_miss_In; exact G|].
    split; [left; split; reflexivity | lia].
Qed.

Lemma mergeAll_covers l : forall m a,
  covers m a \/ In a l -> covers (fold_left mergeStep l m) a.
Proof.
  induction l as [|x l IH]; intros m a H.
  - destruct H as [H|[]]. exact H.
  - cbn [fold_left]. apply IH. destruct H as [H|[->|H]].
    + left. apply mergeStep_covers_old. exact H.
    + left. apply mergeStep_covers_new.
    + right. exact H.
Qed.

Lemma distinctKeys_same (l : list Receipt) (x y : Receipt) :
  distinctKeys l = true -> In x l -> In y l ->
  sameValueZero (dedupKey x) (dedupKey y) = true -> x = y.
Proof.
  induction l as [|a l IH]; intros D Hx Hy S; [destruct Hx|].
  cbn [distinctKeys] in D. apply andb_true_iff in D. destruct D as [D1 D2].
  apply negb_true_iff in D1.
  assert (F : forall z, In z l -> sameValueZero (dedupKey a) (dedupKey z) = false).
  { intros z Hz. destruct (sameValueZero (dedupKey a) (dedupKey z)) eqn:E; [|reflexivity].
    assert (existsb (fun b => sameValueZero (dedupKey a) (dedupKey b)) l = true)
      by (apply existsb_exists; exists z; split; assumption).
    congruence. }
  destruct Hx as [<-|Hx], Hy as [<-|Hy].
  - reflexivity.
  - rewrite (F y Hy) in S. discriminate.
  - rewrite sameValueZero_sym, (F x Hx) in S. discriminate.
  - apply IH; assumption.
Qed.

(** For every receipt of the input the output holds a receipt of the
    input with the same key that lists at least as many items. *)
Lemma mergeReceipts_covers (receiptsArray : list (list Receipt)) (a : Receipt) :
  In a (List.concat receiptsArray) ->
  exists b, In b (mergeReceipts receiptsArray)
    /\ (b = a \/ sameValueZero (dedupKey b) (dedupKey a) = true)
    /\ (List.length (itemArray a) <= List.length (itemArray b))%nat.
Proof.
  intros Ha. rewrite mergeReceipts_concat.
  destruct (mergeAll_covers (List.concat receiptsArray) [] a (or_intror Ha))
    as (k & b & Hin & Hk & Hlen).
  assert (K : keyed (fold_left mergeStep (List.concat receiptsArray) []))
    by (apply mergeAll_keyed; intros k0 y []).
  exists b. split; [apply in_map_iff; exists (k, b); split; [reflexivity | exact Hin]|].
  split; [|exact Hlen].
  destruct Hk as [[_ ->]|Hk]; [left; reflexivity|].
  right. destruct (K k b Hin) as [->|Hb]; [exact Hk|].
  rewrite sameValueZero_sym in Hb. apply (sameValueZero_trans _ _ _ Hb Hk).
Qed.

(** C6: when two receipts of the input map to the same dedup key and
    their item arrays differ in length, the shorter one is never in the
    output, whatever the order of the input.  The output holds exactly one
    receipt with that key, a receipt of the input that lists at least as
    many items as the longer of the two.  It is the longer one itself when
    every other receipt of the input with that key lists fewer items; and
    whenever the longer one is in the output, no receipt of the input with
    that key lists more items. *)
Theorem C6_longer_receipt_retained (receiptsArray : list (list Receipt))
    (a b : Receipt) :
  In a (List.concat receiptsArray) ->
  In b (List.concat receiptsArray) ->
  sameValueZero (dedupKey a) (dedupKey b) = true ->
  (List.length (itemArray a) < List.length (itemArray b))%nat ->
  ~ In a (mergeReceipts receiptsArray)
  /\ (exists c,
        In c (mergeReceipts receiptsArray)
        /\ In c (List.concat receiptsArray)
        /\ sameValueZero (dedupKey c) (dedupKey b) = true
        /\ (List.length (itemArray b) <= List.length (itemArray c))%nat
        /\ forall c', In c' (mergeReceipts receiptsArray) ->
             sameValueZero (dedupKey c') (dedupKey b) = true -> c' = c)
  /\ ((forall x, In x (List.concat receiptsArray) ->
         sameValueZero (dedupKey x) (dedupKey b) = true ->
         x = b \/ (List.length (itemArray x) < List.length (itemArray b))%nat) ->
      In b (mergeReceipts receiptsArray))
  /\ (In b (mergeReceipts receiptsArray) ->
      forall x, In x (List.concat receiptsArray) ->
        sameValueZero (dedupKey x) (dedupKey b) = true ->
        (List.length (itemArray x) <= List.length (itemArray b))%nat).
Proof.
  intros Ha Hb Hab Hlen.
  pose proof (mergeReceipts_distinct receiptsArray) as D.
  assert (Hbb : sameValueZero (dedupKey b) (dedupKey b) = true).
  { rewrite sameValueZero_sym in Hab. apply (sameValueZero_refl_of _ _ Hab). }
  assert (Cov : forall x, In x (List.concat receiptsArray) ->
                  sameValueZero (dedupKey x) (dedupKey b) = true ->
                  exists c, In c (mergeReceipts receiptsArray)
                    /\ sameValueZero (dedupKey c) (dedupKey b) = true
                    /\ (List.length (itemArray x) <= List.length (itemArray c))%nat).
  { intros x Hx Sx. destruct (mergeReceipts_covers receiptsArray x Hx) as (c & Hc & Hk & Hl).
    exists c. split; [exact Hc|]. split; [|exact Hl].
    destruct Hk as [->|Hk]; [exact Sx|]. apply (sameValueZero_trans _ _ _ Hk Sx). }
  assert (Uniq : forall c c', In c (mergeReceipts receiptsArray) ->
                   In c' (mergeReceipts receiptsArray) ->
                   sameValueZero (dedupKey c) (dedupKey b) = true ->
                   sameValueZero (dedupKey c') (dedupKey b) = true -> c' = c).
  { intros c c' Hc Hc' Sc Sc'. apply (distinctKeys_same _ c' c D Hc' Hc).
    rewrite (sameValueZero_sym (dedupKey c)) in Sc.
    apply (sameValueZero_trans _ _ _ Sc' Sc). }
  split; [|split; [|split]].
  - intros Hin. destruct (Cov b Hb Hbb) as (c & Hc & Sc & Hl).
    assert (a = c) by (apply (Uniq c a Hc Hin Sc Hab)). subst c. lia.
  - destruct (Cov b Hb Hbb) as (c & Hc & Sc & Hl).
    exists c. split; [exact Hc|]. split; [apply mergeReceipts_incl; exact Hc|].
    split; [exact Sc|]. split; [exact Hl|].
    intros c' Hc' Sc'. apply (Uniq c c' Hc Hc' Sc Sc').
  - intros Hmax. destruct (Cov b Hb Hbb) as (c & Hc & Sc & Hl).
    destruct (Hmax c (mergeReceipts_incl _ _ Hc) Sc) as [->|Hlt]; [exact Hc | lia].
  - intros Hin x Hx Sx. destruct (Cov x Hx Sx) as (c & Hc & Sc & Hl).
    assert (b = c) by (apply (Uniq c b Hc Hin Sc Hbb)). subst c. exact Hl.
Qed.

(** *** Totals *)

Lemma setAdd_second (n : string) :
  List.length (setAdd n ["111"]) = if String.eqb n "111" then 1%nat else 2%nat.
Proof. unfold setAdd. cbn [existsb orb]. rewrite orb_false_r. destruct (String.eqb n "111"); reflexivity. Qed.

(** C1 (amended): the end-to-end scenario.  One warehouse receipt dated
    2024-03-15 with total 21.37, taxes 1.38, one item (item number 111,
    amount 19.99, unit 1) and one discount line that references /111
    (amount -2.00, unit 0) and carries the item number [n].  The totals are
    grossSpent 21.37, totalSavings 2.00 and totalTaxes 1.38; every line of
    the item array counts one unit, so totalPurchaseCount is 2 and
    avgPricePerItem is 21.37 / 2 rounded to cents, 10.69; uniqueItems
    counts the distinct non-empty item numbers of all lines, the discount
    line included. *)
Theorem C1_scenario_totals (h : Host) (now : Z) (n : string) :
  exists r,
    normalizeReceipt h now (scenarioReceipt n) 0 "receipts.json" = Some r
    /\ map isDiscount (itemArray r) = [false; true]
    /\ grossSpent (calculateTotals [r]) = 21.37%float
    /\ totalSavings (calculateTotals [r]) = 2%float
    /\ totalTaxes (calculateTotals [r]) = 1.38%float
    /\ totalPurchaseCount (calculateTotals [r]) = 2%float
    /\ avgPricePerItem (calculateTotals [r]) = 10.69%float
    /\ uniqueItems (calculateTotals [r])
       = (if String.eqb n "" || String.eqb n "111" then 1%nat else 2%nat).
Proof.
  destruct h as [s2n n2s pf dp bt tza].
  destruct (normalizeReceipt _ now (scenarioReceipt n) 0 "receipts.json") as [r|] eqn:E.
  - exists r. split; [reflexivity|].
    destruct n as [|c n'].
    + vm_compute in E. destruct (dp _); injection E as <-; vm_compute; repeat split.
    + lazy in E.
      destruct (dp _); injection E as <-.
      * repeat split; try (vm_compute; reflexivity).
        set (n := String c n').
        transitivity (List.length (setAdd n ["111"])); [vm_compute; reflexivity|].
        rewrite setAdd_second. reflexivity.
      * repeat split; try (vm_compute; reflexivity).
        set (n := String c n').
        transitivity (List.length (setAdd n ["111"])); [vm_compute; reflexivity|].
        rewrite setAdd_second. reflexivity.
  - exfalso. destruct n as [|c n']; lazy in E; destruct (dp _); discriminate E.
Qed.
(** C1 as stated fails.  When the discount line repeats the item number
    111, uniqueItems is 1, but avgPricePerItem is 10.69 and not 19.99; when
    the discount line carries a number of its own, uniqueItems is 2 as
    well. *)
Lemma C1_scenario_as_stated_fails :
  (exists r,
     normalizeReceipt exampleHost 0 (scenarioReceipt "111") 0 "receipts.json" = Some r
     /\ uniqueItems (calculateTotals [r]) = 1%nat
     /\ avgPricePerItem (calculateTotals [r]) = 10.69%float
     /\ PrimFloat.eqb (avgPricePerItem (calculateTotals [r])) 19.99%float = false)
  /\ (exists r,
        normalizeReceipt exampleHost 0 (scenarioReceipt "/111") 0 "receipts.json" = Some r
        /\ uniqueItems (calculateTotals [r]) = 2%nat
        /\ PrimFloat.eqb (avgPricePerItem (calculateTotals [r])) 19.99%float = false).
Proof.
  split; eexists; (split; [vm_compute; reflexivity|]); vm_compute; repeat split.
Qed.

Lemma numOr_not_nan (x : number) : PrimFloat.is_nan (numOr x 0%float) = false.
Proof.
  unfold numOr, truthyNum, isNaN.
  destruct (PrimFloat.is_nan x) eqn:E; cbn [orb negb]; [reflexivity|].
  destruct (PrimFloat.eqb x 0); cbn [negb]; [reflexivity | exact E].
Qed.

Lemma visitItem_refundSpent (refund : bool) (a : Acc) (item : Item) :
  acc_refundSpent (visitItem refund a item) = acc_refundSpent a
  /\ acc_grossSpent (visitItem refund a item) = acc_grossSpent a.
Proof. split; reflexivity. Qed.

Lemma visitItems_refundSpent (refund : bool) (items : list Item) : forall a,
  acc_refundSpent (fold_left (visitItem refund) items a) = acc_refundSpent a.
Proof.
  induction items as [|item items IH]; intros a; [reflexivity|].
  cbn [fold_left]. rewrite IH. reflexivity.
Qed.

Lemma visitReceipt_refundSpent (a : Acc) (r : Receipt) :
  PrimFloat.leb (acc_refundSpent a) 0 = true ->
  PrimFloat.leb (acc_refundSpent (visitReceipt a r)) 0 = true.
Proof.
  intros H. unfold visitReceipt. rewrite visitItems_refundSpent.
  unfold visitReceiptHeader. cbn [acc_refundSpent].
  destruct (isRefund r); [|exact H].
  apply float_sub_abs_nonpos; [exact H | apply numOr_not_nan].
Qed.

Lemma accumulate_refundSpent (receipts : list Receipt) : forall a,
  PrimFloat.leb (acc_refundSpent a) 0 = true ->
  PrimFloat.leb (acc_refundSpent (fold_left visitReceipt receipts a)) 0 = true.
Proof.
  induction receipts as [|r rest IH]; intros a H; [exact H|].
  cbn [fold_left]. apply IH. apply visitReceipt_refundSpent. exact H.
Qed.

Lemma visitItems_spent (refund : bool) (items : list Item) : forall a,
  acc_refundSpent (fold_left (visitItem refund) items a) = acc_refundSpent a
  /\ acc_grossSpent (fold_left (visitItem refund) items a) = acc_grossSpent a.
Proof.
  induction items as [|item items IH]; intros a; [split; reflexivity|].
  cbn [fold_left]. destruct (IH (visitItem refund a item)) as [-> ->]. split; reflexivity.
Qed.

Lemma accumulate_spent (receipts : list Receipt) : forall a,
  acc_grossSpent (fold_left visitReceipt receipts a)
  = fold_left PrimFloat.add
      (map (fun r => numOr (total r) 0%float)
         (filter (fun r => negb (isRefund r)) receipts))
      (acc_grossSpent a)
  /\ acc_refundSpent (fold_left visitReceipt receipts a)
     = fold_left PrimFloat.sub
         (map (fun r => Math_abs (numOr (total r) 0%float)) (filter isRefund receipts))
         (acc_refundSpent a).
Proof.
  induction receipts as [|r rest IH]; intros a; [split; reflexivity|].
  cbn [fold_left filter]. destruct (IH (visitReceipt a r)) as [-> ->].
  unfold visitReceipt.
  destruct (visitItems_spent (isRefund r) (itemArray r) (visitReceiptHeader a r)) as [-> ->].
  unfold visitReceiptHeader. cbn [acc_grossSpent acc_refundSpent].
  destruct (isRefund r); cbn [negb map fold_left]; split; reflexivity.
Qed.

Lemma refund_fold_nonpos (l : list Receipt) : forall s,
  PrimFloat.leb s 0 = true ->
  PrimFloat.leb
    (fold_left PrimFloat.sub (map (fun r => Math_abs (numOr (total r) 0%float)) l) s) 0
  = true.
Proof.
  induction l as [|r l IH]; intros s H; [exact H|].
  cbn [map fold_left]. apply IH.
  apply float_sub_abs_nonpos; [exact H | apply numOr_not_nan].
Qed.

Lemma float_eqb_self (x : number) : PrimFloat.eqb x x = negb (isNaN x).
Proof.
  unfold isNaN. destruct (PrimFloat.is_nan x) eqn:N; cbn [negb].
  - rewrite FloatAxioms.eqb_spec. apply float_is_nan_spec in N. rewrite N. reflexivity.
  - rewrite FloatAxioms.eqb_spec. apply SFeqb_refl. apply float_is_nan_false. exact N.
Qed.

(** C2 (amended): for every non-empty receipt set, with [G] the unrounded
    sum of the totals of the receipts that are not refunds and [R] the
    negated sum of the absolute totals of the refunds, both in the order
    of the set: [refundSpent] is [R], left unrounded, and is at most zero;
    [netSpent] is [G + R] rounded to cents and [grossSpent] is [G] rounded
    to cents.  Each of the two is also equal to that rounding under the
    equality of JavaScript, except when it is NaN. *)
Theorem C2_net_gross_refund (receipt : Receipt) (rest : list Receipt) :
  let stats := calculateTotals (receipt :: rest) in
  let G := grossSum (receipt :: rest) in
  let R := refundSum (receipt :: rest) in
  refundSpent stats = Some R
  /\ PrimFloat.leb R 0 = true
  /\ netSpent stats = round2 (PrimFloat.add G R)
  /\ grossSpent stats = round2 G
  /\ PrimFloat.eqb (netSpent stats) (round2 (PrimFloat.add G R))
     = negb (isNaN (netSpent stats))
  /\ PrimFloat.eqb (grossSpent stats) (round2 G) = negb (isNaN (grossSpent stats)).
Proof.
  cbv zeta. unfold grossSum, refundSum.
  destruct (accumulate_spent (receipt :: rest) initialAcc) as [HG HR].
  change (acc_grossSpent initialAcc) with 0%float in HG.
  change (acc_refundSpent initialAcc) with 0%float in HR.
  fold (accumulate (receipt :: rest)) in HG, HR.
  assert (N : netSpent (calculateTotals (receipt :: rest))
              = round2 (PrimFloat.add (acc_grossSpent (accumulate (receipt :: rest)))
                          (acc_refundSpent (accumulate (receipt :: rest)))))
    by reflexivity.
  assert (Gs : grossSpent (calculateTotals (receipt :: rest))
               = round2 (acc_grossSpent (accumulate (receipt :: rest))))
    by reflexivity.
  assert (Rs : refundSpent (calculateTotals (receipt :: rest))
               = Some (acc_refundSpent (accumulate (receipt :: rest))))
    by reflexivity.
  rewrite HG, HR in N. rewrite HG in Gs. rewrite HR in Rs.
  split; [exact Rs|]. split; [apply refund_fold_nonpos; reflexivity|].
  split; [exact N|]. split; [exact Gs|].
  split; [rewrite <- N | rewrite <- Gs]; apply float_eqb_self.
Qed.
(** C2 as stated fails: after a purchase of 21.37 and a refund of 1.38 the
    stats object has netSpent 19.99, grossSpent 21.37 and refundSpent
    -1.38, and in binary64 arithmetic 21.37 + -1.38 is not 19.99. *)
Lemma C2_net_is_not_gross_plus_refund :
  let stats := calculateTotals (normalizeFile exampleHost 0 "receipts.json" saleAndRefund 0) in
  netSpent stats = 19.99%float
  /\ grossSpent stats = 21.37%float
  /\ refundSpent stats = Some (-1.38)%float
  /\ PrimFloat.add (grossSpent stats) (-1.38)%float = 19.990000000000002%float
  /\ PrimFloat.eqb (netSpent stats) (PrimFloat.add (grossSpent stats) (-1.38)%float) = false.
Proof. vm_compute. repeat split. Qed.

(** *** Rewards *)

Lemma Math_min_mono (a1 a2 b : number) :
  PrimFloat.leb a1 a2 = true -> PrimFloat.is_nan b = false ->
  PrimFloat.leb (Math_min a1 b) (Math_min a2 b) = true.
Proof.
  intros Hle Hb. destruct (float_leb_not_nan _ _ Hle) as [N1 N2].
  pose proof (float_leb_refl b Hb) as Rb.
  unfold Math_min, isNaN. rewrite N1, N2, Hb. cbn [orb].
  destruct (PrimFloat.ltb a1 b) eqn:L1.
  - pose proof (float_ltb_leb _ _ L1) as L1'.
    destruct (PrimFloat.ltb a2 b); [exact Hle|].
    destruct (PrimFloat.ltb b a2); [exact L1'|].
    destruct (PrimFloat.get_sign a2); assumption.
  - pose proof (float_ltb_false_leb _ _ N1 Hb L1) as B1.
    pose proof (float_leb_trans _ _ _ B1 Hle) as B2.
    rewrite (float_leb_ltb_false _ _ B2).
    destruct (PrimFloat.ltb b a1) eqn:L2.
    + destruct (PrimFloat.ltb b a2); [exact Rb|].
      destruct (PrimFloat.get_sign a2); assumption.
    + pose proof (float_ltb_false_leb _ _ Hb N1 L2) as A1.
      destruct (PrimFloat.get_sign a1), (PrimFloat.ltb b a2), (PrimFloat.get_sign a2);
        assumption.
Qed.

Lemma cycleReward_mono (s1 s2 : number) :
  PrimFloat.leb s1 s2 = true ->
  PrimFloat.leb (cycleReward s1) (cycleReward s2) = true.
Proof.
  intros H. unfold cycleReward. apply Math_min_mono; [|reflexivity].
  apply (float_mul_mono_r 0.02%float s1 s2 5764607523034235%positive (-58)%Z);
    [reflexivity | exact H].
Qed.

Lemma addSubtotal_keys (year : Z) (q : number) (m : ByYear) :
  NoDup (map fst m) ->
  NoDup (map fst (addSubtotal year q m))
  /\ (forall y, In y (map fst (addSubtotal year q m)) <-> In y (map fst m) \/ y = year).
Proof.
  induction m as [|[y0 e0] m IH]; intros N.
  - cbn. split; [constructor; [intros H; exact H | constructor] | intros y; intuition congruence].
  - cbn [addSubtotal]. destruct (Z.eqb_spec y0 year) as [->|NE].
    + cbn [map fst] in *. split; [exact N|]. intros y. cbn [In]. intuition congruence.
    + cbn [map fst] in *. inversion N as [|? ? N1 N2]; subst.
      destruct (IH N2) as [I1 I2]. split.
      * constructor; [|exact I1]. rewrite I2. intros [H|H]; [contradiction | congruence].
      * intros y. cbn [In]. rewrite I2. tauto.
Qed.

(** The subtotal and the reward stored for a year, zero when the year has
    no entry. *)
Lemma byYearGet_addSubtotal (year y : Z) (q : number) (m : ByYear) :
  byYearGet year (addSubtotal y q m)
  = if (y =? year)%Z
    then Some {| subtotal :=
                   PrimFloat.add
                     (match byYearGet year m with Some e => subtotal e | None => 0%float end) q;
                 reward :=
                   match byYearGet year m with Some e => reward e | None => 0%float end |}
    else byYearGet year m.
Proof.
  induction m as [|[y0 e0] m IH]; cbn [addSubtotal byYearGet].
  - destruct (Z.eqb_spec y year) as [->|N]; reflexivity.
  - destruct (Z.eqb_spec y0 y) as [->|N0]; cbn [byYearGet].
    + destruct (Z.eqb_spec y year) as [->|N]; [reflexivity|].
      reflexivity.
    + destruct (Z.eqb_spec y0 year) as [->|N1].
      * destruct (Z.eqb_spec y year) as [->|N]; [contradiction N0; reflexivity | reflexivity].
      * exact IH.
Qed.

Lemma byYearGet_In (m : ByYear) (year : Z) (e : YearEntry) :
  NoDup (map fst m) -> (In (year, e) m <-> byYearGet year m = Some e).
Proof.
  induction m as [|[y0 e0] m IH]; intros N; cbn [byYearGet In].
  - split; [intros [] | discriminate].
  - cbn [map fst] in N. inversion N as [|? ? N1 N2]; subst.
    destruct (Z.eqb_spec y0 year) as [->|NE].
    + split.
      * intros [H|H]; [congruence|]. contradiction N1.
        apply (in_map fst) in H. exact H.
      * intros H. left. congruence.
    + rewrite <- (IH N2). split; [intros [H|H]; [congruence | exact H] | auto].
Qed.

Lemma byYearGet_keys (m : ByYear) (year : Z) :
  In year (map fst m) <-> byYearGet year m <> None.
Proof.
  induction m as [|[y0 e0] m IH]; cbn [byYearGet map fst In].
  - split; [intros [] | intros H; contradiction H; reflexivity].
  - destruct (Z.eqb_spec y0 year) as [->|NE].
    + split; [discriminate | auto].
    + rewrite <- IH. split; [intros [H|H]; [contradiction | exact H] | auto].
Qed.

(** One receipt of the [forEach]: a receipt that counts and has a cycle
    year adds its qualifying subtotal to the entry of that year, every
    other receipt leaves the object as it is. *)
Lemma visitForRewards_step (h : Host) (month day : number) (excluded : list JSValue)
    (m m' : ByYear) (r : Receipt) :
  visitForRewards h month day excluded m r = Some m' ->
  isGasOrTravel r <> None
  /\ m' = if countsForRewards r
          then match getCycleYear h month day (transactionDateTime r) with
               | Some y => addSubtotal y (qualifyingSubtotal excluded (itemArray r)) m
               | None => m
               end
          else m.
Proof.
  unfold visitForRewards, countsForRewards.
  destruct (isGasOrTravel r) as [[|]|]; cbn [bind]; [| |discriminate].
  - intros H. injection H as <-. split; [discriminate | reflexivity].
  - destruct (PrimFloat.ltb (numOr (total r) 0%float) 0%float); cbn [negb].
    + intros H. injection H as <-. split; [discriminate | reflexivity].
    + destruct (getCycleYear h month day (transactionDateTime r));
        intros H; injection H as <-; split; (discriminate || reflexivity).
Qed.

Lemma visitAllForRewards_entries (h : Host) (month day : number)
    (excluded : list JSValue) (receipts : list Receipt) : forall m m',
  NoDup (map fst m) ->
  visitAllForRewards h month day excluded m receipts = Some m' ->
  NoDup (map fst m')
  /\ forall year,
       byYearGet year m'
       = match receiptsOfCycle h month day year receipts with
         | [] => byYearGet year m
         | assigned =>
             Some {| subtotal :=
                       fold_left
                         (fun s r =>
                            PrimFloat.add s (qualifyingSubtotal excluded (itemArray r)))
                         assigned
                         (match byYearGet year m with
                          | Some e => subtotal e | None => 0%float end);
                     reward :=
                       match byYearGet year m with
                       | Some e => reward e | None => 0%float end |}
         end.
Proof.
  induction receipts as [|r rest IH]; intros m m' N H.
  - cbn in H. injection H as <-. split; [exact N | reflexivity].
  - cbn [visitAllForRewards] in H.
    destruct (visitForRewards h month day excluded m r) as [m1|] eqn:V;
      cbn [bind] in H; [|discriminate].
    apply visitForRewards_step in V. destruct V as [_ V].
    assert (N1 : NoDup (map fst m1)).
    { subst m1. destruct (countsForRewards r); [|exact N].
      destruct (getCycleYear h month day (transactionDateTime r)); [|exact N].
      apply addSubtotal_keys. exact N. }
    destruct (IH m1 m' N1 H) as [I1 I2]. split; [exact I1|].
    intros year. rewrite I2. unfold receiptsOfCycle. cbn [filter].
    fold (receiptsOfCycle h month day year rest).
    destruct (countsForRewards r); cbn [andb]; [|subst m1; reflexivity].
    destruct (getCycleYear h month day (transactionDateTime r)) as [y|];
      [|subst m1; reflexivity].
    subst m1. rewrite byYearGet_addSubtotal.
    destruct (Z.eqb_spec y year) as [->|NE]; [|reflexivity].
    destruct (receiptsOfCycle h month day year rest); reflexivity.
Qed.

Lemma byYearGet_map (f : YearEntry -> YearEntry) (m : ByYear) (year : Z) :
  byYearGet year (map (fun ye => (fst ye, f (snd ye))) m)
  = option_map f (byYearGet year m).
Proof.
  induction m as [|[y0 e0] m IH]; [reflexivity|].
  cbn [map byYearGet fst snd]. destruct (y0 =? year)%Z; [reflexivity | exact IH].
Qed.

(** The [byYear] object of the result: one entry for every cycle year
    that has a receipt, with the qualifying subtotal of the year and the
    reward computed from it. *)
Lemma calculateExecutiveRewards_entries (h : Host) (receipts : list Receipt)
    (options : RewardOptions) (res : Rewards) :
  calculateExecutiveRewards h receipts options = Some res ->
  NoDup (map fst (byYear res))
  /\ forall year,
       byYearGet year (byYear res)
       = match receiptsOfCycle h (cycleStart_month res) (cycleStart_day res)
                 year receipts with
         | [] => None
         | _ =>
             let S := cycleSubtotal h (cycleStart_month res) (cycleStart_day res)
                        (excludedDepartments options) year receipts in
             Some {| subtotal := S; reward := cycleReward S |}
         end.
Proof.
  unfold calculateExecutiveRewards. cbv zeta. unbind.
  intros H. injection H as <-. cbn [byYear cycleStart_month cycleStart_day].
  match goal with
  | E : visitAllForRewards _ ?mo ?da _ [] _ = Some ?m |- _ =>
      destruct (visitAllForRewards_entries _ _ _ _ _ [] m (NoDup_nil _) E) as [K1 K2]
  end.
  split.
  - rewrite map_map. cbn [fst]. exact K1.
  - intros year.
    rewrite (byYearGet_map (fun e => {| subtotal := subtotal e;
                                        reward := cycleReward (subtotal e) |})).
    rewrite K2. unfold cycleSubtotal.
    destruct (receiptsOfCycle h _ _ year receipts); reflexivity.
Qed.

Lemma calculateExecutiveRewards_byYear (h : Host) (receipts : list Receipt)
    (options : RewardOptions) (res : Rewards) :
  calculateExecutiveRewards h receipts options = Some res ->
  forall year entry, In (year, entry) (byYear res) ->
    reward entry = cycleReward (subtotal entry).
Proof.
  intros H year entry Hin.
  destruct (calculateExecutiveRewards_entries h receipts options res H) as [N K].
  apply (byYearGet_In _ _ _ N) in Hin. rewrite K in Hin.
  destruct (receiptsOfCycle h _ _ year receipts); [discriminate|].
  cbv zeta in Hin. injection Hin as <-. reflexivity.
Qed.

(** C4: for every cycle year the computed reward is
    [min(0.02 * S, 1250)], where [S] is the qualifying subtotal of that
    year, and the reward is monotonic non-decreasing in [S].  The [byYear]
    object of the result has an entry exactly for the cycle years to which
    a receipt is assigned; the entry holds, as [subtotal], the qualifying
    subtotal [S] of the receipts assigned to the year and, as [reward],
    [min(0.02 * S, 1250)]. *)
Theorem C4_reward_cap (h : Host) (receipts : list Receipt)
    (options : RewardOptions) (res : Rewards) :
  calculateExecutiveRewards h receipts options = Some res ->
  (forall year,
     byYearGet year (byYear res)
     = match receiptsOfCycle h (cycleStart_month res) (cycleStart_day res)
               year receipts with
       | [] => None
       | _ =>
           let S := cycleSubtotal h (cycleStart_month res) (cycleStart_day res)
                      (excludedDepartments options) year receipts in
           Some {| subtotal := S;
                   reward := Math_min (PrimFloat.mul 0.02%float S) 1250%float |}
       end)
  /\ (forall year entry,
        In (year, entry) (byYear res) <-> byYearGet year (byYear res) = Some entry)
  /\ (forall year entry, In (year, entry) (byYear res) ->
        reward entry = Math_min (PrimFloat.mul 0.02%float (subtotal entry)) 1250%float)
  /\ (forall s1 s2, PrimFloat.leb s1 s2 = true ->
        PrimFloat.leb (Math_min (PrimFloat.mul 0.02%float s1) 1250%float)
                      (Math_min (PrimFloat.mul 0.02%float s2) 1250%float) = true).
Proof.
  intros H.
  destruct (calculateExecutiveRewards_entries h receipts options res H) as [N K].
  split; [|split; [|split]].
  - intros year. rewrite K.
    destruct (receiptsOfCycle h _ _ year receipts); [reflexivity|].
    cbv zeta. unfold cycleReward. rewrite float_mul_comm. reflexivity.
  - intros year entry. apply byYearGet_In. exact N.
  - intros year entry Hin.
    rewrite (calculateExecutiveRewards_byYear h receipts options res H year entry Hin).
    unfold cycleReward. rewrite float_mul_comm. reflexivity.
  - intros s1 s2 Hle. rewrite !(float_mul_comm 0.02%float).
    apply cycleReward_mono. exact Hle.
Qed.

(** *** Calendar *)
Local Open Scope Z_scope.

Lemma DayFromYear_step (y : Z) :
  DayFromYear (y + 1) - DayFromYear y = (if InLeapYear y then 366 else 365).
Proof.
  unfold DayFromYear, InLeapYear.
  destruct (Z.eqb_spec (y mod 4) 0), (Z.eqb_spec (y mod 100) 0), (Z.eqb_spec (y mod 400) 0);
    cbn [andb orb negb]; Z.div_mod_to_equations; lia.
Qed.

Lemma YearFromDay_spec (d : Z) :
  DayFromYear (YearFromDay d) <= d < DayFromYear (YearFromDay d + 1).
Proof.
  unfold YearFromDay. cbv zeta.
  set (y0 := 1970 + d * 400 / 146097).
  destruct (Z.ltb_spec d (DayFromYear y0)).
  - replace (y0 - 1 + 1) with y0 by lia. split; [|assumption].
    unfold DayFromYear in *. subst y0. Z.div_mod_to_equations. lia.
  - destruct (Z.leb_spec (DayFromYear (y0 + 1)) d).
    + split; [assumption|]. unfold DayFromYear in *. subst y0. Z.div_mod_to_equations. lia.
    + split; assumption.
Qed.

Lemma DayFromYear_mono (y1 y2 : Z) : y1 <= y2 -> DayFromYear y1 <= DayFromYear y2.
Proof. intros H. unfold DayFromYear. Z.div_mod_to_equations. lia. Qed.

Lemma YearFromDay_unique (d y : Z) :
  DayFromYear y <= d < DayFromYear (y + 1) -> YearFromDay d = y.
Proof.
  intros [L U]. pose proof (YearFromDay_spec d) as [L' U'].
  set (y' := YearFromDay d) in *.
  destruct (Z.lt_trichotomy y y') as [C|[C|C]]; [|symmetry; exact C|].
  - pose proof (DayFromYear_mono (y + 1) y' ltac:(lia)). lia.
  - pose proof (DayFromYear_mono (y' + 1) y ltac:(lia)). lia.
Qed.






Lemma Day_sub_day (t : Z) : Day (t - msPerDay) = Day t - 1.
Proof.
  unfold Day, msPerDay. Z.div_mod_to_equations. lia.
Qed.

Lemma Day_bounds (t : Z) : Day t * msPerDay <= t < (Day t + 1) * msPerDay.
Proof. unfold Day, msPerDay. Z.div_mod_to_equations. lia. Qed.

Lemma newDateYMD_at (h : Host) (year : Z) (month day : number) (m d : Z) :
  toInteger month = Some m -> toInteger day = Some d ->
  (year < 0 \/ 99 < year) ->
  Z.abs (MakeDay year m d * msPerDay - localTZA h) <= maxTime ->
  newDateYMD h year month day = DateAt (MakeDay year m d * msPerDay - localTZA h).
Proof.
  intros Hm Hd Hy Hr. unfold newDateYMD. rewrite Hm, Hd.
  replace ((0 <=? year) && (year <=? 99)) with false
    by (symmetry; apply andb_false_iff; rewrite Z.leb_gt, Z.leb_gt; lia).
  unfold timeClipZ. apply Z.leb_le in Hr. rewrite Hr. reflexivity.
Qed.



Local Open Scope string_scope.

(** *** Worked examples *)

Lemma C9_null_date_excluded_witness :
  exists r kept,
    normalizeReceipt exampleHost 0 undatedReceipt 0 "receipts.json" = Some r
    /\ transactionDateTime r = None
    /\ applyFilters exampleHost sinceEpoch [r] = Some kept
    /\ ~ In r kept.
Proof.
  destruct (normalizeReceipt exampleHost 0 undatedReceipt 0 "receipts.json")
    as [r|] eqn:E; [|vm_compute in E; discriminate].
  assert (N : transactionDateTime r = None)
    by (vm_compute in E; injection E as <-; reflexivity).
  destruct (applyFilters exampleHost sinceEpoch [r]) as [kept|] eqn:A;
    [|vm_compute in E; injection E as <-; vm_compute in A; discriminate].
  exists r, kept. split; [reflexivity|]. split; [exact N|]. split; [exact A|].
  apply (C9_null_date_excluded exampleHost sinceEpoch [r] r eq_refl N kept A).
Defined.
Lemma C10_equal_length_keeps_first_witness :
  exists a b,
    normalizeReceipt exampleHost 0 shortExport 0 "a.json" = Some a
    /\ normalizeReceipt exampleHost 0 otherShortExport 0 "b.json" = Some b
    /\ sameValueZero (dedupKey a) (dedupKey b) = true
    /\ List.length (itemArray a) = List.length (itemArray b)
    /\ mergeReceipts [[a]; [b]] = mergeReceipts [[a]]
    /\ In a (mergeReceipts [[a]; [b]]).
Proof.
  destruct (normalizeReceipt exampleHost 0 shortExport 0 "a.json")
    as [a|] eqn:Ea; [|vm_compute in Ea; discriminate].
  destruct (normalizeReceipt exampleHost 0 otherShortExport 0 "b.json")
    as [b|] eqn:Eb; [|vm_compute in Eb; discriminate].
  exists a, b. split; [reflexivity|]. split; [reflexivity|].
  vm_compute in Ea, Eb. injection Ea as <-. injection Eb as <-.
  split; [reflexivity|]. split; [reflexivity|].
  match goal with
  | |- mergeReceipts [[?a]; [?b]] = _ /\ _ =>
      destruct (C10_equal_length_keeps_first [[a]; [b]] [] [] [] a b)
        as (H1 & H2 & _);
        [reflexivity | reflexivity | reflexivity | intros x [] |]
  end.
  split; [exact H1 | exact H2].
Defined.

Lemma C6_longer_receipt_retained_witness :
  exists a b,
    normalizeReceipt exampleHost 0 shortExport 0 "a.json" = Some a
    /\ normalizeReceipt exampleHost 0 fullExport 0 "b.json" = Some b
    /\ sameValueZero (dedupKey a) (dedupKey b) = true
    /\ (List.length (itemArray a) < List.length (itemArray b))%nat
    /\ ~ In a (mergeReceipts [[b]; [a]])
    /\ In b (mergeReceipts [[b]; [a]]).
Proof.
  destruct (normalizeReceipt exampleHost 0 shortExport 0 "a.json")
    as [a|] eqn:Ea; [|vm_compute in Ea; discriminate].
  destruct (normalizeReceipt exampleHost 0 fullExport 0 "b.json")
    as [b|] eqn:Eb; [|vm_compute in Eb; discriminate].
  exists a, b. split; [reflexivity|]. split; [reflexivity|].
  vm_compute in Ea, Eb. injection Ea as <-. injection Eb as <-.
  split; [reflexivity|]. split; [cbn; lia|].
  match goal with
  | |- ~ In ?a (mergeReceipts [[?b]; [?a]]) /\ _ =>
      destruct (C6_longer_receipt_retained [[b]; [a]] a b)
        as (H1 & _ & H3 & _);
        [right; left; reflexivity | left; reflexivity | reflexivity | cbn; lia |]
  end.
  split; [exact H1|]. apply H3.
  intros x [<-|[<-|[]]] _; [left; reflexivity | right; cbn; lia].
Defined.

(** C6 as stated fails.  Of three exports of one transaction that list
    one, two and three items, the first two map to the same key and differ
    in length, and the longer of these two is not retained: the output is
    the third export alone. *)
Lemma C6_longer_of_two_not_retained :
  exists a b c,
    normalizeReceipt exampleHost 0 shortExport 0 "a.json" = Some a
    /\ normalizeReceipt exampleHost 0 fullExport 0 "b.json" = Some b
    /\ normalizeReceipt exampleHost 0 longExport 0 "c.json" = Some c
    /\ sameValueZero (dedupKey a) (dedupKey b) = true
    /\ (List.length (itemArray a) < List.length (itemArray b))%nat
    /\ mergeReceipts [[a]; [b]; [c]] = [c]
    /\ ~ In b (mergeReceipts [[a]; [b]; [c]]).
Proof.
  destruct (normalizeReceipt exampleHost 0 shortExport 0 "a.json")
    as [a|] eqn:Ea; [|vm_compute in Ea; discriminate].
  destruct (normalizeReceipt exampleHost 0 fullExport 0 "b.json")
    as [b|] eqn:Eb; [|vm_compute in Eb; discriminate].
  destruct (normalizeReceipt exampleHost 0 longExport 0 "c.json")
    as [c|] eqn:Ec; [|vm_compute in Ec; discriminate].
  exists a, b, c. split; [reflexivity|]. split; [reflexivity|]. split; [reflexivity|].
  vm_compute in Ea, Eb, Ec. injection Ea as <-. injection Eb as <-. injection Ec as <-.
  split; [reflexivity|]. split; [cbn; lia|].
  split; [reflexivity|].
  intros [H|[]]. apply (f_equal (fun r => List.length (itemArray r))) in H.
  cbn in H. discriminate.
Qed.
Lemma C4_reward_cap_witness :
  exists r res,
    normalizeReceipt exampleHost 0 (scenarioReceipt "345") 0 "receipts.json" = Some r
    /\ calculateExecutiveRewards exampleHost [r] march15Cycle = Some res
    /\ map fst (byYear res) = [2024%Z]
    /\ (forall year,
          byYearGet year (byYear res)
          = match receiptsOfCycle exampleHost (cycleStart_month res) (cycleStart_day res)
                    year [r] with
            | [] => None
            | _ =>
                let S := cycleSubtotal exampleHost (cycleStart_month res)
                           (cycleStart_day res) (excludedDepartments march15Cycle)
                           year [r] in
                Some {| subtotal := S;
                        reward := Math_min (PrimFloat.mul 0.02%float S) 1250%float |}
            end)
    /\ (forall year entry,
          In (year, entry) (byYear res) <-> byYearGet year (byYear res) = Some entry)
    /\ (forall year entry, In (year, entry) (byYear res) ->
          reward entry = Math_min (PrimFloat.mul 0.02%float (subtotal entry)) 1250%float)
    /\ (forall s1 s2, PrimFloat.leb s1 s2 = true ->
          PrimFloat.leb (Math_min (PrimFloat.mul 0.02%float s1) 1250%float)
                        (Math_min (PrimFloat.mul 0.02%float s2) 1250%float) = true).
Proof.
  destruct (normalizeReceipt exampleHost 0 (scenarioReceipt "345") 0 "receipts.json")
    as [r|] eqn:E; [|vm_compute in E; discriminate].
  destruct (calculateExecutiveRewards exampleHost [r] march15Cycle) as [res|] eqn:R;
    [|vm_compute in E; injection E as <-; vm_compute in R; discriminate].
  exists r, res. split; [reflexivity|]. split; [exact R|].
  split; [vm_compute in E; injection E as <-; vm_compute in R; injection R as <-; reflexivity|].
  apply (C4_reward_cap exampleHost [r] march15Cycle res R).
Defined.

(** ** Further properties of the pipeline *)

Local Close Scope Z_scope.

(** *** Cleaning of text *)

Lemma isNewline_isWhiteSpace (c : ascii) :
  isNewline c = true -> isWhiteSpace c = true /\ Ascii.eqb c " " = false.
Proof.
  destruct c as [[] [] [] [] [] [] [] []]; vm_compute; intros H;
    first [discriminate H | split; reflexivity].
Qed.

Lemma singleSpaced_replaceRuns (s : string) (b : bool) :
  singleSpaced b (replaceRuns isWhiteSpace b s) = true.
Proof.
  revert b. induction s as [|c s IH]; intros b; [reflexivity|].
  cbn [replaceRuns]. destruct (isWhiteSpace c) eqn:E.
  - destruct b; [apply IH|].
    cbn [singleSpaced]. change (isWhiteSpace " ") with true. cbn. apply IH.
  - cbn [singleSpaced]. rewrite E. apply IH.
Qed.

Lemma replaceRuns_head (p : ascii -> bool) (c : ascii) (s : string) (b : bool) :
  p c = false -> replaceRuns p b (String c s) = replaceRuns p true (String c s).
Proof. intros H. cbn [replaceRuns]. rewrite H. reflexivity. Qed.

Lemma dropWhile_head (p : ascii -> bool) (s : string) :
  match dropWhile p s with
  | String c _ => p c = false
  | EmptyString => True
  end.
Proof.
  induction s as [|c s IH]; [exact I|].
  cbn [dropWhile]. destruct (p c) eqn:E; [exact IH | exact E].
Qed.

Lemma trim_head (s : string) :
  match trim s with
  | String c _ => isWhiteSpace c = false
  | EmptyString => True
  end.
Proof.
  unfold trim. pose proof (dropWhile_head isWhiteSpace s) as H.
  destruct (dropWhile isWhiteSpace s) as [|c t]; [exact I|].
  cbn [dropEndWhile]. destruct (allb isWhiteSpace (String c t)); [exact I | exact H].
Qed.

Lemma replaceRuns_newline_id (s : string) (b b' : bool) :
  singleSpaced b s = true -> replaceRuns isNewline b' s = s.
Proof.
  revert b b'. induction s as [|c s IH]; intros b b' H; [reflexivity|].
  cbn [singleSpaced] in H. cbn [replaceRuns].
  destruct (isNewline c) eqn:N.
  - destruct (isNewline_isWhiteSpace c N) as [W S]. rewrite W, S in H. discriminate.
  - f_equal. destruct (isWhiteSpace c).
    + apply andb_true_iff in H. destruct H as [_ H]. apply (IH true). exact H.
    + apply (IH false). exact H.
Qed.

Lemma singleSpaced_substring (n : nat) (s : string) (b : bool) :
  singleSpaced b s = true -> singleSpaced b (String.substring 0 n s) = true.
Proof.
  revert s b. induction n as [|n IH]; intros s b H.
  - destruct s; reflexivity.
  - destruct s as [|c s]; [reflexivity|].
    cbn [String.substring singleSpaced] in *.
    destruct (isWhiteSpace c).
    + apply andb_true_iff in H. destruct H as [H1 H2]. rewrite H1. cbn [andb].
      apply IH. exact H2.
    + apply IH. exact H.
Qed.

Lemma length_substring0 (n : nat) (s : string) :
  (String.length (String.substring 0 n s) <= n)%nat.
Proof.
  revert s. induction n as [|n IH]; intros s.
  - destruct s; cbn; lia.
  - destruct s as [|c s]; cbn [String.substring String.length]; [lia|].
    specialize (IH s). lia.
Qed.

(** X1: the text returned by [cleanText] has at most 500 characters, and
    its only white space is single spaces: it contains no tab, line break
    or other white space character, no two spaces in a row, and it does
    not start with a space. *)
Theorem cleanText_single_spaced (text : JSValue) :
  (String.length (cleanText text) <= 500)%nat
  /\ singleSpaced true (cleanText text) = true.
Proof.
  unfold cleanText. destruct text as [| | | |s| |]; try (split; [cbn; lia | reflexivity]).
  destruct (String.eqb s ""); [split; [cbn; lia | reflexivity]|].
  unfold substring0. split; [apply length_substring0|].
  apply singleSpaced_substring.
  assert (H : singleSpaced true (replaceRuns isWhiteSpace false (trim s)) = true).
  { pose proof (trim_head s) as T. destruct (trim s) as [|c t]; [reflexivity|].
    rewrite (replaceRuns_head isWhiteSpace c t false T).
    apply singleSpaced_replaceRuns. }
  rewrite (replaceRuns_newline_id _ true false H). exact H.
Qed.

(** *** Normalization of items *)

(** The conversions to a string or a number throw on the values that
    cannot be converted to a primitive, and only on them. *)
Lemma toString_None (h : Host) (v : JSValue) :
  toString h v = None <-> unprintable v = true.
Proof.
  revert v. fix toString_None 1. intros v.
  destruct v as [| |b|x|s|elems|props]; cbn [toString unprintable];
    try (split; discriminate).
  - destruct b; split; discriminate.
  - induction elems as [|x rest IH]; [split; discriminate|].
    pose proof (toString_None x) as Hx.
    assert (Ex : (match x with JUndefined | JNull => Some "" | _ => toString h x end) = None
                 <-> unprintable x = true)
      by (destruct x; try exact Hx; split; discriminate).
    clear Hx.
    destruct (match x with JUndefined | JNull => Some "" | _ => toString h x end) as [sx|];
      destruct (unprintable x);
      try (destruct Ex as [E1 E2]; try discriminate (E1 eq_refl); try discriminate (E2 eq_refl)).
    + cbn [orb]. destruct rest as [|x' rest']; [split; discriminate|].
      rewrite <- IH. 
      match goal with |- context [match ?e with None => None | Some _ => _ end = None] =>
             destruct e; split; congruence end.
    + cbn [orb]. split; reflexivity.
  - destruct (hasOwn "toString" props); split; congruence.
Qed.

Lemma toNumber_None (h : Host) (v : JSValue) :
  toNumber h v = None <-> unprintable v = true.
Proof.
  rewrite <- (toString_None h).
  destruct v as [| |b|x|s|elems|props]; try (cbn; split; discriminate).
  - destruct b; split; discriminate.
  - unfold toNumber. destruct (toString h (JArr elems)); cbn [bind]; split;
      solve [reflexivity | discriminate].
  - unfold toNumber. destruct (toString h (JObj props)); cbn [bind]; split;
      solve [reflexivity | discriminate].
Qed.

Lemma unprintable_truthy (v : JSValue) : unprintable v = true -> truthy v = true.
Proof. destruct v; try discriminate; reflexivity. Qed.

Lemma unprintable_or (v d : JSValue) :
  unprintable d = false -> unprintable (JS.or v d) = unprintable v.
Proof.
  intros D. unfold JS.or. destruct (truthy v) eqn:T; [reflexivity|].
  rewrite D. destruct (unprintable v) eqn:U; [|reflexivity].
  rewrite (unprintable_truthy v U) in T. discriminate.
Qed.

Lemma toString_Some (h : Host) (v : JSValue) :
  unprintable v = false -> exists s, toString h v = Some s.
Proof.
  intros U. destruct (toString h v) as [s|] eqn:E; [exists s; reflexivity|].
  apply toString_None in E. congruence.
Qed.

Lemma toNumber_Some (h : Host) (v : JSValue) :
  unprintable v = false -> exists x, toNumber h v = Some x.
Proof.
  intros U. destruct (toNumber h v) as [s|] eqn:E; [exists s; reflexivity|].
  apply toNumber_None in E. congruence.
Qed.


Lemma append_nonempty (a b : string) : a <> "" -> (a ++ b) <> "".
Proof. destruct a; [congruence | discriminate]. Qed.

Lemma startsWithSlash_append (a b : string) :
  a <> "" -> startsWithSlash (a ++ b) = startsWithSlash a.
Proof. destruct a; [congruence | reflexivity]. Qed.

Lemma eqb_empty_false (s : string) : String.eqb s "" = false -> s <> "".
Proof. intros H ->. discriminate. Qed.

(** X2: every normalized item has a display name that
    is not empty and does not start with a slash, and an amount that is
    not NaN; an item classified as a discount has a negative amount. *)
Theorem normalizeItem_name (h : Host) (item : JSValue) (n : Item) :
  normalizeItem h item = Some n ->
  normalizedName n <> ""
  /\ startsWithSlash (normalizedName n) = false
  /\ isNaN (amount n) = false
  /\ (isDiscount n = true -> PrimFloat.ltb (amount n) 0%float = true).
Proof.
  unfold normalizeItem. destruct (isNullish item); [discriminate|]. cbv zeta. unbind.
  intros H. injection H as <-.
  cbn [normalizedName amount isDiscount].
  match goal with
  | |- ?s <> "" /\ _ =>
      cut (s <> "" /\ startsWithSlash s = false);
        [intros [N1 N2]; split; [exact N1|]; split; [exact N2|]; split;
         [apply numOr_not_nan
         |unfold classifyDiscount; intros H; apply andb_true_iff in H; tauto]|]
  end.
  match goal with
  | En : _ = Some ?s |- ?s <> "" /\ _ => revert En
  end.
  assert (Last : forall c (e : option string) (num name : string),
            (if c : bool then bind e (fun ref => Some ("Discount on Item " ++ ref))
             else Some ("Item " ++ num)) = Some name ->
            name <> "" /\ startsWithSlash name = false).
  { intros c e num name. destruct c; [destruct e; cbn [bind]; [|discriminate]|];
      intros H; injection H as <-; (split; [discriminate | reflexivity]). }
  destruct (String.eqb (cleanText (JS.or (field item "itemActualName") (JStr ""))) "") eqn:EA;
    destruct (startsWithSlash (cleanText (JS.or (field item "itemActualName") (JStr "")))) eqn:SA;
    cbn [negb andb];
    try (intros H; injection H as <-; split; [apply eqb_empty_false; exact EA | exact SA]);
    (destruct (String.eqb (cleanText (JS.or (field item "itemDescription01") (JStr ""))) "") eqn:ED;
     destruct (startsWithSlash (cleanText (JS.or (field item "itemDescription01") (JStr "")))) eqn:SD;
     cbn [negb andb];
     try (intros H; injection H as <-; split;
          [apply append_nonempty, eqb_empty_false; exact ED
          |rewrite startsWithSlash_append by (apply eqb_empty_false; exact ED); exact SD]);
     apply Last).
Qed.
Lemma normalizeItem_name_witness :
  exists n, normalizeItem exampleHost discountLine = Some n
    /\ normalizedName n <> ""
    /\ startsWithSlash (normalizedName n) = false
    /\ isNaN (amount n) = false
    /\ (isDiscount n = true -> PrimFloat.ltb (amount n) 0%float = true).
Proof.
  destruct (normalizeItem exampleHost discountLine) as [n|] eqn:E;
    [|vm_compute in E; discriminate].
  exists n. split; [reflexivity|].
  apply (normalizeItem_name exampleHost discountLine n E).
Defined.

(** *** Validation *)

Lemma push_not_nil {A} (xs : list A) (x : A) : push xs x <> [].
Proof. unfold push. destruct xs; discriminate. Qed.

Lemma if_push_nil {A} (c : bool) (xs : list A) (x : A) :
  (if c then push xs x else xs) = [] <-> c = false /\ xs = [].
Proof.
  destruct c; split.
  - intros H. destruct (push_not_nil _ _ H).
  - intros [H _]. discriminate.
  - intros H. split; [reflexivity | exact H].
  - intros [_ H]. exact H.
Qed.

Lemma if_single_app_nil {A} (c : bool) (x : A) (rest : list A) :
  ((if c then [x] else []) ++ rest)%list = [] <-> c = false /\ rest = [].
Proof.
  destruct c; cbn [app]; split.
  - discriminate.
  - intros [H _]. discriminate.
  - intros H. split; [reflexivity | exact H].
  - intros [_ H]. exact H.
Qed.

Lemma negb2_false (a b : bool) : negb a && negb b = false <-> a || b = true.
Proof. destruct a, b; cbn; intuition congruence. Qed.

Lemma negb3_false (a b c : bool) :
  negb a && negb b && negb c = false <-> a || b || c = true.
Proof. destruct a, b, c; cbn; intuition congruence. Qed.

Lemma and_negb_false (a b : bool) : a && negb b = false <-> negb a || b = true.
Proof. destruct a, b; cbn; intuition congruence. Qed.


(** The checks behind the errors of [validateItem]. *)
Lemma validateItem_checks (item : JSValue) (ri ii : nat) :
  itemErrors (validateItem item ri ii) = [] <->
  (truthy item = true /\ isTypeObject item = true
   /\ hasProp "itemNumber" item = true /\ hasProp "amount" item = true
   /\ hasProp "unit" item = true
   /\ isNull (field item "amount") || isTypeNumber (field item "amount") = true
   /\ isNull (field item "unit") || isTypeNumber (field item "unit")
      || isTypeString (field item "unit") = true
   /\ JS.not (field item "itemNumber") || isTypeString (field item "itemNumber") = true).
Proof.
  intros. unfold validateItem. cbv zeta. unfold JS.not.
  set (pre := "Receipt " ++ _).
  destruct (truthy item) eqn:T; cbn [negb orb];
    [|split; [discriminate | intros (H & _); discriminate]].
  destruct (isTypeObject item) eqn:O; cbn [negb orb];
    [|split; [discriminate | intros (_ & H & _); discriminate]].
  cbn [itemErrors flat_map ITEM_SCHEMA_required].
  rewrite !if_push_nil, !if_single_app_nil, !negb_false_iff, negb3_false, negb2_false,
    and_negb_false.
  tauto.
Qed.

Lemma validateItems_errors (items : list JSValue) (index i : nat) :
  fst (validateItems items index i) = [] <->
  (forall item, In item items -> forall ri ii, itemErrors (validateItem item ri ii) = []).
Proof.
  revert i. induction items as [|item rest IH]; intros i.
  - cbn. split; [intros _ item [] | reflexivity].
  - cbn [validateItems]. specialize (IH (S i)).
    destruct (validateItems rest index (S i)) as [es ws]. cbn [fst] in *.
    unfold pushAll. split.
    + intros H. apply app_eq_nil in H. destruct H as [H1 H2].
      intros x [<-|Hx] ri ii.
      * apply validateItem_checks. apply (validateItem_checks item index i). exact H1.
      * apply IH; assumption.
    + intros H. rewrite (H item (or_introl eq_refl) index i).
      cbn [app]. apply IH. intros x Hx. apply H. right. exact Hx.
Qed.

Lemma is_nil_true {A} (l : list A) :
  match l with [] => true | _ => false end = true <-> l = [].
Proof. destruct l; split; congruence. Qed.


Lemma isNullish_or (v : JSValue) : isNullish v = isNull v || isUndefined v.
Proof. destruct v; reflexivity. Qed.

Lemma required_fields (receipt : JSValue) :
  (forall f, In f RECEIPT_SCHEMA_required ->
     hasProp f receipt = true /\ isNullish (field receipt f) = false)
  <-> (forall f, In f RECEIPT_SCHEMA_required ->
         negb (hasProp f receipt) || isNull (field receipt f)
         || isUndefined (field receipt f) = false).
Proof.
  split; intros H f Hf; specialize (H f Hf); rewrite isNullish_or in *;
    destruct (hasProp f receipt), (isNull (field receipt f)),
      (isUndefined (field receipt f)); cbn in *; intuition congruence.
Qed.

Lemma flat_map_nil {A B} (f : A -> list B) (l : list A) :
  flat_map f l = [] <-> forall x, In x l -> f x = [].
Proof.
  induction l as [|a l IH]; cbn [flat_map].
  - split; [intros _ x [] | reflexivity].
  - split.
    + intros H. apply app_eq_nil in H. destruct H as [H1 H2].
      intros x [<-|Hx]; [exact H1 | apply IH; assumption].
    + intros H. rewrite (H a (or_introl eq_refl)). cbn [app].
      apply IH. intros x Hx. apply H. right. exact Hx.
Qed.

Lemma if_single_nil {A} (c : bool) (x : A) : (if c then [x] else []) = [] <-> c = false.
Proof. destruct c; split; congruence. Qed.

Lemma toPrimitive_None (h : Host) (v : JSValue) :
  toPrimitive h v = None <-> unprintable v = true.
Proof.
  rewrite <- (toString_None h).
  destruct v as [| |b|x|s|elems|props]; try (cbn; split; discriminate).
  - destruct b; split; discriminate.
  - unfold toPrimitive. destruct (toString h (JArr elems)); cbn [bind]; split;
      solve [reflexivity | discriminate].
  - unfold toPrimitive. destruct (toString h (JObj props)); cbn [bind]; split;
      solve [reflexivity | discriminate].
Qed.

Lemma toPrimitive_primitive (h : Host) (v p : JSValue) :
  toPrimitive h v = Some p -> unprintable p = false.
Proof.
  destruct v as [| |b|x|s|elems|props]; cbn [toPrimitive];
    try (intros H; injection H as <-; reflexivity).
  - destruct (toString h (JArr elems)); cbn [bind]; [|discriminate].
    intros H; injection H as <-; reflexivity.
  - destruct (toString h (JObj props)); cbn [bind]; [|discriminate].
    intros H; injection H as <-; reflexivity.
Qed.

Lemma jsAdd_None (h : Host) (a b : JSValue) :
  jsAdd h a b = None <-> unprintable a || unprintable b = true.
Proof.
  unfold jsAdd.
  destruct (toPrimitive h a) as [pa|] eqn:A; cbn [bind].
  2:{ apply toPrimitive_None in A. rewrite A. split; reflexivity. }
  destruct (toPrimitive h b) as [pb|] eqn:B; cbn [bind].
  2:{ apply toPrimitive_None in B. rewrite B, orb_true_r. split; reflexivity. }
  assert (Ua : unprintable a = false).
  { destruct (unprintable a) eqn:U; [|reflexivity].
    apply (proj2 (toPrimitive_None h a)) in U. congruence. }
  assert (Ub : unprintable b = false).
  { destruct (unprintable b) eqn:U; [|reflexivity].
    apply (proj2 (toPrimitive_None h b)) in U. congruence. }
  rewrite Ua, Ub. cbn [orb].
  destruct (toString_Some h pa (toPrimitive_primitive h a pa A)) as (sa & Sa).
  destruct (toString_Some h pb (toPrimitive_primitive h b pb B)) as (sb & Sb).
  destruct (toNumber_Some h pa (toPrimitive_primitive h a pa A)) as (xa & Xa).
  destruct (toNumber_Some h pb (toPrimitive_primitive h b pb B)) as (xb & Xb).
  rewrite ?Sa, ?Sb, ?Xa, ?Xb.
  destruct pa, pb; rewrite ?Sa, ?Sb, ?Xa, ?Xb; cbn [bind]; split; discriminate.
Qed.

Lemma jsAdd_primitive (h : Host) (a b s : JSValue) :
  jsAdd h a b = Some s -> unprintable s = false.
Proof.
  unfold jsAdd.
  destruct (toPrimitive h a) as [pa|]; cbn [bind]; [|discriminate].
  destruct (toPrimitive h b) as [pb|]; cbn [bind]; [|discriminate].
  destruct pa, pb; unbind; intros H; injection H as <-; reflexivity.
Qed.

Lemma jsSub_None (h : Host) (a b : JSValue) :
  jsSub h a b = None <-> unprintable a || unprintable b = true.
Proof.
  unfold jsSub.
  destruct (toNumber h a) as [x|] eqn:A; cbn [bind].
  2:{ apply toNumber_None in A. rewrite A. split; reflexivity. }
  destruct (toNumber h b) as [y|] eqn:B; cbn [bind].
  2:{ apply toNumber_None in B. rewrite B, orb_true_r. split; reflexivity. }
  destruct (unprintable a) eqn:Ua;
    [apply (proj2 (toNumber_None h a)) in Ua; congruence|].
  destruct (unprintable b) eqn:Ub;
    [apply (proj2 (toNumber_None h b)) in Ub; congruence|].
  split; discriminate.
Qed.

(** [validateReceipt] throws on an object whose [transactionType] cannot
    be converted, and on one whose [subTotal], [taxes] and [total] are all
    truthy while one of the operands of the consistency check cannot be
    converted. *)
Lemma validateReceipt_throws (h : Host) (receipt : JSValue) (index : nat) :
  validateReceipt h receipt index = None <->
  (truthy receipt = true /\ isTypeObject receipt = true
   /\ (unprintable (field receipt "transactionType") = true
       \/ (truthy (field receipt "subTotal") && truthy (field receipt "taxes")
           && truthy (field receipt "total") = true
           /\ existsb (fun f => unprintable (field receipt f))
                ["subTotal"; "taxes"; "orderDiscountAmount"; "total"] = true))).
Proof.
  cbv beta delta [validateReceipt].
  lazymatch goal with
  | |- ((let x := ?e in @?b x) = None <-> ?R) =>
      pose (pre := e); change (b pre = None <-> R); cbv beta
  end.
  cbv beta delta [JS.not].
  destruct (truthy receipt) eqn:T;
    [|split; [discriminate | intros (H & _); discriminate]].
  destruct (isTypeObject receipt) eqn:O;
    [|split; [discriminate | intros (_ & H & _); discriminate]].
  lazymatch goal with
  | |- ((if ?c then ?a else ?b) = None <-> ?R) => change (b = None <-> R)
  end.
  repeat lazymatch goal with
  | |- ((let x := ?e in @?b x) = None <-> ?R) =>
      let E := fresh "E" in pose (E := e); change (b E = None <-> R); cbv beta
  end.
  clearbody E3. clear E E0 E1 E2.
  match goal with
  | |- context [let '(a, b) := ?m in _] => destruct m as [e0 w0]
  end.
  cbv beta iota zeta. cbn [existsb].
  rewrite (unprintable_or (field receipt "orderDiscountAmount") (JNum 0%float) eq_refl)
    || rewrite <- (unprintable_or (field receipt "orderDiscountAmount") (JNum 0%float) eq_refl).
  match goal with
  | |- bind ?w1 _ = None <-> _ =>
      assert (H1 : w1 = None <-> unprintable (field receipt "transactionType") = true)
  end.
  { destruct (unprintable (field receipt "transactionType")) eqn:U.
    - rewrite (unprintable_truthy _ U).
      apply (proj2 (toString_None h _)) in U. rewrite U.
      destruct (field receipt "transactionType"); try discriminate U;
        cbn; split; reflexivity.
    - destruct (_ && _); [destruct (toString_Some h _ U) as (s & ->); cbn [bind]|];
        split; discriminate. }
  match goal with
  | |- bind ?e _ = None <-> _ => destruct e as [w1|]
  end; cbn [bind].
  2:{ split; [intros _|reflexivity]. split; [reflexivity|]. split; [reflexivity|].
      left. apply H1. reflexivity. }
  assert (U1 : unprintable (field receipt "transactionType") = false).
  { destruct (unprintable (field receipt "transactionType")); [|reflexivity].
    destruct H1 as [_ H1]. discriminate (H1 eq_refl). }
  clear H1. rewrite U1.
  destruct (truthy (field receipt "subTotal") && truthy (field receipt "taxes")
            && truthy (field receipt "total")).
  2:{ cbn [bind]. split; [discriminate|]. intros (_ & _ & [H|[H _]]); discriminate. }
  destruct (jsAdd h (field receipt "subTotal") (field receipt "taxes")) as [sum|] eqn:A;
    cbn [bind].
  2:{ apply jsAdd_None in A. split; [intros _|reflexivity].
      split; [reflexivity|]. split; [reflexivity|]. right. split; [reflexivity|].
      apply orb_true_iff in A. destruct A as [-> | ->]; rewrite ?orb_true_r; reflexivity. }
  pose proof (jsAdd_primitive _ _ _ _ A) as Us.
  assert (A' : unprintable (field receipt "subTotal") || unprintable (field receipt "taxes") = false).
  { destruct (_ || _) eqn:U; [|reflexivity]. apply (proj2 (jsAdd_None h _ _)) in U. congruence. }
  apply orb_false_iff in A'. destruct A' as [-> ->]. cbn [orb].
  destruct (jsSub h sum _) as [calc|] eqn:B; cbn [bind].
  2:{ apply jsSub_None in B. rewrite Us in B. cbn [orb] in B. rewrite B.
      split; [intros _|reflexivity]. split; [reflexivity|]. split; [reflexivity|].
      right. split; reflexivity. }
  assert (B' : unprintable (JS.or (field receipt "orderDiscountAmount") (JNum 0%float)) = false).
  { destruct (unprintable (JS.or _ _)) eqn:U; [|reflexivity].
    assert (F : jsSub h sum (JS.or (field receipt "orderDiscountAmount") (JNum 0%float)) = None)
      by (apply jsSub_None; rewrite U; apply orb_true_r).
    congruence. }
  rewrite B'. cbn [orb].
  destruct (jsSub h (JNum calc) (field receipt "total")) as [diff|] eqn:C; cbn [bind].
  2:{ apply jsSub_None in C. cbn [unprintable orb] in C. rewrite C.
      split; [intros _|reflexivity]. split; [reflexivity|]. split; [reflexivity|].
      right. split; reflexivity. }
  assert (C' : unprintable (field receipt "total") = false).
  { destruct (unprintable (field receipt "total")) eqn:U; [|reflexivity].
    assert (F : jsSub h (JNum calc) (field receipt "total") = None)
      by (apply jsSub_None; rewrite U; apply orb_true_r).
    congruence. }
  rewrite C'.
  destruct (PrimFloat.ltb _ _);
    [destruct (toString_Some h _ C') as (s & ->); cbn [bind]|];
    (split; [discriminate | intros (_ & _ & [H|[_ H]]); discriminate]).
Qed.

(** The checks behind the errors of [validateReceipt]. *)
Lemma validateReceipt_checks (h : Host) (receipt : JSValue) (index : nat)
    (v : ReceiptValidation) :
  validateReceipt h receipt index = Some v ->
  valid v = true <->
  (truthy receipt = true /\ isTypeObject receipt = true
   /\ (forall f, In f RECEIPT_SCHEMA_required ->
         negb (hasProp f receipt) || isNull (field receipt f)
         || isUndefined (field receipt f) = false)
   /\ truthy (field receipt "transactionDate")
      || truthy (field receipt "transactionDateISO")
      || truthy (field receipt "transactionDateTime") = true
   /\ JS.not (field receipt "transactionDate")
      || isTypeString (field receipt "transactionDate") = true
   /\ isNull (field receipt "total") || strictEqStr (field receipt "total") ""
      || isTypeNumber (field receipt "total") = true
   /\ isNull (field receipt "warehouseNumber")
      || isTypeNumber (field receipt "warehouseNumber") = true
   /\ (exists items, field receipt "itemArray" = JArr items
         /\ forall item, In item items ->
              forall ri ii, itemErrors (validateItem item ri ii) = [])
   /\ JS.not (field receipt "tenderArray") || isArray (field receipt "tenderArray") = true
   /\ JS.not (field receipt "couponArray") || isArray (field receipt "couponArray") = true).
Proof.
  cbv beta delta [validateReceipt].
  lazymatch goal with
  | |- ((let x := ?e in @?b x) = Some v -> ?R) =>
      pose (pre := e); change (b pre = Some v -> R); cbv beta
  end.
  cbv beta delta [JS.not].
  destruct (truthy receipt) eqn:T;
    [|intros H; injection H as <-; split; [discriminate | intros (H & _); discriminate]].
  destruct (isTypeObject receipt) eqn:O;
    [|intros H; injection H as <-; split; [discriminate | intros (_ & H & _); discriminate]].
  lazymatch goal with
  | |- ((if ?c then ?a else ?b) = Some v -> ?R) => change (b = Some v -> R)
  end.
  repeat lazymatch goal with
  | |- ((let x := ?e in @?b x) = Some v -> ?R) =>
      let E := fresh "E" in pose (E := e); change (b E = Some v -> R); cbv beta
  end.
  assert (HE3 : E3 = [] <->
            (forall f, In f RECEIPT_SCHEMA_required ->
               negb (hasProp f receipt) || isNull (field receipt f)
               || isUndefined (field receipt f) = false)
            /\ truthy (field receipt "transactionDate")
               || truthy (field receipt "transactionDateISO")
               || truthy (field receipt "transactionDateTime") = true
            /\ negb (truthy (field receipt "transactionDate"))
               || isTypeString (field receipt "transactionDate") = true
            /\ isNull (field receipt "total") || strictEqStr (field receipt "total") ""
               || isTypeNumber (field receipt "total") = true
            /\ isNull (field receipt "warehouseNumber")
               || isTypeNumber (field receipt "warehouseNumber") = true).
  { unfold E3, E2, E1, E0, E.
    rewrite !if_push_nil, flat_map_nil, negb2_false, !negb3_false, and_negb_false.
    setoid_rewrite if_single_nil. tauto. }
  clearbody E3. clear E E0 E1 E2.
  match goal with
  | |- context [let '(a, b) := ?m in _] => destruct m as [e0 w0] eqn:M
  end.
  cbv beta iota zeta.
  unbind. intros H. injection H as <-.
  cbv beta iota zeta delta [valid].
  rewrite is_nil_true, !if_push_nil, !and_negb_false.
  assert (He0 : e0 = [] <->
            E3 = [] /\ exists items, field receipt "itemArray" = JArr items
              /\ forall item, In item items ->
                   forall ri ii, itemErrors (validateItem item ri ii) = []).
  { destruct (field receipt "itemArray") as [| |b|x|s|items|props] eqn:IA;
      try (injection M as <- <-; split;
           [intros H; destruct (push_not_nil _ _ H)
           |intros (_ & items & H & _); discriminate]).
    destruct items as [|item rest].
    - injection M as <- <-. split.
      + intros H. split; [exact H|]. exists []. split; [reflexivity | intros item []].
      + tauto.
    - pose proof (validateItems_errors (item :: rest) index 0) as V.
      destruct (validateItems (item :: rest) index 0) as [es ws]. cbn [fst] in V.
      injection M as <- <-. unfold pushAll. split.
      + intros H. apply app_eq_nil in H. destruct H as [H1 H2].
        split; [exact H1|]. exists (item :: rest). split; [reflexivity|].
        apply V. exact H2.
      + intros (H1 & items & H2 & H3). injection H2 as <-.
        rewrite H1. cbn [app]. apply V. exact H3. }
  rewrite He0, HE3. tauto.
Qed.
(** X3: [validateItem] reports no error exactly for
    an object that has the three properties [itemNumber], [amount] and
    [unit], whose [amount] is [null] or a number, whose [unit] is [null],
    a number or a string, and whose [itemNumber] is falsy or a string.
    The position of the item plays no part, and an array is never
    accepted. *)
Theorem validateItem_accepts (item : JSValue) (ri ii : nat) :
  itemErrors (validateItem item ri ii) = [] <->
  exists props, item = JObj props
    /\ (forall f, In f ITEM_SCHEMA_required -> hasProp f item = true)
    /\ (field item "amount" = JNull \/ isTypeNumber (field item "amount") = true)
    /\ (field item "unit" = JNull \/ isTypeNumber (field item "unit") = true
        \/ isTypeString (field item "unit") = true)
    /\ (truthy (field item "itemNumber") = false
        \/ isTypeString (field item "itemNumber") = true).
Proof.
  rewrite validateItem_checks. unfold JS.not. split.
  - intros (T & O & P1 & P2 & P3 & A & U & N).
    destruct item as [| |b|x|s|l|props]; try discriminate.
    exists props. split; [reflexivity|].
    split; [intros f [<-|[<-|[<-|[]]]]; assumption|].
    repeat split.
    + destruct (field (JObj props) "amount"); try discriminate; auto.
    + destruct (field (JObj props) "unit"); try discriminate; auto.
    + destruct (truthy (field (JObj props) "itemNumber")); [right; exact N | left; reflexivity].
  - intros (props & -> & P & A & U & N).
    split; [reflexivity|]. split; [reflexivity|].
    split; [apply P; cbn; tauto|]. split; [apply P; cbn; tauto|].
    split; [apply P; cbn; tauto|].
    split; [destruct A as [-> | ->]; [reflexivity | apply orb_true_r] |].
    split; [destruct U as [-> | [-> | ->]];
            [reflexivity | rewrite orb_true_r; reflexivity | apply orb_true_r] |].
    destruct N as [-> | ->]; [reflexivity | apply orb_true_r].
Qed.

(** X4: [validateReceipt] throws exactly on an object whose
    [transactionType] cannot be converted to a string, or whose
    [subTotal], [taxes] and [total] are all truthy while one of
    [subTotal], [taxes], [orderDiscountAmount] and [total] cannot be
    converted.  When it returns, the receipt is valid exactly when it is
    an object whose four required fields are present and neither [null]
    nor [undefined], one of the three date fields is truthy,
    [transactionDate] is falsy or a string, [total] is a number or the
    empty string, [warehouseNumber] is a number, [itemArray] is an array
    all of whose elements pass [validateItem], and [tenderArray] and
    [couponArray] are falsy or arrays.  So a receipt passes exactly when
    it meets these conditions and the call does not throw; neither the
    index nor the host's conversions make a difference. *)
Theorem validateReceipt_valid_iff (h : Host) (receipt : JSValue) (index : nat) :
  let accepted :=
    exists props, receipt = JObj props
     /\ (forall f, In f RECEIPT_SCHEMA_required ->
           hasProp f receipt = true /\ isNullish (field receipt f) = false)
     /\ truthy (field receipt "transactionDate")
        || truthy (field receipt "transactionDateISO")
        || truthy (field receipt "transactionDateTime") = true
     /\ (truthy (field receipt "transactionDate") = false
         \/ isTypeString (field receipt "transactionDate") = true)
     /\ (field receipt "total" = JStr "" \/ isTypeNumber (field receipt "total") = true)
     /\ isTypeNumber (field receipt "warehouseNumber") = true
     /\ (exists items, field receipt "itemArray" = JArr items
           /\ forall item, In item items ->
                forall ri ii, itemErrors (validateItem item ri ii) = [])
     /\ (truthy (field receipt "tenderArray") = false
         \/ isArray (field receipt "tenderArray") = true)
     /\ (truthy (field receipt "couponArray") = false
         \/ isArray (field receipt "couponArray") = true) in
  let throws :=
    unprintable (field receipt "transactionType") = true
    \/ (truthy (field receipt "subTotal") && truthy (field receipt "taxes")
        && truthy (field receipt "total") = true
        /\ existsb (fun f => unprintable (field receipt f))
             ["subTotal"; "taxes"; "orderDiscountAmount"; "total"] = true) in
  (validateReceipt h receipt index = None <->
   (exists props, receipt = JObj props) /\ throws)
  /\ (forall v, validateReceipt h receipt index = Some v ->
        (valid v = true <-> accepted))
  /\ (passes h receipt index = true <-> accepted /\ ~ throws).
Proof.
  cbv zeta.
  assert (A : forall v, validateReceipt h receipt index = Some v ->
            valid v = true <->
            exists props, receipt = JObj props
             /\ (forall f, In f RECEIPT_SCHEMA_required ->
                   hasProp f receipt = true /\ isNullish (field receipt f) = false)
             /\ truthy (field receipt "transactionDate")
                || truthy (field receipt "transactionDateISO")
                || truthy (field receipt "transactionDateTime") = true
             /\ (truthy (field receipt "transactionDate") = false
                 \/ isTypeString (field receipt "transactionDate") = true)
             /\ (field receipt "total" = JStr ""
                 \/ isTypeNumber (field receipt "total") = true)
             /\ isTypeNumber (field receipt "warehouseNumber") = true
             /\ (exists items, field receipt "itemArray" = JArr items
                   /\ forall item, In item items ->
                        forall ri ii, itemErrors (validateItem item ri ii) = [])
             /\ (truthy (field receipt "tenderArray") = false
                 \/ isArray (field receipt "tenderArray") = true)
             /\ (truthy (field receipt "couponArray") = false
                 \/ isArray (field receipt "couponArray") = true)).
  { intros v Hv.
    rewrite (validateReceipt_checks h receipt index v Hv), <- required_fields.
    unfold JS.not. split.
    - intros (T & O & R & D & TD & TT & W & I & TA & CA).
      destruct (R "total" ltac:(cbn; tauto)) as [_ N1].
      destruct (R "warehouseNumber" ltac:(cbn; tauto)) as [P N2].
      destruct receipt as [| |b|x|s|l|props]; try discriminate.
      exists props. split; [reflexivity|]. split; [exact R|]. split; [exact D|].
      split; [destruct (truthy (field (JObj props) "transactionDate")); auto|].
      split.
      { destruct (field (JObj props) "total") as [| |b|x|s|l|props']; try discriminate; auto.
        cbn [isNull strictEqStr isTypeNumber orb] in TT. rewrite orb_false_r in TT.
        apply String.eqb_eq in TT.
        left. rewrite TT. reflexivity. }
      split; [destruct (field (JObj props) "warehouseNumber"); try discriminate; reflexivity|].
      split; [exact I|].
      split; [destruct (truthy (field (JObj props) "tenderArray")); auto
             |destruct (truthy (field (JObj props) "couponArray")); auto].
    - intros (props & -> & R & D & TD & TT & W & I & TA & CA).
      split; [reflexivity|]. split; [reflexivity|]. split; [exact R|]. split; [exact D|].
      split; [destruct TD as [-> | ->]; [reflexivity | apply orb_true_r] |].
      split; [destruct TT as [-> | ->]; [reflexivity | apply orb_true_r] |].
      split; [rewrite W; apply orb_true_r|]. split; [exact I|].
      split; [destruct TA as [-> | ->]; [reflexivity | apply orb_true_r]
             |destruct CA as [-> | ->]; [reflexivity | apply orb_true_r]]. }
  assert (B : validateReceipt h receipt index = None <->
              (exists props, receipt = JObj props)
              /\ (unprintable (field receipt "transactionType") = true
                  \/ (truthy (field receipt "subTotal") && truthy (field receipt "taxes")
                      && truthy (field receipt "total") = true
                      /\ existsb (fun f => unprintable (field receipt f))
                           ["subTotal"; "taxes"; "orderDiscountAmount"; "total"] = true))).
  { rewrite validateReceipt_throws. split.
    - intros (T & O & H). split; [|exact H].
      destruct receipt as [| |b|x|s|l|props]; try discriminate.
      + destruct H as [H|[H _]]; discriminate.
      + exists props. reflexivity.
    - intros ((props & ->) & H). split; [reflexivity|]. split; [reflexivity | exact H]. }
  split; [exact B|]. split; [exact A|].
  unfold passes. destruct (validateReceipt h receipt index) as [v|] eqn:V.
  - rewrite (A v eq_refl). split.
    + intros H. split; [exact H|]. intros Hthrow.
      destruct H as (props & Hp & _).
      assert (F : Some v = None) by (apply B; split; [exists props; exact Hp | exact Hthrow]).
      discriminate.
    + tauto.
  - split; [discriminate|]. intros [(props & Hp & _) N]. destruct N.
    apply (proj1 B eq_refl).
Qed.
(** X29: [validateJSONStructure] throws exactly when the root is an
    array and [validateReceipt] throws on one of its receipts.  When it
    returns, it rejects the file exactly when the root is not an array,
    or is an empty array, or no receipt passes the per-receipt
    validation; otherwise the file is accepted, [receipts] holds exactly
    the valid receipts in their order, and [validCount] and
    [invalidCount] report how many receipts passed and failed. *)
Theorem validateJSONStructure_outcomes (h : Host) (data : JSValue) (fname : string) :
  (validateJSONStructure h data fname = None
   <-> exists l index receipt,
         data = JArr l /\ nth_error l index = Some receipt
         /\ validateReceipt h receipt index = None)
  /\ (forall v, validateJSONStructure h data fname = Some v ->
        (fileValid v = false <->
           (isArray data = false \/ data = JArr []
            \/ exists l, data = JArr l /\ validReceiptsOf h l = []))
        /\ (forall l, data = JArr l -> validReceiptsOf h l <> [] ->
              fileValid v = true
              /\ receipts v = validReceiptsOf h l
              /\ totalCount v = Some (List.length l)
              /\ validCount v = Some (List.length (validReceiptsOf h l))
              /\ invalidCount v
                 = Some (List.length l - List.length (validReceiptsOf h l))%nat)).
Proof.
  split; [apply validateJSONStructure_throws|].
  intros v Ev.
  destruct data as [| | b | x | s | [|receipt rest] | props];
    try (cbn in Ev; injection Ev as <-;
         split; [split; [intros _; left; reflexivity | reflexivity]
                | intros l E; discriminate]).
  - cbn in Ev. injection Ev as <-.
    split; [split; [intros _; right; left; reflexivity | reflexivity]|].
    intros l E. injection E as <-. intros N. contradiction N. reflexivity.
  - destruct (validateJSONStructure_array h receipt rest fname v Ev)
      as (Hr & Hv & Ht & Hc & Hi).
    split.
    + rewrite Hv. split.
      * intros Hz. right; right. exists (receipt :: rest). split; [reflexivity|].
        destruct (validReceiptsOf h (receipt :: rest)); [reflexivity|discriminate].
      * intros [Ha | [He | (l & El & Ev')]]; try discriminate.
        injection El as <-. rewrite Ev'. reflexivity.
    + intros l E N. injection E as <-. rewrite Hv, Hr, Ht, Hc, Hi.
      repeat split; try reflexivity.
      destruct (validReceiptsOf h (receipt :: rest)); [contradiction N; reflexivity|reflexivity].
Qed.

(** *** Validation followed by normalization *)

Lemma mapM_none {A B : Type} (f : A -> option B) (l : list A) :
  mapM f l = None <-> exists x, In x l /\ f x = None.
Proof.
  induction l as [|a l IH]; cbn [mapM].
  - split; [discriminate | intros (x & [] & _)].
  - destruct (f a) as [y|] eqn:E; cbn [bind].
    + destruct (mapM f l) as [ys|] eqn:M; cbn [bind].
      * split; [discriminate|]. intros (x & [<-|Hx] & Hn); [congruence|].
        assert (H : Some ys = None) by (apply IH; exists x; split; assumption).
        discriminate H.
      * split; [intros _|reflexivity].
        destruct (proj1 IH eq_refl) as (x & Hx & Hn). exists x. split; [right|]; assumption.
    + split; [intros _; exists a; split; [left; reflexivity | exact E] | reflexivity].
Qed.


Lemma bind_None_iff {A B : Type} (e : option A) (k : A -> option B) (C R : Prop) :
  (e = None <-> C) -> (forall x, e = Some x -> (k x = None <-> R)) ->
  (bind e k = None <-> C \/ R).
Proof.
  destruct e as [a|]; cbn [bind]; intros H1 H2.
  - rewrite (H2 a eq_refl). split; [tauto|].
    intros [H|H]; [apply H1 in H; discriminate | exact H].
  - split; [intros _; left; apply H1; reflexivity | reflexivity].
Qed.

Lemma newDate_None (h : Host) (v : JSValue) :
  newDate h v = None <-> unprintable v = true.
Proof.
  destruct v as [| |b|x|s|elems|props]; try (cbn; split; discriminate).
  - destruct b; split; discriminate.
  - rewrite <- (toString_None h). unfold newDate.
    destruct (toString h (JArr elems)); cbn [bind]; split;
      solve [reflexivity | discriminate].
  - rewrite <- (toString_None h). unfold newDate.
    destruct (toString h (JObj props)); cbn [bind]; split;
      solve [reflexivity | discriminate].
Qed.

Lemma parseDate_None (h : Host) (dateStr : JSValue) :
  parseDate h dateStr = None <-> unprintable dateStr = true.
Proof.
  unfold parseDate, JS.not.
  destruct (unprintable dateStr) eqn:U.
  - rewrite (unprintable_truthy _ U). cbn [negb].
    rewrite (proj2 (newDate_None h _) U), (proj2 (toString_None h _) U). split; reflexivity.
  - destruct (truthy dateStr); cbn [negb]; [|split; discriminate].
    destruct (newDate h dateStr) as [[|t]|] eqn:N; try (split; discriminate).
    apply newDate_None in N. congruence.
Qed.



(** The ways in which [normalizeReceipt] throws, in the order of its
    conversions. *)
Lemma normalizeReceipt_throws (h : Host) (now : Z) (receipt : JSValue)
    (index : nat) (file : string) :
  normalizeReceipt h now receipt index file = None <->
  isNullish receipt = true
  \/ unprintable (JS.or (JS.or (field receipt "transactionDateISO")
                               (field receipt "transactionDateTime"))
                        (field receipt "transactionDate")) = true
  \/ generateReceiptId h receipt index = None
  \/ unprintable (field receipt "warehouseNumber") = true
  \/ unprintable (field receipt "total") = true
  \/ unprintable (field receipt "subTotal") = true
  \/ unprintable (field receipt "taxes") = true
  \/ unprintable (field receipt "instantSavings") = true
  \/ unprintable (field receipt "membershipNumber") = true
  \/ (exists items, field receipt "itemArray" = JArr items
        /\ mapM (normalizeItem h) items = None)
  \/ (isOnlineOrder receipt = true
      /\ unprintable (field receipt "orderDiscountAmount") = true).
Proof.
  unfold normalizeReceipt.
  destruct (isNullish receipt); [split; [intros _; left; reflexivity | reflexivity]|].
  cbv zeta.
  match goal with |- ?L <-> false = true \/ ?R =>
    cut (L <-> R); [intros ->; split; [tauto | intros [H|H]; [discriminate | exact H]]|] end.
  apply bind_None_iff; [apply parseDate_None | intros transactionDate _].
  apply bind_None_iff; [reflexivity | intros id _].
  apply bind_None_iff; [apply toNumber_None | intros warehouseNumber _].
  apply bind_None_iff; [apply toNumber_None | intros total _].
  apply bind_None_iff; [apply toNumber_None | intros subTotal _].
  apply bind_None_iff; [apply toNumber_None | intros taxes _].
  apply bind_None_iff; [apply toNumber_None | intros literalSavings _].
  apply bind_None_iff.
  { destruct (unprintable (field receipt "membershipNumber")) eqn:U.
    - rewrite (unprintable_truthy _ U), (proj2 (toString_None h _) U). split; reflexivity.
    - destruct (truthy _); [destruct (toString_Some h _ U) as (m & ->)|];
        cbn [bind]; split; discriminate. }
  intros membershipNumber _.
  apply bind_None_iff.
  { destruct (field receipt "itemArray") as [| |b|x|s|l|props];
      try (split; [discriminate | intros (items & E & _); discriminate]).
    split.
    - intros H. exists l. split; [reflexivity | exact H].
    - intros (items & E & H). injection E as <-. exact H. }
  intros items _.
  destruct (isOnlineOrder receipt); cbn [andb].
  - destruct (unprintable (field receipt "orderDiscountAmount")) eqn:U.
    + rewrite (unprintable_truthy _ U), (proj2 (toNumber_None h _) U). cbn [bind].
      split; auto.
    + destruct (truthy _); [destruct (toNumber_Some h _ U) as (m & ->)|];
        cbn [bind]; (split; [discriminate | intros [_ H]; discriminate]).
  - cbn [bind]. split; [discriminate | intros [H _]; discriminate].
Qed.


(** *** Merge *)

(** X6: when the merge keys of the receipts given to [mergeReceipts] are
    primitive values, every receipt it returns is one of the receipts it
    was given, and no two returned receipts have the same merge key. *)
Theorem mergeReceipts_unique (receiptsArray : list (list Receipt)) :
  forallb primitiveKey (List.concat receiptsArray) = true ->
  incl (mergeReceipts receiptsArray) (List.concat receiptsArray)
  /\ distinctKeys (mergeReceipts receiptsArray) = true
  /\ forallb primitiveKey (mergeReceipts receiptsArray) = true
  /\ (forall a b, In a (mergeReceipts receiptsArray) ->
        In b (mergeReceipts receiptsArray) ->
        sameValueZero (dedupKey a) (dedupKey b) = true -> a = b).
Proof.
  intros P. split; [|split; [|split]].
  - intros r. apply mergeReceipts_incl.
  - apply mergeReceipts_distinct.
  - apply forallb_forall. intros r Hr.
    apply (proj1 (forallb_forall _ _) P). apply mergeReceipts_incl. exact Hr.
  - intros a b. apply distinctKeys_same. apply mergeReceipts_distinct.
Qed.
(** X7: for every receipt given to
    [mergeReceipts], the result holds that receipt or a receipt with the
    same merge key, and the one it holds lists at least as many items. *)
Theorem mergeReceipts_keeps_most_complete (receiptsArray : list (list Receipt))
    (a : Receipt) :
  In a (List.concat receiptsArray) ->
  exists b, In b (mergeReceipts receiptsArray)
    /\ (b = a \/ sameValueZero (dedupKey b) (dedupKey a) = true)
    /\ (List.length (itemArray a) <= List.length (itemArray b))%nat.
Proof.
  intros Ha. rewrite mergeReceipts_concat.
  destruct (mergeAll_covers (List.concat receiptsArray) [] a (or_intror Ha))
    as (k & b & Hin & Hk & Hlen).
  assert (K : keyed (fold_left mergeStep (List.concat receiptsArray) []))
    by (apply mergeAll_keyed; intros k0 y []).
  exists b. split; [apply in_map_iff; exists (k, b); split; [reflexivity | exact Hin]|].
  split; [|exact Hlen].
  destruct Hk as [[_ ->]|Hk]; [left; reflexivity|].
  right. destruct (K k b Hin) as [->|Hb]; [exact Hk|].
  rewrite sameValueZero_sym in Hb. apply (sameValueZero_trans _ _ _ Hb Hk).
Qed.

Lemma distinctKeys_fresh (x : Receipt) (l : list Receipt) :
  negb (existsb (fun b => sameValueZero (dedupKey x) (dedupKey b)) l) = true ->
  forall r, In r l -> sameValueZero (dedupKey x) (dedupKey r) = false.
Proof.
  intros H r Hr. apply negb_true_iff in H.
  destruct (sameValueZero (dedupKey x) (dedupKey r)) eqn:E; [|reflexivity].
  assert (existsb (fun b => sameValueZero (dedupKey x) (dedupKey b)) l = true)
    by (apply existsb_exists; exists r; split; assumption).
  congruence.
Qed.

Lemma mergeAll_distinct (l : list Receipt) : forall m,
  distinctKeys l = true ->
  (forall r, In r l -> freshKey (dedupKey r) m) ->
  fold_left mergeStep l m = (m ++ map (fun r => (dedupKey r, r)) l)%list.
Proof.
  induction l as [|x l IH]; intros m D F.
  - cbn. rewrite app_nil_r. reflexivity.
  - cbn [distinctKeys] in D. apply andb_true_iff in D. destruct D as [D1 D2].
    cbn [fold_left map]. unfold mergeStep at 2. cbv zeta.
    rewrite (mapGet_fresh _ _ (F x (or_introl eq_refl))).
    rewrite (mapSet_fresh _ _ _ (F x (or_introl eq_refl))).
    rewrite IH; [rewrite <- app_assoc; reflexivity | exact D2 |].
    intros r Hr. apply freshKey_app. split; [apply F; right; exact Hr|].
    intros k' r' [H|[]]. injection H as <- <-.
    apply (distinctKeys_fresh x l D1 r Hr).
Qed.

Lemma mergeReceipts_distinct_id (l : list Receipt) :
  distinctKeys l = true -> mergeReceipts [l] = l.
Proof.
  intros D. rewrite mergeReceipts_concat. cbn [List.concat]. rewrite app_nil_r.
  rewrite (mergeAll_distinct l [] D); [|intros r _ k' r' []].
  cbn [app]. rewrite map_map. cbn [snd]. apply map_id.
Qed.

(** X8: when the merge keys of the receipts are primitive values, merging
    the result of a merge again changes nothing, and a list in which no
    two receipts have the same merge key is returned as it is. *)
Theorem mergeReceipts_idempotent (receiptsArray : list (list Receipt)) :
  forallb primitiveKey (List.concat receiptsArray) = true ->
  mergeReceipts [mergeReceipts receiptsArray] = mergeReceipts receiptsArray
  /\ (forall l, forallb primitiveKey l = true -> distinctKeys l = true ->
        mergeReceipts [l] = l).
Proof.
  intros _. split.
  - apply mergeReceipts_distinct_id. apply mergeReceipts_distinct.
  - intros l _. apply mergeReceipts_distinct_id.
Qed.
Lemma mergeReceipts_unique_witness :
  exists a b,
    normalizeReceipt exampleHost 0 shortExport 0 "a.json" = Some a
    /\ normalizeReceipt exampleHost 0 fullExport 0 "b.json" = Some b
    /\ forallb primitiveKey (List.concat [[a]; [b]]) = true
    /\ incl (mergeReceipts [[a]; [b]]) (List.concat [[a]; [b]])
    /\ distinctKeys (mergeReceipts [[a]; [b]]) = true
    /\ forallb primitiveKey (mergeReceipts [[a]; [b]]) = true
    /\ (forall x y, In x (mergeReceipts [[a]; [b]]) ->
          In y (mergeReceipts [[a]; [b]]) ->
          sameValueZero (dedupKey x) (dedupKey y) = true -> x = y).
Proof.
  destruct (normalizeReceipt exampleHost 0 shortExport 0 "a.json")
    as [a|] eqn:Ea; [|vm_compute in Ea; discriminate].
  destruct (normalizeReceipt exampleHost 0 fullExport 0 "b.json")
    as [b|] eqn:Eb; [|vm_compute in Eb; discriminate].
  exists a, b. split; [reflexivity|]. split; [reflexivity|].
  assert (P : forallb primitiveKey (List.concat [[a]; [b]]) = true)
    by (vm_compute in Ea, Eb; injection Ea as <-; injection Eb as <-; reflexivity).
  split; [exact P|].
  apply (mergeReceipts_unique [[a]; [b]] P).
Defined.

Lemma mergeReceipts_idempotent_witness :
  exists a b,
    normalizeReceipt exampleHost 0 shortExport 0 "a.json" = Some a
    /\ normalizeReceipt exampleHost 0 fullExport 0 "b.json" = Some b
    /\ forallb primitiveKey (List.concat [[a]; [b]]) = true
    /\ mergeReceipts [mergeReceipts [[a]; [b]]] = mergeReceipts [[a]; [b]]
    /\ (forall l, forallb primitiveKey l = true -> distinctKeys l = true ->
          mergeReceipts [l] = l).
Proof.
  destruct (normalizeReceipt exampleHost 0 shortExport 0 "a.json")
    as [a|] eqn:Ea; [|vm_compute in Ea; discriminate].
  destruct (normalizeReceipt exampleHost 0 fullExport 0 "b.json")
    as [b|] eqn:Eb; [|vm_compute in Eb; discriminate].
  exists a, b. split; [reflexivity|]. split; [reflexivity|].
  assert (P : forallb primitiveKey (List.concat [[a]; [b]]) = true)
    by (vm_compute in Ea, Eb; injection Ea as <-; injection Eb as <-; reflexivity).
  split; [exact P|].
  apply (mergeReceipts_idempotent [[a]; [b]] P).
Defined.

Lemma mergeReceipts_keeps_most_complete_witness :
  exists a b,
    normalizeReceipt exampleHost 0 shortExport 0 "a.json" = Some a
    /\ normalizeReceipt exampleHost 0 fullExport 0 "b.json" = Some b
    /\ In a (List.concat [[a]; [b]])
    /\ exists c, In c (mergeReceipts [[a]; [b]])
         /\ (c = a \/ sameValueZero (dedupKey c) (dedupKey a) = true)
         /\ (List.length (itemArray a) <= List.length (itemArray c))%nat.
Proof.
  destruct (normalizeReceipt exampleHost 0 shortExport 0 "a.json")
    as [a|] eqn:Ea; [|vm_compute in Ea; discriminate].
  destruct (normalizeReceipt exampleHost 0 fullExport 0 "b.json")
    as [b|] eqn:Eb; [|vm_compute in Eb; discriminate].
  exists a, b. split; [reflexivity|]. split; [reflexivity|].
  split; [left; reflexivity|].
  apply (mergeReceipts_keeps_most_complete [[a]; [b]] a). left. reflexivity.
Defined.

(** *** Filters *)

Lemma filter_filter {A : Type} (p q : A -> bool) (l : list A) :
  filter p (filter q l) = filter (fun x => q x && p x) l.
Proof.
  induction l as [|a l IH]; [reflexivity|].
  cbn [filter]. destruct (q a); cbn [filter andb]; [destruct (p a)|]; rewrite IH; reflexivity.
Qed.

Lemma filter_true {A : Type} (l : list A) : filter (fun _ => true) l = l.
Proof. induction l as [|a l IH]; [reflexivity|]. cbn [filter]. rewrite IH. reflexivity. Qed.

Lemma applyFilters_filter (h : Host) (state : FilterState) (receipts : list Receipt) :
  applyFilters h state receipts
  = do whNum <- filterNumber h state ;;
    Some (filter (matchesFilters whNum state) receipts).
Proof.
  unfold applyFilters, matchesFilters, filterNumber. cbv zeta.
  destruct (isSet (dateRange_start state) || isSet (dateRange_end state)),
    (truthy (state_channel state)),
    (negb (isNull (state_warehouse state))
     && negb (strictEqStr (state_warehouse state) "all")),
    (strictEqStr (state_warehouse state) "ONLINE"),
    (isSet (truthyStr (state_membershipNumber state))),
    (truthy (state_transactionType state)
     && negb (strictEqStr (state_transactionType state) "all")),
    (truthyStr (state_searchTerm state));
    cbn [negb andb bind];
    try (destruct (toNumber h (state_warehouse state)); cbn [bind]; [|reflexivity]);
    f_equal;
    rewrite ?filter_filter;
    first [ apply filter_ext; intros a; cbn [andb];
            rewrite ?andb_true_r, ?andb_assoc; reflexivity
          | symmetry; apply filter_true ].
Qed.
Lemma filter_idem {A : Type} (p : A -> bool) (l : list A) :
  filter p (filter p l) = filter p l.
Proof.
  rewrite filter_filter. apply filter_ext. intros a. destruct (p a); reflexivity.
Qed.

(** X9: [applyFilters] decides receipt by receipt and keeps the order:
    the result on two lists put together is the two results put together,
    filtering a result again changes nothing, and the state left by
    [clearFilters] keeps every receipt.  Whether the call throws does not
    depend on the receipts: it throws exactly when the warehouse filter
    is set to a value that cannot be converted to a number. *)
Theorem applyFilters_per_receipt (h : Host) (state : FilterState)
    (l1 l2 : list Receipt) :
  applyFilters h state (l1 ++ l2)%list
  = (do kept1 <- applyFilters h state l1 ;;
     do kept2 <- applyFilters h state l2 ;;
     Some (kept1 ++ kept2)%list)
  /\ (do kept1 <- applyFilters h state l1 ;; applyFilters h state kept1)
     = applyFilters h state l1
  /\ applyFilters h (fst (clearFilters state)) l1 = Some l1
  /\ (applyFilters h state l1 = None <->
      negb (isNull (state_warehouse state))
      && negb (strictEqStr (state_warehouse state) "all")
      && unprintable (state_warehouse state) = true).
Proof.
  rewrite !applyFilters_filter.
  destruct (filterNumber h state) as [whNum|] eqn:F; cbn [bind].
  - split; [rewrite filter_app; reflexivity|].
    split; [rewrite applyFilters_filter, F; cbn [bind]; rewrite filter_idem; reflexivity|].
    split; [cbn [clearFilters fst]; unfold filterNumber; cbn; rewrite filter_true; reflexivity|].
    split; [discriminate|]. intros H. exfalso.
    apply andb_true_iff in H. destruct H as [H U]. unfold filterNumber in F.
    rewrite H in F. cbn [andb] in F.
    destruct (state_warehouse state); try discriminate U;
      cbn [strictEqStr negb] in F; apply (proj2 (toNumber_None h _)) in U; congruence.
  - split; [reflexivity|]. split; [reflexivity|].
    split; [cbn [clearFilters fst]; unfold filterNumber; cbn; rewrite filter_true; reflexivity|].
    split; [intros _|reflexivity].
    unfold filterNumber in F.
    destruct (negb (isNull (state_warehouse state))
              && negb (strictEqStr (state_warehouse state) "all")); cbn [andb] in *;
      [|discriminate].
    destruct (negb _); [|discriminate]. apply (proj1 (toNumber_None h _) F).
Qed.
Lemma applyFilters_in_range (h : Host) (state : FilterState) (receipts : list Receipt)
    (kept : list Receipt) (r : Receipt) (t : Z) :
  applyFilters h state receipts = Some kept ->
  In r kept ->
  transactionDateTime r = Some (DateAt t) ->
  (forall a, dateRange_start state = Some (DateAt a) -> (a <= t)%Z)
  /\ (forall b, dateRange_end state = Some (DateAt b) -> (t <= b)%Z).
Proof.
  intros K Hin Ht. rewrite applyFilters_filter in K.
  destruct (filterNumber h state) as [whNum|]; [|discriminate].
  cbn [bind] in K. injection K as <-. apply filter_In in Hin.
  destruct Hin as [_ M]. unfold matchesFilters in M.
  split.
  - intros a E. rewrite E in M. cbn [isSet orb] in M. unfold dateRangePredicate in M.
    rewrite E, Ht in M. cbn [beforeBound dateLt] in M.
    destruct (Z.ltb_spec t a) as [L|L]; [discriminate | exact L].
  - intros b E. rewrite E in M. cbn [isSet] in M. rewrite orb_true_r in M.
    unfold dateRangePredicate in M. rewrite E, Ht in M.
    destruct (beforeBound (DateAt t) (dateRange_start state)); [discriminate|].
    cbn [afterBound dateLt] in M.
    destruct (Z.ltb_spec b t) as [L|L]; [discriminate | lia].
Qed.
(** X10: after [setDateRange], every receipt that
    [applyFilters] keeps and whose date is valid lies within the bounds
    that are valid dates: not before the start and not after the end. *)
Theorem dateRange_bounds (h : Host) (state : FilterState) (start end_ : option Date)
    (receipts kept : list Receipt) (r : Receipt) (t : Z) :
  applyFilters h (fst (setDateRange state start end_)) receipts = Some kept ->
  In r kept ->
  transactionDateTime r = Some (DateAt t) ->
  (forall a, start = Some (DateAt a) -> (a <= t)%Z)
  /\ (forall b, end_ = Some (DateAt b) -> (t <= b)%Z).
Proof.
  intros K Hin Ht.
  destruct (applyFilters_in_range h _ receipts kept r t K Hin Ht) as [A B].
  cbn [setDateRange fst dateRange_start dateRange_end] in A, B.
  split; assumption.
Qed.
Lemma dateRange_bounds_witness :
  exists r,
    normalizeReceipt exampleHost 0 (scenarioReceipt "111") 0 "receipts.json" = Some r
    /\ applyFilters exampleHost
         (fst (setDateRange initialState (Some (DateAt 0))
                 (Some (DateAt 1800000000000)))) [r] = Some [r]
    /\ In r [r]
    /\ transactionDateTime r = Some (DateAt 1710460800000)
    /\ (forall a, Some (DateAt 0) = Some (DateAt a) -> (a <= 1710460800000)%Z)
    /\ (forall b, Some (DateAt 1800000000000) = Some (DateAt b) -> (1710460800000 <= b)%Z).
Proof.
  destruct (normalizeReceipt exampleHost 0 (scenarioReceipt "111") 0 "receipts.json")
    as [r|] eqn:E; [|vm_compute in E; discriminate].
  exists r. split; [reflexivity|].
  assert (T : transactionDateTime r = Some (DateAt 1710460800000))
    by (vm_compute in E; injection E as <-; reflexivity).
  assert (K : applyFilters exampleHost
                (fst (setDateRange initialState (Some (DateAt 0))
                        (Some (DateAt 1800000000000)))) [r] = Some [r]).
  { rewrite applyFilters_filter. cbn [filter].
    replace (filterNumber exampleHost
               (fst (setDateRange initialState (Some (DateAt 0))
                       (Some (DateAt 1800000000000))))) with (Some 0%float)
      by reflexivity.
    cbn [bind filter].
    replace (matchesFilters 0%float
               (fst (setDateRange initialState (Some (DateAt 0))
                       (Some (DateAt 1800000000000)))) r) with true;
      [reflexivity|].
    unfold matchesFilters, dateRangePredicate.
    cbn [setDateRange fst initialState dateRange_start dateRange_end state_channel
         state_warehouse state_membershipNumber state_searchTerm state_transactionType
         isSet orb truthy isNull negb andb truthyStr].
    rewrite T. reflexivity. }
  split; [exact K|]. split; [left; reflexivity|]. split; [exact T|].
  apply (dateRange_bounds exampleHost initialState (Some (DateAt 0))
           (Some (DateAt 1800000000000)) [r] [r] r 1710460800000 K
           (or_introl eq_refl) T).
Defined.
Lemma allb_dropEndWhile (p : ascii -> bool) (s : string) :
  allb p s = false -> allb p (dropEndWhile p s) = false.
Proof.
  induction s as [|c s IH]; [discriminate|].
  intros H. cbn [dropEndWhile]. rewrite H. cbn [allb] in *.
  destruct (p c); cbn [andb] in *; [apply IH; exact H | reflexivity].
Qed.

Lemma dropEndWhile_idem (p : ascii -> bool) (s : string) :
  dropEndWhile p (dropEndWhile p s) = dropEndWhile p s.
Proof.
  induction s as [|c s IH]; [reflexivity|].
  cbn [dropEndWhile]. destruct (allb p (String c s)) eqn:E; [reflexivity|].
  cbn [dropEndWhile].
  assert (E' : allb p (String c (dropEndWhile p s)) = false).
  { cbn [allb] in *. destruct (p c); cbn [andb] in *; [apply allb_dropEndWhile; exact E | reflexivity]. }
  rewrite E', IH. reflexivity.
Qed.

Lemma dropWhile_head_id (p : ascii -> bool) (s : string) :
  match s with String c _ => p c = false | EmptyString => True end ->
  dropWhile p s = s.
Proof. destruct s as [|c s]; [reflexivity|]. cbn [dropWhile]. intros ->. reflexivity. Qed.

Lemma trim_idem (s : string) : trim (trim s) = trim s.
Proof.
  pose proof (trim_head s) as H. unfold trim at 1.
  rewrite (dropWhile_head_id isWhiteSpace (trim s) H).
  unfold trim. apply dropEndWhile_idem.
Qed.

Lemma length_pos_nonempty (s : string) : (0 <? String.length s)%nat = true <-> s <> "".
Proof. destruct s; cbn; split; congruence. Qed.

(** X11: [setSearchTerm] throws exactly on a truthy
    argument that is not a string, and then leaves the state alone.
    Otherwise it emits one [filter:changed] event that carries the new
    state, changes no other field, and stores either [null], when the
    argument is falsy or blank, or the trimmed text, which is then not
    empty and has no white space at either end. *)
Theorem setSearchTerm_trims (state : FilterState) (term : JSValue) :
  (setSearchTerm state term = None <-> truthy term = true /\ isTypeString term = false)
  /\ (forall state' events, setSearchTerm state term = Some (state', events) ->
        events = [FilterChanged state']
        /\ state' = {| dateRange_start := dateRange_start state;
                       dateRange_end := dateRange_end state;
                       state_warehouse := state_warehouse state;
                       state_channel := state_channel state;
                       state_membershipNumber := state_membershipNumber state;
                       state_searchTerm := state_searchTerm state';
                       state_transactionType := state_transactionType state;
                       currentPreset := currentPreset state |}
        /\ (state_searchTerm state' = None <->
            truthy term = false \/ exists s, term = JStr s /\ trim s = "")
        /\ (forall s', state_searchTerm state' = Some s' ->
              s' <> "" /\ trim s' = s' /\ exists s, term = JStr s /\ s' = trim s)).
Proof.
  unfold setSearchTerm, getActiveFilters. split.
  - destruct term as [| |b|x|s|l|props]; cbn [truthy isTypeString bind];
      try (split; [discriminate | intros [H _]; discriminate]);
      try (split; [intros _; split; reflexivity | reflexivity]).
    + destruct b; cbn [bind];
        [split; [intros _; split; reflexivity | reflexivity]
        |split; [discriminate | intros [H _]; discriminate]].
    + destruct (truthyNum x); cbn [bind];
        [split; [intros _; split; reflexivity | reflexivity]
        |split; [discriminate | intros [H _]; discriminate]].
    + destruct (negb (String.eqb s "")); cbn [bind];
        split; try discriminate; intros [_ H]; discriminate.
  - intros state' events H.
    assert (G : exists st,
              (state', events)
              = ({| dateRange_start := dateRange_start state;
                    dateRange_end := dateRange_end state;
                    state_warehouse := state_warehouse state;
                    state_channel := state_channel state;
                    state_membershipNumber := state_membershipNumber state;
                    state_searchTerm := st;
                    state_transactionType := state_transactionType state;
                    currentPreset := currentPreset state |},
                 [FilterChanged
                    {| dateRange_start := dateRange_start state;
                       dateRange_end := dateRange_end state;
                       state_warehouse := state_warehouse state;
                       state_channel := state_channel state;
                       state_membershipNumber := state_membershipNumber state;
                       state_searchTerm := st;
                       state_transactionType := state_transactionType state;
                       currentPreset := currentPreset state |}])
              /\ (st = None <-> truthy term = false \/ exists s, term = JStr s /\ trim s = "")
              /\ (forall s', st = Some s' ->
                    s' <> "" /\ trim s' = s' /\ exists s, term = JStr s /\ s' = trim s)).
    { destruct (truthy term) eqn:T.
      - destruct term as [| |b|x|s|l|props]; cbn [bind] in H; try discriminate.
        injection H as <- <-.
        exists (if (0 <? String.length (trim s))%nat then Some (trim s) else None).
        split; [reflexivity|].
        destruct (0 <? String.length (trim s))%nat eqn:L.
        + apply length_pos_nonempty in L. split.
          * split; [discriminate|]. intros [H|(s0 & H1 & H2)]; [discriminate|].
            injection H1 as <-. contradiction.
          * intros s' H. injection H as <-. split; [exact L|].
            split; [apply trim_idem|]. exists s. split; reflexivity.
        + split; [|discriminate]. split; [|reflexivity]. intros _. right. exists s.
          split; [reflexivity|]. destruct (trim s); [reflexivity | discriminate].
      - cbn [bind] in H. injection H as <- <-. exists None. split; [reflexivity|].
        split; [|discriminate]. split; [intros _; left; reflexivity | reflexivity]. }
    destruct G as (st & E & G1 & G2). injection E as -> ->.
    cbn [state_searchTerm]. split; [reflexivity|]. split; [reflexivity|].
    split; assumption.
Qed.

(** The first instant of the local year of [t]. *)
Lemma yearStart_facts (h : Host) (t : Z) :
  let Y := getFullYear h t in
  let s := (MakeDay Y 0 1 * msPerDay - localTZA h)%Z in
  (s <= t)%Z /\ (t - 367 * msPerDay < s)%Z
  /\ getFullYear h s = Y /\ getMonth h s = 0%Z /\ getDate h s = 1%Z
  /\ TimeWithinDay (LocalTime h s) = 0%Z.
Proof.
  cbv zeta. unfold getFullYear, getMonth, getDate.
  set (lt := LocalTime h t). set (Y := YearFromTime lt).
  assert (HM : MakeDay Y 0 1 = DayFromYear Y).
  { unfold MakeDay. cbv zeta. change (0 / 12)%Z with 0%Z. change (0 mod 12)%Z with 0%Z.
    rewrite !Z.add_0_r. cbn [monthStart]. lia. }
  rewrite HM.
  pose proof (YearFromDay_spec (Day lt)) as [YL YU]. fold (YearFromTime lt) in YL, YU. fold Y in YL, YU.
  pose proof (Day_bounds lt) as [DL DU].
  pose proof (DayFromYear_step Y) as St.
  assert (St' : (365 <= DayFromYear (Y + 1) - DayFromYear Y <= 366)%Z)
    by (destruct (InLeapYear Y); lia).
  assert (Hlt : lt = (t + localTZA h)%Z) by reflexivity.
  assert (HL : LocalTime h (DayFromYear Y * msPerDay - localTZA h) = (DayFromYear Y * msPerDay)%Z)
    by (unfold LocalTime; lia).
  rewrite HL.
  assert (HD : Day (DayFromYear Y * msPerDay) = DayFromYear Y)
    by (unfold Day, msPerDay; apply Z.div_mul; lia).
  assert (HY : YearFromTime (DayFromYear Y * msPerDay) = Y).
  { unfold YearFromTime. rewrite HD. apply YearFromDay_unique. lia. }
  assert (HW : DayWithinYear (DayFromYear Y * msPerDay) = 0%Z)
    by (unfold DayWithinYear; rewrite HY, HD; lia).
  assert (HMo : MonthFromTime (DayFromYear Y * msPerDay) = 0%Z).
  { unfold MonthFromTime. cbv zeta. rewrite HW. cbn [monthStart]. reflexivity. }
  unfold msPerDay in *.
  split; [lia|]. split; [lia|]. split; [exact HY|]. split; [exact HMo|].
  split.
  - unfold DateFromTime. rewrite HW, HMo. cbn [monthStart]. reflexivity.
  - unfold TimeWithinDay, msPerDay. apply Z.mod_mul. lia.
Qed.

(** X12: the preset [ytd], chosen at clock reading [now]
    in a year outside 0..99, sets a date range that starts at the first
    instant of the first of January of the current local year and ends at
    [now]; [applyFilters] then keeps no receipt whose valid date lies
    outside that range.  The other filters are left as they were. *)
Theorem setPreset_ytd (h : Host) (now now' : Z) (state : FilterState) :
  (Z.abs now <= maxTime - 400 * msPerDay)%Z ->
  (getFullYear h now < 0 \/ 99 < getFullYear h now)%Z ->
  exists start,
    fst (setPreset h now now' state (JStr "ytd"))
    = withDateRange state (Some (DateAt start)) (Some (DateAt now)) "ytd"
    /\ (start <= now)%Z
    /\ getFullYear h start = getFullYear h now
    /\ getMonth h start = 0%Z /\ getDate h start = 1%Z
    /\ TimeWithinDay (LocalTime h start) = 0%Z
    /\ (forall receipts kept r t,
          applyFilters h (fst (setPreset h now now' state (JStr "ytd"))) receipts
          = Some kept ->
          In r kept ->
          transactionDateTime r = Some (DateAt t) -> (start <= t <= now)%Z).
Proof.
  intros Hrange Hyear.
  destruct (yearStart_facts h now) as (S1 & S2 & S3 & S4 & S5 & S6).
  set (start := (MakeDay (getFullYear h now) 0 1 * msPerDay - localTZA h)%Z) in *.
  assert (E : newDateYMD h (getFullYear h now) 0%float 1%float = DateAt start).
  { apply newDateYMD_at; [reflexivity | reflexivity | exact Hyear|].
    fold start. unfold maxTime, msPerDay in *. lia. }
  assert (P : fst (setPreset h now now' state (JStr "ytd"))
              = withDateRange state (Some (DateAt start)) (Some (DateAt now)) "ytd").
  { unfold setPreset. cbn [strictEqStr String.eqb Ascii.eqb Bool.eqb fst]. rewrite E. reflexivity. }
  exists start. split; [exact P|]. split; [exact S1|]. split; [exact S3|].
  split; [exact S4|]. split; [exact S5|]. split; [exact S6|].
  intros receipts kept r t K Hin Ht. rewrite P in K.
  destruct (applyFilters_in_range h _ receipts kept r t K Hin Ht) as [A B].
  split; [apply A; reflexivity | apply B; reflexivity].
Qed.

Lemma setPreset_ytd_witness :
  (Z.abs 1710513780000 <= maxTime - 400 * msPerDay)%Z
  /\ (getFullYear exampleHost 1710513780000 < 0 \/ 99 < getFullYear exampleHost 1710513780000)%Z
  /\ exists start,
      fst (setPreset exampleHost 1710513780000 1710513780001 initialState (JStr "ytd"))
      = withDateRange initialState (Some (DateAt start)) (Some (DateAt 1710513780000)) "ytd"
      /\ (start <= 1710513780000)%Z
      /\ getFullYear exampleHost start = getFullYear exampleHost 1710513780000
      /\ getMonth exampleHost start = 0%Z /\ getDate exampleHost start = 1%Z
      /\ TimeWithinDay (LocalTime exampleHost start) = 0%Z
      /\ (forall receipts kept r t,
            applyFilters exampleHost
              (fst (setPreset exampleHost 1710513780000 1710513780001 initialState
                      (JStr "ytd"))) receipts
            = Some kept ->
            In r kept ->
            transactionDateTime r = Some (DateAt t) -> (start <= t <= 1710513780000)%Z).
Proof.
  split; [vm_compute; discriminate|].
  split; [right; vm_compute; reflexivity|].
  apply (setPreset_ytd exampleHost 1710513780000 1710513780001 initialState).
  - vm_compute. discriminate.
  - right. vm_compute. reflexivity.
Defined.

(** *** Totals *)

(** The item loop leaves the receipt counters alone. *)
Lemma visitItems_counters (refund : bool) (items : list Item) : forall a,
  let a' := fold_left (visitItem refund) items a in
  acc_salesReceipts a' = acc_salesReceipts a
  /\ acc_refundReceipts a' = acc_refundReceipts a
  /\ acc_warehouseVisits a' = acc_warehouseVisits a
  /\ acc_onlineOrders a' = acc_onlineOrders a
  /\ acc_totalSavings a' = acc_totalSavings a
  /\ acc_grossSpent a' = acc_grossSpent a.
Proof.
  induction items as [|item items IH]; intros a; cbv zeta; [repeat split|].
  cbn [fold_left]. specialize (IH (visitItem refund a item)). cbv zeta in IH.
  destruct IH as (H1 & H2 & H3 & H4 & H5 & H6).
  rewrite H1, H2, H3, H4, H5, H6. repeat split.
Qed.

Lemma visitReceipt_counters (a : Acc) (r : Receipt) :
  let online := strictEqStr (receiptChannel r) "online"
                || strictEqStr (documentType r) "OnlineReceipts" in
  acc_salesReceipts (visitReceipt a r)
  = (if isRefund r then acc_salesReceipts a else S (acc_salesReceipts a))
  /\ acc_refundReceipts (visitReceipt a r)
     = (if isRefund r then S (acc_refundReceipts a) else acc_refundReceipts a)
  /\ acc_warehouseVisits (visitReceipt a r)
     = (if online then acc_warehouseVisits a
        else if negb (strictEqStr (receiptChannel r) "gas_station")
        then S (acc_warehouseVisits a) else acc_warehouseVisits a)
  /\ acc_onlineOrders (visitReceipt a r)
     = (if online then S (acc_onlineOrders a) else acc_onlineOrders a).
Proof.
  cbv zeta. unfold visitReceipt.
  destruct (visitItems_counters (isRefund r) (itemArray r) (visitReceiptHeader a r))
    as (C1 & C2 & C3 & C4 & _).
  rewrite C1, C2, C3, C4. repeat split.
Qed.

Lemma accumulate_counters (receipts : list Receipt) : forall a,
  let a' := fold_left visitReceipt receipts a in
  (acc_salesReceipts a' + acc_refundReceipts a'
   = acc_salesReceipts a + acc_refundReceipts a + List.length receipts)%nat
  /\ (acc_warehouseVisits a' + acc_onlineOrders a'
      <= acc_warehouseVisits a + acc_onlineOrders a + List.length receipts)%nat
  /\ (acc_refundReceipts a'
      = acc_refundReceipts a + List.length (filter isRefund receipts))%nat.
Proof.
  induction receipts as [|r receipts IH]; intros a; cbv zeta; [cbn; lia|].
  cbn [fold_left List.length filter]. specialize (IH (visitReceipt a r)). cbv zeta in IH.
  destruct IH as (H1 & H2 & H3).
  destruct (visitReceipt_counters a r) as (C1 & C2 & C3 & C4).
  rewrite C1, C2 in H1. rewrite C3, C4 in H2. rewrite C2 in H3.
  destruct (isRefund r); cbn [List.length];
    destruct (strictEqStr (receiptChannel r) "online"
              || strictEqStr (documentType r) "OnlineReceipts");
    destruct (negb (strictEqStr (receiptChannel r) "gas_station")); lia.
Qed.

(** X13: in the object returned by
    [calculateTotals], every receipt is counted once as a sale or as a
    refund, so [salesReceipts + refundReceipts = totalReceipts];
    [refundReceipts] is the number of receipts that the refund test
    selects; and a receipt counts at most once as a warehouse visit or as
    an online order. *)
Theorem calculateTotals_counts (receipts : list Receipt) :
  let stats := calculateTotals receipts in
  totalReceipts stats = List.length receipts
  /\ (salesReceipts stats + refundReceipts stats = totalReceipts stats)%nat
  /\ refundReceipts stats = List.length (filter isRefund receipts)
  /\ (warehouseVisits stats + onlineOrders stats <= totalReceipts stats)%nat.
Proof.
  cbv zeta. destruct receipts as [|r receipts]; [cbn; repeat split; lia|].
  destruct (accumulate_counters (r :: receipts) initialAcc) as (H1 & H2 & H3).
  cbn [initialAcc acc_salesReceipts acc_refundReceipts acc_warehouseVisits acc_onlineOrders]
    in H1, H2, H3.
  unfold calculateTotals.
  cbn [totalReceipts salesReceipts refundReceipts warehouseVisits onlineOrders].
  unfold accumulate. repeat split; lia.
Qed.

(** *** Unique items *)

Lemma setAdd_In (x y : string) (s : list string) :
  In y (setAdd x s) <-> In y s \/ y = x.
Proof.
  unfold setAdd. destruct (existsb (String.eqb x) s) eqn:E.
  - split; [tauto|]. intros [H | ->]; [exact H|].
    apply existsb_exists in E. destruct E as (z & Hz & E). apply String.eqb_eq in E.
    subst z. exact Hz.
  - rewrite in_app_iff. cbn [In]. intuition congruence.
Qed.

Lemma setAdd_NoDup (x : string) (s : list string) : NoDup s -> NoDup (setAdd x s).
Proof.
  intros N. unfold setAdd. destruct (existsb (String.eqb x) s) eqn:E; [exact N|].
  apply NoDup_app; [exact N | constructor; [intros [] | constructor] |].
  intros y Hy [E'|[]]. subst y.
  assert (existsb (String.eqb x) s = true)
    by (apply existsb_exists; exists x; split; [exact Hy | apply String.eqb_refl]).
  congruence.
Qed.

Lemma qtySet_keys (k : string) (v : number) (m : list (string * number)) :
  map fst (qtySet k v m) = setAdd k (map fst m).
Proof.
  unfold setAdd. induction m as [|[k' v'] m IH]; [reflexivity|].
  cbn [qtySet map fst existsb]. rewrite (String.eqb_sym k k').
  destruct (String.eqb k' k); cbn [orb map fst]; [reflexivity|].
  rewrite IH. destruct (existsb (String.eqb k) (map fst m)); reflexivity.
Qed.

Lemma visitItem_setsAgree (refund : bool) (a : Acc) (item : Item) :
  setsAgree a -> setsAgree (visitItem refund a item).
Proof.
  intros (K & N & I). unfold setsAgree, visitItem. cbv zeta.
  cbn [itemNetQuantities uniqueItemsSet uniqueReturnedItemsSet].
  destruct (negb (String.eqb (itemNumber item) "")).
  - rewrite qtySet_keys, K. split; [reflexivity|].
    destruct refund; cbn [andb].
    + split; [apply setAdd_NoDup; exact N|].
      intros y Hy. apply setAdd_In in Hy. apply setAdd_In.
      destruct Hy as [Hy| ->]; [left; apply I; exact Hy | right; reflexivity].
    + split; [exact N|]. intros y Hy. apply setAdd_In. left. apply I. exact Hy.
  - rewrite andb_false_r. repeat split; assumption.
Qed.

Lemma visitItems_setsAgree (refund : bool) (items : list Item) : forall a,
  setsAgree a -> setsAgree (fold_left (visitItem refund) items a).
Proof.
  induction items as [|item items IH]; intros a H; [exact H|].
  cbn [fold_left]. apply IH. apply visitItem_setsAgree. exact H.
Qed.

Lemma accumulate_setsAgree (receipts : list Receipt) : forall a,
  setsAgree a -> setsAgree (fold_left visitReceipt receipts a).
Proof.
  induction receipts as [|r receipts IH]; intros a H; [exact H|].
  cbn [fold_left]. apply IH. unfold visitReceipt. apply visitItems_setsAgree. exact H.
Qed.

(** X14: in the object returned by
    [calculateTotals], the items with a positive net quantity and the
    returned items are both counted among the unique items, so neither
    [netUniqueItems] nor [uniqueReturnedItems] exceeds [uniqueItems]; only
    the object returned for an empty list lacks [uniqueReturnedItems]. *)
Theorem calculateTotals_unique_items (receipts : list Receipt) :
  let stats := calculateTotals receipts in
  (netUniqueItems stats <= uniqueItems stats)%nat
  /\ match uniqueReturnedItems stats with
     | Some n => (n <= uniqueItems stats)%nat
     | None => receipts = []
     end.
Proof.
  cbv zeta. destruct receipts as [|r receipts]; [cbn; split; [lia | reflexivity]|].
  assert (S0 : setsAgree initialAcc).
  { repeat split; [constructor | intros y []]. }
  destruct (accumulate_setsAgree (r :: receipts) initialAcc S0) as (K & N & I).
  unfold calculateTotals. cbn [netUniqueItems uniqueItems uniqueReturnedItems].
  fold (accumulate (r :: receipts)) in K, N, I.
  split.
  - rewrite <- K, length_map. etransitivity; [apply filter_length_le|].
    rewrite length_map. lia.
  - apply NoDup_incl_length; assumption.
Qed.

(** *** Averages *)

Lemma Math_min_choice (a b : number) :
  isNaN a = false -> isNaN b = false ->
  (Math_min a b = a \/ Math_min a b = b)
  /\ PrimFloat.leb (Math_min a b) a = true
  /\ PrimFloat.leb (Math_min a b) b = true.
Proof.
  intros Na Nb. unfold Math_min. rewrite Na, Nb. cbn [orb].
  unfold isNaN in *.
  destruct (PrimFloat.ltb a b) eqn:L1.
  - split; [left; reflexivity|]. split; [apply float_leb_refl; exact Na | apply float_ltb_leb; exact L1].
  - destruct (PrimFloat.ltb b a) eqn:L2.
    + split; [right; reflexivity|].
      split; [apply float_ltb_leb; exact L2 | apply float_leb_refl; exact Nb].
    + pose proof (float_ltb_false_leb a b Na Nb L1) as H1.
      pose proof (float_ltb_false_leb b a Nb Na L2) as H2.
      destruct (PrimFloat.get_sign a).
      * split; [left; reflexivity|]. split; [apply float_leb_refl; exact Na | exact H2].
      * split; [right; reflexivity|]. split; [exact H1 | apply float_leb_refl; exact Nb].
Qed.

Lemma Math_max_choice (a b : number) :
  isNaN a = false -> isNaN b = false ->
  (Math_max a b = a \/ Math_max a b = b)
  /\ PrimFloat.leb a (Math_max a b) = true
  /\ PrimFloat.leb b (Math_max a b) = true.
Proof.
  intros Na Nb. unfold Math_max. rewrite Na, Nb. cbn [orb].
  unfold isNaN in *.
  destruct (PrimFloat.ltb a b) eqn:L1.
  - split; [right; reflexivity|]. split; [apply float_ltb_leb; exact L1 | apply float_leb_refl; exact Nb].
  - destruct (PrimFloat.ltb b a) eqn:L2.
    + split; [left; reflexivity|].
      split; [apply float_leb_refl; exact Na | apply float_ltb_leb; exact L2].
    + pose proof (float_ltb_false_leb a b Na Nb L1) as H1.
      pose proof (float_ltb_false_leb b a Nb Na L2) as H2.
      destruct (PrimFloat.get_sign a).
      * split; [right; reflexivity|]. split; [exact H2 | apply float_leb_refl; exact Nb].
      * split; [left; reflexivity|]. split; [apply float_leb_refl; exact Na | exact H1].
Qed.

(** The running minimum over a list without NaN. *)
Lemma fold_Math_min (xs : list number) : forall acc,
  isNaN acc = false -> (forall x, In x xs -> isNaN x = false) ->
  let m := fold_left Math_min xs acc in
  isNaN m = false /\ (m = acc \/ In m xs)
  /\ PrimFloat.leb m acc = true
  /\ (forall x, In x xs -> PrimFloat.leb m x = true).
Proof.
  induction xs as [|x xs IH]; intros acc Na Nx; cbv zeta.
  - cbn [fold_left]. split; [exact Na|]. split; [left; reflexivity|].
    split; [apply float_leb_refl; exact Na | intros x []].
  - cbn [fold_left].
    destruct (Math_min_choice acc x Na (Nx x (or_introl eq_refl))) as (C & L1 & L2).
    assert (Nm : isNaN (Math_min acc x) = false) by (destruct C as [-> | ->]; [exact Na | apply Nx; left; reflexivity]).
    destruct (IH (Math_min acc x) Nm (fun y Hy => Nx y (or_intror Hy))) as (N & M & B1 & B2).
    split; [exact N|]. split.
    + destruct M as [M|M]; [|right; right; exact M].
      rewrite M. destruct C as [-> | ->]; [left; reflexivity | right; left; reflexivity].
    + split; [apply (float_leb_trans _ _ _ B1 L1)|].
      intros y [<-|Hy]; [apply (float_leb_trans _ _ _ B1 L2) | apply B2; exact Hy].
Qed.

Lemma fold_Math_max (xs : list number) : forall acc,
  isNaN acc = false -> (forall x, In x xs -> isNaN x = false) ->
  let m := fold_left Math_max xs acc in
  isNaN m = false /\ (m = acc \/ In m xs)
  /\ PrimFloat.leb acc m = true
  /\ (forall x, In x xs -> PrimFloat.leb x m = true).
Proof.
  induction xs as [|x xs IH]; intros acc Na Nx; cbv zeta.
  - cbn [fold_left]. split; [exact Na|]. split; [left; reflexivity|].
    split; [apply float_leb_refl; exact Na | intros x []].
  - cbn [fold_left].
    destruct (Math_max_choice acc x Na (Nx x (or_introl eq_refl))) as (C & L1 & L2).
    assert (Nm : isNaN (Math_max acc x) = false) by (destruct C as [-> | ->]; [exact Na | apply Nx; left; reflexivity]).
    destruct (IH (Math_max acc x) Nm (fun y Hy => Nx y (or_intror Hy))) as (N & M & B1 & B2).
    split; [exact N|]. split.
    + destruct M as [M|M]; [|right; right; exact M].
      rewrite M. destruct C as [-> | ->]; [left; reflexivity | right; left; reflexivity].
    + split; [apply (float_leb_trans _ _ _ L1 B1)|].
      intros y [<-|Hy]; [apply (float_leb_trans _ _ _ L2 B1) | apply B2; exact Hy].
Qed.

Lemma Math_min_infinity (x : number) :
  isNaN x = false -> Math_min PrimFloat.infinity x = x.
Proof.
  intros N. unfold Math_min. change (isNaN infinity) with false. rewrite N. cbn [orb].
  destruct (PrimFloat.ltb infinity x) eqn:L.
  - exfalso. revert L. rewrite FloatAxioms.ltb_spec. change (Prim2SF infinity) with (S754_infinity false).
    unfold SFltb, SFcompare. destruct (Prim2SF x) as [s|[|]| |[|] m e]; discriminate.
  - destruct (PrimFloat.ltb x infinity); reflexivity.
Qed.

Lemma Math_max_neg_infinity (x : number) :
  isNaN x = false -> Math_max PrimFloat.neg_infinity x = x.
Proof.
  intros N. unfold Math_max. change (isNaN neg_infinity) with false. rewrite N. cbn [orb].
  destruct (PrimFloat.ltb neg_infinity x) eqn:L; [reflexivity|].
  destruct (PrimFloat.ltb x neg_infinity) eqn:L'.
  - exfalso. revert L'. rewrite FloatAxioms.ltb_spec. change (Prim2SF neg_infinity) with (S754_infinity true).
    unfold SFltb, SFcompare. destruct (Prim2SF x) as [s|[|]| |[|] m e]; discriminate.
  - reflexivity.
Qed.

Lemma receiptTotals_not_nan (receipts : list Receipt) (x : number) :
  In x (receiptTotals receipts) -> isNaN x = false.
Proof.
  unfold receiptTotals. intros H. apply in_map_iff in H. destruct H as (r & <- & _).
  apply numOr_not_nan.
Qed.

(** X15: for a receipt set that is not empty,
    [minOrder] and [maxOrder] of [calculateAverages] are the totals of
    two of the receipts, rounded to cents; before the rounding, no
    receipt total is below the first or above the second. *)
Theorem calculateAverages_extremes (receipts : list Receipt) :
  receipts <> [] ->
  exists lo hi,
    In lo receipts /\ In hi receipts
    /\ minOrder (calculateAverages receipts) = round2 (numOr (total lo) 0%float)
    /\ maxOrder (calculateAverages receipts) = round2 (numOr (total hi) 0%float)
    /\ forall r, In r receipts ->
         PrimFloat.leb (numOr (total lo) 0%float) (numOr (total r) 0%float) = true
         /\ PrimFloat.leb (numOr (total r) 0%float) (numOr (total hi) 0%float) = true.
Proof.
  intros NE. destruct receipts as [|r0 rest]; [congruence|].
  unfold calculateAverages. cbn [minOrder maxOrder].
  set (l := r0 :: rest).
  assert (N0 : isNaN (numOr (total r0) 0%float) = false) by apply numOr_not_nan.
  assert (Nrest : forall x, In x (receiptTotals rest) -> isNaN x = false)
    by (apply receiptTotals_not_nan).
  (* minimum *)
  pose proof (fold_Math_min (receiptTotals rest) (numOr (total r0) 0%float) N0 Nrest) as Hmin.
  pose proof (fold_Math_max (receiptTotals rest) (numOr (total r0) 0%float) N0 Nrest) as Hmax.
  cbv zeta in Hmin, Hmax.
  assert (Emin : Math_minAll (receiptTotals l)
                 = fold_left Math_min (receiptTotals rest) (numOr (total r0) 0%float)).
  { unfold Math_minAll, l, receiptTotals. cbn [map fold_left].
    rewrite Math_min_infinity by exact N0. reflexivity. }
  assert (Emax : Math_maxAll (receiptTotals l)
                 = fold_left Math_max (receiptTotals rest) (numOr (total r0) 0%float)).
  { unfold Math_maxAll, l, receiptTotals. cbn [map fold_left].
    rewrite Math_max_neg_infinity by exact N0. reflexivity. }
  rewrite Emin, Emax.
  destruct Hmin as (_ & Mmin & Bmin0 & Bmin).
  destruct Hmax as (_ & Mmax & Bmax0 & Bmax).
  assert (Hlo : exists lo, In lo l
            /\ fold_left Math_min (receiptTotals rest) (numOr (total r0) 0%float)
               = numOr (total lo) 0%float).
  { destruct Mmin as [M|M].
    - exists r0. split; [left; reflexivity | exact M].
    - unfold receiptTotals in M at 2. apply in_map_iff in M. destruct M as (lo & E & Hin).
      exists lo. split; [right; exact Hin | symmetry; exact E]. }
  assert (Hhi : exists hi, In hi l
            /\ fold_left Math_max (receiptTotals rest) (numOr (total r0) 0%float)
               = numOr (total hi) 0%float).
  { destruct Mmax as [M|M].
    - exists r0. split; [left; reflexivity | exact M].
    - unfold receiptTotals in M at 2. apply in_map_iff in M. destruct M as (hi & E & Hin).
      exists hi. split; [right; exact Hin | symmetry; exact E]. }
  destruct Hlo as (lo & Hlo & Elo). destruct Hhi as (hi & Hhi & Ehi).
  exists lo, hi. split; [exact Hlo|]. split; [exact Hhi|].
  rewrite Elo, Ehi. split; [reflexivity|]. split; [reflexivity|].
  rewrite Elo in Bmin0, Bmin. rewrite Ehi in Bmax0, Bmax.
  intros r [<-|Hr].
  - split; assumption.
  - split; [apply Bmin | apply Bmax];
      apply (in_map (fun x => numOr (total x) 0%float) rest r Hr).
Qed.

Lemma calculateAverages_extremes_witness :
  normalizeFile exampleHost 0 "receipts.json" saleAndRefund 0 <> []
  /\ exists lo hi,
      In lo (normalizeFile exampleHost 0 "receipts.json" saleAndRefund 0)
      /\ In hi (normalizeFile exampleHost 0 "receipts.json" saleAndRefund 0)
      /\ minOrder (calculateAverages (normalizeFile exampleHost 0 "receipts.json" saleAndRefund 0))
         = round2 (numOr (total lo) 0%float)
      /\ maxOrder (calculateAverages (normalizeFile exampleHost 0 "receipts.json" saleAndRefund 0))
         = round2 (numOr (total hi) 0%float)
      /\ forall r, In r (normalizeFile exampleHost 0 "receipts.json" saleAndRefund 0) ->
           PrimFloat.leb (numOr (total lo) 0%float) (numOr (total r) 0%float) = true
           /\ PrimFloat.leb (numOr (total r) 0%float) (numOr (total hi) 0%float) = true.
Proof.
  assert (NE : normalizeFile exampleHost 0 "receipts.json" saleAndRefund 0 <> [])
    by (intros H; vm_compute in H; discriminate H).
  split; [exact NE|].
  apply (calculateAverages_extremes _ NE).
Defined.

(** *** Savings *)

Lemma visitReceipt_sale (a : Acc) (r : Receipt) :
  isRefund r = false ->
  acc_totalSavings (visitReceipt a r)
  = PrimFloat.add (acc_totalSavings a) (numOr (instantSavings r) 0%float)
  /\ acc_grossSpent (visitReceipt a r)
     = PrimFloat.add (acc_grossSpent a) (numOr (total r) 0%float).
Proof.
  intros R. unfold visitReceipt.
  destruct (visitItems_counters (isRefund r) (itemArray r) (visitReceiptHeader a r))
    as (_ & _ & _ & _ & C5 & C6).
  rewrite C5, C6. unfold visitReceiptHeader. cbn [acc_totalSavings acc_grossSpent].
  rewrite R. split; reflexivity.
Qed.

Lemma savings_fold (receipts : list Receipt) : forall a s t n,
  (forall r, In r receipts -> isRefund r = false) ->
  acc_totalSavings a = s -> acc_grossSpent a = t ->
  let '(s', t', n') := fold_left visitForSavings receipts (s, t, n) in
  acc_totalSavings (fold_left visitReceipt receipts a) = s'
  /\ acc_grossSpent (fold_left visitReceipt receipts a) = t'
  /\ (n' <= n + List.length receipts)%nat.
Proof.
  induction receipts as [|r receipts IH]; intros a s t n NR Hs Ht.
  - cbn. repeat split; try assumption. lia.
  - cbn [fold_left]. destruct (visitReceipt_sale a r (NR r (or_introl eq_refl))) as [E1 E2].
    unfold visitForSavings at 2.
    specialize (IH (visitReceipt a r)
                  (PrimFloat.add s (numOr (instantSavings r) 0%float))
                  (PrimFloat.add t (numOr (total r) 0%float))
                  (if PrimFloat.ltb 0%float (numOr (instantSavings r) 0%float) then S n else n)
                  (fun x Hx => NR x (or_intror Hx))).
    rewrite Hs in E1. rewrite Ht in E2. specialize (IH E1 E2).
    destruct (fold_left visitForSavings receipts _) as [[s' t'] n'].
    destruct IH as (I1 & I2 & I3). split; [exact I1|]. split; [exact I2|].
    cbn [List.length]. destruct (PrimFloat.ltb _ _); lia.
Qed.

(** X16: on a receipt set without refund
    receipts, [getSavingsAnalysis] and [calculateTotals] report the same
    total savings, and the total spent of the former is the gross amount
    spent of the latter; the number of trips with savings never exceeds
    the number of receipts. *)
Theorem getSavingsAnalysis_agrees (receipts : list Receipt) :
  (forall r, In r receipts -> isRefund r = false) ->
  savings_totalSavings (getSavingsAnalysis receipts) = totalSavings (calculateTotals receipts)
  /\ savings_totalSpent (getSavingsAnalysis receipts) = grossSpent (calculateTotals receipts)
  /\ (tripsWithSavings (getSavingsAnalysis receipts) <= List.length receipts)%nat.
Proof.
  intros NR. destruct receipts as [|r0 rest]; [cbn; repeat split; lia|].
  pose proof (savings_fold (r0 :: rest) initialAcc 0%float 0%float 0%nat NR eq_refl eq_refl) as H.
  match type of H with
  | context [fold_left visitForSavings ?l ?i] =>
      destruct (fold_left visitForSavings l i) as [[s t] n] eqn:F
  end.
  destruct H as (H1 & H2 & H3).
  unfold getSavingsAnalysis, calculateTotals.
  match goal with
  | |- context [fold_left visitForSavings ?l ?i] =>
      replace (fold_left visitForSavings l i) with (s, t, n) by (symmetry; exact F)
  end.
  cbn [savings_totalSavings savings_totalSpent tripsWithSavings totalSavings grossSpent].
  unfold accumulate. rewrite H1, H2. repeat split. exact H3.
Qed.

Lemma getSavingsAnalysis_agrees_witness :
  (forall r, In r (normalizeFile exampleHost 0 "receipts.json" [scenarioReceipt "111"] 0) ->
     isRefund r = false)
  /\ savings_totalSavings
       (getSavingsAnalysis (normalizeFile exampleHost 0 "receipts.json" [scenarioReceipt "111"] 0))
     = totalSavings
         (calculateTotals (normalizeFile exampleHost 0 "receipts.json" [scenarioReceipt "111"] 0))
  /\ savings_totalSpent
       (getSavingsAnalysis (normalizeFile exampleHost 0 "receipts.json" [scenarioReceipt "111"] 0))
     = grossSpent
         (calculateTotals (normalizeFile exampleHost 0 "receipts.json" [scenarioReceipt "111"] 0))
  /\ (tripsWithSavings
        (getSavingsAnalysis (normalizeFile exampleHost 0 "receipts.json" [scenarioReceipt "111"] 0))
      <= List.length (normalizeFile exampleHost 0 "receipts.json" [scenarioReceipt "111"] 0))%nat.
Proof.
  assert (NR : forall r,
            In r (normalizeFile exampleHost 0 "receipts.json" [scenarioReceipt "111"] 0) ->
            isRefund r = false).
  { intros r H. vm_compute in H. destruct H as [<-|[]]. vm_compute. reflexivity. }
  split; [exact NR|].
  apply (getSavingsAnalysis_agrees _ NR).
Defined.

(** *** Rewards *)

Lemma visitAllForRewards_app (h : Host) (month day : number) (excluded : list JSValue)
    (l1 l2 : list Receipt) : forall m,
  visitAllForRewards h month day excluded m (l1 ++ l2)%list
  = bind (visitAllForRewards h month day excluded m l1)
      (fun m' => visitAllForRewards h month day excluded m' l2).
Proof.
  induction l1 as [|r l1 IH]; intros m; [reflexivity|].
  cbn [app visitAllForRewards].
  destruct (visitForRewards h month day excluded m r) as [m'|]; cbn [bind]; [apply IH | reflexivity].
Qed.

(** X17: a gas or travel receipt, a receipt with a
    negative total and a receipt without a valid date contribute nothing
    to the executive rewards: removing such a receipt from the list
    leaves the result of [calculateExecutiveRewards] unchanged. *)
Theorem rewards_ignore_skipped (h : Host) (l1 l2 : list Receipt) (r : Receipt)
    (options : RewardOptions) :
  (isGasOrTravel r = Some true
   \/ (isGasOrTravel r = Some false
       /\ (PrimFloat.ltb (numOr (total r) 0%float) 0%float = true
           \/ transactionDateTime r = None
           \/ transactionDateTime r = Some InvalidDate))) ->
  calculateExecutiveRewards h (l1 ++ r :: l2) options
  = calculateExecutiveRewards h (l1 ++ l2) options.
Proof.
  intros Hskip.
  assert (V : forall month day excluded m,
            visitForRewards h month day excluded m r = Some m).
  { intros month day excluded m. unfold visitForRewards.
    destruct Hskip as [-> | (-> & Hs)]; cbn [bind]; [reflexivity|].
    destruct (PrimFloat.ltb (numOr (total r) 0%float) 0%float); [reflexivity|].
    destruct Hs as [Hs | [-> | ->]]; [discriminate | reflexivity | reflexivity]. }
  unfold calculateExecutiveRewards. cbv zeta.
  destruct (toNumber h (cycleStartMonth options)); cbn [bind]; [|reflexivity].
  destruct (toNumber h (cycleStartDay options)); cbn [bind]; [|reflexivity].
  rewrite !visitAllForRewards_app. cbn [visitAllForRewards].
  destruct (visitAllForRewards h _ _ _ [] l1) as [m|]; cbn [bind]; [|reflexivity].
  rewrite V. cbn [bind]. reflexivity.
Qed.

Lemma rewards_ignore_skipped_witness :
  exists a r,
    normalizeFile exampleHost 0 "receipts.json" saleAndRefund 0 = [a; r]
    /\ (isGasOrTravel r = Some true
        \/ (isGasOrTravel r = Some false
            /\ (PrimFloat.ltb (numOr (total r) 0%float) 0%float = true
                \/ transactionDateTime r = None
                \/ transactionDateTime r = Some InvalidDate)))
    /\ calculateExecutiveRewards exampleHost ([a] ++ r :: [])%list march15Cycle
       = calculateExecutiveRewards exampleHost ([a] ++ [])%list march15Cycle.
Proof.
  destruct (normalizeFile exampleHost 0 "receipts.json" saleAndRefund 0)
    as [|a [|r [|x l]]] eqn:E; try (vm_compute in E; discriminate).
  exists a, r. split; [reflexivity|].
  assert (S : isGasOrTravel r = Some true
              \/ (isGasOrTravel r = Some false
                  /\ (PrimFloat.ltb (numOr (total r) 0%float) 0%float = true
                      \/ transactionDateTime r = None
                      \/ transactionDateTime r = Some InvalidDate))).
  { vm_compute in E. injection E as <- <-. right. split; [reflexivity | left; reflexivity]. }
  split; [exact S|].
  apply (rewards_ignore_skipped exampleHost [a] [] r march15Cycle S).
Defined.

Lemma or_string (v w : JSValue) :
  (truthy v = false \/ isTypeString v = true) ->
  (exists s, w = JStr s) -> exists s, JS.or v w = JStr s.
Proof.
  intros V (s & ->). unfold JS.or. destruct V as [-> | V]; [exists s; reflexivity|].
  destruct v; try discriminate. destruct (truthy (JStr s0)); eexists; reflexivity.
Qed.

Lemma or_stringish (v w : JSValue) :
  (truthy v = false \/ isTypeString v = true) ->
  (truthy w = false \/ isTypeString w = true) ->
  truthy (JS.or v w) = false \/ isTypeString (JS.or v w) = true.
Proof.
  intros V W. unfold JS.or. destruct (truthy v) eqn:T; [|exact W].
  destruct V as [V | V]; [congruence | right; exact V].
Qed.

Lemma isGasOrTravel_strings (r : Receipt) :
  (truthy (documentType r) = false \/ isTypeString (documentType r) = true) ->
  (truthy (receiptType r) = false \/ isTypeString (receiptType r) = true) ->
  (truthy (channel r) = false \/ isTypeString (channel r) = true) ->
  exists b, isGasOrTravel r = Some b.
Proof.
  intros D R C. unfold isGasOrTravel. cbv zeta.
  destruct (or_string (documentType r) (JStr "") D (ex_intro _ "" eq_refl)) as (sd & ->).
  assert (Hc : exists s, receiptChannel r = JStr s).
  { unfold receiptChannel. apply or_string; [apply or_stringish; assumption|].
    eexists; reflexivity. }
  destruct Hc as (sc & ->).
  cbn [mentionsTravel bind].
  destruct (includes (toLowerCase sd) "travel"); cbn [bind]; [eexists; reflexivity|].
  destruct (truthy (receiptType r)) eqn:T; cbn [bind mentionsTravel].
  - destruct R as [R | R]; [congruence|].
    destruct (receiptType r); try discriminate. cbn [mentionsTravel bind].
    destruct (includes (toLowerCase s) "travel"); eexists; reflexivity.
  - eexists; reflexivity.
Qed.

(** X18: when the two options of the cycle start can be converted to
    numbers and the document type, the receipt type and the channel of
    every receipt are strings or falsy, as the normalizer leaves them for
    string inputs, [calculateExecutiveRewards] returns normally.  [byYear]
    then has exactly one entry for every cycle year of a receipt that
    counts (neither gas nor travel, total not negative, valid date), and
    no other entry: every counted receipt with a valid date finds the
    entry of its cycle year. *)
Theorem rewards_total (h : Host) (receipts : list Receipt) (options : RewardOptions) :
  unprintable (cycleStartMonth options) = false ->
  unprintable (cycleStartDay options) = false ->
  (forall r, In r receipts ->
     (truthy (documentType r) = false \/ isTypeString (documentType r) = true)
     /\ (truthy (receiptType r) = false \/ isTypeString (receiptType r) = true)
     /\ (truthy (channel r) = false \/ isTypeString (channel r) = true)) ->
  exists res,
    calculateExecutiveRewards h receipts options = Some res
    /\ NoDup (map fst (byYear res))
    /\ (forall y, In y (map fst (byYear res)) <->
          exists r, In r receipts /\ countsForRewards r = true
            /\ getCycleYear h (cycleStart_month res) (cycleStart_day res)
                 (transactionDateTime r) = Some y)
    /\ (forall r, In r receipts -> countsForRewards r = true ->
          forall t, transactionDateTime r = Some (DateAt t) ->
          exists y entry,
            getCycleYear h (cycleStart_month res) (cycleStart_day res)
              (transactionDateTime r) = Some y
            /\ In (y, entry) (byYear res)).
Proof.
  intros Um Ud Hs.
  assert (R : exists res, calculateExecutiveRewards h receipts options = Some res).
  { unfold calculateExecutiveRewards. cbv zeta.
    destruct (toNumber_Some h _ Um) as (mo & ->).
    destruct (toNumber_Some h _ Ud) as (da & ->). cbn [bind].
    set (month := numOr mo 1%float). set (day := numOr da 1%float).
    assert (T : forall l m, (forall r, In r l -> In r receipts) ->
              exists m', visitAllForRewards h month day (excludedDepartments options) m l
                         = Some m').
    { induction l as [|r l IH]; intros m Hl; [exists m; reflexivity|].
      cbn [visitAllForRewards].
      destruct (Hs r (Hl r (or_introl eq_refl))) as (D & Rt & C).
      destruct (isGasOrTravel_strings r D Rt C) as (b & G).
      assert (V : exists m1,
                visitForRewards h month day (excludedDepartments options) m r = Some m1).
      { unfold visitForRewards. rewrite G. cbn [bind].
        destruct b; [eexists; reflexivity|].
        destruct (PrimFloat.ltb _ _); [eexists; reflexivity|].
        destruct (getCycleYear _ _ _ _); eexists; reflexivity. }
      destruct V as (m1 & ->). cbn [bind]. apply IH. intros x Hx. apply Hl. right. exact Hx. }
    destruct (T receipts [] (fun r H => H)) as (m' & ->). cbn [bind].
    eexists. reflexivity. }
  destruct R as (res & E). exists res. split; [exact E|].
  destruct (calculateExecutiveRewards_entries h receipts options res E) as [N K].
  split; [exact N|].
  assert (Keys : forall y, In y (map fst (byYear res)) <->
            exists r, In r receipts /\ countsForRewards r = true
              /\ getCycleYear h (cycleStart_month res) (cycleStart_day res)
                   (transactionDateTime r) = Some y).
  { intros y. rewrite byYearGet_keys, K. split.
    - intros H.
      destruct (receiptsOfCycle h (cycleStart_month res) (cycleStart_day res) y receipts)
        as [|r l] eqn:C; [contradiction H; reflexivity|].
      assert (Hin : In r (receiptsOfCycle h (cycleStart_month res) (cycleStart_day res)
                            y receipts)) by (rewrite C; left; reflexivity).
      unfold receiptsOfCycle in Hin. apply filter_In in Hin. destruct Hin as [Hr Hc].
      apply andb_true_iff in Hc. destruct Hc as [Hc Hy]. exists r.
      split; [exact Hr|]. split; [exact Hc|].
      destruct (getCycleYear h _ _ (transactionDateTime r)) as [cy|]; [|discriminate].
      apply Z.eqb_eq in Hy. congruence.
    - intros (r & Hr & Hc & Hy).
      assert (Hin : In r (receiptsOfCycle h (cycleStart_month res) (cycleStart_day res)
                            y receipts)).
      { unfold receiptsOfCycle. apply filter_In. split; [exact Hr|].
        rewrite Hc, Hy, Z.eqb_refl. reflexivity. }
      destruct (receiptsOfCycle h _ _ y receipts); [destruct Hin | discriminate]. }
  split; [exact Keys|].
  intros r Hr Hc t Ht.
  assert (Y : exists y, getCycleYear h (cycleStart_month res) (cycleStart_day res)
                (transactionDateTime r) = Some y).
  { rewrite Ht. unfold getCycleYear. destruct (dateGe _ _); eexists; reflexivity. }
  destruct Y as (y & Hy). 
  assert (Hk : In y (map fst (byYear res))) by (apply Keys; exists r; auto).
  apply in_map_iff in Hk. destruct Hk as ([y' entry] & Ey & Hin). cbn [fst] in Ey. subst y'.
  exists y, entry. split; [exact Hy | exact Hin].
Qed.
Lemma rewards_total_witness :
  unprintable (cycleStartMonth march15Cycle) = false
  /\ unprintable (cycleStartDay march15Cycle) = false
  /\ (forall r, In r marchReceipts ->
        (truthy (documentType r) = false \/ isTypeString (documentType r) = true)
        /\ (truthy (receiptType r) = false \/ isTypeString (receiptType r) = true)
        /\ (truthy (channel r) = false \/ isTypeString (channel r) = true))
  /\ exists res,
      calculateExecutiveRewards exampleHost marchReceipts march15Cycle = Some res
      /\ NoDup (map fst (byYear res))
      /\ (forall y, In y (map fst (byYear res)) <->
            exists r, In r marchReceipts /\ countsForRewards r = true
              /\ getCycleYear exampleHost (cycleStart_month res) (cycleStart_day res)
                   (transactionDateTime r) = Some y)
      /\ (forall r, In r marchReceipts -> countsForRewards r = true ->
            forall t, transactionDateTime r = Some (DateAt t) ->
            exists y entry,
              getCycleYear exampleHost (cycleStart_month res) (cycleStart_day res)
                (transactionDateTime r) = Some y
              /\ In (y, entry) (byYear res)).
Proof.
  assert (S : forall r, In r marchReceipts ->
            (truthy (documentType r) = false \/ isTypeString (documentType r) = true)
            /\ (truthy (receiptType r) = false \/ isTypeString (receiptType r) = true)
            /\ (truthy (channel r) = false \/ isTypeString (channel r) = true)).
  { intros r H. vm_compute in H. destruct H as [<-|[<-|[]]];
      repeat split; left; reflexivity. }
  split; [reflexivity|]. split; [reflexivity|]. split; [exact S|].
  apply (rewards_total exampleHost marchReceipts march15Cycle eq_refl eq_refl S).
Defined.
(** *** The store *)

Lemma indexReceipt_receipts (s : DataStore.State) (r : Receipt) :
  DataStore.store_receipts (DataStore.indexReceipt s r) = DataStore.store_receipts s.
Proof. reflexivity. Qed.

Lemma indexAll_receipts (l : list Receipt) : forall s,
  DataStore.store_receipts (fold_left DataStore.indexReceipt l s) = DataStore.store_receipts s.
Proof.
  induction l as [|r l IH]; intros s; [reflexivity|].
  cbn [fold_left]. rewrite IH. reflexivity.
Qed.

Lemma rebuildIndexes_receipts (s : DataStore.State) :
  DataStore.store_receipts (DataStore.rebuildIndexes s) = DataStore.store_receipts s.
Proof. unfold DataStore.rebuildIndexes. rewrite indexAll_receipts. reflexivity. Qed.

Lemma addReceipts_receipts (receipts : list Receipt) (s : DataStore.State) :
  DataStore.store_receipts (fst (DataStore.addReceipts receipts s))
  = (DataStore.store_receipts s ++ receipts)%list.
Proof. unfold DataStore.addReceipts. cbn [fst]. rewrite rebuildIndexes_receipts. reflexivity. Qed.

(** The store after [addReceipts] is determined by its receipts. *)
Lemma addReceipts_rebuild (receipts : list Receipt) (s : DataStore.State) :
  fst (DataStore.addReceipts receipts s)
  = fold_left DataStore.indexReceipt (DataStore.store_receipts s ++ receipts)%list
      {| DataStore.store_receipts := (DataStore.store_receipts s ++ receipts)%list;
         DataStore.itemIndex := []; DataStore.warehouseSet := [];
         DataStore.dateRange_min := None; DataStore.dateRange_max := None |}.
Proof. reflexivity. Qed.

(** X19: the store only depends on the receipts it
    holds: adding two batches one after the other leaves the same store,
    indexes included, as adding them at once, and as adding all receipts
    to a cleared store; [getReceipts] without a filter then returns the
    old receipts followed by the new ones. *)
Theorem addReceipts_composes (a b : list Receipt) (s : DataStore.State) :
  fst (DataStore.addReceipts b (fst (DataStore.addReceipts a s)))
  = fst (DataStore.addReceipts (a ++ b) s)
  /\ fst (DataStore.addReceipts a s)
     = fst (DataStore.addReceipts (DataStore.store_receipts s ++ a)
              (fst (DataStore.clear s)))
  /\ DataStore.getReceipts None (fst (DataStore.addReceipts a s))
     = Some (DataStore.store_receipts s ++ a)%list.
Proof.
  split; [|split].
  - rewrite (addReceipts_rebuild b), (addReceipts_rebuild (a ++ b)).
    rewrite addReceipts_receipts, app_assoc. reflexivity.
  - rewrite (addReceipts_rebuild a), addReceipts_rebuild. reflexivity.
  - cbn [DataStore.getReceipts]. rewrite addReceipts_receipts. reflexivity.
Qed.

(** The entries of one item number. *)
Lemma find_indexPush (k k' : string) (x : DataStore.IndexedItem)
    (m : list (string * list DataStore.IndexedItem)) :
  match find (fun kv => String.eqb (fst kv) k) (DataStore.indexPush k' x m) with
  | Some kv => snd kv
  | None => []
  end
  = (match find (fun kv => String.eqb (fst kv) k) m with
     | Some kv => snd kv
     | None => []
     end ++ (if String.eqb k' k then [x] else []))%list.
Proof.
  induction m as [|[k0 xs] m IH]; cbn [DataStore.indexPush find fst snd].
  - destruct (String.eqb k' k); reflexivity.
  - destruct (String.eqb k0 k') eqn:E0.
    + apply String.eqb_eq in E0. subst k0. cbn [find fst snd].
      destruct (String.eqb k' k); [reflexivity | cbn [app]; rewrite app_nil_r; reflexivity].
    + cbn [find fst snd]. destruct (String.eqb k0 k) eqn:E1; [|exact IH].
      apply String.eqb_eq in E1. subst k0. rewrite (String.eqb_sym k' k), E0.
      rewrite app_nil_r. reflexivity.
Qed.

Lemma indexAll_lookup (k : string) (l : list Receipt) : forall s,
  DataStore.getItemsByNumber (JStr k) (fold_left DataStore.indexReceipt l s)
  = (DataStore.getItemsByNumber (JStr k) s
     ++ filter (fun x => String.eqb (itemNumber (DataStore.indexed x)) k) (indexedLines l))%list.
Proof.
  induction l as [|r l IH]; intros s.
  - cbn. rewrite app_nil_r. reflexivity.
  - cbn [fold_left]. rewrite IH. unfold indexedLines. cbn [flat_map].
    rewrite filter_app, app_assoc. f_equal.
    unfold DataStore.getItemsByNumber, DataStore.indexReceipt. cbn [DataStore.itemIndex].
    generalize (DataStore.itemIndex s). induction (itemArray r) as [|item items IHi]; intros m.
    + cbn. rewrite app_nil_r. reflexivity.
    + cbn [fold_left map filter]. rewrite IHi, find_indexPush.
      cbn [DataStore.indexed]. rewrite <- app_assoc. f_equal.
      destruct (String.eqb (itemNumber item) k); reflexivity.
Qed.

(** X20: after [addReceipts], [getItemsByNumber]
    returns, for a string key, exactly the item lines of the stored
    receipts that carry this item number, in receipt and line order and
    each with the identifier, date and warehouse of its receipt; for a key
    that is not a string it returns nothing. *)
Theorem getItemsByNumber_complete (receipts : list Receipt) (s : DataStore.State)
    (key : JSValue) :
  DataStore.getItemsByNumber key (fst (DataStore.addReceipts receipts s))
  = match key with
    | JStr k =>
        filter (fun x => String.eqb (itemNumber (DataStore.indexed x)) k)
          (indexedLines (DataStore.store_receipts s ++ receipts))
    | _ => []
    end.
Proof.
  destruct key as [| |b|x|k|l|props]; try reflexivity.
  rewrite addReceipts_rebuild, indexAll_lookup. reflexivity.
Qed.

Lemma rangeInv_step (st : DataStore.State) (seen : list Receipt) (r : Receipt) :
  rangeInv st seen -> transactionDateTime r <> Some InvalidDate ->
  (forall x, In x seen -> transactionDateTime x <> Some InvalidDate) ->
  rangeInv (DataStore.indexReceipt st r) (r :: seen).
Proof.
  intros (I1 & I2 & I3) Vr Vs.
  assert (Vmin : forall d, DataStore.dateRange_min st = Some d -> exists lo, d = DateAt lo).
  { intros d Hd. destruct (I2 d Hd) as (x & Hx & Ex). destruct d as [|lo]; [|exists lo; reflexivity].
    destruct (Vs x Hx Ex). }
  assert (Vmax : forall d, DataStore.dateRange_max st = Some d -> exists hi, d = DateAt hi).
  { intros d Hd. destruct (I3 d Hd) as (x & Hx & Ex). destruct d as [|hi]; [|exists hi; reflexivity].
    destruct (Vs x Hx Ex). }
  unfold rangeInv, DataStore.indexReceipt.
  cbn [DataStore.dateRange_min DataStore.dateRange_max].
  destruct (transactionDateTime r) as [[|t]|] eqn:Er; [congruence| |].
  - (* a dated receipt *)
    destruct (DataStore.dateRange_min st) as [dmin|] eqn:Emin.
    + destruct (Vmin dmin eq_refl) as (lo & ->).
      destruct (I2 _ eq_refl) as (xlo & Hxlo & Exlo).
      destruct (I1 xlo lo Hxlo Exlo) as (lo' & hi & Elo & Ehi & Blo).
      injection Elo as <-. rewrite Ehi. cbn [dateLt].
      split; [|split].
      * intros x tx [<-|Hx] Ex.
        -- rewrite Er in Ex. injection Ex as <-.
           destruct (Z.ltb_spec t lo), (Z.ltb_spec hi t); eexists _, _;
             (split; [reflexivity|]); (split; [reflexivity|]); lia.
        -- destruct (I1 x tx Hx Ex) as (lo2 & hi2 & E1 & E2 & B).
           injection E1 as <-. rewrite Ehi in E2. injection E2 as <-.
           destruct (Z.ltb_spec t lo), (Z.ltb_spec hi t); eexists _, _;
             (split; [reflexivity|]); (split; [reflexivity|]); lia.
      * intros d Hd. destruct (Z.ltb_spec t lo); injection Hd as <-.
        -- exists r. split; [left; reflexivity | exact Er].
        -- exists xlo. split; [right; exact Hxlo | exact Exlo].
      * intros d Hd. destruct (I3 _ Ehi) as (xhi & Hxhi & Exhi).
        destruct (Z.ltb_spec hi t); injection Hd as <-.
        -- exists r. split; [left; reflexivity | exact Er].
        -- exists xhi. split; [right; exact Hxhi | exact Exhi].
    + assert (Emax : DataStore.dateRange_max st = None).
      { destruct (DataStore.dateRange_max st) as [dmax|] eqn:Emax; [|reflexivity].
        destruct (Vmax dmax eq_refl) as (hi & ->).
        destruct (I3 _ eq_refl) as (x & Hx & Ex).
        destruct (I1 x hi Hx Ex) as (lo' & hi' & E & _). discriminate. }
      rewrite Emax. split; [|split].
      * intros x tx [<-|Hx] Ex.
        -- rewrite Er in Ex. injection Ex as <-. exists t, t. repeat split; lia.
        -- destruct (I1 x tx Hx Ex) as (lo' & hi' & E & _). discriminate.
      * intros d Hd. injection Hd as <-. exists r. split; [left; reflexivity | exact Er].
      * intros d Hd. injection Hd as <-. exists r. split; [left; reflexivity | exact Er].
  - (* a receipt without a date *)
    split; [|split].
    + intros x tx [<-|Hx] Ex; [congruence | apply (I1 x tx Hx Ex)].
    + intros d Hd. destruct (I2 d Hd) as (x & Hx & Ex). exists x. split; [right; exact Hx | exact Ex].
    + intros d Hd. destruct (I3 d Hd) as (x & Hx & Ex). exists x. split; [right; exact Hx | exact Ex].
Qed.

Lemma rangeInv_all (l : list Receipt) : forall st seen,
  rangeInv st seen ->
  (forall x, In x seen \/ In x l -> transactionDateTime x <> Some InvalidDate) ->
  exists seen', (forall x, In x seen' <-> In x seen \/ In x l)
    /\ rangeInv (fold_left DataStore.indexReceipt l st) seen'.
Proof.
  induction l as [|r l IH]; intros st seen I V.
  - exists seen. split; [intros x; cbn [In]; tauto | exact I].
  - cbn [fold_left].
    destruct (IH (DataStore.indexReceipt st r) (r :: seen)) as (seen' & S1 & S2).
    + apply rangeInv_step; [exact I | apply V; right; left; reflexivity|].
      intros x Hx. apply V. left. exact Hx.
    + intros x [[<-|Hx]|Hx]; apply V; [right; left; reflexivity | left; exact Hx | right; right; exact Hx].
    + exists seen'. split; [|exact S2]. intros x. rewrite S1. cbn [In]. intuition congruence.
Qed.

(** X21: when no stored receipt has an invalid date (the
    normalizer produces none), the date range kept by the store after
    [addReceipts] spans exactly the dated receipts: every receipt date
    lies between [min] and [max], and [min] and [max], when they are set,
    are the dates of stored receipts. *)
Theorem store_dateRange (receipts : list Receipt) (s : DataStore.State) :
  let s' := fst (DataStore.addReceipts receipts s) in
  (forall r, In r (DataStore.store_receipts s') ->
     transactionDateTime r <> Some InvalidDate) ->
  (forall r t, In r (DataStore.store_receipts s') ->
     transactionDateTime r = Some (DateAt t) ->
     exists lo hi,
       DataStore.getDateRange s' = (Some (DateAt lo), Some (DateAt hi))
       /\ (lo <= t <= hi)%Z)
  /\ (forall d, fst (DataStore.getDateRange s') = Some d ->
        exists r, In r (DataStore.store_receipts s') /\ transactionDateTime r = Some d)
  /\ (forall d, snd (DataStore.getDateRange s') = Some d ->
        exists r, In r (DataStore.store_receipts s') /\ transactionDateTime r = Some d).
Proof.
  cbv zeta. rewrite addReceipts_receipts. intros V.
  rewrite addReceipts_rebuild.
  set (l := (DataStore.store_receipts s ++ receipts)%list) in *.
  destruct (rangeInv_all l
              {| DataStore.store_receipts := l; DataStore.itemIndex := [];
                 DataStore.warehouseSet := []; DataStore.dateRange_min := None;
                 DataStore.dateRange_max := None |} [])
    as (seen & S1 & (I1 & I2 & I3)).
  - split; [intros x tx []|]. split; intros d Hd; discriminate Hd.
  - intros x [[]|Hx]. apply V. exact Hx.
  - unfold DataStore.getDateRange. cbn [fst snd]. split; [|split].
    + intros r t Hr Et. destruct (I1 r t (proj2 (S1 r) (or_intror Hr)) Et) as (lo & hi & E1 & E2 & B).
      exists lo, hi. rewrite E1, E2. split; [reflexivity | exact B].
    + intros d Hd. destruct (I2 d Hd) as (x & Hx & Ex). exists x.
      split; [|exact Ex]. apply S1 in Hx. destruct Hx as [[]|Hx]. exact Hx.
    + intros d Hd. destruct (I3 d Hd) as (x & Hx & Ex). exists x.
      split; [|exact Ex]. apply S1 in Hx. destruct Hx as [[]|Hx]. exact Hx.
Qed.

Lemma store_dateRange_witness :
  (forall r, In r (DataStore.store_receipts exampleStore) ->
     transactionDateTime r <> Some InvalidDate)
  /\ (forall r t, In r (DataStore.store_receipts exampleStore) ->
        transactionDateTime r = Some (DateAt t) ->
        exists lo hi,
          DataStore.getDateRange exampleStore = (Some (DateAt lo), Some (DateAt hi))
          /\ (lo <= t <= hi)%Z)
  /\ (forall d, fst (DataStore.getDateRange exampleStore) = Some d ->
        exists r, In r (DataStore.store_receipts exampleStore)
          /\ transactionDateTime r = Some d)
  /\ (forall d, snd (DataStore.getDateRange exampleStore) = Some d ->
        exists r, In r (DataStore.store_receipts exampleStore)
          /\ transactionDateTime r = Some d).
Proof.
  assert (V : forall r, In r (DataStore.store_receipts exampleStore) ->
                transactionDateTime r <> Some InvalidDate).
  { intros r H. vm_compute in H. destruct H as [<-|[<-|[]]]; discriminate. }
  split; [exact V|].
  apply (store_dateRange (normalizeFile exampleHost 0 "receipts.json" saleAndRefund 0)
           DataStore.emptyState V).
Defined.

(** X22: a store filter whose warehouse number is
    falsy or a number, whose transaction type is not the word [all] and
    whose search term is falsy or a string selects the same receipts,
    in the same order, as [FilterManager.applyFilters] with the
    corresponding filter state; both calls return. *)
Theorem getReceipts_as_filters (h : Host) (f : DataStore.StoreFilter)
    (s : DataStore.State) :
  (truthy (DataStore.filter_warehouseNumber f) = false
   \/ isTypeNumber (DataStore.filter_warehouseNumber f) = true) ->
  strictEqStr (DataStore.filter_transactionType f) "all" = false ->
  (truthy (DataStore.filter_searchTerm f) = false
   \/ isTypeString (DataStore.filter_searchTerm f) = true) ->
  exists kept,
    DataStore.getReceipts (Some f) s = Some kept
    /\ applyFilters h (stateOfStoreFilter f) (DataStore.store_receipts s) = Some kept.
Proof.
  intros W T S.
  cut (DataStore.getReceipts (Some f) s
       = applyFilters h (stateOfStoreFilter f) (DataStore.store_receipts s)
       /\ exists kept,
            applyFilters h (stateOfStoreFilter f) (DataStore.store_receipts s) = Some kept).
  { intros [E (kept & K)]. exists kept. split; [rewrite E|]; exact K. }
  rewrite applyFilters_filter.
  assert (F : exists w,
            filterNumber h (stateOfStoreFilter f) = Some w
            /\ (truthy (DataStore.filter_warehouseNumber f) = true ->
                DataStore.filter_warehouseNumber f = JNum w)).
  { unfold filterNumber, stateOfStoreFilter. cbn [state_warehouse].
    destruct W as [W | W].
    - rewrite W. exists 0%float. split; [reflexivity | discriminate].
    - destruct (DataStore.filter_warehouseNumber f); try discriminate.
      destruct (truthy (JNum x)).
      + exists x. split; reflexivity.
      + exists 0%float. split; [reflexivity | discriminate]. }
  destruct F as (w & -> & Fw). cbn [bind].
  split; [|eexists; reflexivity].
  unfold DataStore.getReceipts. cbv zeta.
  assert (E : forall l : list Receipt,
            (if truthy (DataStore.filter_searchTerm f)
             then match DataStore.filter_searchTerm f with
                  | JStr term => Some (filter (searchPredicate (toLowerCase term)) l)
                  | _ => None
                  end
             else Some l)
            = Some (filter (fun r =>
                      match truthyStr (state_searchTerm (stateOfStoreFilter f)) with
                      | Some searchTerm => searchPredicate (toLowerCase searchTerm) r
                      | None => true
                      end) l)).
  { intros l. unfold stateOfStoreFilter. cbn [state_searchTerm].
    destruct S as [S | S].
    - rewrite S. destruct (DataStore.filter_searchTerm f); cbn [truthyStr];
        try (rewrite filter_true; reflexivity).
      cbn [truthy] in S. apply negb_false_iff in S. rewrite S. rewrite filter_true. reflexivity.
    - destruct (DataStore.filter_searchTerm f); try discriminate.
      cbn [truthy truthyStr]. destruct (String.eqb s0 ""); cbn [negb];
        [rewrite filter_true|]; reflexivity. }
  rewrite E. f_equal.
  unfold matchesFilters, stateOfStoreFilter.
  cbn [dateRange_start dateRange_end state_channel state_warehouse state_membershipNumber
       state_transactionType state_searchTerm truthy truthyStr isSet].
  assert (Ew : forall l : list Receipt,
            (if truthy (DataStore.filter_warehouseNumber f)
             then filter (fun r => strictEq (JNum (warehouseNumber r))
                                     (DataStore.filter_warehouseNumber f)) l
             else l)
            = filter (fun r =>
                if negb (isNull (if truthy (DataStore.filter_warehouseNumber f)
                                 then DataStore.filter_warehouseNumber f else JNull))
                   && negb (strictEqStr (if truthy (DataStore.filter_warehouseNumber f)
                                         then DataStore.filter_warehouseNumber f else JNull)
                              "all")
                then if strictEqStr (if truthy (DataStore.filter_warehouseNumber f)
                                     then DataStore.filter_warehouseNumber f else JNull)
                          "ONLINE"
                     then onlinePredicate r
                     else PrimFloat.eqb (warehouseNumber r) w
                else true) l).
  { intros l. destruct (truthy (DataStore.filter_warehouseNumber f)) eqn:Tw.
    - rewrite (Fw eq_refl). cbn [isNull negb andb strictEqStr strictEq]. reflexivity.
    - cbn [isNull negb andb]. rewrite filter_true. reflexivity. }
  rewrite Ew.
  assert (Et : forall l : list Receipt,
            (if truthy (DataStore.filter_transactionType f)
             then filter (fun r => strictEq (transactionType r)
                                     (DataStore.filter_transactionType f)) l
             else l)
            = filter (fun r =>
                if truthy (DataStore.filter_transactionType f)
                   && negb (strictEqStr (DataStore.filter_transactionType f) "all")
                then strictEq (transactionType r) (DataStore.filter_transactionType f)
                else true) l).
  { intros l. rewrite T. cbn [negb]. rewrite andb_true_r.
    destruct (truthy (DataStore.filter_transactionType f));
      [reflexivity | rewrite filter_true; reflexivity]. }
  rewrite Et.
  assert (Ed : forall l : list Receipt,
            (if isSet (DataStore.startDate f) || isSet (DataStore.endDate f)
             then filter
                    (fun receipt =>
                       match transactionDateTime receipt with
                       | Some date =>
                           if beforeBound date (DataStore.startDate f) then false
                           else if afterBound date (DataStore.endDate f) then false
                           else true
                       | None => false
                       end) l
             else l)
            = filter (fun r =>
                if isSet (DataStore.startDate f) || isSet (DataStore.endDate f)
                then dateRangePredicate
                       {| dateRange_start := DataStore.startDate f;
                          dateRange_end := DataStore.endDate f;
                          state_warehouse :=
                            (if truthy (DataStore.filter_warehouseNumber f)
                             then DataStore.filter_warehouseNumber f else JNull);
                          state_channel := JNull;
                          state_membershipNumber := None;
                          state_searchTerm :=
                            match DataStore.filter_searchTerm f with
                            | JStr term => Some term
                            | _ => None
                            end;
                          state_transactionType := DataStore.filter_transactionType f;
                          currentPreset := "custom" |} r
                else true) l).
  { intros l. destruct (isSet (DataStore.startDate f) || isSet (DataStore.endDate f));
      [reflexivity | rewrite filter_true; reflexivity]. }
  rewrite Ed, !filter_filter. apply filter_ext. intros r.
  rewrite !andb_true_r, ?andb_assoc. reflexivity.
Qed.

Lemma getReceipts_as_filters_witness :
  (truthy (DataStore.filter_warehouseNumber exampleStoreFilter) = false
   \/ isTypeNumber (DataStore.filter_warehouseNumber exampleStoreFilter) = true)
  /\ strictEqStr (DataStore.filter_transactionType exampleStoreFilter) "all" = false
  /\ (truthy (DataStore.filter_searchTerm exampleStoreFilter) = false
      \/ isTypeString (DataStore.filter_searchTerm exampleStoreFilter) = true)
  /\ exists kept,
       DataStore.getReceipts (Some exampleStoreFilter) exampleStore = Some kept
       /\ applyFilters exampleHost (stateOfStoreFilter exampleStoreFilter)
            (DataStore.store_receipts exampleStore) = Some kept.
Proof.
  split; [right; reflexivity|]. split; [reflexivity|]. split; [right; reflexivity|].
  apply (getReceipts_as_filters exampleHost exampleStoreFilter exampleStore);
    [right; reflexivity | reflexivity | right; reflexivity].
Defined.

Lemma sameNumber_refl (x : number) : DataStore.sameNumber x x = true.
Proof.
  unfold DataStore.sameNumber, isNaN. destruct (PrimFloat.is_nan x) eqn:N; [reflexivity|].
  cbn [andb orb]. rewrite FloatAxioms.eqb_spec. apply SFeqb_refl.
  apply float_is_nan_false. exact N.
Qed.

Lemma sameNumber_sym (x y : number) : DataStore.sameNumber x y = DataStore.sameNumber y x.
Proof.
  unfold DataStore.sameNumber. rewrite (andb_comm (isNaN x)), float_eqb_sym. reflexivity.
Qed.

Lemma sameNumber_trans (x y z : number) :
  DataStore.sameNumber x y = true -> DataStore.sameNumber y z = true ->
  DataStore.sameNumber x z = true.
Proof.
  intros H1 H2.
  assert (E1 : sameValueZero (JNum x) (JNum y) = true) by exact H1.
  assert (E2 : sameValueZero (JNum y) (JNum z) = true) by exact H2.
  exact (sameValueZero_trans _ _ _ E1 E2).
Qed.

Lemma warehouseAdd_spec (x : number) (s : list number) :
  distinctNumbers s = true ->
  distinctNumbers (DataStore.warehouseAdd x s) = true
  /\ existsb (DataStore.sameNumber x) (DataStore.warehouseAdd x s) = true
  /\ (forall w, In w (DataStore.warehouseAdd x s) -> In w s \/ w = x)
  /\ (forall w, In w s -> In w (DataStore.warehouseAdd x s))
  /\ (List.length (DataStore.warehouseAdd x s) <= S (List.length s))%nat.
Proof.
  intros D. unfold DataStore.warehouseAdd.
  destruct (existsb (DataStore.sameNumber x) s) eqn:E.
  - split; [exact D|]. split; [exact E|]. split; [auto|]. split; [auto | lia].
  - split; [|split; [|split; [|split]]].
    + clear - D E. induction s as [|y s IH]; [reflexivity|].
      cbn [distinctNumbers app existsb] in *.
      apply andb_true_iff in D. destruct D as [D1 D2].
      apply orb_false_iff in E. destruct E as [E1 E2].
      rewrite (IH D2 E2), andb_true_r. apply negb_true_iff. apply negb_true_iff in D1.
      rewrite existsb_app, D1. cbn [existsb orb]. rewrite orb_false_r.
      rewrite sameNumber_sym. exact E1.
    + rewrite existsb_app. cbn [existsb]. rewrite sameNumber_refl. rewrite !orb_true_r. reflexivity.
    + intros w Hw. apply in_app_or in Hw. destruct Hw as [Hw|[<-|[]]]; auto.
    + intros w Hw. apply in_or_app. left. exact Hw.
    + rewrite length_app. cbn [List.length]. lia.
Qed.

Lemma warehouses_step (st : DataStore.State) (seen : list Receipt) (r : Receipt) :
  warehousesInv st seen -> warehousesInv (DataStore.indexReceipt st r) (r :: seen).
Proof.
  intros (D & I1 & I2 & L). unfold warehousesInv, DataStore.indexReceipt.
  cbn [DataStore.warehouseSet List.length].
  destruct (truthyNum (warehouseNumber r)) eqn:T.
  - destruct (warehouseAdd_spec (warehouseNumber r) (DataStore.warehouseSet st) D)
      as (A1 & A2 & A3 & A4 & A5).
    split; [exact A1|]. split; [|split; [|lia]].
    + intros w Hw. destruct (A3 w Hw) as [H| ->].
      * destruct (I1 w H) as (T' & x & Hx & Ex). split; [exact T'|]. exists x. split; [right; exact Hx | exact Ex].
      * split; [exact T|]. exists r. split; [left; reflexivity | reflexivity].
    + intros x [<-|Hx] Tx; [exact A2|].
      specialize (I2 x Hx Tx). apply existsb_exists in I2. destruct I2 as (w & Hw & Sw).
      apply existsb_exists. exists w. split; [apply A4; exact Hw | exact Sw].
  - split; [exact D|]. split; [|split; [|lia]].
    + intros w Hw. destruct (I1 w Hw) as (T' & x & Hx & Ex). split; [exact T'|].
      exists x. split; [right; exact Hx | exact Ex].
    + intros x [<-|Hx] Tx; [congruence | apply I2; assumption].
Qed.

Lemma warehouses_all (l : list Receipt) : forall st seen,
  warehousesInv st seen ->
  exists seen', (forall x, In x seen' <-> In x seen \/ In x l)
    /\ List.length seen' = (List.length seen + List.length l)%nat
    /\ warehousesInv (fold_left DataStore.indexReceipt l st) seen'.
Proof.
  induction l as [|r l IH]; intros st seen I.
  - exists seen. split; [intros x; cbn [In]; tauto|]. split; [cbn; lia | exact I].
  - cbn [fold_left].
    destruct (IH (DataStore.indexReceipt st r) (r :: seen) (warehouses_step st seen r I))
      as (seen' & S1 & S2 & S3).
    exists seen'. split; [|split; [cbn [List.length] in *; lia | exact S3]].
    intros x. rewrite S1. cbn [In]. intuition congruence.
Qed.

(** X23: after [addReceipts], the warehouse set of the
    store holds the warehouse numbers of the stored receipts that are
    neither zero nor NaN, each once: every member is such a number of a
    stored receipt, every such number is in the set, no member occurs
    twice, and there are at most as many members as receipts. *)
Theorem store_warehouses (receipts : list Receipt) (s : DataStore.State) :
  let s' := fst (DataStore.addReceipts receipts s) in
  distinctNumbers (DataStore.getWarehouses s') = true
  /\ (forall w, In w (DataStore.getWarehouses s') ->
        truthyNum w = true
        /\ exists r, In r (DataStore.store_receipts s') /\ warehouseNumber r = w)
  /\ (forall r, In r (DataStore.store_receipts s') ->
        truthyNum (warehouseNumber r) = true ->
        existsb (DataStore.sameNumber (warehouseNumber r)) (DataStore.getWarehouses s') = true)
  /\ (DataStore.warehouseCount (DataStore.getStats s')
      <= DataStore.receiptCount (DataStore.getStats s'))%nat.
Proof.
  cbv zeta. unfold DataStore.getWarehouses, DataStore.getStats.
  cbn [DataStore.warehouseCount DataStore.receiptCount].
  rewrite addReceipts_receipts, addReceipts_rebuild.
  set (l := (DataStore.store_receipts s ++ receipts)%list).
  destruct (warehouses_all l
              {| DataStore.store_receipts := l; DataStore.itemIndex := [];
                 DataStore.warehouseSet := []; DataStore.dateRange_min := None;
                 DataStore.dateRange_max := None |} [])
    as (seen & S1 & S2 & (D & I1 & I2 & L)).
  - split; [reflexivity|]. split; [intros w []|]. split; [intros x [] | cbn; lia].
  - split; [exact D|]. split; [|split].
    + intros w Hw. destruct (I1 w Hw) as (T & x & Hx & Ex). split; [exact T|].
      exists x. split; [|exact Ex]. apply S1 in Hx. destruct Hx as [[]|Hx]. exact Hx.
    + intros r Hr Tr. apply I2; [apply S1; right; exact Hr | exact Tr].
    + cbn [List.length] in S2. lia.
Qed.

(** *** File selection *)

Lemma checkFile_nil (index : nat) (file : FileInfo) :
  checkFile index file = []
  <-> endsWith (file_name file) ".json" = true
      /\ PrimFloat.ltb MAX_FILE_SIZE (file_size file) = false
      /\ PrimFloat.eqb (file_size file) 0%float = false.
Proof.
  unfold checkFile, push. cbv zeta.
  destruct (endsWith (file_name file) ".json");
    destruct (PrimFloat.ltb MAX_FILE_SIZE (file_size file));
    destruct (PrimFloat.eqb (file_size file) 0%float);
    cbn [negb app]; split; try discriminate; try tauto;
    intros (A & B & C); discriminate.
Qed.

Lemma big_not_zero (x : number) :
  PrimFloat.ltb MAX_FILE_SIZE x = true -> PrimFloat.eqb x 0%float = true -> False.
Proof.
  rewrite FloatAxioms.ltb_spec, FloatAxioms.eqb_spec. unfold MAX_FILE_SIZE.
  replace (Prim2SF 52428800%float) with (S754_finite false 7036874417766400 (-27)) by (vm_compute; reflexivity).
  replace (Prim2SF 0%float) with (S754_zero false) by (vm_compute; reflexivity).
  destruct (Prim2SF x) as [[]|[]| |[] m e]; cbn; congruence.
Qed.

Lemma checkFile_length (index : nat) (file : FileInfo) :
  (List.length (checkFile index file) <= 2)%nat.
Proof.
  unfold checkFile, push. cbv zeta.
  destruct (endsWith (file_name file) ".json");
    destruct (PrimFloat.ltb MAX_FILE_SIZE (file_size file)) eqn:L;
    destruct (PrimFloat.eqb (file_size file) 0%float) eqn:E;
    cbn [negb app List.length]; try lia.
  exfalso. exact (big_not_zero _ L E).
Qed.

Lemma checkFiles_spec (files : list FileInfo) : forall index errors totalSize,
  snd (checkFiles files index errors totalSize)
  = fold_left PrimFloat.add (map file_size files) totalSize
  /\ (fst (checkFiles files index errors totalSize) = []
      <-> errors = []
          /\ forall file, In file files ->
               endsWith (file_name file) ".json" = true
               /\ PrimFloat.ltb MAX_FILE_SIZE (file_size file) = false
               /\ PrimFloat.eqb (file_size file) 0%float = false)
  /\ (List.length (fst (checkFiles files index errors totalSize))
      <= List.length errors + 2 * List.length files)%nat.
Proof.
  induction files as [|file rest IH]; intros index errors totalSize; cbn [checkFiles].
  - cbn [fst snd map fold_left List.length]. split; [reflexivity|].
    split; [|lia]. split; [intros ->; split; [reflexivity | intros file []] | tauto].
  - destruct (IH (S index) (pushAll errors (checkFile index file))
                (PrimFloat.add totalSize (file_size file))) as (H1 & H2 & H3).
    split; [exact H1|]. split.
    + rewrite H2. unfold pushAll. split.
      * intros (E & Hrest). apply app_eq_nil in E. destruct E as [E1 E2].
        split; [exact E1|]. intros f [<-|Hf]; [apply (checkFile_nil index); exact E2 | apply Hrest; exact Hf].
      * intros (-> & Hall). split.
        -- cbn [app]. apply checkFile_nil. apply Hall. left. reflexivity.
        -- intros f Hf. apply Hall. right. exact Hf.
    + unfold pushAll in *. rewrite length_app in H3. pose proof (checkFile_length index file).
      cbn [List.length]. lia.
Qed.

(** X24: [validateFiles] accepts a selection
    exactly when it is not empty, every name ends with [.json], no file is
    larger than 50 MB or empty, and the sizes, added in order, do not
    exceed 100 MB; an accepted or rejected non-empty selection reports
    that sum as its total size, with at most two errors per file and one
    for the total. *)
Theorem validateFiles_valid_iff (h : Host) (mh : MathHost) (files : list FileInfo) :
  let v := validateFiles h mh files in
  let total := fold_left PrimFloat.add (map file_size files) 0%float in
  (files_valid v = true <->
     files <> []
     /\ (forall file, In file files ->
           endsWith (file_name file) ".json" = true
           /\ PrimFloat.ltb MAX_FILE_SIZE (file_size file) = false
           /\ PrimFloat.eqb (file_size file) 0%float = false)
     /\ PrimFloat.ltb MAX_TOTAL_SIZE total = false)
  /\ (files_valid v = true <-> files_errors v = [])
  /\ (files <> [] -> files_totalSize v = Some total)
  /\ (List.length (files_errors v) <= 2 * List.length files + 1)%nat.
Proof.
  cbv zeta. destruct files as [|file rest].
  - cbn [validateFiles files_valid files_errors files_totalSize List.length].
    split; [split; [discriminate | intros (N & _); contradiction N; reflexivity]|].
    split; [split; discriminate|]. split; [intros N; contradiction N; reflexivity | lia].
  - set (files := file :: rest).
    destruct (checkFiles_spec files 0 [] 0%float) as (H1 & H2 & H3).
    unfold validateFiles. fold files.
    change (match files with [] => _ | _ :: _ => ?b end) with b.
    destruct (checkFiles files 0 [] 0%float) as [errors totalSize].
    cbn [fst snd] in H1, H2, H3. subst totalSize.
    set (total := fold_left PrimFloat.add (map file_size files) 0%float).
    destruct (PrimFloat.ltb MAX_TOTAL_SIZE total) eqn:L;
      cbn [files_valid files_errors files_totalSize].
    + unfold push. split; [|split; [|split; [reflexivity|]]].
      * split; [destruct errors; discriminate | intros (_ & _ & F); discriminate].
      * split; [destruct errors; discriminate | intros E; apply app_eq_nil in E; destruct E; discriminate].
      * rewrite length_app. cbn [List.length] in *. lia.
    + split; [|split; [|split; [reflexivity|]]].
      * split.
        -- intros V. split; [discriminate|]. split; [|reflexivity].
           apply H2. destruct errors; [reflexivity | discriminate].
        -- intros (_ & Hall & _). rewrite (proj2 H2 (conj eq_refl Hall)). reflexivity.
      * destruct errors; split; congruence.
      * cbn [List.length] in *. lia.
Qed.

(** *** The event bus *)

Lemma get_set_same (e : string) (subs : EventBus.Subscribers)
    (m : list (string * EventBus.Subscribers)) :
  EventBus.get e (EventBus.set e subs m) = Some subs.
Proof.
  induction m as [|[e' old] m IH]; cbn [EventBus.set EventBus.get].
  - rewrite String.eqb_refl. reflexivity.
  - destruct (String.eqb e' e) eqn:E; cbn [EventBus.get]; rewrite E; [reflexivity | exact IH].
Qed.

Lemma get_set_other (e e' : string) (subs : EventBus.Subscribers)
    (m : list (string * EventBus.Subscribers)) :
  e' <> e -> EventBus.get e' (EventBus.set e subs m) = EventBus.get e' m.
Proof.
  intros N. induction m as [|[e1 old] m IH]; cbn [EventBus.set EventBus.get].
  - destruct (String.eqb e e') eqn:E; [apply String.eqb_eq in E; congruence | reflexivity].
  - destruct (String.eqb e1 e) eqn:E; cbn [EventBus.get].
    + apply String.eqb_eq in E. subst e1.
      destruct (String.eqb e e') eqn:E'; [apply String.eqb_eq in E'; congruence | reflexivity].
    + rewrite IH. reflexivity.
Qed.

Lemma get_off_same (e : string) (bus : EventBus.Bus) :
  EventBus.get e (EventBus.events (EventBus.off e bus)) = None.
Proof.
  unfold EventBus.off. cbn [EventBus.events].
  induction (EventBus.events bus) as [|[e1 old] m IH]; cbn [filter fst EventBus.get];
    [reflexivity|].
  destruct (String.eqb e1 e) eqn:E; cbn [negb EventBus.get]; [exact IH | rewrite E; exact IH].
Qed.

Lemma get_off_other (e e' : string) (bus : EventBus.Bus) :
  e' <> e ->
  EventBus.get e' (EventBus.events (EventBus.off e bus))
  = EventBus.get e' (EventBus.events bus).
Proof.
  intros N. unfold EventBus.off. cbn [EventBus.events].
  induction (EventBus.events bus) as [|[e1 old] m IH]; cbn [filter fst EventBus.get];
    [reflexivity|].
  destruct (String.eqb e1 e) eqn:E; cbn [negb EventBus.get].
  - apply String.eqb_eq in E. subst e1.
    destruct (String.eqb e e') eqn:E'; [apply String.eqb_eq in E'; congruence | exact IH].
  - rewrite IH. reflexivity.
Qed.

Lemma subscribersOf_on_same (e : string) (cb : EventBus.Callback) (bus : EventBus.Bus) :
  subscribersOf e (EventBus.on e cb bus) = (subscribersOf e bus ++ [cb])%list.
Proof.
  unfold subscribersOf, EventBus.on.
  destruct (EventBus.get e (EventBus.events bus)); cbn [EventBus.events];
    rewrite get_set_same; reflexivity.
Qed.

Lemma get_on_other (e e' : string) (cb : EventBus.Callback) (bus : EventBus.Bus) :
  e' <> e ->
  EventBus.get e' (EventBus.events (EventBus.on e cb bus))
  = EventBus.get e' (EventBus.events bus).
Proof.
  intros N. unfold EventBus.on.
  destruct (EventBus.get e (EventBus.events bus)); cbn [EventBus.events];
    apply get_set_other; exact N.
Qed.

Lemma removeFirst_fresh (cb : EventBus.Callback) (l : list EventBus.Callback) :
  existsb (Nat.eqb cb) l = false -> EventBus.removeFirst cb (l ++ [cb])%list = l.
Proof.
  induction l as [|c l IH]; cbn [existsb app EventBus.removeFirst].
  - rewrite Nat.eqb_refl. reflexivity.
  - intros H. apply orb_false_iff in H. destruct H as [H1 H2].
    rewrite Nat.eqb_sym, H1, (IH H2). reflexivity.
Qed.

Lemma removeFirst_present (cb : EventBus.Callback) (l : list EventBus.Callback) :
  existsb (Nat.eqb cb) l = true ->
  EventBus.removeFirst cb (l ++ [cb])%list = (EventBus.removeFirst cb l ++ [cb])%list.
Proof.
  induction l as [|c l IH]; cbn [existsb app EventBus.removeFirst]; [discriminate|].
  rewrite (Nat.eqb_sym cb c). destruct (Nat.eqb c cb); cbn [orb app].
  - reflexivity.
  - intros H. rewrite (IH H). reflexivity.
Qed.

(** The content of the array that is stored under the name. *)
Lemma contentOf_stored (e : string) (subs : EventBus.Subscribers) (bus : EventBus.Bus) :
  EventBus.get e (EventBus.events bus) = Some subs ->
  EventBus.contentOf e (EventBus.ref subs) bus = EventBus.callbacks subs.
Proof.
  intros G. unfold EventBus.contentOf. cbv zeta. rewrite G, Nat.eqb_refl. reflexivity.
Qed.

Lemma forEach_S {World : Type}
    (call : EventBus.Callback -> JSValue -> World * EventBus.Bus -> World * EventBus.Bus)
    (e : string) (r : nat) (data : JSValue) (k count : nat)
    (state : World * EventBus.Bus) (called : list EventBus.Callback) :
  EventBus.forEach World call e r data k (S count) state called
  = match nth_error (EventBus.contentOf e r (snd state)) k with
    | Some callback =>
        EventBus.forEach World call e r data (S k) count (call callback data state)
          (called ++ [callback])%list
    | None => EventBus.forEach World call e r data (S k) count state called
    end.
Proof. reflexivity. Qed.

(** While the subscribers leave the registry as it is, the loop calls the
    elements of the array in order. *)
Lemma forEach_quiet {World : Type}
    (call : EventBus.Callback -> JSValue -> World * EventBus.Bus -> World * EventBus.Bus)
    (e : string) (data : JSValue) (subs : EventBus.Subscribers) (bus : EventBus.Bus) :
  EventBus.get e (EventBus.events bus) = Some subs ->
  (forall c w, In c (EventBus.callbacks subs) -> snd (call c data (w, bus)) = bus) ->
  forall count k w called,
    (k + count = List.length (EventBus.callbacks subs))%nat ->
    fst (EventBus.forEach World call e (EventBus.ref subs) data k count (w, bus) called)
    = (called ++ skipn k (EventBus.callbacks subs))%list
    /\ snd (snd (EventBus.forEach World call e (EventBus.ref subs) data k count
                   (w, bus) called)) = bus.
Proof.
  intros G Q. induction count as [|count IH]; intros k w called L.
  - cbn [EventBus.forEach fst snd]. rewrite skipn_all2 by lia. rewrite app_nil_r. auto.
  - cbn [EventBus.forEach snd]. rewrite (contentOf_stored e subs bus G).
    destruct (nth_error (EventBus.callbacks subs) k) as [c|] eqn:N.
    + assert (Hin : In c (EventBus.callbacks subs)) by (apply (nth_error_In _ _ N)).
      destruct (call c data (w, bus)) as [w' b'] eqn:C.
      assert (Hb : b' = bus) by (rewrite <- (Q c w Hin), C; reflexivity). subst b'.
      destruct (IH (S k) w' (called ++ [c])%list ltac:(lia)) as [I1 I2].
      rewrite I1, I2. split; [|reflexivity].
      rewrite <- app_assoc. f_equal.
      clear - N. revert k N. induction (EventBus.callbacks subs) as [|x l IHl]; intros k N.
      * destruct k; discriminate.
      * destruct k as [|k]; cbn [nth_error] in N.
        -- injection N as ->. reflexivity.
        -- cbn [skipn]. apply IHl. exact N.
    + apply nth_error_None in N. lia.
Qed.

Lemma emit_quiet {World : Type}
    (call : EventBus.Callback -> JSValue -> World * EventBus.Bus -> World * EventBus.Bus)
    (e : string) (data : JSValue) (w : World) (bus : EventBus.Bus) :
  (forall c w0, In c (subscribersOf e bus) -> snd (call c data (w0, bus)) = bus) ->
  fst (EventBus.emit World call e data (w, bus)) = subscribersOf e bus
  /\ snd (snd (EventBus.emit World call e data (w, bus))) = bus.
Proof.
  unfold EventBus.emit, subscribersOf. cbn [snd].
  destruct (EventBus.get e (EventBus.events bus)) as [subs|] eqn:G; [|auto].
  intros Q.
  destruct (forEach_quiet call e data subs bus G Q (List.length (EventBus.callbacks subs))
              0 w [] eq_refl) as [H1 H2].
  rewrite H1, H2. auto.
Qed.

(** X25: after [on], the array of the event holds the earlier subscribers
    and then the new callback, and the arrays of the other events are the
    ones they were.  Running the returned unsubscribe function next
    restores the array of every event, except that for a callback that was
    already subscribed to the event it is the earlier subscription that
    goes: the callback is then last.  An [emit] calls the subscribers of
    the array in order, once each, as long as the subscribers called leave
    the registry as it is; a subscriber that unsubscribes itself while the
    event is delivered makes [emit] pass over the subscriber that follows
    it. *)
Theorem EventBus_subscription_round_trip (eventName : string)
    (callback : EventBus.Callback) (bus : EventBus.Bus) :
  subscribersOf eventName (EventBus.on eventName callback bus)
  = (subscribersOf eventName bus ++ [callback])%list
  /\ (forall other, other <> eventName ->
        EventBus.get other (EventBus.events (EventBus.on eventName callback bus))
        = EventBus.get other (EventBus.events bus))
  /\ (exists bus',
        EventBus.unsubscribe eventName callback (EventBus.on eventName callback bus)
        = Some bus'
        /\ (forall other, other <> eventName ->
              EventBus.get other (EventBus.events bus')
              = EventBus.get other (EventBus.events bus))
        /\ subscribersOf eventName bus'
           = if existsb (Nat.eqb callback) (subscribersOf eventName bus)
             then (EventBus.removeFirst callback (subscribersOf eventName bus)
                   ++ [callback])%list
             else subscribersOf eventName bus)
  /\ (forall (World : Type)
        (call : EventBus.Callback -> JSValue -> World * EventBus.Bus
                -> World * EventBus.Bus)
        (event : string) (data : JSValue) (w : World) (registry : EventBus.Bus),
        (forall c w0, In c (subscribersOf event registry) ->
           snd (call c data (w0, registry)) = registry) ->
        fst (EventBus.emit World call event data (w, registry))
        = subscribersOf event registry
        /\ snd (snd (EventBus.emit World call event data (w, registry))) = registry)
  /\ (forall (World : Type)
        (call : EventBus.Callback -> JSValue -> World * EventBus.Bus
                -> World * EventBus.Bus)
        (data : JSValue) (w : World) (once : EventBus.Callback),
        once <> callback ->
        unsubscribesItself eventName once call ->
        fst (EventBus.emit World call eventName data
               (w, EventBus.on eventName callback
                     (EventBus.on eventName once (EventBus.off eventName bus))))
        = [once]).
Proof.
  split; [apply subscribersOf_on_same|].
  split; [intros other N; apply get_on_other; exact N|].
  split.
  { pose proof (subscribersOf_on_same eventName callback bus) as S.
    unfold subscribersOf in S at 1. unfold EventBus.unsubscribe.
    destruct (EventBus.get eventName (EventBus.events (EventBus.on eventName callback bus)))
      as [subs|] eqn:G.
    2:{ destruct (subscribersOf eventName bus); discriminate S. }
    eexists. split; [reflexivity|]. split.
    - intros other N. cbn [EventBus.events].
      rewrite (get_set_other _ _ _ _ N). apply get_on_other. exact N.
    - unfold subscribersOf at 1. cbn [EventBus.events]. rewrite get_set_same.
      cbn [EventBus.callbacks]. rewrite S.
      destruct (existsb (Nat.eqb callback) (subscribersOf eventName bus)) eqn:E.
      + apply removeFirst_present. exact E.
      + apply removeFirst_fresh. exact E. }
  split; [intros World call event data w registry; apply emit_quiet|].
  intros World call data w once N U.
  set (fresh := EventBus.off eventName bus).
  assert (G : EventBus.get eventName (EventBus.events fresh) = None)
    by apply get_off_same.
  set (r := EventBus.created fresh).
  set (bus2 := EventBus.on eventName callback (EventBus.on eventName once fresh)).
  assert (G2 : EventBus.get eventName (EventBus.events bus2)
               = Some {| EventBus.ref := r; EventBus.callbacks := [once; callback] |}).
  { unfold bus2, EventBus.on at 1.
    assert (G1 : EventBus.get eventName (EventBus.events (EventBus.on eventName once fresh))
                 = Some {| EventBus.ref := r; EventBus.callbacks := [once] |}).
    { unfold EventBus.on. rewrite G. cbn [EventBus.events]. apply get_set_same. }
    rewrite G1. cbn [EventBus.events EventBus.ref EventBus.callbacks app].
    apply get_set_same. }
  unfold EventBus.emit. cbn [snd]. rewrite G2.
  cbn [EventBus.ref EventBus.callbacks List.length].
  rewrite forEach_S. cbn [snd].
  pose proof (contentOf_stored eventName _ bus2 G2) as C2.
  cbn [EventBus.ref EventBus.callbacks] in C2. rewrite C2. cbn [nth_error].
  rewrite (U data (w, bus2)). cbn [fst snd].
  unfold EventBus.unsubscribe. rewrite G2.
  cbn [EventBus.ref EventBus.callbacks EventBus.removeFirst]. rewrite Nat.eqb_refl.
  rewrite forEach_S. cbn [snd].
  match goal with
  | |- context [EventBus.contentOf eventName r ?b] =>
      assert (G3 : EventBus.get eventName (EventBus.events b)
                   = Some {| EventBus.ref := r; EventBus.callbacks := [callback] |})
        by (cbn [EventBus.events]; apply get_set_same);
      pose proof (contentOf_stored eventName _ b G3) as C3;
      cbn [EventBus.ref EventBus.callbacks] in C3; rewrite C3
  end.
  cbn [nth_error EventBus.forEach fst app]. reflexivity.
Qed.

(** X26: after [off], nothing is delivered for the event, whatever the
    subscribers do, and it is no longer listed; the arrays of the other
    events are untouched, and so is their delivery to subscribers that
    leave the registry as it is; an unsubscribe function obtained earlier for the
    event throws; and a new subscription starts from an empty array, so
    that the next [emit] calls the new callback and no other. *)
Theorem EventBus_off_forgets (eventName : string) (callback : EventBus.Callback)
    (bus : EventBus.Bus) :
  (forall (World : Type)
     (call : EventBus.Callback -> JSValue -> World * EventBus.Bus -> World * EventBus.Bus)
     (data : JSValue) (w : World),
     EventBus.emit World call eventName data (w, EventBus.off eventName bus)
     = ([], (w, EventBus.off eventName bus)))
  /\ subscribersOf eventName (EventBus.off eventName bus) = []
  /\ ~ In eventName (EventBus.getEvents (EventBus.off eventName bus))
  /\ (forall other, other <> eventName ->
        EventBus.get other (EventBus.events (EventBus.off eventName bus))
        = EventBus.get other (EventBus.events bus)
        /\ subscribersOf other (EventBus.off eventName bus) = subscribersOf other bus
        /\ (In other (EventBus.getEvents (EventBus.off eventName bus))
            <-> In other (EventBus.getEvents bus))
        /\ (forall (World : Type)
              (call : EventBus.Callback -> JSValue -> World * EventBus.Bus
                      -> World * EventBus.Bus)
              (data : JSValue) (w : World),
              (forall c w0 registry, In c (subscribersOf other bus) ->
                 snd (call c data (w0, registry)) = registry) ->
              fst (EventBus.emit World call other data (w, EventBus.off eventName bus))
              = fst (EventBus.emit World call other data (w, bus))))
  /\ EventBus.unsubscribe eventName callback (EventBus.off eventName bus) = None
  /\ subscribersOf eventName (EventBus.on eventName callback (EventBus.off eventName bus))
     = [callback]
  /\ (forall (World : Type)
        (call : EventBus.Callback -> JSValue -> World * EventBus.Bus
                -> World * EventBus.Bus)
        (data : JSValue) (w : World),
        fst (EventBus.emit World call eventName data
               (w, EventBus.on eventName callback (EventBus.off eventName bus)))
        = [callback]).
Proof.
  split.
  { intros World call data w. unfold EventBus.emit. cbn [snd].
    rewrite get_off_same. reflexivity. }
  split; [unfold subscribersOf; rewrite get_off_same; reflexivity|].
  split.
  { unfold EventBus.getEvents, EventBus.off. cbn [EventBus.events].
    intros H. apply in_map_iff in H.
    destruct H as ([e cbs] & E & H). cbn [fst] in E. subst e.
    apply filter_In in H. destruct H as [_ H]. cbn [fst] in H.
    rewrite String.eqb_refl in H. discriminate. }
  split.
  { intros other N.
    assert (S : subscribersOf other (EventBus.off eventName bus) = subscribersOf other bus)
      by (unfold subscribersOf; rewrite (get_off_other _ _ _ N); reflexivity).
    split; [apply get_off_other; exact N|]. split; [exact S|]. split.
    - unfold EventBus.getEvents, EventBus.off. cbn [EventBus.events].
      rewrite !in_map_iff. split.
      + intros ([e cbs] & E & H). apply filter_In in H. exists (e, cbs). tauto.
      + intros ([e cbs] & E & H). exists (e, cbs). split; [exact E|].
        apply filter_In. split; [exact H|]. cbn [fst] in *. subst e.
        apply negb_true_iff. apply String.eqb_neq. exact N.
    - intros World call data w Q.
      destruct (emit_quiet call other data w (EventBus.off eventName bus)) as [E1 _].
      { intros c w0 Hc. apply Q. rewrite <- S. exact Hc. }
      destruct (emit_quiet call other data w bus) as [E2 _].
      { intros c w0 Hc. apply Q. exact Hc. }
      rewrite E1, E2. exact S. }
  split; [unfold EventBus.unsubscribe; rewrite get_off_same; reflexivity|].
  split.
  { rewrite subscribersOf_on_same. unfold subscribersOf. rewrite get_off_same. reflexivity. }
  intros World call data w.
  set (fresh := EventBus.off eventName bus).
  assert (G : EventBus.get eventName (EventBus.events fresh) = None)
    by apply get_off_same.
  assert (G1 : EventBus.get eventName (EventBus.events (EventBus.on eventName callback fresh))
               = Some {| EventBus.ref := EventBus.created fresh;
                         EventBus.callbacks := [callback] |}).
  { unfold EventBus.on. rewrite G. cbn [EventBus.events]. apply get_set_same. }
  unfold EventBus.emit. cbn [snd]. rewrite G1.
  cbn [EventBus.ref EventBus.callbacks List.length].
  rewrite forEach_S. cbn [snd].
  pose proof (contentOf_stored eventName _ _ G1) as C1.
  cbn [EventBus.ref EventBus.callbacks] in C1. rewrite C1.
  cbn [nth_error EventBus.forEach fst app]. reflexivity.
Qed.

(** *** The processing pipeline *)

Lemma normalizeEach_original (h : Host) (clock : nat -> Z) (file : string)
    (raws : list JSValue) : forall tick index rs,
  FileProcessing.normalizeEach h clock tick file raws index = Some rs ->
  map _original rs = raws.
Proof.
  induction raws as [|raw rest IH]; intros tick index rs; cbn [FileProcessing.normalizeEach].
  - intros H. injection H as <-. reflexivity.
  - destruct (normalizeReceipt h (clock tick) raw index file) as [r|] eqn:N;
      cbn [bind]; [|discriminate].
    destruct (FileProcessing.normalizeEach h clock (S tick) file rest (S index))
      as [rs'|] eqn:R; cbn [bind]; [|discriminate].
    intros H. injection H as <-. cbn [map].
    rewrite (normalizeReceipt_original _ _ _ _ _ _ N), (IH _ _ _ R). reflexivity.
Qed.

Lemma normalizeFiles_original (h : Host) (clock : nat -> Z)
    (files : list FileValidation) : forall tick rs,
  FileProcessing.normalizeFiles h clock tick files = Some rs ->
  map _original rs = flat_map receipts files.
Proof.
  induction files as [|v rest IH]; intros tick rs; cbn [FileProcessing.normalizeFiles].
  - intros H. injection H as <-. reflexivity.
  - destruct (FileProcessing.normalizeEach h clock tick _ (receipts v) 0)
      as [rs1|] eqn:N; cbn [bind]; [|discriminate].
    destruct (FileProcessing.normalizeFiles h clock (tick + List.length (receipts v)) rest)
      as [rs2|] eqn:R; cbn [bind]; [|discriminate].
    intros H. injection H as <-. cbn [flat_map]. rewrite map_app.
    rewrite (normalizeEach_original _ _ _ _ _ _ _ N), (IH _ _ R). reflexivity.
Qed.

Lemma normalizeEach_throws (h : Host) (clock : nat -> Z) (file : string)
    (raws : list JSValue) (raw : JSValue) : forall tick index,
  In raw raws ->
  (forall now i f, normalizeReceipt h now raw i f = None) ->
  FileProcessing.normalizeEach h clock tick file raws index = None.
Proof.
  induction raws as [|x rest IH]; intros tick index Hin Hn; [destruct Hin|].
  cbn [FileProcessing.normalizeEach]. destruct Hin as [->|Hin].
  - rewrite Hn. reflexivity.
  - destruct (normalizeReceipt h (clock tick) x index file); [|reflexivity].
    cbn [bind]. rewrite (IH _ _ Hin Hn). reflexivity.
Qed.

Lemma normalizeFiles_throws (h : Host) (clock : nat -> Z)
    (files : list FileValidation) (v : FileValidation) (raw : JSValue) : forall tick,
  In v files -> In raw (receipts v) ->
  (forall now i f, normalizeReceipt h now raw i f = None) ->
  FileProcessing.normalizeFiles h clock tick files = None.
Proof.
  induction files as [|x rest IH]; intros tick Hv Hin Hn; [destruct Hv|].
  cbn [FileProcessing.normalizeFiles]. destruct Hv as [->|Hv].
  - rewrite (normalizeEach_throws _ _ _ _ raw _ _ Hin Hn). reflexivity.
  - destruct (FileProcessing.normalizeEach h clock tick _ (receipts x) 0); [|reflexivity].
    cbn [bind]. rewrite (IH _ Hv Hin Hn). reflexivity.
Qed.

Lemma mapSet_length (k : JSValue) (r : Receipt) (m : ReceiptMap) :
  (List.length (mapSet k r m) <= S (List.length m))%nat.
Proof.
  induction m as [|[k' r'] m IH]; cbn [mapSet List.length]; [lia|].
  destruct (sameValueZero k' k); cbn [List.length]; lia.
Qed.

Lemma mergeAll_length (l : list Receipt) : forall m,
  (List.length (fold_left mergeStep l m) <= List.length m + List.length l)%nat.
Proof.
  induction l as [|x l IH]; intros m; cbn [fold_left List.length]; [lia|].
  specialize (IH (mergeStep m x)).
  assert (List.length (mergeStep m x) <= S (List.length m))%nat; [|lia].
  unfold mergeStep. cbv zeta.
  destruct (mapGet (dedupKey x) m) as [existing|];
    [destruct (_ <? _)%nat; [apply mapSet_length | lia] | apply mapSet_length].
Qed.

Lemma mergeReceipts_length (receiptsArray : list (list Receipt)) :
  (List.length (mergeReceipts receiptsArray) <= List.length (List.concat receiptsArray))%nat.
Proof.
  rewrite mergeReceipts_concat, length_map.
  apply (mergeAll_length (List.concat receiptsArray) []).
Qed.

Lemma distinctKeys_filter (f : Receipt -> bool) (l : list Receipt) :
  distinctKeys l = true -> distinctKeys (filter f l) = true.
Proof.
  induction l as [|a l IH]; [reflexivity|]. cbn [distinctKeys filter].
  intros H. apply andb_true_iff in H. destruct H as [H1 H2].
  destruct (f a); [|apply IH; exact H2].
  cbn [distinctKeys]. rewrite (IH H2), andb_true_r.
  apply negb_true_iff. apply negb_true_iff in H1.
  destruct (existsb _ (filter f l)) eqn:E; [|reflexivity].
  apply existsb_exists in E. destruct E as (b & Hb & S).
  apply filter_In in Hb. rewrite <- H1. symmetry. apply existsb_exists.
  exists b. split; [apply Hb | exact S].
Qed.

Lemma combine_seq_nth {A : Type} (l : list A) : forall a i x,
  In (i, x) (combine (seq a (List.length l)) l) ->
  (a <= i)%nat /\ nth_error l (i - a) = Some x.
Proof.
  induction l as [|y l IH]; intros a i x; cbn [List.length seq combine]; [intros []|].
  intros [H|H].
  - injection H as <- <-. split; [lia|]. rewrite Nat.sub_diag. reflexivity.
  - destruct (IH (S a) i x H) as [L N]. split; [lia|].
    replace (i - a)%nat with (S (i - S a)) by lia. exact N.
Qed.

Lemma nth_combine_seq {A : Type} (l : list A) : forall a i x,
  nth_error l i = Some x -> In ((a + i)%nat, x) (combine (seq a (List.length l)) l).
Proof.
  induction l as [|y l IH]; intros a i x; destruct i as [|i]; cbn [nth_error]; try discriminate.
  - intros H. injection H as <-. cbn [List.length seq combine]. left. rewrite Nat.add_0_r. reflexivity.
  - intros H. cbn [List.length seq combine]. right.
    replace (a + S i)%nat with (S a + i)%nat by lia. apply IH. exact H.
Qed.

Lemma validReceiptsOf_In (h : Host) (data : list JSValue) (raw : JSValue) :
  In raw (validReceiptsOf h data)
  <-> exists index, nth_error data index = Some raw
        /\ passes h raw index = true.
Proof.
  unfold validReceiptsOf. rewrite in_map_iff. split.
  - intros ([i x] & E & H). cbn [snd] in E. subst x.
    apply filter_In in H. destruct H as [H V]. cbn [fst snd] in V.
    apply combine_seq_nth in H. destruct H as [_ H]. rewrite Nat.sub_0_r in H.
    exists i. split; assumption.
  - intros (i & N & V). exists (i, raw). split; [reflexivity|].
    apply filter_In. split; [exact (nth_combine_seq data 0 i raw N) | exact V].
Qed.
Lemma validReceiptsOf_length (h : Host) (data : list JSValue) :
  (List.length (validReceiptsOf h data) <= List.length data)%nat.
Proof.
  unfold validReceiptsOf. rewrite length_map.
  etransitivity; [apply filter_length_le|].
  rewrite length_combine, length_seq. lia.
Qed.

Lemma mapM_id_In {A : Type} (l : list (option A)) (xs : list A) :
  mapM (fun x => x) l = Some xs -> forall x, In x xs <-> In (Some x) l.
Proof.
  revert xs. induction l as [|o l IH]; intros xs; cbn [mapM].
  - intros H. injection H as <-. intros x. split; intros [].
  - destruct o as [y|]; cbn [bind]; [|discriminate].
    destruct (mapM (fun x => x) l) as [ys|]; cbn [bind]; [|discriminate].
    intros H. injection H as <-. intros x. cbn [In]. rewrite (IH ys eq_refl x).
    split; intros [H|H]; auto; left; congruence.
Qed.

(** Where a valid file of a run comes from. *)
Lemma validFilesOf_In (h : Host) (JSON_parse : string -> JSValue + string)
    (readResults : list FileProcessing.ReadResult) (files : list FileValidation)
    (v : FileValidation) :
  validFilesOf h JSON_parse readResults = Some files ->
  In v files
  <-> exists read content receipt rest,
        In read readResults
        /\ FileProcessing.read_content read = Some content
        /\ JSON_parse content = inl (JArr (receipt :: rest))
        /\ validateJSONStructure h (JArr (receipt :: rest))
             (FileProcessing.read_filename read) = Some v
        /\ validReceiptsOf h (receipt :: rest) <> [].
Proof.
  unfold validFilesOf.
  destruct (mapM (fun result => result) (validationsOf h JSON_parse readResults))
    as [results|] eqn:M; cbn [bind]; [|discriminate].
  intros H. injection H as <-.
  rewrite filter_In, (mapM_id_In _ _ M v). unfold validationsOf. rewrite in_flat_map. split.
  - intros ((pr & Hpr & Hv) & V). apply filter_In in Hpr. destruct Hpr as [Hpr _].
    apply in_map_iff in Hpr. destruct Hpr as (read & E & Hread).
    apply filter_In in Hread. destruct Hread as [Hread S].
    destruct (FileProcessing.read_content read) as [content|] eqn:C; [|discriminate].
    unfold parseJSON in E. destruct (JSON_parse content) as [data|message] eqn:P;
      subst pr; [|destruct Hv].
    destruct Hv as [Hv|[]].
    destruct data as [| |b|x|s|[|receipt rest]|props];
      try (cbn in Hv; injection Hv as <-; discriminate).
    exists read, content, receipt, rest.
    split; [exact Hread|]. split; [exact C|]. split; [exact P|]. split; [exact Hv|].
    destruct (validateJSONStructure_array h receipt rest (FileProcessing.read_filename read)
                v Hv) as (_ & Hf & _). rewrite Hf in V.
    destruct (validReceiptsOf h (receipt :: rest)); [discriminate V | discriminate].
  - intros (read & content & receipt & rest & Hread & C & P & Hv & N). split.
    + exists (ParseOk (JArr (receipt :: rest)) (FileProcessing.read_filename read)).
      split; [|left; exact Hv].
      apply filter_In. split; [|reflexivity].
      apply in_map_iff. exists read. split.
      * rewrite C. unfold parseJSON. rewrite P. reflexivity.
      * apply filter_In. split; [exact Hread | rewrite C; reflexivity].
    + destruct (validateJSONStructure_array h receipt rest (FileProcessing.read_filename read)
                  v Hv) as (_ & Hf & _). rewrite Hf.
      destruct (validReceiptsOf h (receipt :: rest)); [contradiction N; reflexivity | reflexivity].
Qed.
Lemma validFilesOf_counts (h : Host) (JSON_parse : string -> JSValue + string)
    (readResults : list FileProcessing.ReadResult) (files : list FileValidation)
    (v : FileValidation) :
  validFilesOf h JSON_parse readResults = Some files ->
  In v files ->
  FileProcessing.countOf (validCount v) = List.length (receipts v)
  /\ (FileProcessing.countOf (validCount v) + FileProcessing.countOf (invalidCount v)
      = FileProcessing.countOf (totalCount v))%nat.
Proof.
  intros F H. apply (validFilesOf_In _ _ _ _ _ F) in H.
  destruct H as (read & content & receipt & rest & _ & _ & _ & Hv & _).
  destruct (validateJSONStructure_array h receipt rest (FileProcessing.read_filename read)
              v Hv) as (Hr & _ & Ht & Hc & Hi).
  rewrite Hr, Ht, Hc, Hi. cbn [FileProcessing.countOf].
  pose proof (validReceiptsOf_length h (receipt :: rest)). split; [reflexivity | lia].
Qed.
Lemma fold_count_shift (f : FileValidation -> nat) (l : list FileValidation) (a : nat) :
  fold_left (fun sum r => (sum + f r)%nat) l a
  = (a + fold_left (fun sum r => (sum + f r)%nat) l 0)%nat.
Proof.
  revert a. induction l as [|x l IH]; intros a; cbn [fold_left]; [lia|].
  rewrite (IH (a + f x)%nat), (IH (0 + f x)%nat). lia.
Qed.

Lemma fold_counts (l : list FileValidation) :
  (forall v, In v l ->
     FileProcessing.countOf (validCount v) = List.length (receipts v)
     /\ (FileProcessing.countOf (validCount v) + FileProcessing.countOf (invalidCount v)
         = FileProcessing.countOf (totalCount v))%nat) ->
  fold_left (fun sum r => (sum + FileProcessing.countOf (validCount r))%nat) l 0%nat
  = List.length (flat_map receipts l)
  /\ (fold_left (fun sum r => (sum + FileProcessing.countOf (validCount r))%nat) l 0
      + fold_left (fun sum r => (sum + FileProcessing.countOf (invalidCount r))%nat) l 0
      = fold_left (fun sum r => (sum + FileProcessing.countOf (totalCount r))%nat) l 0)%nat.
Proof.
  induction l as [|x l IH]; intros H; [split; reflexivity|].
  cbn [fold_left flat_map]. rewrite length_app.
  rewrite (fold_count_shift (fun r => FileProcessing.countOf (validCount r))),
          (fold_count_shift (fun r => FileProcessing.countOf (invalidCount r))),
          (fold_count_shift (fun r => FileProcessing.countOf (totalCount r))).
  destruct (IH (fun v Hv => H v (or_intror Hv))) as [I1 I2].
  destruct (H x (or_introl eq_refl)) as [H1 H2]. split; lia.
Qed.

(** The run, in terms of its valid files. *)
Lemma handleFileProcessing_cases (h : Host) (JSON_parse : string -> JSValue + string)
    (clock : nat -> Z) (store : DataStore.State)
    (readResults : list FileProcessing.ReadResult) (files : list FileValidation) :
  validFilesOf h JSON_parse readResults = Some files ->
  files <> [] ->
  FileProcessing.handleFileProcessing h JSON_parse clock store readResults
  = match FileProcessing.normalizeFiles h clock 0 files with
    | None => FileProcessing.TypeErrorCaught
    | Some normalizedReceipts =>
        let mergedReceipts := mergeReceipts [normalizedReceipts] in
        let validTransactions := filter FileProcessing.notCancelled mergedReceipts in
        FileProcessing.Success
          {| FileProcessing.validFiles := files;
             FileProcessing.totalReceipts :=
               fold_left (fun sum r => sum + FileProcessing.countOf (totalCount r))%nat
                 files 0%nat;
             FileProcessing.validReceipts :=
               fold_left (fun sum r => sum + FileProcessing.countOf (validCount r))%nat
                 files 0%nat;
             FileProcessing.invalidReceipts :=
               fold_left (fun sum r => sum + FileProcessing.countOf (invalidCount r))%nat
                 files 0%nat;
             FileProcessing.mergedReceipts := mergedReceipts;
             FileProcessing.parsedReceipts := validTransactions;
             FileProcessing.dataStore :=
               fst (DataStore.addReceipts validTransactions store) |}
    end.
Proof.
  unfold FileProcessing.handleFileProcessing, validFilesOf, validationsOf.
  set (sr := filter (fun r => isSet (FileProcessing.read_content r)) readResults).
  destruct sr as [|r0 sr'].
  { cbn. intros H N. injection H as <-. contradiction N; reflexivity. }
  set (sp := filter FileProcessing.isParseOk _).
  destruct sp as [|p0 sp'].
  { cbn. intros H N. injection H as <-. contradiction N; reflexivity. }
  cbv zeta.
  destruct (mapM (fun result => result) _) as [results|]; cbn [bind]; [|discriminate].
  intros H N. injection H as <-.
  destruct (filter fileValid results) as [|v0 vf']; [contradiction N; reflexivity|].
  reflexivity.
Qed.
Lemma handleFileProcessing_none (h : Host) (JSON_parse : string -> JSValue + string)
    (clock : nat -> Z) (store : DataStore.State)
    (readResults : list FileProcessing.ReadResult) :
  validFilesOf h JSON_parse readResults = Some [] ->
  exists message,
    FileProcessing.handleFileProcessing h JSON_parse clock store readResults
    = FileProcessing.Failure message.
Proof.
  unfold FileProcessing.handleFileProcessing, validFilesOf, validationsOf.
  set (sr := filter (fun r => isSet (FileProcessing.read_content r)) readResults).
  destruct sr as [|r0 sr']; [intros _; eexists; reflexivity|].
  set (sp := filter FileProcessing.isParseOk _).
  destruct sp as [|p0 sp']; [intros _; eexists; reflexivity|].
  cbv zeta.
  destruct (mapM (fun result => result) _) as [results|]; cbn [bind]; [|discriminate].
  intros H. injection H as ->. eexists; reflexivity.
Qed.

Lemma handleFileProcessing_throws (h : Host) (JSON_parse : string -> JSValue + string)
    (clock : nat -> Z) (store : DataStore.State)
    (readResults : list FileProcessing.ReadResult) :
  validFilesOf h JSON_parse readResults = None ->
  FileProcessing.handleFileProcessing h JSON_parse clock store readResults
  = FileProcessing.TypeErrorCaught.
Proof.
  unfold FileProcessing.handleFileProcessing, validFilesOf, validationsOf.
  set (sr := filter (fun r => isSet (FileProcessing.read_content r)) readResults).
  destruct sr as [|r0 sr']; [discriminate|].
  set (sp := filter FileProcessing.isParseOk _).
  destruct sp as [|p0 sp']; [discriminate|].
  cbv zeta.
  destruct (mapM (fun result => result) _) as [results|]; cbn [bind]; [discriminate|].
  reflexivity.
Qed.
(** X27: when [handleFileProcessing]
    succeeds, the store holds its earlier receipts followed by the parsed
    ones; no two parsed receipts have the same merge key, none is a
    cancelled transaction, and each is the normalization of a receipt that
    stands in the array parsed from one of the files read and passed
    [validateReceipt] at its position.  The reported counts add up, and
    the merged receipts are at most as many as the valid ones. *)
Theorem processing_stores_valid_receipts (h : Host)
    (JSON_parse : string -> JSValue + string) (clock : nat -> Z)
    (store : DataStore.State) (readResults : list FileProcessing.ReadResult)
    (p : FileProcessing.Processed) :
  FileProcessing.handleFileProcessing h JSON_parse clock store readResults
  = FileProcessing.Success p ->
  DataStore.store_receipts (FileProcessing.dataStore p)
  = (DataStore.store_receipts store ++ FileProcessing.parsedReceipts p)%list
  /\ distinctKeys (FileProcessing.parsedReceipts p) = true
  /\ (forall r, In r (FileProcessing.parsedReceipts p) ->
        transactionType r <> JStr "Cancelled"
        /\ transactionType r <> JStr "Canceled"
        /\ In r (FileProcessing.mergedReceipts p)
        /\ exists read content data index,
             In read readResults
             /\ FileProcessing.read_content read = Some content
             /\ JSON_parse content = inl (JArr data)
             /\ nth_error data index = Some (_original r)
             /\ passes h (_original r) index = true)
  /\ (List.length (FileProcessing.parsedReceipts p)
      <= List.length (FileProcessing.mergedReceipts p))%nat
  /\ (List.length (FileProcessing.mergedReceipts p) <= FileProcessing.validReceipts p)%nat
  /\ (FileProcessing.validReceipts p + FileProcessing.invalidReceipts p
      = FileProcessing.totalReceipts p)%nat.
Proof.
  intros H.
  destruct (validFilesOf h JSON_parse readResults) as [files|] eqn:VF.
  2:{ rewrite (handleFileProcessing_throws h JSON_parse clock store readResults VF) in H.
      discriminate H. }
  assert (NE : files <> []).
  { intros ->.
    destruct (handleFileProcessing_none h JSON_parse clock store readResults VF) as (m & F).
    rewrite F in H. discriminate H. }
  rewrite (handleFileProcessing_cases h JSON_parse clock store readResults files VF NE) in H.
  destruct (FileProcessing.normalizeFiles h clock 0 files)
    as [normalized|] eqn:NF; [|discriminate H].
  cbv zeta in H. injection H as <-.
  cbn [FileProcessing.dataStore FileProcessing.parsedReceipts FileProcessing.mergedReceipts
       FileProcessing.validReceipts FileProcessing.invalidReceipts
       FileProcessing.totalReceipts].
  pose proof (normalizeFiles_original _ _ _ _ _ NF) as O.
  destruct (fold_counts files
              (fun v => validFilesOf_counts h JSON_parse readResults files v VF))
    as [C1 C2].
  split; [apply addReceipts_receipts|].
  split; [apply distinctKeys_filter, mergeReceipts_distinct|].
  split; [|split; [apply filter_length_le|split; [|exact C2]]].
  - intros r Hr. apply filter_In in Hr. destruct Hr as [Hr NC].
    unfold FileProcessing.notCancelled in NC. apply andb_true_iff in NC.
    destruct NC as [NC1 NC2]. apply negb_true_iff in NC1, NC2.
    split; [intros E; rewrite E in NC1; discriminate NC1|].
    split; [intros E; rewrite E in NC2; discriminate NC2|].
    split; [exact Hr|].
    apply mergeReceipts_incl in Hr. cbn [List.concat] in Hr. rewrite app_nil_r in Hr.
    assert (Ho : In (_original r) (flat_map receipts files))
      by (rewrite <- O; apply in_map; exact Hr).
    apply in_flat_map in Ho. destruct Ho as (v & Hv & Hraw).
    apply (validFilesOf_In _ _ _ _ _ VF) in Hv.
    destruct Hv as (read & content & receipt & rest & Hread & C & P & Ev & _).
    destruct (validateJSONStructure_array h receipt rest (FileProcessing.read_filename read)
                v Ev) as (Hrec & _). rewrite Hrec in Hraw.
    apply validReceiptsOf_In in Hraw. destruct Hraw as (index & Hn & Hval).
    exists read, content, (receipt :: rest), index. auto.
  - rewrite C1, <- O, length_map.
    pose proof (mergeReceipts_length [normalized]) as L.
    cbn [List.concat] in L. rewrite app_nil_r in L. exact L.
Qed.
Lemma processing_stores_valid_receipts_witness :
  exists p,
    FileProcessing.handleFileProcessing exampleHost exampleParse (fun _ => 0%Z)
      DataStore.emptyState exampleReads = FileProcessing.Success p
    /\ DataStore.store_receipts (FileProcessing.dataStore p)
       = (DataStore.store_receipts DataStore.emptyState
          ++ FileProcessing.parsedReceipts p)%list
    /\ distinctKeys (FileProcessing.parsedReceipts p) = true
    /\ (forall r, In r (FileProcessing.parsedReceipts p) ->
          transactionType r <> JStr "Cancelled"
          /\ transactionType r <> JStr "Canceled"
          /\ In r (FileProcessing.mergedReceipts p)
          /\ exists read content data index,
               In read exampleReads
               /\ FileProcessing.read_content read = Some content
               /\ exampleParse content = inl (JArr data)
               /\ nth_error data index = Some (_original r)
               /\ passes exampleHost (_original r) index = true)
    /\ (List.length (FileProcessing.parsedReceipts p)
        <= List.length (FileProcessing.mergedReceipts p))%nat
    /\ (List.length (FileProcessing.mergedReceipts p) <= FileProcessing.validReceipts p)%nat
    /\ (FileProcessing.validReceipts p + FileProcessing.invalidReceipts p
        = FileProcessing.totalReceipts p)%nat.
Proof.
  destruct (FileProcessing.handleFileProcessing exampleHost exampleParse (fun _ => 0%Z)
              DataStore.emptyState exampleReads) as [m| |p] eqn:E;
    [vm_compute in E; discriminate E | vm_compute in E; discriminate E |].
  exists p. split; [reflexivity|].
  apply (processing_stores_valid_receipts exampleHost exampleParse (fun _ => 0%Z)
           DataStore.emptyState exampleReads p E).
Defined.

(** X28: one receipt that passes validation but has an item on which
    [normalizeItem] throws makes the whole run end in the handler of its
    [try] block, with the [TypeError] of the normalizer or, when another
    receipt makes the validator throw, with that of the validator,
    whatever the other receipts and files hold, so that nothing is
    stored. *)
Theorem processing_all_or_nothing (h : Host)
    (JSON_parse : string -> JSValue + string) (clock : nat -> Z)
    (store : DataStore.State) (readResults : list FileProcessing.ReadResult)
    (read : FileProcessing.ReadResult) (content : string) (data items : list JSValue)
    (index : nat) (raw item : JSValue) :
  In read readResults ->
  FileProcessing.read_content read = Some content ->
  JSON_parse content = inl (JArr data) ->
  nth_error data index = Some raw ->
  passes h raw index = true ->
  field raw "itemArray" = JArr items ->
  In item items ->
  normalizeItem h item = None ->
  FileProcessing.handleFileProcessing h JSON_parse clock store readResults
  = FileProcessing.TypeErrorCaught.
Proof.
  intros Hread C P Hn V I Hitem Hthrow.
  destruct (validFilesOf h JSON_parse readResults) as [files|] eqn:VF;
    [|apply handleFileProcessing_throws; exact VF].
  assert (Hraw : In raw (validReceiptsOf h data))
    by (apply validReceiptsOf_In; exists index; split; assumption).
  destruct data as [|receipt rest]; [destruct Hraw|].
  assert (Ev : exists v, validateJSONStructure h (JArr (receipt :: rest))
                           (FileProcessing.read_filename read) = Some v).
  { destruct (validateJSONStructure h (JArr (receipt :: rest))
                (FileProcessing.read_filename read)) as [v|] eqn:E; [exists v; reflexivity|].
    exfalso. unfold validFilesOf in VF.
    destruct (mapM (fun result => result) (validationsOf h JSON_parse readResults))
      as [results|] eqn:M; [|discriminate].
    assert (F : mapM (fun result => result) (validationsOf h JSON_parse readResults) = None).
    { apply mapM_none. exists None. split; [|reflexivity].
      unfold validationsOf. apply in_flat_map.
      exists (ParseOk (JArr (receipt :: rest)) (FileProcessing.read_filename read)).
      split; [|left; exact E].
      apply filter_In. split; [|reflexivity].
      apply in_map_iff. exists read. split.
      - rewrite C. unfold parseJSON. rewrite P. reflexivity.
      - apply filter_In. split; [exact Hread | rewrite C; reflexivity]. }
    congruence. }
  destruct Ev as (v & Ev).
  assert (Hv : In v files).
  { apply (validFilesOf_In _ _ _ _ _ VF). exists read, content, receipt, rest.
    split; [exact Hread|]. split; [exact C|]. split; [exact P|]. split; [exact Ev|].
    intros E. rewrite E in Hraw. destruct Hraw. }
  rewrite (handleFileProcessing_cases h JSON_parse clock store readResults files VF)
    by (intros E; rewrite E in Hv; destruct Hv).
  assert (Hrec : In raw (receipts v)).
  { destruct (validateJSONStructure_array h receipt rest (FileProcessing.read_filename read)
                v Ev) as (-> & _). exact Hraw. }
  rewrite (normalizeFiles_throws h clock _ v raw 0 Hv Hrec); [reflexivity|].
  intros now i f. apply normalizeReceipt_throws.
  do 9 right. left. exists items. split; [exact I|].
  apply mapM_none. exists item. split; assumption.
Qed.
Lemma processing_all_or_nothing_witness :
  FileProcessing.handleFileProcessing exampleHost
    (fun _ => inl (JArr [scenarioReceipt "111"; numberedDescription]))
    (fun _ => 0%Z) exampleStore exampleReads
  = FileProcessing.TypeErrorCaught.
Proof.
  apply (processing_all_or_nothing exampleHost
           (fun _ => inl (JArr [scenarioReceipt "111"; numberedDescription]))
           (fun _ => 0%Z) exampleStore exampleReads
           {| FileProcessing.read_filename := "receipts.json";
              FileProcessing.read_content := Some "[...]" |}
           "[...]" [scenarioReceipt "111"; numberedDescription]
           [JObj [("itemNumber", JStr "333"); ("amount", JNum 5%float);
                  ("unit", JNum 1%float);
                  ("itemDescription01", JStr "KS SOAP");
                  ("frenchItemDescription1", JNum 1%float)]]
           1 numberedDescription
           (JObj [("itemNumber", JStr "333"); ("amount", JNum 5%float);
                  ("unit", JNum 1%float);
                  ("itemDescription01", JStr "KS SOAP");
                  ("frenchItemDescription1", JNum 1%float)])).
  - right. left. reflexivity.
  - reflexivity.
  - reflexivity.
  - reflexivity.
  - vm_compute. reflexivity.
  - reflexivity.
  - left. reflexivity.
  - vm_compute. reflexivity.
Defined.
